(* ===== verification/_CoqProject ===== *)
-Q . S2P
Prelude.v
Prog.v
CInt.v
Text.v
Double.v
Sys.v
Zmq.v
ZHelpers.v
Console.v
Rounding.v
Monitor.v
Config.v
Controller.v
Sync.v
Collect.v
ControllerRun.v
Ownership.v
Listener.v
Worker.v
ListenerFacts.v
WorkerFacts.v
Stats.v
Client.v
Telemetry.v
TelemetryFacts.v
Report.v
Clients.v
Handlers.v
SessionFacts.v
SslEcho.v
Capture.v
Asio.v
SslMain.v
Sim.v
Live.v
ControllerTheorems.v
ProcessTheorems.v
ClientTheorems.v
HelperTheorems.v
SystemTheorems.v
