(* ===== verification/Prelude.v ===== *)
(** * ws-perftester: a verification library

    ws-perftester measures the latency of WebSocket echo servers.  One
    controller (src/controller.cpp) drives a listener per machine
    (src/listener.cpp); a listener launches worker processes
    (src/listener-websocket.cpp), and a worker runs many WebSocket clients
    (src/clients/).  The processes talk over ZeroMQ (src/zmq.hpp,
    src/zhelpers.hpp): the controller publishes on port 5561; it counts the
    synchronisation requests of listeners on 5562 and of workers on 5563; and
    a sink on 5564 receives one "Finished" message per process from the
    listeners and one "Result" message per connection from the workers.

    ** How programs are modelled

    A function with effects is an interaction tree ([Prog.v], type [M]) whose
    events [sysE] ([Sys.v]) are the calls that leave the repository: the C API
    of libzmq, libc, Boost.Process, the standard output, and, for the worker,
    the methods of the client objects.  Its leaves are results, exceptions,
    failed assertions and undefined behaviour ([stop]).  An unbounded C++ loop
    is [ITree.iter]; there is no fuel in the programs.  A variable without a
    value is [None], and reading it, like an overflow of [int] ([CInt.v]), is
    [Undefined].

    What the environment does is not defined but promised: the protocol [NetP]
    says, over an abstract state [world], when each call may be made, what it
    may answer, and when it does not return.  [world] holds the frames that
    will arrive at each socket, possible send failures, the results waitpid
    will give, the random numbers, the outcomes of the clients, how far each
    client object has come (constructed, started, joined; a call out of this
    order is not permitted), the live message objects, and the trace of the
    actions performed.  [wp NetP m w Q]
    is total correctness: [m] performs finitely many calls, each permitted,
    and ends in an outcome that satisfies [Q], or waits in a call that the
    protocol says does not return; [runs NetP m w o w'] says which outcome and
    which state.  [wp_sound] (Prog.v) turns both into a statement about
    executions, with enough fuel, in any environment that keeps the protocol,
    and [sim_lawful] (Sim.v) shows that one does.

    The client objects and the echo server are not straight-line programs but
    callbacks: they are functions on a state, interleaved by a step relation.
    [Live] puts the two views together: an environment in which the calls of a
    worker on its client objects run the objects themselves.

    ** Files and the code they model

    - [Prelude], [Prog], [CInt]: tactics and lemmas on strings and lists;
      programs, protocols, total correctness; the type [int].
    - [Text], [Double]: the C++ library's conversions: [std::to_string],
      [operator>>] on a string stream for int, bool, string and double, and
      [operator<<] of a double (six significant digits); binary64 as
      [spec_float], exact rationals [Qc], both instances of [Arith], so that
      the statistics can be run in floating point and reasoned about exactly.
    - [Sys]: the events, the state [world] and the protocol [NetP].
    - [Zmq]: zmq.hpp. Modules [message], [context] and [socket] for
      [message_t], [context_t] and [socket_t]; [throw_error_t], [what], [num]
      for [error_t]; [poll] and [proxy].  [Ownership] is about programs that
      construct, move and destroy sockets.
    - [Monitor]: [monitor_t] of zmq.hpp, in the branch of the preprocessor for
      libzmq 3.3 and later (two-part events).  The virtual functions are the
      class [Monitor], the layout of [zmq_event_t] the class [EventLayout].
    - [ZHelpers]: zhelpers.hpp. [s_recv], [s_send], [s_sendmore], [s_dump],
      [s_set_id], [s_version], [s_version_assert], [s_clock], [s_sleep], and
      the macro [within].  Its specifications are what the programs are
      verified against.
    - [Console]: the rest of zhelpers.hpp, [s_console] and [s_catch_signals]
      with its handler, which no program calls.  [Rounding]: what rounding to a
      float is, and from it the range of [within].
    - [Config], [Controller]: controller.cpp.  The phases of [main] are
      [sync_listeners], [start_processes], [sync_processes],
      [start_websockets], [collect] and [report], composed in
      [run_iteration], [iterate] and [main]; the counters and sums of the
      collection loop are the record [tally].  [Sync], [Collect],
      [ControllerRun] relate the phases to their specifications; [Stats] says
      what the counters and sums mean.
    - [Listener], [ListenerFacts]: listener.cpp.
    - [Worker], [WorkerFacts]: listener-websocket.cpp.
    - [Client], [Telemetry], [TelemetryFacts]: base-client.hpp.  [client] is
      the record of the members, [on_open], [on_close], [on_fail],
      [on_message], [get_stats] the methods; [telemetry] is the loop as a
      machine of sections, and [step] interleaves it with the handlers.  The
      virtual functions are the class [Virtual] with its laws [VirtualLaws],
      against which the theorems on the loop are proved.
    - [Clients]: telemetry-client-tls.hpp and telemetry-client.hpp (Module
      [plain]), mobile-signaling-client.hpp (Module [mobile]), both instances
      of [Virtual], and plain-client.cpp (Module [plain_client]).
      [Handlers]: which member function an event of a connection reaches, from
      the registrations in the constructors and websocketpp's rule for them
      (class [Routing]).
    - [Report]: the line that [get_stats] prints and the controller parses.
    - [SessionFacts]: schedules of a telemetry client, from the opening of the
      connection to the result line.
    - [SslEcho]: the handlers of utils/ssl-server.cpp and
      utils/ssl-client.cpp (Modules [server] and [client]).
    - [Asio], [SslMain]: the constructors and [main] of the two ssl utilities
      around these handlers, [on_tls_init] and [on_socket_init] of
      telemetry-client-tls.hpp and [on_socket_init_tcp] of
      telemetry-client.hpp, as programs over a second signature of events,
      [asioE], with its own state [host], protocol [AsioP] and environment
      [asio_sim].  [io_service::run] is a loop that gets the next completion as
      an event and calls its handler.
    - [Capture]: [begin_read] and [end_read] of listener.cpp.
    - [Sim]: an environment that keeps [NetP], for the witnesses.
    - [Live]: the environment of a worker with its client objects.  A [plan]
      is what happens to one object (its connection, the clock, a schedule of
      its threads); [live_lawful] says that the environment keeps [NetP], for
      the scripts that the plans lead to, so that what is proved of a worker
      against scripts holds of its executions with the objects.

    ** The theorems

    - [ControllerTheorems]: the whole run of the controller; each phase for
      every timing of requests and every order of messages, and that a phase
      goes on waiting while someone is missing; the collection loop refines a
      fold over whole messages; the counters; the mean and the variance it
      prints, over exact numbers, and that the order of the messages does not
      matter to them.
    - [ProcessTheorems]: the whole run of listener and worker; each process
      and each connection is reported once, in whole messages; the request
      and the exit statuses survive the trip through text; exceptions of
      clients do not leave the worker; an error of waitpid.
    - [ClientTheorems]: the telemetry loop under every interleaving (bounds,
      one message outstanding, stopping), a complete session and what the
      controller makes of its result line; the result line round trip and the
      states for which it is undefined; the mobile client, and that its loop
      does not end when an echo is lost.
    - [HelperTheorems]: the frame helpers with their failures and ownership of
      message objects; ownership of sockets under moves; the dispatch of the
      socket monitor and what it leaks; [within], [s_dump]; memory safety and
      correctness of the echo server, of its handlers and of the program.
    - [SystemTheorems]: the processes together: a worker run with its client
      objects sends the lines that the objects print; a test in which every
      server echoes is reported as such, however the messages interleave; the
      results that come after the last process was reported are counted in the
      next iteration.

    ** Idealisations and limits

    - Sockets deliver the parts of one message next to each other, as ZeroMQ
      promises; nothing is assumed about the order of messages.  The theorems
      on whole runs assume that sends do not fail; those on [s_send] and
      [s_recv] cover the failures.
    - The statistics of Boost.Accumulators are the class [Accumulators], a
      parameter: [CountLaws] is all the loop needs, and [describes] states what
      a client's line is assumed to report.
    - Exactness of the statistics is stated over [Qc]; the binary64 instance is
      the same definition and is what the runs print.
    - A section of the telemetry loop, and a handler, is one step.  This is
      what the lock gives for the accesses it guards; [m_count],
      [m_setupTime] and one assignment of [m_message_pending] are not guarded,
      and a data race on them is outside the model.
    - In [Live] the client objects of a worker run on given schedules, one
      per object: objects share no state, so that only the order within each
      matters.  What an object prints or logs while it runs is not in the
      trace of its worker, [get_connection] succeeds, and [wait] is about the
      telemetry thread; that the asio thread ends after the connection is
      closed is the library's.
    - The monitor's theorem is for virtual functions that return and whose
      effect is a list of actions.
    - Times, random numbers and payloads are inputs.  [sleep] is an event.
    - OpenSSL's bit masks are unknown numbers; destructors of Boost.Asio
      objects are not observable.

    Not modelled: the branches of the preprocessor for Windows and for old
    versions of libzmq, class and type declarations without behaviour of
    their own, the build files and scripts. *)

From stdpp Require Export base tactics list strings gmap.
From Stdlib Require Export ZArith Lia.
From Stdlib Require Import Ascii.

(** ** Tactics shared by the development *)

(** Split every conjunction of the goal and try the usual closers. *)
Ltac split_all := repeat match goal with |- _ /\ _ => split end.

(** Destruct the scrutinee of the first [match] found in the goal. *)
Ltac break_match :=
  match goal with
  | |- context [match ?x with _ => _ end] => destruct x eqn:?
  end.

(** Destruct the scrutinee of the first [match] found in a hypothesis. *)
Ltac break_match_hyp :=
  match goal with
  | H : context [match ?x with _ => _ end] |- _ => destruct x eqn:?
  end.

Ltac invc H := inversion H; subst; clear H.

Create HintDb perf.

(** ** Strings *)

Lemma string_app_nil (b : string) : "" +:+ b = b.
Proof. done. Qed.

Lemma string_app_cons x (a b : string) : String x a +:+ b = String x (a +:+ b).
Proof. done. Qed.

Lemma string_app_assoc (a b c : string) : (a +:+ b) +:+ c = a +:+ (b +:+ c).
Proof. induction a as [|x a IH]; [done|]. by rewrite !string_app_cons, IH. Qed.

Lemma string_app_nil_r (a : string) : a +:+ "" = a.
Proof. induction a as [|x a IH]; [done|]. by rewrite string_app_cons, IH. Qed.

Lemma string_length_app (a b : string) :
  String.length (a +:+ b) = (String.length a + String.length b)%nat.
Proof.
  induction a as [|x a IH]; [done|]. rewrite string_app_cons. simpl. by rewrite IH.
Qed.

Lemma string_app_inj_l (a b c : string) : a +:+ b = a +:+ c -> b = c.
Proof.
  induction a as [|x a IH]; [done|]. rewrite !string_app_cons.
  intros [= H]. by apply IH.
Qed.

#[export] Hint Rewrite string_app_nil string_app_cons string_app_assoc string_app_nil_r string_length_app : perf.

(** The string of one line feed. *)
Definition newline : string := String (Ascii.ascii_of_nat 10) "".

(** Prove a closed equation by evaluation, without reading the value back. *)
Ltac by_compute := match goal with |- _ = ?b => vm_cast_no_check (eq_refl b) end.

(** ** Lists *)

(** The number of elements on which a boolean test holds. *)
Fixpoint count_if {A} (p : A -> bool) (l : list A) : nat :=
  match l with
  | [] => 0
  | x :: l => (if p x then 1 else 0) + count_if p l
  end.

Lemma count_if_app {A} (p : A -> bool) l1 l2 :
  count_if p (l1 ++ l2) = count_if p l1 + count_if p l2.
Proof. induction l1 as [|x l1 IH]; [done|]. cbn. lia. Qed.

Lemma count_if_le_length {A} (p : A -> bool) l : count_if p l <= length l.
Proof. induction l as [|x l IH]; cbn; [lia|]. destruct (p x); lia. Qed.

Lemma count_if_all {A} (p : A -> bool) l :
  Forall (fun x => p x = true) l -> count_if p l = length l.
Proof. induction 1 as [|x l Hx _ IH]; cbn; [done|]. rewrite Hx. lia. Qed.

(** Counting does not depend on the order. *)
#[export] Instance count_if_Permutation {A} (p : A -> bool) :
  Proper (Permutation ==> eq) (count_if p).
Proof. intros l1 l2. induction 1; cbn; lia. Qed.

Lemma forallb_Forall {A} (p : A -> bool) l : forallb p l = true -> Forall (fun x => p x = true) l.
Proof.
  induction l as [|x l IH]; cbn; [constructor|]. intros [Hx Hl]%andb_prop. constructor; auto.
Qed.

Lemma count_if_none {A} (p : A -> bool) l :
  Forall (fun x => p x = false) l -> count_if p l = 0.
Proof. induction 1 as [|x l Hx _ IH]; cbn; [done|]. by rewrite Hx. Qed.

#[export] Hint Rewrite @count_if_app : perf.
