(* ===== verification/Prog.v ===== *)
(** * Programs

    The C++ functions of the repository are modelled as interaction trees: a
    call that leaves the repository (libzmq, libc, Boost, the standard output)
    is an event, answered by the environment.  A C++ function that may throw,
    abort or run into undefined behaviour is a tree whose leaves are
    [stop + A].  A [protocol] states what the environment promises about the
    answers; [runs] is total correctness of a program against every
    environment that keeps the promise, and [run] executes a program against a
    concrete one. *)

From S2P Require Import Prelude.
From ITree Require Import ITree.

(** ** Exceptional exits *)

(** What [catch (std::exception&)] can see: [zmq::error_t] with its [errnum],
    and an exception of another library with its [what()]. *)
Inductive exn :=
| error_t (errnum : Z)
| std_exception (what : string).

(** A thrown exception unwinds the stack; a failed assertion, [exit] and
    undefined behaviour do not. *)
Inductive stop :=
| Thrown (x : exn)
| Aborted
| Exited (status : Z)
| Undefined.

#[export] Instance exn_eq_dec : EqDecision exn.
Proof. solve_decision. Defined.
#[export] Instance stop_eq_dec : EqDecision stop.
Proof. solve_decision. Defined.

Definition M (E : Type -> Type) (A : Type) : Type := itree E (stop + A).

Section monad.
Context {E : Type -> Type}.

Definition ret {A} (a : A) : M E A := Ret (inr a).
Definition halt {A} (e : stop) : M E A := Ret (inl e).
Definition throw {A} (x : exn) : M E A := halt (Thrown x).
Definition bind {A B} (m : M E A) (k : A -> M E B) : M E B :=
  ITree.bind m (fun r => match r with inl e => Ret (inl e) | inr a => k a end).
Definition call {X} (e : E X) : M E X := ITree.bind (ITree.trigger e) (fun x => Ret (inr x)).

(** A partial C++ operation: no value is undefined behaviour. *)
Definition defined {A} (o : option A) : M E A :=
  match o with Some a => ret a | None => halt Undefined end.

(** [try m catch (std::exception&) { handler }] *)
Definition try_catch {A} (m : M E A) (handler : exn -> M E A) : M E A :=
  ITree.bind m (fun r => match r with inl (Thrown x) => handler x | r => Ret r end).

(** [m] with a destructor run on the normal and on the exceptional exit. *)
Definition finally {A} (m : M E A) (dtor : M E unit) : M E A :=
  ITree.bind m (fun r =>
    match r with
    | inr a => bind dtor (fun _ => ret a)
    | inl (Thrown x) => bind dtor (fun _ => throw x)
    | inl e => halt e
    end).

(** A C++ loop over its local variables [S]: [inl s] goes round again with
    [s], [inr r] leaves the loop with [r]. *)
Definition loop {S R} (body : S -> M E (S + R)) (s : S) : M E R :=
  ITree.iter (fun s => ITree.bind (body s) (fun r =>
    Ret (match r with
         | inl e => inr (inl e)
         | inr (inl s') => inl s'
         | inr (inr x) => inr (inr x)
         end))) s.

End monad.

Declare Scope prog_scope.
Delimit Scope prog_scope with prog.
Notation "x <- m ;; k" := (bind m (fun x => k))
  (at level 20, m at level 99, k at level 200) : prog_scope.
Notation "' p <- m ;; k" := (bind m (fun x_ => match x_ with p => k end))
  (at level 20, p pattern, m at level 99, k at level 200) : prog_scope.
Notation "m ;; k" := (bind m (fun _ => k))
  (at level 100, right associativity) : prog_scope.
#[global] Open Scope prog_scope.

(** [while (c(s)) s = b(s);] *)
Definition while_ {E S} (c : S -> bool) (b : S -> M E S) (s : S) : M E S :=
  loop (fun s => if c s then s' <- b s;; ret (inl s') else ret (inr s)) s.

(** [for (int i = from; i < from + n; i++) b(i)], the body reading [i]. *)
Fixpoint for_ {E} (b : Z -> M E unit) (from : Z) (n : nat) : M E unit :=
  match n with
  | O => ret tt
  | S n => b from;; for_ b (from + 1)%Z n
  end.

(** ** Protocols and total correctness *)

(** What the environment of a program promises over an abstract state [V]:
    [enabled e v], the precondition of the call [e]; [contract e v x v'], it
    may answer [x] and move to [v']; [blocked e v], the call does not return. *)
Record protocol (E : Type -> Type) (V : Type) := Protocol {
  enabled : forall X, E X -> V -> Prop;
  contract : forall X, E X -> V -> X -> V -> Prop;
  blocked : forall X, E X -> V -> Prop;
}.
Arguments enabled {E V} _ {X} _ _.
Arguments contract {E V} _ {X} _ _ _ _.
Arguments blocked {E V} _ {X} _ _.

(** How a program ends: with a value, exceptionally, or waiting for ever in a
    blocking call. *)
Inductive outcome (A : Type) :=
| Returns (a : A)
| Stops (e : stop)
| Waits.
Arguments Returns {A} _.
Arguments Stops {A} _.
Arguments Waits {A}.

Definition outcome_of {A} (o : option (stop + A)) : outcome A :=
  match o with
  | Some (inr a) => Returns a
  | Some (inl e) => Stops e
  | None => Waits
  end.

Section must.
Context {E : Type -> Type} {V : Type} (P : protocol E V).

(** Whatever the environment answers within its contract, the program comes to
    an end (a leaf or a blocking call) and satisfies [Q] there; it never makes
    a call whose precondition is false. *)
Inductive must {R} (Q : option R -> V -> Prop) : itree' E R -> V -> Prop :=
| must_ret r v : Q (Some r) v -> must Q (RetF r) v
| must_tau t v : must Q (observe t) v -> must Q (TauF t) v
| must_vis X (e : E X) k v :
    enabled P e v ->
    (forall x v', contract P e v x v' -> must Q (observe (k x)) v') ->
    must Q (VisF e k) v
| must_block X (e : E X) k v : blocked P e v -> Q None v -> must Q (VisF e k) v.

Lemma observe_bind {A B} (t : itree E A) (k : A -> itree E B) :
  observe (ITree.bind t k) =
  match observe t with
  | RetF r => observe (k r)
  | TauF t => TauF (ITree.bind t k)
  | VisF e h => VisF e (fun x => ITree.bind (h x) k)
  end.
Proof.
  unfold observe, ITree.bind, ITree.subst. cbn.
  change (_observe t) with (observe t). by destruct (observe t).
Qed.

Lemma must_mono {R} (Q Q' : option R -> V -> Prop) t v :
  (forall o v, Q o v -> Q' o v) -> must Q t v -> must Q' t v.
Proof.
  intros HQ. induction 1.
  - by apply must_ret, HQ.
  - by apply must_tau.
  - by apply must_vis.
  - apply must_block; auto.
Qed.

Lemma must_bind {A B} (t : itree E A) (k : A -> itree E B) Q v :
  must (fun o v' => match o with
                    | Some a => must Q (observe (k a)) v'
                    | None => Q None v'
                    end) (observe t) v ->
  must Q (observe (ITree.bind t k)) v.
Proof.
  intros H. remember (observe t) as ot eqn:Ht. revert t Ht.
  induction H as [r v H|t v _ IH|X e h v He _ IH|X e h v Hb H]; intros tt Ht;
    rewrite observe_bind, <- Ht.
  - done.
  - apply must_tau. by apply IH.
  - apply must_vis; [done|]. intros x v' Hc. by eapply IH.
  - by apply must_block.
Qed.

Lemma must_iter {A B} (body : A -> itree E (A + B)) a Q v :
  must (fun o v' => match o with
                    | Some (inl a') => must Q (observe (ITree.iter body a')) v'
                    | Some (inr b) => Q (Some b) v'
                    | None => Q None v'
                    end) (observe (body a)) v ->
  must Q (observe (ITree.iter body a)) v.
Proof.
  intros H.
  change (observe (ITree.iter body a)) with
    (observe (ITree.bind (body a) (fun lr =>
       match lr with inl l => Tau (ITree.iter body l) | inr r => Ret r end))).
  apply must_bind. revert H. apply must_mono.
  intros [[a'|b]|] v' H; [by apply must_tau|by apply must_ret|done].
Qed.

(** *** Programs of the monad *)

Definition wp {A} (m : M E A) (v : V) (Q : outcome A -> V -> Prop) : Prop :=
  must (fun o v' => Q (outcome_of o) v') (observe m) v.

Lemma wp_mono {A} (m : M E A) v (Q Q' : outcome A -> V -> Prop) :
  wp m v Q -> (forall o v', Q o v' -> Q' o v') -> wp m v Q'.
Proof. intros H HQ. revert H. apply must_mono. auto. Qed.

Lemma wp_ret {A} (a : A) v Q : Q (Returns a) v -> wp (ret a) v Q.
Proof. intros H. by apply must_ret. Qed.

Lemma wp_halt {A} e v (Q : outcome A -> V -> Prop) : Q (Stops e) v -> wp (halt e) v Q.
Proof. intros H. by apply must_ret. Qed.

Lemma wp_bind {A B} (m : M E A) (k : A -> M E B) v Q :
  wp m v (fun o v' => match o with
                      | Returns a => wp (k a) v' Q
                      | Stops e => Q (Stops e) v'
                      | Waits => Q Waits v'
                      end) ->
  wp (bind m k) v Q.
Proof.
  intros H. apply must_bind. revert H. apply must_mono.
  intros [[e|a]|] v' H; [by apply must_ret|done|done].
Qed.

Lemma wp_call {X} (e : E X) v Q :
  enabled P e v ->
  (forall x v', contract P e v x v' -> Q (Returns x) v') ->
  wp (call e) v Q.
Proof.
  intros He Hc. apply must_bind. cbn. apply must_vis; [done|].
  intros x v' H. apply must_ret, must_ret, Hc, H.
Qed.

Lemma wp_call_blocked {X} (e : E X) v Q :
  blocked P e v -> Q Waits v -> wp (call e) v Q.
Proof. intros He HQ. apply must_bind. cbn. by apply must_block. Qed.

Lemma wp_try_catch {A} (m : M E A) h v Q :
  wp m v (fun o v' => match o with
                      | Stops (Thrown x) => wp (h x) v' Q
                      | o => Q o v'
                      end) ->
  wp (try_catch m h) v Q.
Proof.
  intros H. apply must_bind. revert H. apply must_mono.
  intros [[[]|a]|] v' H; (done || by apply must_ret).
Qed.

Lemma wp_finally {A} (m : M E A) d v Q :
  wp m v (fun o v' =>
    match o with
    | Returns a => wp (bind d (fun _ => ret a)) v' Q
    | Stops (Thrown x) => wp (bind d (fun _ => throw x)) v' Q
    | o => Q o v'
    end) ->
  wp (finally m d) v Q.
Proof.
  intros H. apply must_bind. revert H. apply must_mono.
  intros [[[]|a]|] v' H; (done || by apply must_ret).
Qed.

Lemma wp_loop {S R} (body : S -> M E (S + R)) s v Q :
  wp (body s) v (fun o v' => match o with
                             | Returns (inl s') => wp (loop body s') v' Q
                             | Returns (inr r) => Q (Returns r) v'
                             | Stops e => Q (Stops e) v'
                             | Waits => Q Waits v'
                             end) ->
  wp (loop body s) v Q.
Proof.
  intros H. apply must_iter. apply must_bind. revert H. apply must_mono.
  intros [[e|[s'|r]]|] v' H; (done || by apply must_ret).
Qed.

(** *** One outcome for every environment *)

(** [runs m v o v']: against every environment of the protocol, [m] started in
    [v] ends with outcome [o] in state [v']. *)
Definition runs {A} (m : M E A) (v : V) (o : outcome A) (v' : V) : Prop :=
  wp m v (fun o' v'' => o' = o /\ v'' = v').

Lemma runs_ret {A} (a : A) v : runs (ret a) v (Returns a) v.
Proof. by apply wp_ret. Qed.

Lemma runs_halt {A} e v : runs (@halt E A e) v (Stops e) v.
Proof. by apply wp_halt. Qed.

Lemma runs_bind {A B} (m : M E A) (k : A -> M E B) v a v1 o v2 :
  runs m v (Returns a) v1 -> runs (k a) v1 o v2 -> runs (bind m k) v o v2.
Proof.
  intros H Hk. apply wp_bind. eapply wp_mono; [exact H|].
  by intros ? ? [-> ->].
Qed.

Lemma runs_bind_stops {A B} (m : M E A) (k : A -> M E B) v e v1 :
  runs m v (Stops e) v1 -> runs (bind m k) v (Stops e) v1.
Proof. intros H. apply wp_bind. eapply wp_mono; [exact H|]. by intros ? ? [-> ->]. Qed.

Lemma runs_bind_waits {A B} (m : M E A) (k : A -> M E B) v v1 :
  runs m v Waits v1 -> runs (bind m k) v Waits v1.
Proof. intros H. apply wp_bind. eapply wp_mono; [exact H|]. by intros ? ? [-> ->]. Qed.

Lemma runs_call {X} (e : E X) v a v1 :
  enabled P e v ->
  (forall x v', contract P e v x v' -> x = a /\ v' = v1) ->
  runs (call e) v (Returns a) v1.
Proof.
  intros He Hc. apply wp_call; [done|]. intros x v' H.
  by destruct (Hc _ _ H) as [-> ->].
Qed.

Lemma runs_call_blocked {X} (e : E X) v : blocked P e v -> runs (call e) v Waits v.
Proof. intros H. by apply wp_call_blocked. Qed.

Lemma runs_defined {A} (o : option A) a v : o = Some a -> runs (defined o) v (Returns a) v.
Proof. intros ->. apply runs_ret. Qed.

Lemma runs_loop_next {S R} (body : S -> M E (S + R)) s s' v v1 o v2 :
  runs (body s) v (Returns (inl s')) v1 -> runs (loop body s') v1 o v2 ->
  runs (loop body s) v o v2.
Proof.
  intros H Hk. apply wp_loop. eapply wp_mono; [exact H|]. by intros ? ? [-> ->].
Qed.

Lemma runs_loop_exit {S R} (body : S -> M E (S + R)) s r v v1 :
  runs (body s) v (Returns (inr r)) v1 -> runs (loop body s) v (Returns r) v1.
Proof. intros H. apply wp_loop. eapply wp_mono; [exact H|]. by intros ? ? [-> ->]. Qed.

Lemma runs_loop_waits {S R} (body : S -> M E (S + R)) s v v1 :
  runs (body s) v Waits v1 -> runs (loop body s) v Waits v1.
Proof. intros H. apply wp_loop. eapply wp_mono; [exact H|]. by intros ? ? [-> ->]. Qed.

Lemma runs_loop_stops {S R} (body : S -> M E (S + R)) s e v v1 :
  runs (body s) v (Stops e) v1 -> runs (loop body s) v (Stops e) v1.
Proof. intros H. apply wp_loop. eapply wp_mono; [exact H|]. by intros ? ? [-> ->]. Qed.

Lemma runs_try_returns {A} (m : M E A) h v a v1 :
  runs m v (Returns a) v1 -> runs (try_catch m h) v (Returns a) v1.
Proof. intros H. apply wp_try_catch. eapply wp_mono; [exact H|]. by intros ? ? [-> ->]. Qed.

Lemma runs_try_throws {A} (m : M E A) h x v v1 o v2 :
  runs m v (Stops (Thrown x)) v1 -> runs (h x) v1 o v2 ->
  runs (try_catch m h) v o v2.
Proof.
  intros H Hk. apply wp_try_catch. eapply wp_mono; [exact H|]. by intros ? ? [-> ->].
Qed.

Lemma runs_for {A} (f : V -> Z -> V) (b : Z -> M E unit) (l : list A) n from v :
  (forall i v, (from <= i < from + Z.of_nat n)%Z -> runs (b i) v (Returns tt) (f v i)) ->
  runs (for_ b from n) v (Returns tt)
       (foldl f v ((fun i => from + Z.of_nat i)%Z <$> seq 0 n)).
Proof.
  clear A l. revert from v. induction n as [|n IH]; intros from v H; [apply runs_ret|].
  cbn -[seq]. eapply runs_bind; [apply H; lia|].
  replace ((fun i => (from + Z.of_nat i)%Z) <$> seq 0 (S n)) with
    (from :: ((fun i => (from + 1 + Z.of_nat i)%Z) <$> seq 0 n)).
  - cbn. apply IH. intros i v' Hi. apply H. lia.
  - cbn. f_equal; [lia|]. rewrite <- (fmap_S_seq 0 n), <- list_fmap_compose.
    apply list_fmap_ext. intros i x _. cbn. lia.
Qed.

End must.

#[export] Hint Resolve runs_ret runs_halt runs_defined : runs.

(** ** Executions *)

(** A concrete environment with state [S]: [None] is a call that blocks. *)
Definition handler (E : Type -> Type) (S : Type) : Type :=
  forall X, E X -> S -> option (X * S).

(** [run h fuel t s]: the outcome of at most [fuel] steps ([None] when they do
    not suffice), and the state of the environment. *)
Fixpoint run {E S A} (h : handler E S) (fuel : nat) (m : M E A) (s : S) :
    option (outcome A) * S :=
  match fuel with
  | O => (None, s)
  | Datatypes.S fuel =>
      match observe m with
      | RetF r => (Some (outcome_of (Some r)), s)
      | TauF m => run h fuel m s
      | VisF e k =>
          match h _ e s with
          | Some (x, s') => run h fuel (k x) s'
          | None => (Some Waits, s)
          end
      end
  end.

(** An environment keeps a protocol, in its consistent states, through an
    abstraction of its state. *)
Class Lawful {E S V} (P : protocol E V) (h : handler E S) := {
  view : S -> V;
  consistent : S -> Prop;
  lawful_answer : forall X (e : E X) s, consistent s -> enabled P e (view s) ->
    exists x s', h X e s = Some (x, s') /\ contract P e (view s) x (view s') /\ consistent s';
  lawful_block : forall X (e : E X) s, consistent s -> blocked P e (view s) -> h X e s = None;
}.

(** Total correctness against the protocol is total correctness of every
    execution in a lawful environment, with some amount of fuel. *)
Lemma wp_sound {E S V A} (P : protocol E V) (h : handler E S) `{!Lawful P h}
    (m : M E A) (s : S) Q :
  consistent s -> wp P m (view s) Q ->
  exists fuel o s', run h fuel m s = (Some o, s') /\ Q o (view s') /\ consistent s'.
Proof.
  unfold wp. intros Hok H. remember (observe m) as om eqn:Hm. remember (view s) as v eqn:Hv.
  revert m s Hok Hm Hv.
  induction H as [r v H|t v _ IH|X e k v He _ IH|X e k v Hb H]; intros m s Hok Hm ->.
  - exists 1, (outcome_of (Some r)), s. cbn. by rewrite <- Hm.
  - destruct (IH t s) as (n & o & s' & Hr & HQ); [done..|].
    exists (Datatypes.S n), o, s'. cbn. by rewrite <- Hm.
  - destruct (lawful_answer X e s Hok He) as (x & s1 & Hx & Hc & Hok1).
    destruct (IH x _ Hc (k x) s1) as (n & o & s' & Hr & HQ); [done..|].
    exists (Datatypes.S n), o, s'. cbn. by rewrite <- Hm, Hx.
  - exists 1, Waits, s. cbn. by rewrite <- Hm, (lawful_block X e s Hok Hb).
Qed.

Lemma runs_sound {E S V A} (P : protocol E V) (h : handler E S) `{!Lawful P h}
    (m : M E A) (s : S) o v' :
  consistent s -> runs P m (view s) o v' ->
  exists fuel s', run h fuel m s = (Some o, s') /\ view s' = v' /\ consistent s'.
Proof.
  intros Hok H. destruct (wp_sound P h m s _ Hok H) as (n & o' & s' & Hr & [-> Hv] & Hok').
  by exists n, s'.
Qed.
