(* ===== verification/CInt.v ===== *)
(** * Machine integers

    The C++ [int] of the program (32 bits, two's complement) as a [Z], with
    every operation that can overflow or trap returning an option: no value is
    undefined behaviour. *)

From S2P Require Import Prelude.
From Stdlib Require Import Ascii.
Local Open Scope Z_scope.

Definition INT_MAX : Z := 2147483647.
Definition INT_MIN : Z := -2147483648.

Definition in_int (z : Z) : Prop := INT_MIN <= z <= INT_MAX.

#[export] Instance in_int_dec z : Decision (in_int z).
Proof. unfold in_int. apply _. Defined.

(** A result that must be representable. *)
Definition int_result (z : Z) : option Z := if decide (in_int z) then Some z else None.

Definition add_int (a b : Z) : option Z := int_result (a + b).
Definition sub_int (a b : Z) : option Z := int_result (a - b).
Definition mul_int (a b : Z) : option Z := int_result (a * b).
(** Division and remainder truncate towards zero; both trap on a zero divisor
    and on [INT_MIN / -1]. *)
Definition div_int (a b : Z) : option Z :=
  if decide (b = 0) then None else int_result (Z.quot a b).
Definition rem_int (a b : Z) : option Z :=
  if decide (b = 0) then None
  else if decide (in_int (Z.quot a b)) then Some (Z.rem a b) else None.

(** [static_cast<int>] of a wider integer, modulo 2^32. *)
Definition to_int (z : Z) : Z := (z - INT_MIN) mod 4294967296 + INT_MIN.

(** [static_cast<char>] of a value between 0 and 255, and its two readings. *)
Definition to_char (z : Z) : ascii := ascii_of_N (Z.to_N (z mod 256)).
Definition uchar (c : ascii) : Z := Z.of_N (N_of_ascii c).
Definition schar (c : ascii) : Z := if uchar c <? 128 then uchar c else uchar c - 256.

Lemma int_result_Some z : in_int z -> int_result z = Some z.
Proof. intros H. unfold int_result. by rewrite decide_True. Qed.

Lemma int_result_None z : ~ in_int z -> int_result z = None.
Proof. intros H. unfold int_result. by rewrite decide_False. Qed.

Lemma int_result_inv z r : int_result z = Some r -> r = z /\ in_int z.
Proof. unfold int_result. case_decide; [by intros [= <-]|done]. Qed.

Lemma add_int_Some a b : in_int (a + b) -> add_int a b = Some (a + b).
Proof. apply int_result_Some. Qed.

Lemma mul_int_Some a b : in_int (a * b) -> mul_int a b = Some (a * b).
Proof. apply int_result_Some. Qed.

Lemma to_int_id z : in_int z -> to_int z = z.
Proof. unfold to_int, in_int, INT_MIN, INT_MAX. intros H. rewrite Z.mod_small; lia. Qed.

Lemma to_int_range z : in_int (to_int z).
Proof.
  unfold to_int, in_int, INT_MIN, INT_MAX.
  pose proof (Z.mod_pos_bound (z - -2147483648) 4294967296). lia.
Qed.

(** A product of non-negative factors below a bounded one stays in range. *)
Lemma mul_int_le a b c d :
  0 <= a <= c -> 0 <= b <= d -> in_int (c * d) -> in_int (a * b).
Proof. unfold in_int, INT_MIN, INT_MAX. nia. Qed.

Lemma uchar_range c : 0 <= uchar c < 256.
Proof.
  unfold uchar. pose proof (N_ascii_bounded c). lia.
Qed.

Lemma uchar_to_char z : 0 <= z < 256 -> uchar (to_char z) = z.
Proof.
  intros H. unfold uchar, to_char. rewrite Z.mod_small by lia.
  rewrite N_ascii_embedding by lia. lia.
Qed.

Ltac int_lia := unfold in_int, INT_MIN, INT_MAX in *; lia.

#[export] Hint Resolve int_result_Some add_int_Some mul_int_Some : runs.
