(* ===== verification/Text.v ===== *)
(** * Decimal text: [std::to_string] and the extractors of [std::istringstream]

    The protocol between the processes is text: numbers are written with
    [std::to_string] (controller.cpp, listener.cpp) or [operator<<], and read
    back with [operator>>] on a string stream.  The extractors follow
    [std::num_get] as C++11 states it: a failed extraction stores 0, an
    overflowing one the nearest limit, and an extraction from a stream that is
    no longer good leaves the variable alone. *)

From S2P Require Import Prelude CInt.
From Stdlib Require Import Ascii.
Local Open Scope Z_scope.

(** ** Writing integers *)

Definition digit (d : Z) : ascii := ascii_of_N (Z.to_N (48 + d)).

(** Least significant digit last, pushed in front of [acc]. *)
Fixpoint dec_digits (fuel : nat) (n : Z) (acc : string) : string :=
  match fuel with
  | O => acc
  | S fuel =>
      let acc := String (digit (n mod 10)) acc in
      if n <? 10 then acc else dec_digits fuel (n / 10) acc
  end.

Definition dec_string (n : Z) : string := dec_digits (S (Z.to_nat (Z.log2 n))) n "".

(** [std::to_string(int)]; [std::to_string(bool)] promotes to [int]. *)
Definition to_string (z : Z) : string :=
  if z <? 0 then "-" +:+ dec_string (- z) else dec_string z.
Definition bool_to_string (b : bool) : string := to_string (if b then 1 else 0).

(** ** Reading *)

Definition digit_val (c : ascii) : option Z :=
  let n := uchar c in
  if (48 <=? n) && (n <=? 57) then Some (n - 48) else None.

(** Accumulated value, number of digits, rest of the text. *)
Fixpoint scan_digits (s : string) (v : Z) (n : nat) : Z * nat * string :=
  match s with
  | String c s' =>
      match digit_val c with
      | Some d => scan_digits s' (v * 10 + d) (S n)
      | None => (v, n, s)
      end
  | EmptyString => (v, n, s)
  end.

Definition scan_sign (s : string) : bool * string :=
  match s with
  | String c s' =>
      if decide (c = "-"%char) then (true, s')
      else if decide (c = "+"%char) then (false, s') else (false, s)
  | EmptyString => (false, s)
  end.

(** [isspace] in the C locale. *)
Definition is_space (c : ascii) : bool :=
  let n := uchar c in (n =? 32) || ((9 <=? n) && (n <=? 13)).

Fixpoint skip_ws (s : string) : string :=
  match s with
  | String c s' => if is_space c then skip_ws s' else s
  | EmptyString => s
  end.

(** The text up to the first white space, and the rest. *)
Fixpoint scan_word (s : string) : string * string :=
  match s with
  | String c s' =>
      if is_space c then (EmptyString, s)
      else let '(w, r) := scan_word s' in (String c w, r)
  | EmptyString => (EmptyString, EmptyString)
  end.

(** An input string stream: the unread text and its error state. *)
Record istream := IStream { text : string; eofbit : bool; failbit : bool }.

Definition istringstream (s : string) : istream := IStream s false false.
Definition good (st : istream) : bool := negb (eofbit st) && negb (failbit st).

Definition at_end (s : string) : bool := match s with EmptyString => true | _ => false end.

(** The sentry of a formatted extraction: the text after the white space, or
    the stream with its failure bits when there is nothing to read. *)
Definition sentry (st : istream) : istream + string :=
  if good st then
    let s := skip_ws (text st) in
    if at_end s then inl (IStream s true true) else inr s
  else inl (IStream (text st) (eofbit st) true).

(** Each extractor returns the stream and the value stored, if any. *)
Definition extract_int (st : istream) : istream * option Z :=
  match sentry st with
  | inl st' => (st', None)
  | inr s =>
      let '(neg, s1) := scan_sign s in
      let '(v, n, rest) := scan_digits s1 0 0 in
      let z := if neg : bool then - v else v in
      if decide (n = O) then (IStream rest (at_end rest) true, Some 0)
      else if decide (z < INT_MIN) then (IStream rest (at_end rest) true, Some INT_MIN)
      else if decide (INT_MAX < z) then (IStream rest (at_end rest) true, Some INT_MAX)
      else (IStream rest (at_end rest) false, Some z)
  end.

Definition extract_bool (st : istream) : istream * option bool :=
  match sentry st with
  | inl st' => (st', None)
  | inr s =>
      let '(neg, s1) := scan_sign s in
      let '(v, n, rest) := scan_digits s1 0 0 in
      let z := if neg : bool then - v else v in
      if decide (n = O) then (IStream rest (at_end rest) true, Some false)
      else if decide (z = 0) then (IStream rest (at_end rest) false, Some false)
      else (IStream rest (at_end rest) (negb (bool_decide (z = 1))), Some true)
  end.

Definition extract_string (st : istream) : istream * option string :=
  match sentry st with
  | inl st' => (st', None)
  | inr s =>
      let '(w, rest) := scan_word s in
      (IStream rest (at_end rest) false, Some w)
  end.

(** A decimal number [(-1)^neg * mant * 10^exp10]. *)
Record decimal := Dec { dneg : bool; dmant : Z; dexp : Z }.

(** The characters [num_get] accumulates for a floating-point number are a
    sign, digits with at most one point, and an exponent once a digit was
    seen.  [scan_mantissa]: the digits' value, their number, how many of them
    follow the point, the rest. *)
Definition scan_mantissa (s : string) : Z * nat * nat * string :=
  let '(v1, n1, s1) := scan_digits s 0 0 in
  match s1 with
  | String c s' =>
      if decide (c = "."%char) then
        let '(v2, n2, s2) := scan_digits s' v1 0 in (v2, (n1 + n2)%nat, n2, s2)
      else (v1, n1, O, s1)
  | EmptyString => (v1, n1, O, s1)
  end.

(** The exponent, 0 when there is none; [None] for an "e" without digits. *)
Definition scan_exponent (s : string) : option Z * string :=
  match s with
  | String c s' =>
      if decide (c = "e"%char \/ c = "E"%char) then
        let '(eneg, s1) := scan_sign s' in
        let '(e, ne, s2) := scan_digits s1 0 0 in
        if decide (ne = O) then (None, s2) else (Some (if eneg : bool then - e else e), s2)
      else (Some 0, s)
  | EmptyString => (Some 0, s)
  end.

(** [None] is an accumulation [strtod] does not accept as a whole. *)
Definition scan_float (s : string) : option decimal * string :=
  let '(neg, s0) := scan_sign s in
  let '(v, n, frac, s1) := scan_mantissa s0 in
  if decide (n = O) then (None, s1)
  else
    match scan_exponent s1 with
    | (Some e, s2) => (Some (Dec neg v (e - Z.of_nat frac)), s2)
    | (None, s2) => (None, s2)
    end.

(** ** Lemmas *)

(** The head of a text is not a decimal digit. *)
Definition stops_digits (s : string) : Prop :=
  match s with String c _ => digit_val c = None | EmptyString => True end.

Definition no_space (s : string) : Prop :=
  forall c, In c (String.list_ascii_of_string s) -> is_space c = false.

(** Case analysis on a decimal digit in range, closing goals that compute. *)
Ltac digit_cases d :=
  assert (d = 0 \/ d = 1 \/ d = 2 \/ d = 3 \/ d = 4 \/ d = 5 \/ d = 6 \/
    d = 7 \/ d = 8 \/ d = 9) as Hdigit by lia;
  repeat destruct Hdigit as [Hdigit|Hdigit]; subst d; done.

Lemma digit_val_digit d : 0 <= d < 10 -> digit_val (digit d) = Some d.
Proof.
  intros H. digit_cases d.
Qed.

Lemma is_space_digit d : 0 <= d < 10 -> is_space (digit d) = false.
Proof.
  intros H. digit_cases d.
Qed.

Lemma scan_digits_digit d s v n :
  0 <= d < 10 -> scan_digits (String (digit d) s) v n = scan_digits s (v * 10 + d) (S n).
Proof. intros H. cbn [scan_digits]. by rewrite digit_val_digit. Qed.

Lemma scan_digits_stop s v n : stops_digits s -> scan_digits s v n = (v, n, s).
Proof. destruct s as [|c s]; cbn; [done|]. by intros ->. Qed.

Lemma dec_digits_scan fuel n :
  0 <= n -> (Z.to_nat (Z.log2 n) < fuel)%nat ->
  exists k : nat, (1 <= k)%nat /\ forall acc rest v m,
    scan_digits (dec_digits fuel n acc +:+ rest) v m =
    scan_digits (acc +:+ rest) (v * 10 ^ Z.of_nat k + n) (k + m).
Proof.
  revert n. induction fuel as [|fuel IH]; intros n Hn Hf; [lia|]. cbn [dec_digits].
  pose proof (Z.mod_pos_bound n 10) as Hm.
  destruct (Z.ltb_spec n 10) as [Hlt|Hge].
  - exists 1%nat. split; [lia|]. intros acc rest v m.
    rewrite string_app_cons, scan_digits_digit, Z.mod_small by lia.
    f_equal; lia.
  - destruct (IH (n / 10)) as (k & Hk & IHk).
    + apply Z.div_pos; lia.
    + assert (Z.log2 (n / 10) < Z.log2 n) as Hl.
      { apply Z.log2_lt_pow2; [apply Z.div_str_pos; lia|].
        apply Z.div_lt_upper_bound; [lia|].
        pose proof (Z.log2_spec n ltac:(lia)) as [_ Hs].
        rewrite Z.pow_succ_r in Hs by apply Z.log2_nonneg. lia. }
      pose proof (Z.log2_nonneg (n / 10)). lia.
    + exists (S k). split; [lia|]. intros acc rest v m.
      rewrite IHk, string_app_cons, scan_digits_digit by lia.
      rewrite Nat2Z.inj_succ, Z.pow_succ_r by lia.
      pose proof (Z.div_mod n 10 ltac:(lia)).
      f_equal; lia.
Qed.

Lemma dec_string_scan n rest :
  0 <= n -> stops_digits rest ->
  exists k, (1 <= k)%nat /\ scan_digits (dec_string n +:+ rest) 0 0 = (n, k, rest).
Proof.
  intros Hn Hr. destruct (dec_digits_scan (S (Z.to_nat (Z.log2 n))) n) as (k & Hk & H);
    [lia..|]. exists k. split; [lia|]. unfold dec_string.
  rewrite H, string_app_nil, Nat.add_0_r. by apply scan_digits_stop.
Qed.

(** The first character of a number is a digit. *)
Lemma dec_digits_head fuel n acc :
  0 <= n -> (0 < fuel)%nat -> exists d s, 0 <= d < 10 /\ dec_digits fuel n acc = String (digit d) s.
Proof.
  revert n acc. induction fuel as [|fuel IH]; intros n acc Hn Hf; [lia|]. cbn [dec_digits].
  pose proof (Z.mod_pos_bound n 10 ltac:(lia)).
  destruct (Z.ltb_spec n 10); [by eexists _, _|].
  destruct fuel as [|fuel]; [by eexists _, _|]. apply IH; [apply Z.div_pos; lia|lia].
Qed.

Lemma dec_string_head n : 0 <= n -> exists d s, 0 <= d < 10 /\ dec_string n = String (digit d) s.
Proof. intros H. apply dec_digits_head; lia. Qed.

Lemma digit_not_sign d : 0 <= d < 10 -> digit d <> "-"%char /\ digit d <> "+"%char.
Proof.
  intros H. digit_cases d.
Qed.

Lemma scan_sign_digit d s : 0 <= d < 10 -> scan_sign (String (digit d) s) = (false, String (digit d) s).
Proof.
  intros H. destruct (digit_not_sign d H). unfold scan_sign. by rewrite !decide_False.
Qed.

Lemma scan_sign_dec_string n rest :
  0 <= n -> scan_sign (dec_string n +:+ rest) = (false, dec_string n +:+ rest).
Proof.
  intros H. destruct (dec_string_head n H) as (d & s & Hd & ->).
  rewrite string_app_cons. by apply scan_sign_digit.
Qed.

(** A printed integer reads back as itself. *)
Lemma to_string_scan z rest :
  stops_digits rest ->
  exists s1 v k, scan_sign (to_string z +:+ rest) = (z <? 0, s1) /\ (1 <= k)%nat /\
    scan_digits s1 0 0 = (v, k, rest) /\ (if z <? 0 then - v else v) = z.
Proof.
  intros Hr. unfold to_string. destruct (Z.ltb_spec z 0) as [Hz|Hz].
  - destruct (dec_string_scan (- z) rest) as (k & Hk & H); [lia|done|].
    exists (dec_string (- z) +:+ rest), (- z), k. split_and!; [done|done|done|lia].
  - destruct (dec_string_scan z rest) as (k & Hk & H); [lia|done|].
    exists (dec_string z +:+ rest), z, k. split_and!; [by apply scan_sign_dec_string|done..].
Qed.

Lemma to_string_head z : exists c s, to_string z = String c s /\ is_space c = false.
Proof.
  unfold to_string. destruct (Z.ltb_spec z 0) as [Hz|Hz].
  - by eexists _, _.
  - destruct (dec_string_head z Hz) as (d & s & Hd & ->). eexists _, _.
    split; [done|by apply is_space_digit].
Qed.

Lemma skip_ws_to_string z rest : skip_ws (to_string z +:+ rest) = to_string z +:+ rest.
Proof.
  destruct (to_string_head z) as (c & s & -> & Hc). rewrite string_app_cons. cbn [skip_ws].
  by rewrite Hc.
Qed.

Lemma to_string_not_empty z rest : at_end (to_string z +:+ rest) = false.
Proof. by destruct (to_string_head z) as (c & s & -> & _). Qed.

(** The sentry of a good stream in front of a word. *)
Lemma sentry_good st s :
  good st = true -> skip_ws (text st) = s -> at_end s = false -> sentry st = inr s.
Proof. unfold sentry. by intros -> -> ->. Qed.

Lemma sentry_to_string st z rest :
  good st = true -> skip_ws (text st) = to_string z +:+ rest ->
  sentry st = inr (to_string z +:+ rest).
Proof. intros Hg Hs. apply sentry_good; [done..|apply to_string_not_empty]. Qed.

Lemma extract_int_to_string st z rest :
  in_int z -> stops_digits rest -> good st = true ->
  skip_ws (text st) = to_string z +:+ rest ->
  extract_int st = (IStream rest (at_end rest) false, Some z).
Proof.
  intros Hz Hr Hg Hs. unfold extract_int. rewrite (sentry_to_string st z rest) by done.
  destruct (to_string_scan z rest Hr) as (s1 & v & k & -> & Hk & -> & Hv). rewrite Hv.
  rewrite decide_False by lia. rewrite !decide_False by int_lia. done.
Qed.

Lemma extract_bool_to_string st b rest :
  stops_digits rest -> good st = true ->
  skip_ws (text st) = bool_to_string b +:+ rest ->
  extract_bool st = (IStream rest (at_end rest) false, Some b).
Proof.
  unfold bool_to_string. intros Hr Hg Hs. unfold extract_bool.
  rewrite (sentry_to_string st _ rest) by done.
  destruct (to_string_scan (if b then 1 else 0) rest Hr) as (s1 & v & k & -> & Hk & -> & Hv).
  rewrite Hv. rewrite decide_False by lia. by destruct b.
Qed.

Lemma scan_word_no_space w rest :
  no_space w -> match rest with String c _ => is_space c = true | _ => True end ->
  scan_word (w +:+ rest) = (w, rest).
Proof.
  intros Hw Hr. induction w as [|c w IH].
  - rewrite string_app_nil. destruct rest as [|c rest]; cbn; [done|]. by rewrite Hr.
  - rewrite string_app_cons. cbn [scan_word]. rewrite (Hw c) by (cbn; auto).
    rewrite IH; [done|]. intros c' Hc'. apply Hw. cbn. auto.
Qed.

Lemma skip_ws_word w rest : no_space w -> w <> "" -> skip_ws (w +:+ rest) = w +:+ rest.
Proof.
  intros Hw Hne. destruct w as [|c w]; [done|]. rewrite string_app_cons. cbn [skip_ws].
  rewrite (Hw c); [done|]. cbn. auto.
Qed.

Lemma extract_string_word st w rest :
  no_space w -> w <> "" -> match rest with String c _ => is_space c = true | _ => True end ->
  good st = true -> skip_ws (text st) = w +:+ rest ->
  extract_string st = (IStream rest (at_end rest) false, Some w).
Proof.
  intros Hw Hne Hr Hg Hs. unfold extract_string.
  rewrite (sentry_good st (w +:+ rest)); [|done..|by destruct w].
  by rewrite (scan_word_no_space w rest Hw Hr).
Qed.

(** Nothing is stored once a stream has failed or reached its end. *)
Lemma sentry_bad st :
  good st = false -> sentry st = inl (IStream (text st) (eofbit st) true).
Proof. unfold sentry. by intros ->. Qed.
