(* ===== verification/Double.v ===== *)
(** * Floating point

    The statistics are [double]s: IEEE-754 binary64 numbers, here the
    standard library's executable [spec_float] with precision 53.  The class
    [Arith] lists the operations controller.cpp applies to them, so that the
    same code can also be run over the exact rationals, where the statistical
    formulas have a meaning that rounding does not blur.  [g6] is [operator<<]
    of a double on a stream with the default precision (printf's %g), and
    [extract_double] the extractor that reads it back. *)

From S2P Require Import Prelude CInt Text.
From Stdlib Require Import Floats.SpecFloat QArith Qcanon Ascii.
Local Open Scope Z_scope.

(** ** The operations on doubles *)

Class Arith (D : Type) := {
  dadd : D -> D -> D;
  dmul : D -> D -> D;
  ddiv : D -> D -> D;
  d_of_int : Z -> D;
  (** The number nearest to a decimal, and whether it overflowed. *)
  d_of_dec : decimal -> D * bool;
}.

Definition prec : Z := 53.
Definition emax : Z := 1024.
Definition double : Type := spec_float.

Definition double_of_int (z : Z) : double := binary_normalize prec emax z 0 false.

Definition DBL_MAX (neg : bool) : double := S754_finite neg (2 ^ 53 - 1)%positive 971.

(** Correctly rounded conversion of a decimal, as [strtod] does it. *)
Definition double_of_dec (d : decimal) : double * bool :=
  match dmant d with
  | Zpos m =>
      let r :=
        if 0 <=? dexp d then binary_normalize prec emax (Zpos m * 10 ^ dexp d) 0 false
        else SFdiv prec emax (S754_finite false m 0)
                             (S754_finite false (Z.to_pos (10 ^ (- dexp d))) 0) in
      match r with
      | S754_infinity _ => (DBL_MAX (dneg d), true)
      | r => ((if dneg d then SFopp r else r), false)
      end
  | _ => (S754_zero (dneg d), false)
  end.

#[export] Instance arith_double : Arith double := {
  dadd := SFadd prec emax;
  dmul := SFmul prec emax;
  ddiv := SFdiv prec emax;
  d_of_int := double_of_int;
  d_of_dec := double_of_dec;
}.

Definition double_sqrt : double -> double := SFsqrt prec emax.

(** Powers of ten, and the exact value of a decimal. *)
Definition ten_pow (e : Z) : Qc :=
  if 0 <=? e then Q2Qc (inject_Z (10 ^ e)) else Qcinv (Q2Qc (inject_Z (10 ^ (- e)))).
Definition Qc_of_Z (z : Z) : Qc := Q2Qc (inject_Z z).
Definition dec_value (d : decimal) : Qc :=
  (Qc_of_Z (if dneg d then - dmant d else dmant d) * ten_pow (dexp d))%Qc.

#[export] Instance arith_Qc : Arith Qc := {
  dadd := Qcplus;
  dmul := Qcmult;
  ddiv := Qcdiv;
  d_of_int := Qc_of_Z;
  d_of_dec d := (dec_value d, false);
}.

(** [ss >> x] for a [double x]. *)
Definition extract_double {D} `{Arith D} (st : istream) : istream * option D :=
  match sentry st with
  | inl st' => (st', None)
  | inr s =>
      match scan_float s with
      | (None, rest) => (IStream rest (at_end rest) true, Some (d_of_int 0))
      | (Some d, rest) =>
          let '(x, overflow) := d_of_dec d in
          (IStream rest (at_end rest) overflow, Some x)
      end
  end.

(** ** Printing *)

(** Quotient rounded to nearest, ties to even. *)
Definition round_div (n d : Z) : Z :=
  let q := n / d in
  match Z.compare (2 * (n mod d)) d with
  | Lt => q
  | Gt => q + 1
  | Eq => if Z.even q then q else q + 1
  end.

Fixpoint ndigits_aux (fuel : nat) (n : Z) : Z :=
  match fuel with
  | O => 1
  | S fuel => if n <? 10 then 1 else 1 + ndigits_aux fuel (n / 10)
  end.
Definition ndigits (n : Z) : Z := ndigits_aux (Z.to_nat (Z.log2 n)) n.

(** The decimal exponent of [n / d]. *)
Definition dec_exponent (n d : Z) : Z :=
  if d <=? n then ndigits (n / d) - 1 else - ndigits ((d - 1) / n).

(** [n / d] to six significant digits: [(D, X)] stands for [D * 10^(X-5)]. *)
Definition round6 (n d : Z) : Z * Z :=
  let x := dec_exponent n d in
  let s := 5 - x in
  let r := round_div (n * 10 ^ Z.max s 0) (d * 10 ^ Z.max (- s) 0) in
  if r =? 1000000 then (100000, x + 1) else (r, x).

(** At most [k] trailing zeros dropped. *)
Fixpoint strip_zeros (k : nat) (n : Z) : Z * nat :=
  match k with
  | O => (n, O)
  | S k' => if n mod 10 =? 0 then strip_zeros k' (n / 10) else (n, k)
  end.

(** The [k] low decimal digits of [n]. *)
Fixpoint pad_digits (k : nat) (n : Z) (acc : string) : string :=
  match k with
  | O => acc
  | S k => pad_digits k (n / 10) (String (digit (n mod 10)) acc)
  end.

(** [n * 10^-k] in positional notation without trailing zeros. *)
Definition fixed_string (n : Z) (k : nat) : string :=
  let '(n, k) := strip_zeros k n in
  dec_string (n / 10 ^ Z.of_nat k) +:+
  match k with O => "" | _ => "." +:+ pad_digits k n "" end.

Definition exponent_string (x : Z) : string :=
  (if x <? 0 then "e-" else "e+") +:+
  (if Z.abs x <? 10 then "0" +:+ dec_string (Z.abs x) else dec_string (Z.abs x)).

Definition format6 (neg : bool) (D X : Z) : string :=
  (if neg then "-" else "") +:+
  (if (-4 <=? X) && (X <? 6) then fixed_string D (Z.to_nat (5 - X))
   else fixed_string D 5 +:+ exponent_string X).

(** The value of a positive finite double as a fraction. *)
Definition fraction (m : positive) (e : Z) : Z * Z :=
  (Zpos m * 2 ^ Z.max e 0, 2 ^ Z.max (- e) 0).

(** A NaN prints without its sign, which [spec_float] does not keep; the
    extractor rejects "nan" and "-nan" alike. *)
Definition g6 (x : double) : string :=
  match x with
  | S754_zero neg => if neg then "-0" else "0"
  | S754_infinity neg => if neg then "-inf" else "inf"
  | S754_nan => "nan"
  | S754_finite neg m e =>
      let '(n, d) := fraction m e in
      let '(D, X) := round6 n d in format6 neg D X
  end.

(** ** Lemmas *)

Lemma strip_zeros_spec k n :
  0 <= n ->
  let '(n', k') := strip_zeros k n in
  0 <= n' /\ (k' <= k)%nat /\ n = n' * 10 ^ (Z.of_nat k - Z.of_nat k').
Proof.
  revert n. induction k as [|k IH]; intros n Hn; cbn [strip_zeros].
  - split_and!; [done|lia|]. by rewrite Z.sub_diag, Z.mul_1_r.
  - destruct (Z.eqb_spec (n mod 10) 0) as [Hz|Hz].
    + specialize (IH (n / 10) ltac:(apply Z.div_pos; lia)).
      destruct (strip_zeros k (n / 10)) as [n' k'].
      destruct IH as (Hn' & Hk & Heq). split_and!; [done|lia|].
      replace (Z.of_nat (S k) - Z.of_nat k') with (Z.succ (Z.of_nat k - Z.of_nat k')) by lia.
      rewrite Z.pow_succ_r by lia. pose proof (Z.div_mod n 10 ltac:(lia)). lia.
    + split_and!; [done|lia|]. by rewrite Z.sub_diag, Z.mul_1_r.
Qed.

Lemma pad_digits_scan k n acc rest v m :
  0 <= n ->
  scan_digits (pad_digits k n acc +:+ rest) v m =
  scan_digits (acc +:+ rest) (v * 10 ^ Z.of_nat k + n mod 10 ^ Z.of_nat k) (k + m).
Proof.
  revert n acc. induction k as [|k IH]; intros n acc Hn; cbn [pad_digits].
  - change (10 ^ Z.of_nat 0) with 1. rewrite Z.mod_1_r. f_equal; lia.
  - pose proof (Z.mod_pos_bound n 10 ltac:(lia)).
    assert (0 <= n / 10) by (apply Z.div_pos; lia).
    rewrite IH, string_app_cons, scan_digits_digit by lia.
    rewrite Nat2Z.inj_succ, Z.pow_succ_r by lia.
    rewrite (Z.rem_mul_r n 10) by lia. f_equal; lia.
Qed.

(** What may follow a number: not a digit, a point or an exponent. *)
Definition ends_number (s : string) : Prop :=
  match s with
  | String c _ => digit_val c = None /\ c <> "."%char /\ c <> "e"%char /\ c <> "E"%char
  | EmptyString => True
  end.

Definition ends_mantissa (s : string) : Prop :=
  match s with String c _ => digit_val c = None /\ c <> "."%char | EmptyString => True end.

Lemma ends_number_mantissa s : ends_number s -> ends_mantissa s.
Proof. destruct s; [done|]. by intros (? & ? & _). Qed.

Lemma ends_mantissa_digits s : ends_mantissa s -> stops_digits s.
Proof. destruct s; [done|]. by intros [? _]. Qed.

Lemma scan_exponent_none s : ends_number s -> scan_exponent s = (Some 0, s).
Proof.
  destruct s as [|c s]; [done|]. intros (_ & _ & He & HE). cbn [scan_exponent].
  by rewrite decide_False by naive_solver.
Qed.

Lemma fixed_string_scan n k rest :
  0 <= n -> ends_mantissa rest ->
  exists n' k' m, scan_mantissa (fixed_string n k +:+ rest) = (n', m, k', rest) /\
    (0 < m)%nat /\ (k' <= k)%nat /\ 0 <= n' /\ n = n' * 10 ^ (Z.of_nat k - Z.of_nat k').
Proof.
  intros Hn Hr. unfold fixed_string. pose proof (strip_zeros_spec k n Hn) as Hs.
  destruct (strip_zeros k n) as [n' k']. destruct Hs as (Hn' & Hk & Heq).
  pose proof (Z.pow_pos_nonneg 10 (Z.of_nat k') ltac:(lia) ltac:(lia)) as Hp.
  exists n', k'. unfold scan_mantissa. rewrite string_app_assoc.
  destruct k' as [|k''].
  - change (10 ^ Z.of_nat 0) with 1. rewrite Z.div_1_r, string_app_nil.
    destruct (dec_string_scan n' rest Hn' (ends_mantissa_digits _ Hr)) as (c & Hc & ->).
    exists c. split_and!; [|lia..|done|done]. destruct rest as [|c0 rest]; [done|].
    destruct Hr as [_ Hr]. by rewrite decide_False.
  - destruct (dec_string_scan (n' / 10 ^ Z.of_nat (S k''))
      (("." +:+ pad_digits (S k'') n' "") +:+ rest)) as (c & Hc & ->);
      [apply Z.div_pos; lia|done|].
    exists (c + S k'')%nat. split_and!; [|lia..|done|done].
    rewrite !string_app_cons, string_app_nil. cbn beta iota.
    rewrite decide_True by done.
    rewrite pad_digits_scan, scan_digits_stop, string_app_nil by
      (done || apply ends_mantissa_digits; by rewrite string_app_nil).
    rewrite Nat.add_0_r. do 3 f_equal. pose proof (Z.div_mod n' (10 ^ Z.of_nat (S k''))). lia.
Qed.

Lemma ndigits_spec n : 1 <= n -> 1 <= ndigits n /\ 10 ^ (ndigits n - 1) <= n < 10 ^ ndigits n.
Proof.
  unfold ndigits. enough (forall fuel n, (Z.to_nat (Z.log2 n) <= fuel)%nat -> 1 <= n ->
    let k := ndigits_aux fuel n in 1 <= k /\ 10 ^ (k - 1) <= n < 10 ^ k) as H
    by (intros; by apply H).
  clear n. induction fuel as [|fuel IH]; intros n Hf Hn; cbn -[Z.pow].
  - assert (Z.log2 n = 0) as Hl by (pose proof (Z.log2_nonneg n); lia).
    pose proof (Z.log2_spec n ltac:(lia)). rewrite Hl in *. cbn -[Z.pow] in *. lia.
  - destruct (Z.ltb_spec n 10) as [Hlt|Hge]; [lia|].
    assert (Z.log2 (n / 10) < Z.log2 n) as Hl.
    { apply Z.log2_lt_pow2; [apply Z.div_str_pos; lia|].
      apply Z.div_lt_upper_bound; [lia|].
      pose proof (Z.log2_spec n ltac:(lia)) as [_ Hs].
      rewrite Z.pow_succ_r in Hs by apply Z.log2_nonneg. lia. }
    destruct (IH (n / 10)) as (Hk & Hlo & Hhi); [lia|apply Z.div_le_lower_bound; lia|].
    set (k := ndigits_aux fuel (n / 10)) in *.
    replace (1 + k - 1) with (Z.succ (k - 1)) by lia. rewrite Z.pow_succ_r by lia.
    rewrite Z.pow_add_r by lia. pose proof (Z.div_mod n 10 ltac:(lia)).
    pose proof (Z.mod_pos_bound n 10 ltac:(lia)). lia.
Qed.

(** The six digits scaled to an integer: [scale n d X] is [(n/d) * 10^(5-X)]
    as a fraction. *)
Definition scale (n d x : Z) : Z * Z :=
  (n * 10 ^ Z.max (5 - x) 0, d * 10 ^ Z.max (x - 5) 0).

Lemma ten_pow_split a b : 0 <= a -> 0 <= b -> 10 ^ (a + b) = 10 ^ a * 10 ^ b.
Proof. intros. by apply Z.pow_add_r. Qed.

Lemma dec_exponent_spec n d :
  0 < n -> 0 < d ->
  let '(n', d') := scale n d (dec_exponent n d) in 10 ^ 5 * d' <= n' < 10 ^ 6 * d'.
Proof.
  intros Hn Hd. unfold dec_exponent, scale. destruct (Z.leb_spec d n) as [Hle|Hlt].
  - destruct (ndigits_spec (n / d)) as (Hk & Hlo & Hhi); [apply Z.div_le_lower_bound; lia|].
    set (x := ndigits (n / d) - 1) in *. replace (ndigits (n / d)) with (x + 1) in Hhi by lia.
    assert (10 ^ x * d <= n < 10 ^ (x + 1) * d) as [Hl Hh].
    { pose proof (Z.div_mod n d ltac:(lia)). pose proof (Z.mod_pos_bound n d ltac:(lia)). nia. }
    rewrite ten_pow_split in Hh by lia. destruct (Z.le_ge_cases x 5) as [Hx|Hx].
    + rewrite (Z.max_l (5 - x)), (Z.max_r (x - 5)) by lia.
      replace (10 ^ 5) with (10 ^ x * 10 ^ (5 - x)) by (rewrite <- ten_pow_split by lia; f_equal; lia).
      replace (10 ^ 6) with (10 ^ x * 10 ^ 1 * 10 ^ (5 - x)) by
        (rewrite <- !ten_pow_split by lia; f_equal; lia).
      pose proof (Z.pow_pos_nonneg 10 (5 - x) ltac:(lia) ltac:(lia)). change (10 ^ 0) with 1. nia.
    + rewrite (Z.max_r (5 - x)), (Z.max_l (x - 5)) by lia. change (10 ^ 0) with 1.
      replace (10 ^ x) with (10 ^ 5 * 10 ^ (x - 5)) in * by
        (rewrite <- ten_pow_split by lia; f_equal; lia). nia.
  - destruct (ndigits_spec ((d - 1) / n)) as (Hk & Hlo & Hhi); [apply Z.div_le_lower_bound; lia|].
    set (k := ndigits ((d - 1) / n)) in *.
    pose proof (Z.div_mod (d - 1) n ltac:(lia)). pose proof (Z.mod_pos_bound (d - 1) n ltac:(lia)).
    rewrite (Z.max_l (5 - - k)), (Z.max_r (- k - 5)) by lia. change (10 ^ 0) with 1.
    replace (5 - - k) with (5 + (1 + (k - 1))) by lia. rewrite !ten_pow_split by lia.
    replace (10 ^ k) with (10 ^ 1 * 10 ^ (k - 1)) in * by
      (rewrite <- ten_pow_split by lia; f_equal; lia).
    change (10 ^ 1) with 10 in *. change (10 ^ 6) with (10 ^ 5 * 10).
    set (p := 10 ^ (k - 1)) in *. set (q := (d - 1) / n) in *.
    assert (0 < 10 ^ 5) by lia. assert (n * p <= d - 1) by nia. assert (d <= n * (10 * p)) by nia.
    nia.
Qed.

Lemma round_div_spec n d :
  0 < d -> 2 * Z.abs (round_div n d * d - n) <= d.
Proof.
  intros Hd. unfold round_div. pose proof (Z.div_mod n d ltac:(lia)).
  pose proof (Z.mod_pos_bound n d Hd).
  destruct (Z.compare_spec (2 * (n mod d)) d); [destruct (Z.even _)|..]; nia.
Qed.

Lemma round_div_bounds n d a b :
  0 < d -> a * d <= n < b * d -> a <= round_div n d <= b.
Proof. intros Hd Hn. pose proof (round_div_spec n d Hd). nia. Qed.

(** Six significant digits, off by at most half a unit of the last one. *)
Lemma round6_spec n d :
  0 < n -> 0 < d ->
  let '(D, X) := round6 n d in
  100000 <= D < 1000000 /\
  let '(n', d') := scale n d X in 2 * Z.abs (D * d' - n') <= d'.
Proof.
  intros Hn Hd. unfold round6. pose proof (dec_exponent_spec n d Hn Hd) as He.
  set (x := dec_exponent n d) in *. unfold scale in He.
  replace (- (5 - x)) with (x - 5) by lia.
  set (n1 := n * 10 ^ Z.max (5 - x) 0) in *. set (d1 := d * 10 ^ Z.max (x - 5) 0) in *.
  assert (0 < d1) as Hd1 by (unfold d1; pose proof (Z.pow_pos_nonneg 10 (Z.max (x - 5) 0)); nia).
  pose proof (round_div_spec n1 d1 Hd1) as Hr.
  pose proof (round_div_bounds n1 d1 (10 ^ 5) (10 ^ 6) Hd1 He) as Hb.
  change (10 ^ 5) with 100000 in *. change (10 ^ 6) with 1000000 in *.
  destruct (Z.eqb_spec (round_div n1 d1) 1000000) as [E|E]; cbn [fst snd].
  2: { split; [lia|]. exact Hr. }
  split; [lia|]. rewrite E in Hr. unfold scale, n1, d1 in *. clear E Hb He.
  destruct (Z.le_gt_cases x 4) as [Hx|Hx].
  - rewrite (Z.max_l (5 - x)), (Z.max_r (x - 5)) in Hr by lia.
    rewrite (Z.max_l (5 - (x + 1))), (Z.max_r (x + 1 - 5)) by lia.
    replace (5 - x) with (1 + (5 - (x + 1))) in Hr by lia. rewrite ten_pow_split in Hr by lia.
    change (10 ^ 0) with 1 in *. change (10 ^ 1) with 10 in *. lia.
  - rewrite (Z.max_r (5 - x)), (Z.max_l (x - 5)) in Hr by lia.
    rewrite (Z.max_r (5 - (x + 1))), (Z.max_l (x + 1 - 5)) by lia.
    replace (x + 1 - 5) with (1 + (x - 5)) by lia. rewrite ten_pow_split by lia.
    change (10 ^ 0) with 1 in *. change (10 ^ 1) with 10 in *.
    pose proof (Z.pow_pos_nonneg 10 (x - 5) ltac:(lia) ltac:(lia)). nia.
Qed.

Lemma exponent_string_scan x rest :
  stops_digits rest -> scan_exponent (exponent_string x +:+ rest) = (Some x, rest).
Proof.
  intros Hr.
  assert (forall a, 0 <= a -> exists k, (0 < k)%nat /\
    scan_digits ((if a <? 10 then "0" +:+ dec_string a else dec_string a) +:+ rest) 0 0 =
    (a, k, rest)) as H.
  { intros a Ha. destruct (dec_string_scan a rest Ha Hr) as (k & Hk & Hs).
    destruct (Z.ltb_spec a 10).
    - exists 2%nat. split; [lia|]. unfold dec_string, dec_digits.
      rewrite (proj2 (Z.ltb_lt a 10)), Z.mod_small by lia.
      rewrite string_app_assoc, !string_app_cons, !string_app_nil.
      change "0"%char with (digit 0). rewrite !scan_digits_digit by lia.
      rewrite scan_digits_stop by done. by rewrite Z.add_0_l.
    - by exists k. }
  destruct (H (Z.abs x) (Z.abs_nonneg x)) as (k & Hk & Hs). unfold exponent_string.
  set (ds := if Z.abs x <? 10 then _ else _) in *.
  destruct (Z.ltb_spec x 0); rewrite string_app_assoc, string_app_cons; cbn [scan_exponent];
    rewrite decide_True, string_app_cons, string_app_nil by auto; unfold scan_sign;
    rewrite ?(decide_False (P := "+"%char = "-"%char)), decide_True by done;
    rewrite Hs, decide_False by lia; do 2 f_equal; lia.
Qed.

Lemma exponent_ends_mantissa x rest : ends_mantissa (exponent_string x +:+ rest).
Proof. unfold exponent_string. by destruct (x <? 0). Qed.

Lemma fixed_string_sign n k rest :
  0 <= n -> scan_sign (fixed_string n k +:+ rest) = (false, fixed_string n k +:+ rest).
Proof.
  intros Hn. unfold fixed_string. pose proof (strip_zeros_spec k n Hn) as Hs.
  destruct (strip_zeros k n) as [n' k']. rewrite string_app_assoc.
  apply scan_sign_dec_string, Z.div_pos; [lia|]. by apply Z.pow_pos_nonneg; lia.
Qed.

(** The decimal that [format6] prints: [D * 10^(X-5)], its trailing zeros
    moved into the exponent. *)
Lemma format6_scan neg D X rest :
  0 <= D -> ends_number rest ->
  exists d j, scan_float (format6 neg D X +:+ rest) = (Some d, rest) /\ 0 <= j /\
    dneg d = neg /\ D = dmant d * 10 ^ j /\ dexp d = X - 5 + j.
Proof.
  intros HD Hr. unfold format6, scan_float.
  set (body := if (-4 <=? X) && (X <? 6) then _ else _).
  assert (exists n k m j s, scan_sign (body +:+ rest) = (false, body +:+ rest) /\
    scan_mantissa (body +:+ rest) = (n, m, k, s) /\ (0 < m)%nat /\ 0 <= j /\
    D = n * 10 ^ j /\ exists e, scan_exponent s = (Some e, rest) /\
    e - Z.of_nat k = X - 5 + j) as (n & k & m & j & s & Hg & Hm & Hpos & Hj & HDn & e & He & Hx).
  { subst body. destruct (Z.leb_spec (-4) X), (Z.ltb_spec X 6); cbn [andb].
    1: { destruct (fixed_string_scan D (Z.to_nat (5 - X)) rest) as (n & k & m & Hs & Hm & Hk & Hn & Heq);
           [done|by apply ends_number_mantissa|].
         exists n, k, m, (Z.of_nat (Z.to_nat (5 - X)) - Z.of_nat k), rest.
         split_and!; [by apply fixed_string_sign|done|done|lia|done|].
         exists 0. split; [by apply scan_exponent_none|lia]. }
    all: rewrite string_app_assoc;
      destruct (fixed_string_scan D 5 (exponent_string X +:+ rest))
        as (n & k & m & Hs & Hm & Hk & Hn & Heq); [done|apply exponent_ends_mantissa|];
      exists n, k, m, (Z.of_nat 5 - Z.of_nat k), (exponent_string X +:+ rest);
      (split_and!; [by apply fixed_string_sign|done|done|lia|done|]);
      exists X; (split; [|lia]); apply exponent_string_scan, ends_mantissa_digits,
        ends_number_mantissa, Hr. }
  exists (Dec neg n (e - Z.of_nat k)), j. split_and!; [|done..].
  rewrite string_app_assoc. destruct neg.
  - rewrite string_app_cons, string_app_nil. unfold scan_sign at 1.
    rewrite decide_True by done. rewrite Hm, decide_False, He by lia. done.
  - rewrite string_app_nil, Hg, Hm, decide_False, He by lia. done.
Qed.

(** [d] is [x] to six significant digits. *)
Definition six_digits (neg : bool) (m : positive) (e : Z) (d : decimal) : Prop :=
  exists D X j, 100000 <= D < 1000000 /\ 0 <= j /\
    dneg d = neg /\ D = dmant d * 10 ^ j /\ dexp d = X - 5 + j /\
    let '(n, den) := fraction m e in
    let '(n', d') := scale n den X in 2 * Z.abs (D * d' - n') <= d'.

Lemma g6_scan neg m e rest :
  ends_number rest ->
  exists d, scan_float (g6 (S754_finite neg m e) +:+ rest) = (Some d, rest) /\ six_digits neg m e d.
Proof.
  intros Hr. unfold six_digits. cbn [g6]. unfold fraction.
  set (n := Z.pos m * _). set (den := 2 ^ _).
  assert (0 < den) by (unfold den; apply Z.pow_pos_nonneg; lia).
  assert (0 < n) by (unfold n; pose proof (Z.pow_pos_nonneg 2 (Z.max e 0)); lia).
  pose proof (round6_spec n den ltac:(done) ltac:(done)) as H6.
  destruct (round6 n den) as [D X]. destruct H6 as [HD Herr].
  destruct (format6_scan neg D X rest ltac:(lia) Hr) as (d & j & Hs & Hj & Hneg & HDj & Hexp).
  exists d. split; [done|]. exists D, X, j. done.
Qed.
