(* ===== verification/Sys.v ===== *)
(** * The system interface

    Every call the programs make outside the repository: libzmq's C API, the
    memory a message owns, libc and Boost.Process, the standard output.  They
    are the events [sysE]; nothing about their implementation is defined here.
    [NetP] states, as a protocol over the abstract state [world], the documented
    behaviour the programs rely on; [sim] is one concrete environment that
    keeps it, used to run the programs. *)

From S2P Require Import Prelude CInt Prog.
From ITree Require Import ITree.
Local Open Scope Z_scope.

(** ** Calls *)

(** Constants of the C headers. *)
Definition EAGAIN : Z := 11.
Definition ETERM : Z := 156384765.
Definition NULL : Z := 0.
Definition ZMQ_PAIR : Z := 0.
Definition ZMQ_PUB : Z := 1.
Definition ZMQ_SUB : Z := 2.
Definition ZMQ_REQ : Z := 3.
Definition ZMQ_REP : Z := 4.
Definition ZMQ_PULL : Z := 7.
Definition ZMQ_PUSH : Z := 8.
Definition ZMQ_IDENTITY : Z := 5.
Definition ZMQ_SUBSCRIBE : Z := 6.
Definition ZMQ_RCVMORE : Z := 13.
Definition ZMQ_RCVTIMEO : Z := 27.
Definition ZMQ_SNDMORE : Z := 2.
Definition ZMQ_IO_THREADS : Z := 1.
Definition WNOHANG : Z := 1.
Definition ZMQ_EVENT_CONNECTED : Z := 1.
Definition ZMQ_EVENT_CONNECT_DELAYED : Z := 2.
Definition ZMQ_EVENT_CONNECT_RETRIED : Z := 4.
Definition ZMQ_EVENT_LISTENING : Z := 8.
Definition ZMQ_EVENT_BIND_FAILED : Z := 16.
Definition ZMQ_EVENT_ACCEPTED : Z := 32.
Definition ZMQ_EVENT_ACCEPT_FAILED : Z := 64.
Definition ZMQ_EVENT_CLOSED : Z := 128.
Definition ZMQ_EVENT_CLOSE_FAILED : Z := 256.
Definition ZMQ_EVENT_DISCONNECTED : Z := 512.
Definition ZMQ_EVENT_MONITOR_STOPPED : Z := 1024.

(** A [zmq_msg_t] object, named by its address; an opaque handle returned by
    libzmq, [NULL] included; a pointer into memory. *)
Abbreviation zmq_msg_t := Z (only parsing).
Abbreviation handle := Z (only parsing).
Abbreviation ptr := Z (only parsing).

Variant sysE : Type -> Type :=
(* zmq_msg_*: [NewMsg] is the storage of a zmq_msg_t variable. *)
| NewMsg : sysE zmq_msg_t
| ZMsgInit (m : zmq_msg_t) : sysE Z
| ZMsgInitSize (m : zmq_msg_t) (size : Z) : sysE Z
| ZMsgInitData (m : zmq_msg_t) (data : ptr) (size : Z) (ffn hint : ptr) : sysE Z
| ZMsgStructCopy (dst src : zmq_msg_t) : sysE unit
| ZMsgMove (dst src : zmq_msg_t) : sysE Z
| ZMsgCopy (dst src : zmq_msg_t) : sysE Z
| ZMsgMore (m : zmq_msg_t) : sysE Z
| ZMsgData (m : zmq_msg_t) : sysE ptr
| ZMsgSize (m : zmq_msg_t) : sysE Z
| ZMsgClose (m : zmq_msg_t) : sysE Z
| ZMsgSend (m : zmq_msg_t) (s : handle) (flags : Z) : sysE Z
| ZMsgRecv (m : zmq_msg_t) (s : handle) (flags : Z) : sysE Z
(* contexts and sockets *)
| ZCtxNew : sysE handle
| ZCtxSet (c : handle) (option value : Z) : sysE Z
| ZCtxDestroy (c : handle) : sysE Z
| ZSocket (c : handle) (type : Z) : sysE handle
| ZClose (s : handle) : sysE Z
| ZSetsockopt (s : handle) (option : Z) (value : string) : sysE Z
| ZSetsockoptInt (s : handle) (option value : Z) : sysE Z
| ZGetsockopt (s : handle) (option : Z) : sysE (Z * Z)
| ZBind (s : handle) (addr : string) : sysE Z
| ZUnbind (s : handle) (addr : string) : sysE Z
| ZConnect (s : handle) (addr : string) : sysE Z
| ZDisconnect (s : handle) (addr : string) : sysE Z
| ZSend (s : handle) (buf : string) (flags : Z) : sysE Z
| ZRecv (s : handle) (buf : ptr) (len flags : Z) : sysE Z
| ZRecvmsg (s : handle) (m : zmq_msg_t) (flags : Z) : sysE Z
| ZSocketMonitor (s : handle) (addr : option string) (events : Z) : sysE Z
| ZPoll (items : ptr) (nitems timeout : Z) : sysE Z
| ZProxy (frontend backend capture : handle) : sysE Z
| ZErrno : sysE Z
| ZVersion : sysE (Z * Z * Z)
| ZStrerror (errnum : Z) : sysE string
(* memory *)
| MemWrite (p : ptr) (bytes : string) : sysE unit
| MemRead (p : ptr) (n : Z) : sysE string
(* libc, iostream, Boost.Process *)
| Cout (s : string) : sysE unit
| Sleep (seconds : Z) : sysE unit
| Srand : sysE unit
| Rand : sysE Z
| Waitpid (pid options : Z) : sysE (Z * option Z)
| Launch (exec : string) (args : list string) : sysE (option exn)
(* the telemetry_client objects of a worker (base-client.hpp) *)
| ClientNew (id : string) (messages : Z) (random : bool) (interval length : Z) : sysE (exn + Z)
| ClientRun (c : Z) (uri : string) : sysE (option exn)
| ClientWait (c : Z) : sysE (option exn)
| ClientStats (c : Z) : sysE (exn + string).

(** ** The world the programs see *)

(** What happens at a receiving socket: a message part arrives, the receive
    timeout expires, or the call fails with an [errno]. *)
Inductive arrival :=
| Frame (body : string)
| TimedOut
| Failed (errno : Z).

(** The visible actions of a process, in program order. *)
Inductive action :=
| ARecv (s : handle) (body : string)
| ASend (s : handle) (more : bool) (body : string)
| ASendFailed (s : handle) (errno : Z)
| AContext (io_threads : Z)
| ASocket (s : handle) (type : Z)
| AOption (s : handle) (option : Z) (value : Z + string)
| ABind (s : handle) (addr : string)
| AConnect (s : handle) (addr : string)
| AClose (s : handle)
| AMonitor (s : handle) (addr : option string) (events : Z)
| ACtxClose
| ACout (s : string)
| ASleep (seconds : Z)
| AReap (pid : Z) (status : option Z)
| ALaunch (exec : string) (args : list string)
| AClientNew (c : Z) (id : string) (messages : Z) (random : bool) (interval length : Z)
| AClientRun (c : Z) (uri : string)
| AClientWait (c : Z)
| AClientStats (c : Z).

(** The arguments a client object is constructed and run with. *)
Record client_args := ClientArgs {
  ca_id : string;
  ca_messages : Z;
  ca_random : bool;
  ca_interval : Z;
  ca_length : Z;
  ca_uri : string;
}.

(** The life of a client object: constructed, run, and awaited. *)
Variant phase := Constructed | Started | Joined.

(** How a client object of a process behaves, for its arguments. *)
Record client_script := ClientScript {
  cs_args : client_args;
  cs_new : option exn;
  cs_run : option exn;
  cs_wait : option exn;
  cs_stats : exn + string;
}.

(** [live]: the initialised messages and their bodies.  [arrivals]: what each
    socket will deliver, sockets numbered in order of creation.  [send_faults]:
    the outcomes of the next sends, [None] (and the empty list) for success.
    [reaps], [randoms], [clients]: what waitpid, rand and the client objects
    will answer; [launch_faults] likewise for bp::launch.  [objects]: how far
    the client objects made so far have come, numbered in that order. *)
Set Primitive Projections.
Record world := World {
  live : gmap Z string;
  arrivals : gmap Z (list arrival);
  errno : Z;
  send_faults : list (option Z);
  sockets : Z;
  reaps : list (Z * option Z);
  randoms : list Z;
  launch_faults : list (option exn);
  clients : list client_script;
  objects : list phase;
  trace : list action;
}.
Unset Primitive Projections.

Definition set_live (l : gmap Z string) (w : world) : world :=
  World l (arrivals w) (errno w) (send_faults w) (sockets w) (reaps w) (randoms w)
        (launch_faults w) (clients w) (objects w) (trace w).
Definition set_arrivals (a : gmap Z (list arrival)) (w : world) : world :=
  World (live w) a (errno w) (send_faults w) (sockets w) (reaps w) (randoms w)
        (launch_faults w) (clients w) (objects w) (trace w).
Definition set_errno (e : Z) (w : world) : world :=
  World (live w) (arrivals w) e (send_faults w) (sockets w) (reaps w) (randoms w)
        (launch_faults w) (clients w) (objects w) (trace w).
Definition set_send_faults (f : list (option Z)) (w : world) : world :=
  World (live w) (arrivals w) (errno w) f (sockets w) (reaps w) (randoms w)
        (launch_faults w) (clients w) (objects w) (trace w).
Definition new_socket (w : world) : world :=
  World (live w) (arrivals w) (errno w) (send_faults w) (sockets w + 1) (reaps w) (randoms w)
        (launch_faults w) (clients w) (objects w) (trace w).
Definition set_reaps (r : list (Z * option Z)) (w : world) : world :=
  World (live w) (arrivals w) (errno w) (send_faults w) (sockets w) r (randoms w)
        (launch_faults w) (clients w) (objects w) (trace w).
Definition set_randoms (r : list Z) (w : world) : world :=
  World (live w) (arrivals w) (errno w) (send_faults w) (sockets w) (reaps w) r
        (launch_faults w) (clients w) (objects w) (trace w).
Definition set_launch_faults (l : list (option exn)) (w : world) : world :=
  World (live w) (arrivals w) (errno w) (send_faults w) (sockets w) (reaps w) (randoms w)
        l (clients w) (objects w) (trace w).
Definition set_objects (l : list phase) (w : world) : world :=
  World (live w) (arrivals w) (errno w) (send_faults w) (sockets w) (reaps w) (randoms w)
        (launch_faults w) (clients w) l (trace w).
Definition emits (l : list action) (w : world) : world :=
  World (live w) (arrivals w) (errno w) (send_faults w) (sockets w) (reaps w) (randoms w)
        (launch_faults w) (clients w) (objects w) (trace w ++ l).

Definition emit (a : action) : world -> world := emits [a].

(** The next [n] arrivals of socket [s] are consumed. *)
Definition pop_arrivals (s : handle) (l : list arrival) (w : world) : world :=
  set_arrivals (<[s := l]> (arrivals w)) w.

(** The address of the next message object: any name not in use. *)
Definition fresh_msg (w : world) : zmq_msg_t := fresh (dom (live w) : gset Z).

Lemma fresh_msg_not_live w : live w !! fresh_msg w = None.
Proof.
  unfold fresh_msg. generalize (live w) as l. intros l.
  apply (not_elem_of_dom (D := gset Z)), is_fresh.
Qed.

(** Client [c] is an object in phase [p], with script [cs]. *)
Definition client_at (w : world) (c : Z) (p : phase) (cs : client_script) : Prop :=
  0 <= c /\ objects w !! Z.to_nat c = Some p /\ clients w !! Z.to_nat c = Some cs.

Definition set_phase (c : Z) (p : phase) (w : world) : world :=
  set_objects (<[Z.to_nat c := p]> (objects w)) w.

(** The outcome of the next send. *)
Definition head_fault (l : list (option Z)) : option Z :=
  match l with Some e :: _ => Some e | _ => None end.

(** ** The documented behaviour *)

Definition net_enabled {X} (e : sysE X) (w : world) : Prop :=
  match e with
  | NewMsg | ZErrno | ZStrerror _ | Cout _ | Sleep _ | Srand | ZCtxNew => True
  | ZMsgInit m => live w !! m = None
  | ZMsgInitSize m n => live w !! m = None /\ 0 <= n
  | ZMsgData m | ZMsgSize m | ZMsgClose m => is_Some (live w !! m)
  | ZMsgSend m s _ => is_Some (live w !! m) /\ 1 <= s <= sockets w
  | ZMsgRecv m s _ | ZRecvmsg s m _ =>
      is_Some (live w !! m) /\ 1 <= s <= sockets w /\
      exists a l, arrivals w !! s = Some (a :: l)
  | MemWrite p bytes => exists b, live w !! p = Some b /\ String.length b = String.length bytes
  | MemRead p n => exists b, live w !! p = Some b /\ n = Z.of_nat (String.length b)
  | ZCtxSet c _ _ | ZSocket c _ => c <> NULL
  | ZCtxDestroy c => c <> NULL
  | ZClose s | ZBind s _ | ZConnect s _ | ZSetsockopt s _ _ | ZSetsockoptInt s _ _ | ZSocketMonitor s _ _ =>
      1 <= s <= sockets w
  | Waitpid _ _ => reaps w <> []
  | Rand => randoms w <> []
  | Launch _ _ => True
  | ClientNew id messages random interval length =>
      exists cs, clients w !! List.length (objects w) = Some cs /\
        cs_args cs = ClientArgs id messages random interval length (ca_uri (cs_args cs))
  | ClientRun c uri => exists cs, client_at w c Constructed cs /\ ca_uri (cs_args cs) = uri
  | ClientWait c => exists cs, client_at w c Started cs
  | ClientStats c => exists cs, client_at w c Joined cs
  | _ => False
  end.

Definition net_contract {X} (e : sysE X) (w : world) : X -> world -> Prop :=
  match e in sysE X return X -> world -> Prop with
  | NewMsg => fun m w' => m = fresh_msg w /\ w' = w
  | ZMsgInit m => fun rc w' => rc = 0 /\ w' = set_live (<[m := ""]> (live w)) w
  | ZMsgInitSize m n => fun rc w' =>
      rc = 0 /\ exists b, Z.of_nat (String.length b) = n /\ w' = set_live (<[m := b]> (live w)) w
  | ZMsgData m => fun p w' => p = m /\ w' = w
  | ZMsgSize m => fun n w' =>
      n = Z.of_nat (String.length (default "" (live w !! m))) /\ w' = w
  | ZMsgClose m => fun rc w' => rc = 0 /\ w' = set_live (delete m (live w)) w
  | ZMsgSend m s flags => fun n w' =>
      match head_fault (send_faults w) with
      | Some e => n = -1 /\ w' = set_errno e (set_send_faults (tail (send_faults w))
                                               (emit (ASendFailed s e) w))
      | None => 0 <= n /\
          w' = set_live (<[m := ""]> (live w)) (set_send_faults (tail (send_faults w))
                 (emit (ASend s (bool_decide (flags = ZMQ_SNDMORE)) (default "" (live w !! m))) w))
      end
  | ZMsgRecv m s _ | ZRecvmsg s m _ => fun n w' =>
      match arrivals w !! s with
      | Some (Frame b :: l) =>
          0 <= n /\ w' = set_live (<[m := b]> (live w)) (pop_arrivals s l (emit (ARecv s b) w))
      | Some (TimedOut :: l) => n = -1 /\ w' = set_errno EAGAIN (pop_arrivals s l w)
      | Some (Failed e :: l) => n = -1 /\ w' = set_errno e (pop_arrivals s l w)
      | _ => False
      end
  | ZErrno => fun e w' => e = errno w /\ w' = w
  | ZStrerror _ => fun _ w' => w' = w
  | MemWrite p bytes => fun _ w' => w' = set_live (<[p := bytes]> (live w)) w
  | MemRead p n => fun b w' => b = default "" (live w !! p) /\ w' = w
  | Cout s => fun _ w' => w' = emit (ACout s) w
  | Sleep n => fun _ w' => w' = emit (ASleep n) w
  | Srand => fun _ w' => w' = w
  | Rand => fun x w' => x = hd 0 (randoms w) /\ w' = set_randoms (tail (randoms w)) w
  | ZCtxNew => fun c w' => c <> NULL /\ w' = w
  | ZCtxSet _ _ v => fun rc w' => rc = 0 /\ w' = emit (AContext v) w
  | ZCtxDestroy _ => fun rc w' => rc = 0 /\ w' = emit ACtxClose w
  | ZSocket _ t => fun s w' => s = sockets w + 1 /\ w' = new_socket (emit (ASocket s t) w)
  | ZClose s => fun rc w' => rc = 0 /\ w' = emit (AClose s) w
  | ZBind s a => fun rc w' => rc = 0 /\ w' = emit (ABind s a) w
  | ZConnect s a => fun rc w' => rc = 0 /\ w' = emit (AConnect s a) w
  | ZSocketMonitor s a evs => fun rc w' => rc = 0 /\ w' = emit (AMonitor s a evs) w
  | ZSetsockopt s o v => fun rc w' => rc = 0 /\ w' = emit (AOption s o (inr v)) w
  | ZSetsockoptInt s o v => fun rc w' => rc = 0 /\ w' = emit (AOption s o (inl v)) w
  | Waitpid _ _ => fun r w' =>
      r = hd (0, None) (reaps w) /\
      w' = set_reaps (tail (reaps w)) (emit (AReap (fst r) (snd r)) w)
  | Launch exec args => fun r w' =>
      r = hd None (launch_faults w) /\
      w' = set_launch_faults (tail (launch_faults w)) (emit (ALaunch exec args) w)
  | ClientNew id total random interval length => fun r w' =>
      match clients w !! List.length (objects w) with
      | Some cs =>
          let c := Z.of_nat (List.length (objects w)) in
          r = match cs_new cs with Some e => inl e | None => inr c end /\
          w' = set_objects (objects w ++ [Constructed])
                 (emit (AClientNew c id total random interval length) w)
      | None => False
      end
  | ClientRun c uri => fun r w' =>
      r = (clients w !! Z.to_nat c) ≫= cs_run /\ w' = set_phase c Started (emit (AClientRun c uri) w)
  | ClientWait c => fun r w' =>
      r = (clients w !! Z.to_nat c) ≫= cs_wait /\ w' = set_phase c Joined (emit (AClientWait c) w)
  | ClientStats c => fun r w' =>
      Some r = cs_stats <$> (clients w !! Z.to_nat c) /\ w' = emit (AClientStats c) w
  | _ => fun _ _ => False
  end.

(** A receive on an empty queue, and the calls whose script is exhausted, do
    not return. *)
Definition net_blocked {X} (e : sysE X) (w : world) : Prop :=
  match e with
  | ZMsgRecv m s _ | ZRecvmsg s m _ =>
      is_Some (live w !! m) /\ 1 <= s <= sockets w /\ arrivals w !! s = Some []
  | Waitpid _ _ => reaps w = []
  | _ => False
  end.

Definition NetP : protocol sysE world :=
  Protocol _ _ (@net_enabled) (@net_contract) (@net_blocked).

(** ** Composite effects *)

(** Socket [s] has been read down to [rest], [e] is the last [errno], and the
    actions [acts] were performed. *)
Definition after (s : handle) (rest : list arrival) (e : Z) (acts : list action) (w : world) :
    world :=
  emits acts (set_errno e (pop_arrivals s rest w)).

Lemma emits_emits l1 l2 w : emits l2 (emits l1 w) = emits (l1 ++ l2) w.
Proof. unfold emits. cbn. by rewrite app_assoc. Qed.

Lemma emit_emits a l w : emits l (emit a w) = emits (a :: l) w.
Proof. apply emits_emits. Qed.

Lemma emits_emit a l w : emit a (emits l w) = emits (l ++ [a]) w.
Proof. apply emits_emits. Qed.

Lemma emits_nil w : emits [] w = w.
Proof. unfold emits. by rewrite app_nil_r. Qed.

Lemma after_after s r1 e1 a1 r2 e2 a2 w :
  after s r2 e2 a2 (after s r1 e1 a1 w) = after s r2 e2 (a1 ++ a2) w.
Proof.
  unfold after, emits, set_errno, pop_arrivals, set_arrivals. cbn.
  by rewrite insert_insert_eq, app_assoc.
Qed.

Lemma emits_after s r e a l w : emits l (after s r e a w) = after s r e (a ++ l) w.
Proof. unfold after. apply emits_emits. Qed.

Lemma after_emits s r e a l w : after s r e a (emits l w) = after s r e (l ++ a) w.
Proof.
  unfold after, emits, set_errno, pop_arrivals, set_arrivals. cbn. by rewrite app_assoc.
Qed.

Lemma arrivals_after s r e a w : arrivals (after s r e a w) !! s = Some r.
Proof. apply lookup_insert_eq. Qed.

Lemma arrivals_after_ne s s' r e a w :
  s <> s' -> arrivals (after s r e a w) !! s' = arrivals w !! s'.
Proof. intros. by apply lookup_insert_ne. Qed.

(** Reading nothing and doing nothing. *)
Lemma after_id s r w : arrivals w !! s = Some r -> after s r (errno w) [] w = w.
Proof.
  intros H. unfold after, emits, set_errno, pop_arrivals, set_arrivals. cbn.
  by rewrite insert_id, app_nil_r.
Qed.

Lemma emits_objects l ps w : emits l (set_objects ps w) = set_objects ps (emits l w).
Proof. done. Qed.
