(* ===== verification/Zmq.v ===== *)
(** * zmq.hpp: the C++ binding of libzmq

    Every method turns a return code of the C API into a C++ result or an
    [error_t] exception.  An object is modelled by the handle it owns; a method
    that changes its object, or takes another by reference, returns the new
    value of each. *)

From S2P Require Import Prelude CInt Prog Sys.
Local Open Scope Z_scope.

(** [throw error_t ()]: the constructor reads [zmq_errno ()]. *)
Definition throw_error_t {A} : M sysE A := e <- call ZErrno;; throw (error_t e).

(** [what ()]: [zmq_strerror (errnum)] for an [error_t]. *)
Definition what (x : exn) : M sysE string :=
  match x with
  | error_t errnum => call (ZStrerror errnum)
  | std_exception what => ret what
  end.

(** [num ()] *)
Definition num (x : exn) : option Z :=
  match x with error_t errnum => Some errnum | std_exception _ => None end.

(** [if (rc != 0) throw error_t ();] *)
Definition check_rc (rc : Z) : M sysE unit := if rc =? 0 then ret tt else throw_error_t.

(** [ZMQ_ASSERT (expression)] in a build without NDEBUG. *)
Definition ZMQ_ASSERT (b : bool) : M sysE unit := if b then ret tt else halt Aborted.

(** [zmq::poll] and [zmq::proxy] *)
Definition poll (items : ptr) (nitems timeout : Z) : M sysE Z :=
  rc <- call (ZPoll items nitems timeout);;
  if rc <? 0 then throw_error_t else ret rc.

Definition proxy (frontend backend capture : handle) : M sysE unit :=
  rc <- call (ZProxy frontend backend capture);; check_rc rc.

(** [version (int *major_, int *minor_, int *patch_)] *)
Definition version : M sysE (Z * Z * Z) := call ZVersion.

(** ** [message_t] *)

Module message.

(** [message_t ()] *)
Definition new : M sysE zmq_msg_t :=
  msg <- call NewMsg;;
  rc <- call (ZMsgInit msg);;
  check_rc rc;;
  ret msg.

(** [message_t (size_t size_)] *)
Definition new_size (size : Z) : M sysE zmq_msg_t :=
  msg <- call NewMsg;;
  rc <- call (ZMsgInitSize msg size);;
  check_rc rc;;
  ret msg.

(** [message_t (void *data_, size_t size_, free_fn *ffn_, void *hint_)] *)
Definition new_data (data : ptr) (size : Z) (ffn hint : ptr) : M sysE zmq_msg_t :=
  msg <- call NewMsg;;
  rc <- call (ZMsgInitData msg data size ffn hint);;
  check_rc rc;;
  ret msg.

(** [message_t (message_t &&rhs)] *)
Definition new_move (rhs : zmq_msg_t) : M sysE zmq_msg_t :=
  msg <- call NewMsg;;
  call (ZMsgStructCopy msg rhs);;
  rc <- call (ZMsgInit rhs);;
  check_rc rc;;
  ret msg.

(** [operator = (message_t &&rhs)]: [std::swap] of the two structs. *)
Definition assign_move (msg rhs : zmq_msg_t) : M sysE unit :=
  tmp <- call NewMsg;;
  call (ZMsgStructCopy tmp msg);;
  call (ZMsgStructCopy msg rhs);;
  call (ZMsgStructCopy rhs tmp).

(** [~message_t ()] *)
Definition dtor (msg : zmq_msg_t) : M sysE unit :=
  rc <- call (ZMsgClose msg);;
  ZMQ_ASSERT (rc =? 0).

(** [rebuild ()], [rebuild (size_)], [rebuild (data_, size_, ffn_, hint_)] *)
Definition rebuild (msg : zmq_msg_t) : M sysE unit :=
  rc <- call (ZMsgClose msg);; check_rc rc;;
  rc <- call (ZMsgInit msg);; check_rc rc.
Definition rebuild_size (msg : zmq_msg_t) (size : Z) : M sysE unit :=
  rc <- call (ZMsgClose msg);; check_rc rc;;
  rc <- call (ZMsgInitSize msg size);; check_rc rc.
Definition rebuild_data (msg : zmq_msg_t) (data : ptr) (size : Z) (ffn hint : ptr) : M sysE unit :=
  rc <- call (ZMsgClose msg);; check_rc rc;;
  rc <- call (ZMsgInitData msg data size ffn hint);; check_rc rc.

Definition move (msg src : zmq_msg_t) : M sysE unit := rc <- call (ZMsgMove msg src);; check_rc rc.
Definition copy (msg src : zmq_msg_t) : M sysE unit := rc <- call (ZMsgCopy msg src);; check_rc rc.
Definition more (msg : zmq_msg_t) : M sysE bool :=
  rc <- call (ZMsgMore msg);; ret (negb (rc =? 0)).
Definition data (msg : zmq_msg_t) : M sysE ptr := call (ZMsgData msg).
Definition size (msg : zmq_msg_t) : M sysE Z := call (ZMsgSize msg).

End message.

(** ** [context_t]: the object is its [ptr] *)

Module context.

Definition new : M sysE handle :=
  ptr <- call ZCtxNew;;
  if ptr =? NULL then throw_error_t else ret ptr.

Definition new_threads (io_threads : Z) : M sysE handle :=
  ptr <- call ZCtxNew;;
  (if ptr =? NULL then throw_error_t else ret tt);;
  rc <- call (ZCtxSet ptr ZMQ_IO_THREADS io_threads);;
  ZMQ_ASSERT (rc =? 0);;
  ret ptr.

(** The new object and what is left in [rhs]. *)
Definition new_move (rhs : handle) : handle * handle := (rhs, NULL).
Definition assign_move (c rhs : handle) : handle * handle := (rhs, c).

Definition close (c : handle) : M sysE handle :=
  if c =? NULL then ret c
  else
    rc <- call (ZCtxDestroy c);;
    ZMQ_ASSERT (rc =? 0);;
    ret NULL.

Definition dtor (c : handle) : M sysE unit := close c;; ret tt.

(** [operator void* ()] *)
Definition void_ptr (c : handle) : ptr := c.

End context.

(** ** [socket_t] *)

(** [ctxptr] is [None] while it has not been given a value. *)
Record socket_t := Socket { sptr : handle; ctxptr : option handle }.

Module socket.

Definition new (context : handle) (type : Z) : M sysE socket_t :=
  ptr <- call (ZSocket context type);;
  if ptr =? NULL then throw_error_t else ret (Socket ptr (Some context)).

(** [socket_t (socket_t&& rhs) : ptr (rhs.ptr) { rhs.ptr = NULL; }]; the new
    object, then [rhs]. *)
Definition new_move (rhs : socket_t) : socket_t * socket_t :=
  (Socket (sptr rhs) None, Socket NULL (ctxptr rhs)).

(** [operator = (socket_t&& rhs)]: [std::swap (ptr, rhs.ptr)]. *)
Definition assign_move (s rhs : socket_t) : socket_t * socket_t :=
  (Socket (sptr rhs) (ctxptr s), Socket (sptr s) (ctxptr rhs)).

(** [operator void* ()] *)
Definition void_ptr (s : socket_t) : ptr := sptr s.

Definition close (s : socket_t) : M sysE socket_t :=
  if sptr s =? NULL then ret s
  else
    rc <- call (ZClose (sptr s));;
    ZMQ_ASSERT (rc =? 0);;
    ret (Socket 0 (ctxptr s)).

Definition dtor (s : socket_t) : M sysE unit := close s;; ret tt.

Definition setsockopt (s : socket_t) (option : Z) (value : string) : M sysE unit :=
  rc <- call (ZSetsockopt (sptr s) option value);; check_rc rc.
(** The same method with the address of an [int]. *)
Definition setsockopt_int (s : socket_t) (option value : Z) : M sysE unit :=
  rc <- call (ZSetsockoptInt (sptr s) option value);; check_rc rc.
Definition getsockopt (s : socket_t) (option : Z) : M sysE Z :=
  '(rc, value) <- call (ZGetsockopt (sptr s) option);; check_rc rc;; ret value.
Definition bind (s : socket_t) (addr : string) : M sysE unit :=
  rc <- call (ZBind (sptr s) addr);; check_rc rc.
Definition unbind (s : socket_t) (addr : string) : M sysE unit :=
  rc <- call (ZUnbind (sptr s) addr);; check_rc rc.
Definition connect (s : socket_t) (addr : string) : M sysE unit :=
  rc <- call (ZConnect (sptr s) addr);; check_rc rc.
Definition disconnect (s : socket_t) (addr : string) : M sysE unit :=
  rc <- call (ZDisconnect (sptr s) addr);; check_rc rc.
Definition connected (s : socket_t) : bool := negb (sptr s =? NULL).

(** What a transfer makes of the byte count of the C call: success, [EAGAIN]
    (no exception), or [error_t]. *)
Definition transfer {A} (nbytes : Z) (ok again : A) : M sysE A :=
  if 0 <=? nbytes then ret ok
  else
    e <- call ZErrno;;
    if e =? EAGAIN then ret again else throw_error_t.

(** [send (const void *buf_, size_t len_, int flags_)] and
    [recv (void *buf_, size_t len_, int flags_)] *)
Definition send_buf (s : socket_t) (buf : string) (flags : Z) : M sysE Z :=
  nbytes <- call (ZSend (sptr s) buf flags);; transfer nbytes nbytes 0.
Definition recv_buf (s : socket_t) (buf : ptr) (len flags : Z) : M sysE Z :=
  nbytes <- call (ZRecv (sptr s) buf len flags);; transfer nbytes nbytes 0.

(** [send (message_t &msg_, int flags_ = 0)] and
    [recv (message_t *msg_, int flags_ = 0)] *)
Definition send (s : socket_t) (msg : zmq_msg_t) (flags : Z) : M sysE bool :=
  nbytes <- call (ZMsgSend msg (sptr s) flags);; transfer nbytes true false.
Definition recv (s : socket_t) (msg : zmq_msg_t) (flags : Z) : M sysE bool :=
  nbytes <- call (ZMsgRecv msg (sptr s) flags);; transfer nbytes true false.

End socket.
