(* ===== verification/ZHelpers.v ===== *)
(** * zhelpers.hpp: strings over sockets, and small utilities

    [s_recv], [s_send] and [s_sendmore] are what the three programs use of
    libzmq.  Their specifications against [NetP] ([s_send_runs] and the
    others) are the interface the program proofs are written against; they
    include that no message object is leaked. *)

From S2P Require Import Prelude CInt Prog Text Sys Zmq.
From Stdlib Require Import Floats.SpecFloat Ascii.
Local Open Scope Z_scope.

(** ** Strings over sockets *)

Definition s_recv (socket : socket_t) : M sysE string :=
  message <- message.new;;
  finally
    (socket.recv socket message 0;;
     data <- message.data message;;
     size <- message.size message;;
     call (MemRead data size))
    (message.dtor message).

Definition s_send_flags (socket : socket_t) (str : string) (flags : Z) : M sysE bool :=
  message <- message.new_size (Z.of_nat (String.length str));;
  finally
    (data <- message.data message;;
     call (MemWrite data str);;
     socket.send socket message flags)
    (message.dtor message).

Definition s_send (socket : socket_t) (str : string) : M sysE bool :=
  s_send_flags socket str 0.

(** Sends [str] as a non-terminal part of a multipart message. *)
Definition s_sendmore (socket : socket_t) (str : string) : M sysE bool :=
  s_send_flags socket str ZMQ_SNDMORE.

(** ** [s_dump] *)

Definition hex_digit (upper : bool) (d : Z) : ascii :=
  if d <? 10 then ascii_of_N (Z.to_N (48 + d))
  else ascii_of_N (Z.to_N ((if upper then 55 else 87) + d)).

Fixpoint hex_digits (upper : bool) (fuel : nat) (n : Z) (acc : string) : string :=
  match fuel with
  | O => acc
  | S fuel =>
      let acc := String (hex_digit upper (n mod 16)) acc in
      if n <? 16 then acc else hex_digits upper fuel (n / 16) acc
  end.
Definition hex_string (upper : bool) (n : Z) : string :=
  hex_digits upper (S (Z.to_nat (Z.log2 n))) n "".

(** [std::setw (n)] with fill '0', right adjusted. *)
Definition setw0 (n : nat) (s : string) : string :=
  String.string_of_list_ascii (replicate (n - String.length s) "0"%char) +:+ s.

(** The base of [std::cout]: [std::hex] stays in force until [std::dec]. *)
Record fmt := Fmt { fhex : bool }.

(** [out << n] for a non-negative int or an unsigned int. *)
Definition put_number (st : fmt) (n : Z) : string :=
  if fhex st then hex_string false n else to_string n.

Definition is_text (data : string) : bool :=
  forallb (fun c => negb ((uchar c <? 32) || (127 <? uchar c))) (String.list_ascii_of_string data).

(** The characters one by one: as they are, or [(unsigned int) data[i]] in
    hexadecimal, the [char] sign-extended first. *)
Fixpoint dump_bytes (text : bool) (st : fmt) (data : list ascii) : string * fmt :=
  match data with
  | [] => ("", st)
  | c :: data =>
      let '(s, st) :=
        if text then (String c "", st)
        else let st := Fmt true in (setw0 2 (put_number st (schar c mod 4294967296)), st) in
      let '(rest, st) := dump_bytes text st data in (s +:+ rest, st)
  end.


(** The line printed for one message part, and the state of the stream. *)
Definition dump_part (st : fmt) (data : string) : string * fmt :=
  let size := Z.of_nat (String.length data) in
  let header := "[" +:+ setw0 3 (put_number st size) +:+ "]" in
  let '(body, st) := dump_bytes (is_text data) st (String.list_ascii_of_string data) in
  (header +:+ body +:+ newline, st).

Definition s_dump (socket : socket_t) (st : fmt) : M sysE fmt :=
  call (Cout ("----------------------------------------" +:+ newline));;
  loop (fun st =>
    message <- message.new;;
    finally
      (socket.recv socket message 0;;
       size <- message.size message;;
       data <- message.data message;;
       data <- call (MemRead data (to_int size));;
       let '(line, st) := dump_part st data in
       call (Cout line);;
       more <- socket.getsockopt socket ZMQ_RCVMORE;;
       ret (if more =? 0 then inr st else inl st))
      (message.dtor message)) st.

(** ** Utilities *)

(** [within (num)]: [(int) ((float) (num) * random () / (RAND_MAX + 1.0))],
    [r] being the result of [random ()]: the product is a [float], the
    quotient a [double]. *)
Definition float_of_int (z : Z) : spec_float := binary_normalize 24 128 z 0 false.
Definition double_of_float (x : spec_float) : spec_float :=
  match x with
  | S754_finite s m e => binary_normalize 53 1024 (if s then Z.neg m else Z.pos m) e s
  | x => x
  end.
Definition truncate (x : spec_float) : Z :=
  match x with
  | S754_finite s m e =>
      let v := if 0 <=? e then Zpos m * 2 ^ e else Zpos m / 2 ^ (- e) in
      if s then - v else v
  | _ => 0
  end.
Definition within (num r : Z) : Z :=
  truncate (SFdiv 53 1024 (double_of_float (SFmul 24 128 (float_of_int num) (float_of_int r)))
                          (binary_normalize 53 1024 2147483648 0 false)).

(** The identity [s_set_id] builds from two results of [random ()]. *)
Definition identity_string (r1 r2 : Z) : string :=
  setw0 4 (hex_string true (within 65536 r1)) +:+ "-" +:+
  setw0 4 (hex_string true (within 65536 r2)).

Definition s_set_id (socket : socket_t) : M sysE string :=
  r1 <- call Rand;;
  r2 <- call Rand;;
  socket.setsockopt socket ZMQ_IDENTITY (identity_string r1 r2);;
  ret (identity_string r1 r2).

Definition endl : string := newline.

Definition s_version : M sysE unit :=
  '(major, minor, patch) <- call ZVersion;;
  call (Cout ("Current 0MQ version is " +:+ to_string major +:+ "." +:+ to_string minor +:+ "." +:+
              to_string patch +:+ endl)).

Definition s_version_assert (want_major want_minor : Z) : M sysE unit :=
  '(major, minor, _) <- call ZVersion;;
  if (major <? want_major) || ((major =? want_major) && (minor <? want_minor)) then
    call (Cout ("Current 0MQ version is " +:+ to_string major +:+ "." +:+ to_string minor +:+ endl));;
    call (Cout ("Application needs at least " +:+ to_string want_major +:+ "." +:+
                to_string want_minor +:+ " - cannot continue" +:+ endl));;
    halt (Exited 1)
  else ret tt.

(** [s_clock]: milliseconds of a [timeval]; [s_sleep]: the [timespec] of a
    number of milliseconds (C division truncates towards zero). *)
Definition s_clock (tv_sec tv_usec : Z) : Z := tv_sec * 1000 + Z.quot tv_usec 1000.
Definition s_sleep (msecs : Z) : option (Z * Z) :=
  sec ← div_int msecs 1000;
  ms ← rem_int msecs 1000;
  nsec ← mul_int ms 1000000;
  Some (sec, nsec).

(** ** Specifications against [NetP] *)

(** A socket object whose handle is open. *)
Definition open_socket (s : socket_t) (w : world) : Prop := 1 <= sptr s <= sockets w.

(** A part was sent / received / timed out on the socket. *)
Definition sent (s : handle) (more : bool) (str : string) (w : world) : world :=
  set_send_faults (tail (send_faults w)) (emit (ASend s more str) w).
Definition send_failed (s : handle) (e : Z) (w : world) : world :=
  set_errno e (set_send_faults (tail (send_faults w)) (emit (ASendFailed s e) w)).
Definition received (s : handle) (str : string) (rest : list arrival) (w : world) : world :=
  pop_arrivals s rest (emit (ARecv s str) w).
Definition recv_failed (s : handle) (e : Z) (rest : list arrival) (w : world) : world :=
  set_errno e (pop_arrivals s rest w).
(** Waiting in [s_recv]: its message object is still there. *)
Definition receiving (w : world) : world := set_live (<[fresh_msg w := ""]> (live w)) w.

(** One call of the C API: its precondition, then its possible answers. *)
Ltac step x H := apply wp_bind; apply wp_call; [|intros x ? H; simpl in H].

Lemma delete_fresh (w : world) b : delete (fresh_msg w) (<[fresh_msg w := b]> (live w)) = live w.
Proof. apply delete_insert_id, fresh_msg_not_live. Qed.

Lemma wp_check_rc_0 w Q : Q (Returns tt) w -> wp NetP (check_rc 0) w Q.
Proof. intros. by apply wp_ret. Qed.

Lemma wp_message_new w Q :
  Q (Returns (fresh_msg w)) (receiving w) -> wp NetP message.new w Q.
Proof.
  intros HQ. unfold message.new. step x H; [done|]. destruct H as [-> ->].
  step x H; [apply fresh_msg_not_live|]. destruct H as [-> ->].
  by apply wp_bind, wp_check_rc_0, wp_ret.
Qed.

Lemma wp_message_dtor w m Q :
  is_Some (live w !! m) ->
  Q (Returns tt) (set_live (delete m (live w)) w) -> wp NetP (message.dtor m) w Q.
Proof.
  intros Hm HQ. unfold message.dtor. step x H; [done|]. destruct H as [-> ->]. by apply wp_ret.
Qed.

(** The destructor on either exit of a scope that owns message [m]. *)
Lemma wp_scoped {A} (body : M sysE A) m w Q :
  wp NetP body w (fun o w' =>
    match o with
    | Returns _ | Stops (Thrown _) =>
        is_Some (live w' !! m) /\ Q o (set_live (delete m (live w')) w')
    | _ => Q o w'
    end) ->
  wp NetP (finally body (message.dtor m)) w Q.
Proof.
  intros H. apply wp_finally. eapply wp_mono; [exact H|].
  intros [a|[]|] w'; try done; intros [Hm HQ]; apply wp_bind, wp_message_dtor; try done;
    by first [apply wp_ret|apply wp_halt].
Qed.

Section specs.
Context (s : socket_t) (w : world) (Hs : open_socket s w).

Lemma wp_transfer {A} n (ok again : A) w' Q :
  (if 0 <=? n then Q (Returns ok) w'
   else if errno w' =? EAGAIN then Q (Returns again) w'
   else Q (Stops (Thrown (error_t (errno w')))) w') ->
  wp NetP (socket.transfer n ok again) w' Q.
Proof.
  unfold socket.transfer. intros H. destruct (0 <=? n); [by apply wp_ret|].
  step x Hc; [done|]. destruct Hc as [-> ->].
  destruct (errno w' =? EAGAIN); [by apply wp_ret|].
  unfold throw_error_t. step x Hc; [done|]. destruct Hc as [-> ->]. by apply wp_halt.
Qed.

Lemma wp_s_send_flags str flags Q :
  (match head_fault (send_faults w) with
   | None => Q (Returns true) (sent (sptr s) (bool_decide (flags = ZMQ_SNDMORE)) str w)
   | Some e =>
       Q (if e =? EAGAIN then Returns false else Stops (Thrown (error_t e)))
         (send_failed (sptr s) e w)
   end) ->
  wp NetP (s_send_flags s str flags) w Q.
Proof.
  intros HQ. unfold s_send_flags, message.new_size. apply wp_bind.
  step x H; [done|]. destruct H as [-> ->].
  step x H; [split; [apply fresh_msg_not_live|lia]|]. destruct H as (-> & b & Hb & ->).
  apply wp_bind, wp_check_rc_0, wp_ret, wp_scoped.
  step x H; [by exists b; apply lookup_insert_eq|]. destruct H as [-> ->].
  step u H; [exists b; split; [apply lookup_insert_eq|lia]|]. subst.
  unfold socket.send.
  step x H; [split; [by eexists; apply lookup_insert_eq|done]|].
  simpl in H. rewrite lookup_insert_eq in H. simpl in H.
  destruct (head_fault (send_faults w)) as [e|]; destruct H as [Hn ->]; apply wp_transfer.
  - subst x. simpl. destruct (e =? EAGAIN); (split; [by eexists; apply lookup_insert_eq|]).
    + revert HQ. by rewrite insert_insert_eq, delete_fresh.
    + revert HQ. by rewrite insert_insert_eq, delete_fresh.
  - destruct (Z.leb_spec 0 x); [|lia]. split; [by eexists; apply lookup_insert_eq|].
    revert HQ. simpl. by rewrite !insert_insert_eq, delete_fresh.
Qed.

Lemma s_send_flags_runs str flags :
  head_fault (send_faults w) = None ->
  runs NetP (s_send_flags s str flags) w (Returns true)
       (sent (sptr s) (bool_decide (flags = ZMQ_SNDMORE)) str w).
Proof. intros Hf. apply wp_s_send_flags. by rewrite Hf. Qed.

Lemma s_send_runs str :
  head_fault (send_faults w) = None ->
  runs NetP (s_send s str) w (Returns true) (sent (sptr s) false str w).
Proof. apply (s_send_flags_runs str 0). Qed.

Lemma s_sendmore_runs str :
  head_fault (send_faults w) = None ->
  runs NetP (s_sendmore s str) w (Returns true) (sent (sptr s) true str w).
Proof. apply (s_send_flags_runs str ZMQ_SNDMORE). Qed.

(** A failed send other than [EAGAIN] throws, and the message is freed. *)
Lemma s_send_flags_throws str flags e :
  head_fault (send_faults w) = Some e -> e <> EAGAIN ->
  runs NetP (s_send_flags s str flags) w (Stops (Thrown (error_t e))) (send_failed (sptr s) e w).
Proof.
  intros Hf He. apply wp_s_send_flags. rewrite Hf. by destruct (Z.eqb_spec e EAGAIN).
Qed.

(** [socket.recv (&message)] into a live message. *)
Lemma wp_recv m a l Q :
  is_Some (live w !! m) -> arrivals w !! sptr s = Some (a :: l) ->
  (match a with
   | Frame b => Q (Returns true) (set_live (<[m := b]> (live w)) (received (sptr s) b l w))
   | TimedOut => Q (Returns false) (recv_failed (sptr s) EAGAIN l w)
   | Failed e =>
       Q (if e =? EAGAIN then Returns false else Stops (Thrown (error_t e)))
         (recv_failed (sptr s) e l w)
   end) ->
  wp NetP (socket.recv s m 0) w Q.
Proof.
  intros Hm Ha HQ. unfold socket.recv.
  step x H; [split; [done|]; split; [done|by exists a, l]|]. rewrite Ha in H.
  destruct a as [b| |e]; destruct H as [Hx ->]; apply wp_transfer.
  - destruct (Z.leb_spec 0 x); [done|lia].
  - by subst x.
  - subst x. simpl. by destruct (e =? EAGAIN).
Qed.

Lemma wp_recv_waits m Q :
  is_Some (live w !! m) -> arrivals w !! sptr s = Some [] -> Q Waits w ->
  wp NetP (socket.recv s m 0) w Q.
Proof. intros Hm Ha HQ. unfold socket.recv. apply wp_bind, wp_call_blocked; [done|done]. Qed.

End specs.

Section recv_specs.
Context (s : socket_t) (w : world) (Hs : open_socket s w).

Lemma live_receiving : is_Some (live (receiving w) !! fresh_msg w).
Proof. eexists. apply lookup_insert_eq. Qed.

(** The tail of [s_recv]: the body of the message becomes the string. *)
Lemma wp_read_message m b w' Q :
  live w' !! m = Some b -> Q (Returns b) w' ->
  wp NetP (data <- message.data m;; size <- message.size m;; call (MemRead data size)) w' Q.
Proof.
  intros Hm HQ. unfold message.data, message.size.
  step x H; [by eexists|]. destruct H as [-> ->].
  step x H; [by eexists|]. destruct H as [-> ->]. rewrite Hm.
  apply wp_call; [by exists b|]. simpl. rewrite Hm. by intros ? ? [-> ->].
Qed.

Lemma s_recv_runs b l :
  arrivals w !! sptr s = Some (Frame b :: l) ->
  runs NetP (s_recv s) w (Returns b) (received (sptr s) b l w).
Proof.
  intros Ha. unfold s_recv. apply wp_bind, wp_message_new, wp_scoped, wp_bind.
  apply (wp_recv s (receiving w) Hs _ _ _ _ live_receiving Ha). simpl.
  apply (wp_read_message _ b); [apply lookup_insert_eq|].
  split; [by eexists; apply lookup_insert_eq|]. split; [done|]. simpl.
  unfold received, set_live, pop_arrivals, set_arrivals, emit, emits. simpl.
  by rewrite insert_insert_eq, delete_fresh.
Qed.

(** A receive timeout is not an error for [s_recv]: it returns "". *)
(** Nothing arrived, by the timeout or as the failure [EAGAIN]. *)
Lemma s_recv_again a l :
  a = TimedOut \/ a = Failed EAGAIN -> arrivals w !! sptr s = Some (a :: l) ->
  runs NetP (s_recv s) w (Returns "") (recv_failed (sptr s) EAGAIN l w).
Proof.
  intros Hor Ha. unfold s_recv. apply wp_bind, wp_message_new, wp_scoped, wp_bind.
  apply (wp_recv s (receiving w) Hs _ _ _ _ live_receiving Ha). destruct Hor as [-> | ->]; simpl.
  all: apply (wp_read_message _ ""); [apply lookup_insert_eq|].
  all: split; [by eexists; apply lookup_insert_eq|]; split; [done|]; simpl.
  all: unfold recv_failed, set_live, set_errno, pop_arrivals, set_arrivals; simpl.
  all: by rewrite delete_fresh.
Qed.

Lemma s_recv_throws e l :
  arrivals w !! sptr s = Some (Failed e :: l) -> e <> EAGAIN ->
  runs NetP (s_recv s) w (Stops (Thrown (error_t e))) (recv_failed (sptr s) e l w).
Proof.
  intros Ha He. unfold s_recv. apply wp_bind, wp_message_new, wp_scoped, wp_bind.
  apply (wp_recv s (receiving w) Hs _ _ _ _ live_receiving Ha). simpl.
  destruct (Z.eqb_spec e EAGAIN); [done|]. simpl.
  split; [by eexists; apply lookup_insert_eq|]. split; [done|]. simpl.
  unfold recv_failed, set_live, set_errno, pop_arrivals, set_arrivals. simpl.
  by rewrite delete_fresh.
Qed.

Lemma s_recv_waits :
  arrivals w !! sptr s = Some [] -> runs NetP (s_recv s) w Waits (receiving w).
Proof.
  intros Ha. unfold s_recv. apply wp_bind, wp_message_new, wp_scoped, wp_bind.
  apply (wp_recv_waits s (receiving w) Hs); [apply live_receiving|done|]. done.
Qed.

End recv_specs.

Lemma cout_runs str w : runs NetP (call (Cout str)) w (Returns tt) (emit (ACout str) w).
Proof. apply runs_call; [done|]. by intros [] w' ->. Qed.

Lemma sleep_runs n w : runs NetP (call (Sleep n)) w (Returns tt) (emit (ASleep n) w).
Proof. apply runs_call; [done|]. by intros [] w' ->. Qed.

#[export] Hint Resolve s_send_runs s_sendmore_runs s_recv_runs s_recv_again s_recv_throws
  s_recv_waits cout_runs sleep_runs : runs.

(** ** Specifications in a world whose sends succeed *)

Lemma sent_emit s more str w : send_faults w = [] -> sent s more str w = emit (ASend s more str) w.
Proof. unfold sent, emit, emits, set_send_faults. cbn. by intros ->. Qed.

Lemma s_send_emits s str w :
  open_socket s w -> send_faults w = [] ->
  runs NetP (s_send s str) w (Returns true) (emit (ASend (sptr s) false str) w).
Proof.
  intros Hs Hf. rewrite <- sent_emit by done. apply s_send_runs; [done|]. by rewrite Hf.
Qed.

Lemma s_sendmore_emits s str w :
  open_socket s w -> send_faults w = [] ->
  runs NetP (s_sendmore s str) w (Returns true) (emit (ASend (sptr s) true str) w).
Proof.
  intros Hs Hf. rewrite <- sent_emit by done. apply s_sendmore_runs; [done|]. by rewrite Hf.
Qed.

Lemma s_recv_after s b l w :
  open_socket s w -> arrivals w !! sptr s = Some (Frame b :: l) ->
  runs NetP (s_recv s) w (Returns b) (after (sptr s) l (errno w) [ARecv (sptr s) b] w).
Proof. intros Hs Ha. exact (s_recv_runs s w Hs b l Ha). Qed.

#[export] Hint Resolve s_send_emits s_sendmore_emits s_recv_after : runs.
