(* ===== verification/Console.v ===== *)
(** * zhelpers.hpp: the console and the signals

    [s_console], which prints a line behind the time of day, and
    [s_catch_signals], which lets a program end its main loop when it is
    interrupted.  No program of the repository calls them. *)

From Stdlib Require Import Ascii.
From S2P Require Import Prelude CInt Text.
Local Open Scope Z_scope.

(** ** The time of day *)

(** [struct tm], as far as the format uses it; [localtime] fills it with
    numbers of these ranges, and returns a null pointer if it cannot. *)
Record tm := Tm { tm_sec : Z; tm_min : Z; tm_hour : Z; tm_mday : Z; tm_mon : Z; tm_year : Z }.

Definition normal (t : tm) : Prop :=
  0 <= tm_sec t <= 60 /\ 0 <= tm_min t < 60 /\ 0 <= tm_hour t < 24 /\
  1 <= tm_mday t <= 31 /\ 0 <= tm_mon t < 12.

Definition digit (z : Z) : ascii := to_char (48 + z).
Definition two_digits (z : Z) : string := String (digit (z / 10)) (String (digit (z mod 10)) "").

(** The conversions of [strftime] that the source uses. *)
Definition conversion (c : ascii) (t : tm) : option string :=
  if (c =? "y")%char then Some (two_digits (tm_year t mod 100))
  else if (c =? "m")%char then Some (two_digits (tm_mon t + 1))
  else if (c =? "d")%char then Some (two_digits (tm_mday t))
  else if (c =? "H")%char then Some (two_digits (tm_hour t))
  else if (c =? "M")%char then Some (two_digits (tm_min t))
  else if (c =? "S")%char then Some (two_digits (tm_sec t))
  else None.

Fixpoint converted (format : string) (t : tm) : option string :=
  match format with
  | EmptyString => Some ""
  | String "%" (String c format) =>
      s ← conversion c t; rest ← converted format t; Some (s +:+ rest)
  | String c format => rest ← converted format t; Some (String c rest)
  end.

(** The text has to fit the buffer with its final NUL; otherwise the buffer
    holds no string. *)
Definition strftime (max : nat) (format : string) (t : tm) : option string :=
  s ← converted format t;
  if decide (String.length s < max)%nat then Some s else None.

(** ** s_console *)

Section console.
(** The arguments of a call, and the text [vprintf] makes of them; no call is
    in the repository. *)
Context {va_list : Type} (vprintf : string -> va_list -> string).

(** The pieces it prints, for the answer of [localtime]. *)
Definition s_console (loctime : option tm) (format : string) (argptr : va_list) : option (list string) :=
  t ← loctime;
  formatted ← strftime 20 "%y-%m-%d %H:%M:%S " t;
  Some [formatted; vprintf format argptr; newline].

(** The stamp, written out. *)
Definition stamp (t : tm) : string :=
  two_digits (tm_year t mod 100) +:+ "-" +:+ two_digits (tm_mon t + 1) +:+ "-" +:+
  two_digits (tm_mday t) +:+ " " +:+ two_digits (tm_hour t) +:+ ":" +:+ two_digits (tm_min t) +:+ ":" +:+
  two_digits (tm_sec t) +:+ " ".

(** The buffer of 20 bytes holds the 18 characters of every stamp and their
    NUL, so that what is printed is the stamp, the text and a line feed. *)
Lemma s_console_prints t format argptr :
  s_console (Some t) format argptr = Some [stamp t; vprintf format argptr; newline] /\
  String.length (stamp t) = 18%nat.
Proof. split; reflexivity. Qed.

End console.

(** The digits are decimal: the stamps of different times of a century differ. *)
Lemma two_digits_inj a b : 0 <= a < 100 -> 0 <= b < 100 -> two_digits a = two_digits b -> a = b.
Proof.
  assert (forall x y, 0 <= x < 10 -> 0 <= y < 10 -> digit x = digit y -> x = y) as Hd.
  { intros x y Hx Hy He.
    assert (x = 0 \/ x = 1 \/ x = 2 \/ x = 3 \/ x = 4 \/ x = 5 \/ x = 6 \/ x = 7 \/ x = 8 \/ x = 9) as Hx' by lia.
    assert (y = 0 \/ y = 1 \/ y = 2 \/ y = 3 \/ y = 4 \/ y = 5 \/ y = 6 \/ y = 7 \/ y = 8 \/ y = 9) as Hy' by lia.
    destruct_or?; subst; done. }
  intros Ha Hb He. injection He as H1 H2.
  apply Hd in H1; [|by split; [apply Z.div_pos|apply Z.div_lt_upper_bound]; lia..].
  apply Hd in H2; [|by apply Z.mod_pos_bound..].
  rewrite (Z.div_mod a 10), (Z.div_mod b 10) by done. lia.
Qed.

Lemma two_digits_app_inj a b x y : two_digits a +:+ x = two_digits b +:+ y -> two_digits a = two_digits b /\ x = y.
Proof. intros [= H1 H2 H3]. unfold two_digits. by rewrite H1, H2. Qed.

(** A stamp determines the second of its century. *)
Lemma stamp_inj t t' : normal t -> normal t' -> tm_year t / 100 = tm_year t' / 100 -> stamp t = stamp t' -> t = t'.
Proof.
  intros (H1 & H2 & H3 & H4 & H5) (H1' & H2' & H3' & H4' & H5') Hc Hs. unfold stamp in Hs.
  repeat match goal with
  | H : two_digits _ +:+ _ = two_digits _ +:+ _ |- _ => apply two_digits_app_inj in H as [? H]
  | H : "-" +:+ _ = "-" +:+ _ |- _ => apply string_app_inj_l in H
  | H : ":" +:+ _ = ":" +:+ _ |- _ => apply string_app_inj_l in H
  | H : " " +:+ _ = " " +:+ _ |- _ => apply string_app_inj_l in H
  | H : two_digits _ = two_digits _ |- _ =>
      apply two_digits_inj in H; [|lia || by apply Z.mod_pos_bound..]
  end.
  destruct t as [s mi h d mo y], t' as [s' mi' h' d' mo' y']. cbn in *.
  assert (y = y') by (rewrite (Z.div_mod y 100), (Z.div_mod y' 100) by done; congruence).
  f_equal; lia.
Qed.

(** ** Signals *)

Definition SIGINT : Z := 2.
Definition SIGTERM : Z := 15.

(** What a process does with a signal: the default, or a function of the
    program, of which [s_signal_handler] is the only one. *)
Variant sa_handler := SIG_DFL | Function_s_signal_handler.

(** [struct sigaction]; [sigemptyset] makes the mask empty. *)
Record sigaction := Sigaction { handler : sa_handler; sa_flags : Z; sa_mask : gset Z }.

(** A process: its dispositions (the default, where there is none), the static
    variable [s_interrupted], and whether a signal has ended it. *)
Record signals := Signals {
  actions : gmap Z sigaction;
  s_interrupted : Z;
  ended_by : option Z;
}.

Definition set_action (signum : Z) (a : sigaction) (p : signals) : signals :=
  Signals (<[signum := a]> (actions p)) (s_interrupted p) (ended_by p).

Definition s_signal_handler (signal_value : Z) (p : signals) : signals :=
  Signals (actions p) 1 (ended_by p).

Definition s_catch_signals (p : signals) : signals :=
  let action := Sigaction Function_s_signal_handler 0 ∅ in
  set_action SIGTERM action (set_action SIGINT action p).

(** A signal of the two reaches the process: by default, both end it. *)
Definition deliver (signum : Z) (p : signals) : signals :=
  match ended_by p with
  | Some _ => p
  | None =>
      match handler <$> actions p !! signum with
      | Some Function_s_signal_handler => s_signal_handler signum p
      | Some SIG_DFL | None => Signals (actions p) (s_interrupted p) (Some signum)
      end
  end.

Definition interrupt (signum : Z) : Prop := signum = SIGINT \/ signum = SIGTERM.

(** Before the call, the first of the signals ends the process. *)
Lemma deliver_default signum p :
  ended_by p = None -> actions p !! signum = None -> ended_by (deliver signum p) = Some signum.
Proof. intros He Ha. unfold deliver. by rewrite He, Ha. Qed.

(** After it, however many arrive, the process goes on, and the variable says
    whether one has arrived. *)
Lemma s_catch_signals_survives l p :
  ended_by p = None -> Forall interrupt l ->
  let p' := foldl (fun p s => deliver s p) (s_catch_signals p) l in
  ended_by p' = None /\ s_interrupted p' = if decide (l = []) then s_interrupted p else 1.
Proof.
  intros He Hl. cbn zeta.
  assert (forall q, actions q = actions (s_catch_signals p) -> ended_by q = None ->
    let q' := foldl (fun p s => deliver s p) q l in
    ended_by q' = None /\ s_interrupted q' = if decide (l = []) then s_interrupted q else 1) as H.
  { induction Hl as [|s l Hs _ IH]; intros q Ha Hq; [by rewrite decide_True|].
    assert (deliver s q = s_signal_handler s q) as Hd.
    { unfold deliver, s_catch_signals. rewrite Hq, Ha. cbn [set_action actions s_catch_signals].
      destruct Hs as [->| ->]; [rewrite lookup_insert_ne by done|]; by rewrite lookup_insert_eq. }
    cbn [foldl]. rewrite Hd. destruct (IH (s_signal_handler s q)) as [H1 H2]; [done|done|].
    split; [exact H1|]. rewrite H2. rewrite (decide_False (P := s :: l = [])) by done. by case_decide. }
  by apply (H (s_catch_signals p)).
Qed.
