(* ===== verification/Rounding.v ===== *)
(** * Rounding of the standard library's floats

    [spec_float] rounds by shifting a mantissa to the right bit by bit and
    keeping two flags of what has fallen out.  Here this is the quotient by a
    power of two, rounded to nearest, ties to even ([round_div]); from it
    follow the range of the macro [within] of zhelpers.hpp and the length of
    the identity that [s_set_id] sends. *)

From S2P Require Import Prelude CInt Text Double ZHelpers.
From Stdlib Require Import Floats.SpecFloat Ascii.
Local Open Scope Z_scope.

(** ** Shifting *)

Lemma iter_pos_nat {A} (f : A -> A) n x : iter_pos f n x = Nat.iter (Pos.to_nat n) f x.
Proof.
  revert x. induction n as [n IH|n IH|]; intros x; cbn [iter_pos]; rewrite ?IH; [| |done].
  - rewrite Pos2Nat.inj_xI, Nat.iter_succ_r, <- Nat.iter_add. f_equal. lia.
  - rewrite Pos2Nat.inj_xO, <- Nat.iter_add. f_equal. lia.
Qed.

Lemma shr_1_spec m r s : 0 <= m -> shr_1 (Build_shr_record m r s) = Build_shr_record (m / 2) (Z.odd m) (r || s).
Proof.
  intros Hm. destruct m as [|[p|p|]|p]; try done; cbn -[Z.div]; f_equal.
  - rewrite (Pos2Z.inj_xI p). apply Z.div_unique with 1; lia.
  - rewrite (Pos2Z.inj_xO p). apply Z.div_unique with 0; lia.
Qed.

(** The remainder of a division by [2^(j+1)], in bits. *)
Lemma mod_pow_S m j : 0 <= j -> m mod 2 ^ (j + 1) = m mod 2 ^ j + 2 ^ j * ((m / 2 ^ j) mod 2).
Proof. intros Hj. rewrite Z.pow_add_r, Z.pow_1_r by lia. rewrite Z.rem_mul_r; [done|lia..]. Qed.

Lemma shr_spec m j : 0 <= m ->
  Nat.iter (S j) shr_1 (Build_shr_record m false false) =
  Build_shr_record (m / 2 ^ (Z.of_nat j + 1)) (Z.odd (m / 2 ^ Z.of_nat j)) (negb (m mod 2 ^ Z.of_nat j =? 0)).
Proof.
  intros Hm. induction j as [|j IH]; [cbn [Nat.iter]; by rewrite shr_1_spec, Z.mod_1_r, Z.div_1_r|].
  change (Nat.iter (S (S j)) shr_1 ?x) with (shr_1 (Nat.iter (S j) shr_1 x)). rewrite IH.
  assert (0 <= m / 2 ^ (Z.of_nat j + 1)) by (apply Z.div_pos; lia).
  rewrite shr_1_spec by done. rewrite Nat2Z.inj_succ, <- Z.add_1_r. f_equal.
  - rewrite Z.div_div by lia. by rewrite (Z.pow_add_r 2 (Z.of_nat j + 1) 1) by lia.
  - rewrite mod_pow_S by lia. rewrite Zmod_odd.
    pose proof (Z.mod_pos_bound m (2 ^ Z.of_nat j)).
    destruct (Z.odd _), (Z.eqb_spec (m mod 2 ^ Z.of_nat j) 0); cbn [negb orb]; symmetry;
      try apply negb_true_iff; try apply negb_false_iff; rewrite ?Z.eqb_eq, ?Z.eqb_neq; lia.
Qed.

(** What rounding makes of it. *)
Lemma round_shr m j : 0 <= m ->
  let mrs := Nat.iter (S j) shr_1 (Build_shr_record m false false) in
  round_nearest_even (shr_m mrs) (loc_of_shr_record mrs) = round_div m (2 ^ Z.of_nat (S j)).
Proof.
  intros Hm. cbn zeta. rewrite shr_spec by done. unfold round_div. rewrite Nat2Z.inj_succ, <- Z.add_1_r.
  cbn [shr_m]. rewrite (mod_pow_S m (Z.of_nat j)), Zmod_odd, (Z.pow_add_r 2 (Z.of_nat j) 1) by lia.
  pose proof (Z.mod_pos_bound m (2 ^ Z.of_nat j)).
  destruct (Z.odd (m / 2 ^ Z.of_nat j)), (Z.eqb_spec (m mod 2 ^ Z.of_nat j) 0); cbn [negb loc_of_shr_record].
  - destruct (Z.compare_spec (2 * (m mod 2 ^ Z.of_nat j + 2 ^ Z.of_nat j * 1)) (2 ^ Z.of_nat j * 2 ^ 1)); lia || done.
  - destruct (Z.compare_spec (2 * (m mod 2 ^ Z.of_nat j + 2 ^ Z.of_nat j * 1)) (2 ^ Z.of_nat j * 2 ^ 1)); lia || done.
  - destruct (Z.compare_spec (2 * (m mod 2 ^ Z.of_nat j + 2 ^ Z.of_nat j * 0)) (2 ^ Z.of_nat j * 2 ^ 1)); lia || done.
  - destruct (Z.compare_spec (2 * (m mod 2 ^ Z.of_nat j + 2 ^ Z.of_nat j * 0)) (2 ^ Z.of_nat j * 2 ^ 1)); lia || done.
Qed.

(** ** Rounding a mantissa *)

Lemma digits2_log p : Zpos (digits2_pos p) = Z.log2 (Zpos p) + 1.
Proof.
  induction p as [p IH|p IH|]; [| |done]; cbn [digits2_pos]; rewrite Pos2Z.inj_succ, IH.
  - rewrite (Pos2Z.inj_xI p), Z.log2_succ_double by lia. lia.
  - rewrite (Pos2Z.inj_xO p), Z.log2_double by lia. lia.
Qed.

Lemma digits_range m d : 0 <= d -> 2 ^ d <= m < 2 ^ (d + 1) -> Zdigits2 m = d + 1.
Proof.
  intros Hd Hm. assert (0 < m) by (pose proof (Z.pow_pos_nonneg 2 d); lia).
  destruct m as [|p|p]; try lia. cbn [Zdigits2]. rewrite digits2_log. f_equal.
  apply Z.log2_unique; [done|]. by rewrite <- Z.add_1_r.
Qed.

Lemma round_div_mul n d : 0 < d -> round_div (n * d) d = n.
Proof.
  intros Hd. unfold round_div. rewrite Z.mod_mul, Z.div_mul by lia.
  by destruct (Z.compare_spec (2 * 0) d); try lia.
Qed.

Section format.
Context (prec emax : Z).

(** A mantissa of [d] digits with an exponent in the normal range. *)
Definition normal_range (d e : Z) : Prop := 3 - emax <= d + e <= emax.

Lemma shr_fexp_normal m e d : 0 < m -> Zdigits2 m = d -> normal_range d e ->
  shr_fexp prec emax m e loc_Exact =
  (if prec <? d then Nat.iter (Z.to_nat (d - prec)) shr_1 (Build_shr_record m false false)
   else Build_shr_record m false false,
   Z.max e (e + (d - prec))).
Proof.
  intros Hm Hd [Hlo Hhi]. unfold shr_fexp, fexp, emin. cbn [shr_record_of_loc]. rewrite Hd.
  replace (Z.max (d + e - prec) (3 - emax - prec) - e) with (d - prec) by lia.
  unfold shr. destruct (d - prec) as [|k|k] eqn:Hk; destruct (Z.ltb_spec prec d); try lia.
  - f_equal. lia.
  - rewrite iter_pos_nat. f_equal. lia.
  - f_equal. lia.
Qed.

(** The mantissa is rounded to [prec] digits; if that makes one more, it is a
    power of two. *)
Lemma round_normal m e d : 1 < prec -> 2 ^ d <= m < 2 ^ (d + 1) -> prec <= d + 1 ->
  normal_range (d + 1) e -> d + 2 + e <= emax ->
  let k := d + 1 - prec in
  let v := round_div m (2 ^ k) in
  2 ^ (prec - 1) <= v <= 2 ^ prec ->
  binary_round_aux prec emax false m e loc_Exact =
    if v =? 2 ^ prec then S754_finite false (Z.to_pos (2 ^ (prec - 1))) (e + k + 1)
    else S754_finite false (Z.to_pos v) (e + k).
Proof.
  intros Hp Hm Hd Hn He k v Hv. unfold normal_range in Hn.
  assert (0 < m) by (pose proof (Z.pow_pos_nonneg 2 d); lia).
  assert (0 < 2 ^ (prec - 1)) by (apply Z.pow_pos_nonneg; lia).
  assert (2 ^ prec = 2 * 2 ^ (prec - 1)) as Hpow by (rewrite <- Z.pow_succ_r by lia; f_equal; lia).
  unfold binary_round_aux.
  rewrite (shr_fexp_normal m e (d + 1)) by (done || apply digits_range; lia || done).
  set (mrs := if prec <? d + 1 then _ else _).
  assert (round_nearest_even (shr_m mrs) (loc_of_shr_record mrs) = v) as Hr.
  { subst mrs v. destruct (Z.ltb_spec prec (d + 1)).
    - replace (Z.to_nat (d + 1 - prec)) with (S (Z.to_nat (k - 1))) by lia.
      rewrite round_shr by lia. do 2 f_equal. lia.
    - replace k with 0 by lia. unfold round_div. cbn [shr_m loc_of_shr_record round_nearest_even].
      by rewrite Z.pow_0_r, Z.mod_1_r, Z.div_1_r. }
  cbn zeta. rewrite Hr. clearbody mrs. clear Hr mrs.
  replace (Z.max e (e + (d + 1 - prec))) with (e + k) by lia.
  destruct (Z.eqb_spec v (2 ^ prec)) as [->|Hne].
  - rewrite (shr_fexp_normal _ _ (prec + 1)); [|lia|apply digits_range; [lia|rewrite Z.pow_add_r by lia; lia]|unfold normal_range; lia].
    destruct (Z.ltb_spec prec (prec + 1)); [|lia]. replace (Z.to_nat (prec + 1 - prec)) with 1%nat by lia.
    rewrite (shr_spec _ 0) by lia. cbn [shr_m].
    replace (2 ^ prec / 2 ^ (Z.of_nat 0 + 1)) with (2 ^ (prec - 1)) by (rewrite Hpow, Z.mul_comm; symmetry; by apply Z.div_mul).
    destruct (2 ^ (prec - 1)) as [|q|q] eqn:Hq; try lia.
    destruct (Z.leb_spec (Z.max (e + k) (e + k + (prec + 1 - prec))) (emax - prec)); [|lia]. cbn [Z.to_pos]. f_equal. lia.
  - rewrite (shr_fexp_normal _ _ prec); [|lia| |unfold normal_range; lia].
    + rewrite Z.ltb_irrefl. cbn [shr_m]. destruct v as [|q|q] eqn:Hq; try lia.
      destruct (Z.leb_spec (Z.max (e + k) (e + k + (prec - prec))) (emax - prec)); [|lia]. cbn [Z.to_pos]. f_equal. lia.
    + replace prec with (prec - 1 + 1) at 1 by lia. apply digits_range; [lia|]. replace (prec - 1 + 1) with prec by lia. lia.
Qed.

(** A mantissa that is a multiple of the power is shifted without loss. *)
Lemma round_exact m j e : 1 < prec -> 0 <= j -> 2 ^ (prec - 1) <= m < 2 ^ prec ->
  3 - emax <= prec + j + e -> prec + j + 1 + e <= emax ->
  binary_round_aux prec emax false (m * 2 ^ j) e loc_Exact = S754_finite false (Z.to_pos m) (e + j).
Proof.
  intros Hp Hj Hm Hlo Hhi. assert (0 < 2 ^ j) by (apply Z.pow_pos_nonneg; lia).
  rewrite (round_normal (m * 2 ^ j) e (prec - 1 + j)); try lia.
  - replace (prec - 1 + j + 1 - prec) with j by lia.
    rewrite round_div_mul by done.
    destruct (Z.eqb_spec m (2 ^ prec)); [lia|done].
  - replace (prec - 1 + j + 1) with (prec + j) by lia. rewrite !Z.pow_add_r by lia. nia.
  - unfold normal_range. lia.
  - replace (prec - 1 + j + 1 - prec) with j by lia.
    rewrite round_div_mul by done.
    lia.
Qed.

End format.

(** ** The macro within *)

Lemma shift_left p d : Zpos (Pos.iter xO p d) = Zpos p * 2 ^ Zpos d.
Proof.
  induction d as [|d IH] using Pos.peano_ind; [cbn; lia|].
  rewrite Pos.iter_succ, Pos2Z.inj_xO, IH, Pos2Z.inj_succ, Z.pow_succ_r by lia. lia.
Qed.

(** [round_div] is the quotient or one more. *)
Lemma round_div_quotient n d : 0 < d -> n / d <= round_div n d <= n / d + 1.
Proof. intros Hd. unfold round_div. destruct (Z.compare _ _); [destruct (Z.even _)|..]; lia. Qed.

Lemma round_div_1 n : round_div n 1 = n.
Proof. unfold round_div. by rewrite Z.mod_1_r, Z.div_1_r. Qed.

(** The binary digits of a random number beyond the 24 of a float. *)
Definition excess (r : Z) : Z := Z.max 0 (Z.log2 r - 23).

(** The conversion first aligns the number to 24 digits, then rounds it. *)
Lemma float_of_int_aligned p :
  exists m e, float_of_int (Zpos p) = binary_round_aux 24 128 false m e loc_Exact /\
    m = Zpos p * 2 ^ Z.max 0 (23 - Z.log2 (Zpos p)) /\ e = - Z.max 0 (23 - Z.log2 (Zpos p)).
Proof.
  unfold float_of_int, binary_normalize, binary_round, fexp, emin. rewrite digits2_log.
  pose proof (Z.log2_nonneg (Zpos p)).
  replace (Z.max (Z.log2 (Zpos p) + 1 + 0 - 24) (3 - 128 - 24)) with (Z.log2 (Zpos p) - 23) by lia.
  unfold shl_align. rewrite Z.sub_0_r.
  destruct (Z.log2 (Zpos p) - 23) as [|k|k] eqn:Hk; (eexists _, _; split; [reflexivity|]).
  - replace (Z.max 0 _) with 0 by lia. lia.
  - replace (Z.max 0 _) with 0 by lia. lia.
  - rewrite shift_left. replace (Z.max 0 _) with (Zpos k) by lia. lia.
Qed.

(** A number of at most 24 digits is aligned and kept. *)
Lemma round_short r M E : 0 < r -> Z.log2 r <= 23 ->
  M = r * 2 ^ (23 - Z.log2 r) -> E = - (23 - Z.log2 r) ->
  binary_round_aux 24 128 false M E loc_Exact = S754_finite false (Z.to_pos M) E /\
  2 ^ 23 <= M < 2 ^ 24 /\ M / 2 ^ (15 - E) = r / 2 ^ 15.
Proof.
  intros Hr Hs HM HE. pose proof (Z.log2_spec r Hr) as Hl. rewrite <- Z.add_1_r in Hl.
  pose proof (Z.log2_nonneg r). set (l := Z.log2 r) in *.
  assert (0 < 2 ^ (23 - l)) by (apply Z.pow_pos_nonneg; lia).
  assert (2 ^ 23 <= M < 2 ^ 24) as Hb.
  { replace 23 with (l + (23 - l)) at 1 by lia. replace 24 with ((l + 1) + (23 - l)) by lia.
    rewrite HM, !(Z.pow_add_r 2 _ (23 - l)) by lia. nia. }
  split; [|split; [done|]].
  - rewrite <- (Z.mul_1_r M) at 1. change 1 with (2 ^ 0) at 1.
    rewrite (round_exact 24 128 M 0 E) by (simpl; lia). f_equal. lia.
  - rewrite HM, HE. replace (15 - - (23 - l)) with (15 + (23 - l)) by lia.
    rewrite Z.pow_add_r by lia. apply Z.div_mul_cancel_r; lia.
Qed.

(** One of more digits is rounded to 24. *)
Lemma round_long r : let l := Z.log2 r in let k := l - 23 in let v := round_div r (2 ^ k) in
  0 < r -> 23 < l -> l < 31 ->
  binary_round_aux 24 128 false r 0 loc_Exact =
    (if v =? 2 ^ 24 then S754_finite false (Z.to_pos (2 ^ 23)) (k + 1) else S754_finite false (Z.to_pos v) k) /\
  2 ^ 23 <= v <= 2 ^ 24.
Proof.
  intros l k v Hr Hs Hlt. pose proof (Z.log2_spec r Hr) as Hl. rewrite <- Z.add_1_r in Hl. fold l in Hl.
  assert (0 < 2 ^ k) as Hk by (apply Z.pow_pos_nonneg; lia).
  assert (2 ^ 23 <= v <= 2 ^ 24) as Hv.
  { apply round_div_bounds; [done|]. rewrite <- !Z.pow_add_r by lia.
    replace (23 + k) with l by lia. by replace (24 + k) with (l + 1) by lia. }
  split; [|done]. rewrite (round_normal 24 128 r 0 l); [|lia|lia|lia|unfold normal_range; lia|lia|];
    replace (l + 1 - 24) with k by lia; [done|exact Hv].
Qed.

(** A positive [int] as a float: 24 digits, the last rounded. *)
Lemma float_of_int_value r : 0 < r < 2 ^ 31 ->
  exists m e, float_of_int r = S754_finite false (Z.to_pos m) e /\ 2 ^ 23 <= m < 2 ^ 24 /\ -23 <= e <= 8 /\
    m / 2 ^ (15 - e) = round_div r (2 ^ excess r) / 2 ^ (15 - excess r).
Proof.
  intros Hr. assert (exists p, r = Zpos p) as [p Hp] by (destruct r; try lia; by eexists).
  destruct (float_of_int_aligned p) as (M & E & Hf & HM & HE). rewrite <- Hp in *. clear p Hp.
  pose proof (Z.log2_nonneg r). assert (Z.log2 r < 31) by (apply Z.log2_lt_pow2; lia). unfold excess.
  destruct (Z.le_gt_cases (Z.log2 r) 23) as [Hs|Hs].
  - replace (Z.max 0 (23 - Z.log2 r)) with (23 - Z.log2 r) in * by lia.
    destruct (round_short r M E) as (Hv & Hb & Hq); [lia..|done|done|].
    exists M, E. rewrite Hf, Hv. split_and!; try lia; [done|].
    replace (Z.max 0 (Z.log2 r - 23)) with 0 by lia. by rewrite Hq, round_div_1.
  - replace (Z.max 0 (23 - Z.log2 r)) with 0 in * by lia. replace (Z.max 0 (Z.log2 r - 23)) with (Z.log2 r - 23) by lia.
    rewrite Z.mul_1_r in HM. subst M E. pose proof (round_long r) as Hv. cbn zeta in Hv.
    destruct Hv as [Hv Hb]; [lia..|]. rewrite Hf, Z.opp_0, Hv.
    generalize dependent (round_div r (2 ^ (Z.log2 r - 23))). intros v Hv Hb.
    destruct (Z.eqb_spec v (2 ^ 24)) as [He|Hne]; [subst v|].
    + exists (2 ^ 23), (Z.log2 r - 23 + 1). split_and!; try lia; [done|].
      rewrite <- !Z.pow_sub_r by lia. f_equal. lia.
    + exists v, (Z.log2 r - 23). split_and!; try lia; done.
Qed.

(** Dividing a double by 2^31: nothing is lost. *)
Lemma divide_core M E : 2 ^ 52 <= M < 2 ^ 53 -> -100 <= E <= 100 ->
  SFdiv_core_binary 53 1024 M E 4503599627370496 (-21) = (M * 2 ^ 1, E - 32, loc_Exact).
Proof.
  intros HM HE. unfold SFdiv_core_binary, fexp, emin. rewrite (digits_range M 52) by lia.
  change (Zdigits2 4503599627370496) with 53.
  replace (Z.min (Z.max (52 + 1 + E - (53 + -21) - 53) (3 - 1024 - 53)) (E - -21)) with (E - 32) by lia.
  replace (E - -21 - (E - 32)) with 53 by lia. rewrite Z.shiftl_mul_pow2 by lia.
  replace (Z.div_eucl (M * 2 ^ 53) 4503599627370496) with (M * 2 ^ 1, 0); [done|].
  pose proof (Z.div_mul (M * 2 ^ 1) (2 ^ 52) ltac:(lia)) as Hd.
  pose proof (Z.mod_mul (M * 2 ^ 1) (2 ^ 52) ltac:(lia)) as Hmod.
  rewrite <- Z.mul_assoc, <- Z.pow_add_r in Hd, Hmod by lia. change (1 + 52) with 53 in *.
  change (2 ^ 52) with 4503599627370496 in Hd, Hmod.
  unfold Z.div, Z.modulo in Hd, Hmod. destruct (Z.div_eucl (M * 2 ^ 53) 4503599627370496). by subst.
Qed.

(** Multiplied by 65536, made a double, divided by [RAND_MAX + 1.0] and
    truncated; only the float was rounded. *)
Lemma within_value m e : 2 ^ 23 <= m < 2 ^ 24 -> -23 <= e <= 8 ->
  truncate (SFdiv 53 1024 (double_of_float (SFmul 24 128 (float_of_int 65536) (S754_finite false (Z.to_pos m) e)))
                          (binary_normalize 53 1024 2147483648 0 false)) = m / 2 ^ (15 - e).
Proof.
  intros Hm He. change (float_of_int 65536) with (S754_finite false 8388608 (-7)).
  change (binary_normalize 53 1024 2147483648 0 false) with (S754_finite false 4503599627370496 (-21)).
  cbn [SFmul xorb]. rewrite Pos2Z.inj_mul, Z2Pos.id, Z.mul_comm by lia.
  change (Zpos 8388608) with (2 ^ 23). rewrite round_exact by lia.
  cbn [double_of_float]. unfold binary_normalize. destruct m as [|p|p]; try lia. cbn [Z.to_pos].
  unfold binary_round. rewrite digits2_log.
  assert (Z.log2 (Zpos p) = 23) as Hl by (apply Z.log2_unique; lia). rewrite Hl.
  unfold shl_align, fexp, emin.
  replace (Z.max (23 + 1 + (-7 + e + 23) - 53) (3 - 1024 - 53) - (-7 + e + 23)) with (-29) by lia.
  rewrite shift_left.
  replace (Zpos p * 2 ^ 29) with ((Zpos p * 2 ^ 29) * 2 ^ 0) by lia.
  rewrite round_exact by lia.
  set (M := Zpos p * 2 ^ 29).
  assert (2 ^ 52 <= M < 2 ^ 53) as HM by lia.
  assert (Zpos (Z.to_pos M) = M) as Hid by (apply Z2Pos.id; lia).
  cbn [SFdiv xorb]. rewrite Hid.
  replace (Z.max (23 + 1 + (-7 + e + 23) - 53) (3 - 1024 - 53) + 0) with (e - 13) by lia.
  rewrite divide_core by lia. rewrite round_exact by lia.
  cbn [truncate]. rewrite Hid. destruct (Z.leb_spec 0 (e - 13 - 32 + 1)); [lia|].
  subst M. replace (- (e - 13 - 32 + 1)) with ((15 - e) + 29) by lia. rewrite Z.pow_add_r by lia.
  apply Z.div_mul_cancel_r; lia.
Qed.

(** What [within (65536)] gives, for each random number. *)
Lemma within_quotient r : 0 <= r < 2 ^ 31 ->
  within 65536 r = round_div r (2 ^ excess r) / 2 ^ (15 - excess r).
Proof.
  intros Hr. destruct (Z.eq_dec r 0) as [->|Hne]; [reflexivity|].
  destruct (float_of_int_value r) as (m & e & Hf & Hm & He & Hq); [lia|].
  unfold within. rewrite Hf, <- Hq. by apply within_value.
Qed.

(** It is at most one more than the exact quotient, and reaches 65536 for the
    64 largest random numbers. *)
Lemma within_range r : 0 <= r < 2 ^ 31 ->
  0 <= within 65536 r <= 65536 /\ (within 65536 r = 65536 <-> 2 ^ 31 - 64 <= r) /\
  r / 2 ^ 15 <= within 65536 r <= r / 2 ^ 15 + 1.
Proof.
  intros Hr. rewrite within_quotient by done.
  assert (0 <= excess r <= 7) as Hk.
  { unfold excess. assert (Z.log2 r < 31); [|lia]. destruct (Z.eq_dec r 0) as [->|]; [done|].
    apply Z.log2_lt_pow2; lia. }
  assert (r < 2 ^ (24 + excess r)) as Hlog.
  { destruct (Z.eq_dec r 0) as [->|]; [done|]. unfold excess. pose proof (Z.log2_spec r ltac:(lia)) as [_ Hs].
    eapply Z.lt_le_trans; [exact Hs|]. apply Z.pow_le_mono_r; lia. }
  set (k := excess r) in *. clearbody k.
  assert (0 < 2 ^ k) as Hp by (apply Z.pow_pos_nonneg; lia).
  assert (0 < 2 ^ (15 - k)) as Hp' by (apply Z.pow_pos_nonneg; lia).
  pose proof (round_div_quotient r (2 ^ k) Hp) as [Hlo Hhi].
  assert (r / 2 ^ k / 2 ^ (15 - k) = r / 2 ^ 15) as Hdd.
  { rewrite Z.div_div, <- Z.pow_add_r by lia. do 2 f_equal. lia. }
  assert (r / 2 ^ 15 <= round_div r (2 ^ k) / 2 ^ (15 - k) <= r / 2 ^ 15 + 1) as Hb.
  { rewrite <- Hdd. split; [by apply Z.div_le_mono|].
    rewrite <- (Z.div_add (r / 2 ^ k) 1) by lia. apply Z.div_le_mono; lia. }
  destruct (Z.eq_dec k 7) as [->|Hk7].
  - change (2 ^ (15 - 7)) with 256 in *. change (2 ^ 7) with 128 in *. change (2 ^ 15) with 32768 in *.
    change (2 ^ 31) with 2147483648 in *.
    split; [Z.to_euclidean_division_equations; lia|]. split; [|exact Hb]. clear Hb Hdd. unfold round_div in *.
    destruct (Z.compare_spec (2 * (r mod 128)) 128), (Z.even (r / 128)) eqn:Hev;
      try apply Z.even_spec in Hev as [x Hx]; Z.to_euclidean_division_equations; lia.
  - assert (2 ^ (24 + k) <= 2 ^ 30) by (apply Z.pow_le_mono_r; lia).
    change (2 ^ 15) with 32768 in *. change (2 ^ 31) with 2147483648 in *. change (2 ^ 30) with 1073741824 in *.
    split; [Z.to_euclidean_division_equations; lia|]. split; [|exact Hb]. Z.to_euclidean_division_equations; lia.
Qed.

(** ** The identity *)

Lemma length_hex_digits upper fuel k n acc : 0 <= n < 16 ^ Z.of_nat (S k) ->
  (String.length (hex_digits upper fuel n acc) <= S k + String.length acc)%nat.
Proof.
  revert k n acc. induction fuel as [|fuel IH]; intros k n acc Hn; [cbn; lia|]. cbn [hex_digits].
  destruct (Z.ltb_spec n 16); [cbn [String.length]; lia|].
  destruct k as [|k]; [change (16 ^ Z.of_nat 1) with 16 in Hn; lia|].
  specialize (IH k (n / 16) (String (hex_digit upper (n mod 16)) acc)). cbn [String.length] in IH.
  rewrite Nat2Z.inj_succ, Z.pow_succ_r in Hn by lia.
  assert (0 <= n / 16 < 16 ^ Z.of_nat (S k)); [|lia].
  split; [apply Z.div_pos; lia|apply Z.div_lt_upper_bound; lia].
Qed.

Lemma length_setw0 n s : String.length (setw0 n s) = Nat.max n (String.length s).
Proof.
  unfold setw0. rewrite string_length_app.
  assert (forall k, String.length (String.string_of_list_ascii (replicate k "0"%char)) = k) as ->; [|lia].
  induction k as [|k IH]; cbn; [done|]. by rewrite IH.
Qed.

(** A half of the identity has four digits, or five for the largest numbers. *)
Lemma length_half r : 0 <= r < 2 ^ 31 ->
  String.length (setw0 4 (hex_string true (within 65536 r))) = if 2 ^ 31 - 64 <=? r then 5%nat else 4%nat.
Proof.
  intros Hr. destruct (within_range r Hr) as (Hb & Hlast & _).
  destruct (Z.leb_spec (2 ^ 31 - 64) r) as [Hle|Hlt].
  - by rewrite (proj2 Hlast Hle).
  - rewrite length_setw0.
    pose proof (length_hex_digits true (S (Z.to_nat (Z.log2 (within 65536 r)))) 3 (within 65536 r) "") as Hl.
    unfold hex_string. change (16 ^ Z.of_nat 4) with 65536 in Hl. cbn [String.length] in Hl. lia.
Qed.
