(* ===== verification/Monitor.v ===== *)
(** * The socket monitor of zmq.hpp

    [monitor_t::monitor] opens a pair socket on which libzmq reports what
    happens to another socket, two parts per event, and calls a virtual
    function for each event until the context ends or the monitor is stopped.
    The model is the code for the two-part event layout, that of libzmq 3.3
    and later, in which [ZMQ_EVENT_MONITOR_STOPPED] exists. *)

From S2P Require Import Prelude CInt Prog Sys Zmq ZHelpers.
Local Open Scope Z_scope.

(** ** The class *)

(** The virtual functions called for an event. *)
Variant hook :=
| on_event_connected
| on_event_connect_delayed
| on_event_connect_retried
| on_event_listening
| on_event_bind_failed
| on_event_accepted
| on_event_accept_failed
| on_event_closed
| on_event_close_failed
| on_event_disconnected
| on_event_unknown.

(** The virtual functions of a monitor class: they get the bytes of the
    [zmq_event_t] and the address. *)
Class Monitor := {
  on_monitor_started : M sysE unit;
  on_event : hook -> string -> string -> M sysE unit;
}.

(** Those of [monitor_t] itself do nothing. *)
Definition monitor_t : Monitor := {|
  on_monitor_started := ret tt;
  on_event _ _ _ := ret tt;
|}.

(** [monitor_t () : socketPtr (NULL)] *)
Definition new : handle := NULL.

(** The layout of [zmq_event_t] (zmq.h): its size, and its field [event]. *)
Class EventLayout := {
  sizeof_zmq_event_t : Z;
  event : string -> Z;
}.

(** [address.c_str ()] as the function that gets the pointer reads it. *)
Fixpoint c_str (s : string) : string :=
  match s with
  | EmptyString => EmptyString
  | String c s => if uchar c =? 0 then EmptyString else String c (c_str s)
  end.

(** [switch (event->event)] *)
Definition event_hook (e : Z) : hook :=
  if e =? ZMQ_EVENT_CONNECTED then on_event_connected
  else if e =? ZMQ_EVENT_CONNECT_DELAYED then on_event_connect_delayed
  else if e =? ZMQ_EVENT_CONNECT_RETRIED then on_event_connect_retried
  else if e =? ZMQ_EVENT_LISTENING then on_event_listening
  else if e =? ZMQ_EVENT_BIND_FAILED then on_event_bind_failed
  else if e =? ZMQ_EVENT_ACCEPTED then on_event_accepted
  else if e =? ZMQ_EVENT_ACCEPT_FAILED then on_event_accept_failed
  else if e =? ZMQ_EVENT_CLOSED then on_event_closed
  else if e =? ZMQ_EVENT_CLOSE_FAILED then on_event_close_failed
  else if e =? ZMQ_EVENT_DISCONNECTED then on_event_disconnected
  else on_event_unknown.

Section monitor.
Context {handlers : Monitor} {layout : EventLayout}.

(** [zmq_msg_init], [zmq_recvmsg] and the test of its result, for one part;
    [None] is [break]. *)
Definition receive_part (s : handle) : M sysE (option zmq_msg_t) :=
  msg <- call NewMsg;;
  call (ZMsgInit msg);;
  rc <- call (ZRecvmsg s msg 0);;
  ended <- (if rc =? -1 then e <- call ZErrno;; ret (e =? ETERM) else ret false);;
  if ended then ret None
  else ZMQ_ASSERT (negb (rc =? -1));; ret (Some msg).

(** The body of [while (true)]. *)
Definition monitor_round (s : handle) : M sysE (unit + unit) :=
  eventMsg <- receive_part s;;
  match eventMsg with
  | None => ret (inr tt)
  | Some eventMsg =>
      p <- call (ZMsgData eventMsg);;
      addrMsg <- receive_part s;;
      match addrMsg with
      | None => ret (inr tt)
      | Some addrMsg =>
          str <- call (ZMsgData addrMsg);;
          size <- call (ZMsgSize addrMsg);;
          address <- call (MemRead str size);;
          call (ZMsgClose addrMsg);;
          bytes <- call (MemRead p sizeof_zmq_event_t);;
          if event bytes =? ZMQ_EVENT_MONITOR_STOPPED then ret (inr tt)
          else
            on_event (event_hook (event bytes)) bytes (c_str address);;
            call (ZMsgClose eventMsg);;
            ret (inl tt)
      end
  end.

(** [monitor (socket, addr_, events)]; the result is [socketPtr] afterwards. *)
Definition monitor (socket : socket_t) (addr : string) (events : Z) : M sysE handle :=
  rc <- call (ZSocketMonitor (sptr socket) (Some addr) events);;
  check_rc rc;;
  ctx <- defined (ctxptr socket);;
  s <- call (ZSocket ctx ZMQ_PAIR);;
  ZMQ_ASSERT (negb (s =? NULL));;
  rc <- call (ZConnect s addr);;
  ZMQ_ASSERT (rc =? 0);;
  on_monitor_started;;
  loop (fun _ : unit => monitor_round s) tt;;
  call (ZClose s);;
  ret NULL.

End monitor.

(** [abort ()] *)
Definition abort (socketPtr : handle) : M sysE unit :=
  if socketPtr =? NULL then ret tt
  else call (ZSocketMonitor socketPtr None 0);; ret tt.

(** ** What a monitor does *)

Section facts.
Context {handlers : Monitor} {layout : EventLayout}.

(** The virtual functions perform these actions and return. *)
Context (started_actions : list action) (event_actions : hook -> string -> string -> list action).
Hypothesis started_runs : forall w, runs NetP on_monitor_started w (Returns tt) (emits started_actions w).
Hypothesis event_runs : forall h e a w,
  runs NetP (on_event h e a) w (Returns tt) (emits (event_actions h e a) w).

Lemma wp_receive_part s w b l Q :
  1 <= s <= sockets w -> arrivals w !! s = Some (Frame b :: l) ->
  (forall m, m = fresh_msg w ->
   Q (Returns (Some m)) (set_live (<[m := b]> (live w)) (after s l (errno w) [ARecv s b] w))) ->
  wp NetP (receive_part s) w Q.
Proof.
  intros Hs Ha HQ. unfold receive_part.
  step x H; [done|]. destruct H as [-> ->].
  step x H; [apply fresh_msg_not_live|]. destruct H as [-> ->].
  step rc H; [split; [apply live_receiving|]; split; [done|by eexists _, _]|].
  rewrite Ha in H. destruct H as [Hrc ->].
  apply wp_bind. destruct (Z.eqb_spec rc (-1)); [lia|]. apply wp_ret.
  apply wp_bind, wp_ret, wp_ret. cbn [live receiving set_live]. rewrite insert_insert_eq.
  exact (HQ _ eq_refl).
Qed.

Lemma wp_receive_ended s w l Q :
  1 <= s <= sockets w -> arrivals w !! s = Some (Failed ETERM :: l) ->
  Q (Returns None) (set_live (<[fresh_msg w := ""]> (live w)) (recv_failed s ETERM l w)) ->
  wp NetP (receive_part s) w Q.
Proof.
  intros Hs Ha HQ. unfold receive_part.
  step x H; [done|]. destruct H as [-> ->].
  step x H; [apply fresh_msg_not_live|]. destruct H as [-> ->].
  step rc H; [split; [apply live_receiving|]; split; [done|by eexists _, _]|].
  rewrite Ha in H. destruct H as [-> ->].
  apply wp_bind. cbn match. apply wp_bind, wp_call; [done|]. intros e ? [-> ->].
  apply wp_ret, wp_ret. exact HQ.
Qed.

(** The second part of an event and its bytes, read up to the switch. *)
Lemma wp_event_read s w ev ad l (k : zmq_msg_t -> string -> string -> M sysE (unit + unit)) Q :
  1 <= s <= sockets w -> arrivals w !! s = Some (Frame ev :: Frame ad :: l) ->
  Z.of_nat (String.length ev) = sizeof_zmq_event_t ->
  (forall m, m = fresh_msg w -> wp NetP (k m ev ad)
     (set_live (<[m := ev]> (live w)) (after s l (errno w) [ARecv s ev; ARecv s ad] w)) Q) ->
  wp NetP (eventMsg <- receive_part s;;
    match eventMsg with
    | None => ret (inr tt)
    | Some eventMsg =>
        p <- call (ZMsgData eventMsg);;
        addrMsg <- receive_part s;;
        match addrMsg with
        | None => ret (inr tt)
        | Some addrMsg =>
            str <- call (ZMsgData addrMsg);;
            size <- call (ZMsgSize addrMsg);;
            address <- call (MemRead str size);;
            call (ZMsgClose addrMsg);;
            bytes <- call (MemRead p sizeof_zmq_event_t);;
            k eventMsg bytes address
        end
    end) w Q.
Proof.
  intros Hs Ha Hlen HQ.
  apply wp_bind, (wp_receive_part s w ev (Frame ad :: l)); [done|done|]. intros m Hm. cbn match.
  set (w1 := set_live (<[m := ev]> (live w)) _).
  assert (live w1 !! m = Some ev) as Hm1 by apply lookup_insert_eq.
  step x H; [by eexists|]. destruct H as [-> ->].
  apply wp_bind, (wp_receive_part s w1 ad l); [done|by apply lookup_insert_eq|]. intros m' Hm'. cbn match.
  assert (live w1 !! m' = None) as Hf by (subst m'; apply fresh_msg_not_live). clear Hm'.
  assert (m' <> m) as Hne by congruence.
  set (w2 := after s l (errno w1) [ARecv s ad] w1).
  step x H; [by eexists; apply lookup_insert_eq|]. destruct H as [-> ->].
  step x H; [by eexists; apply lookup_insert_eq|]. destruct H as [-> ->]. rewrite lookup_insert_eq.
  step x H; [by eexists; split; [apply lookup_insert_eq|]|]. destruct H as [-> ->]. rewrite lookup_insert_eq.
  step x H; [by eexists; apply lookup_insert_eq|]. destruct H as [-> ->].
  cbn [live set_live]. rewrite delete_insert_id by exact Hf.
  step x H; [by exists ev|]. destruct H as [-> ->]. rewrite lookup_insert_eq. cbn [default from_option id].
  match goal with |- wp _ _ ?v _ => replace v with
    (set_live (<[m := ev]> (live w)) (after s l (errno w) [ARecv s ev; ARecv s ad] w)); [by apply HQ|] end.
  transitivity (set_live (live w1) w2); [|reflexivity]. unfold w2, w1.
  transitivity (set_live (<[m := ev]> (live w))
    (after s l (errno w) [ARecv s ad] (after s (Frame ad :: l) (errno w) [ARecv s ev] w))); [|reflexivity].
  by rewrite after_after.
Qed.

(** One event: an [zmq_event_t] and an address. *)
Definition event_parts (e : string * string) : list arrival := [Frame (fst e); Frame (snd e)].
Definition event_ok (e : string * string) : Prop :=
  Z.of_nat (String.length (fst e)) = sizeof_zmq_event_t /\ event (fst e) <> ZMQ_EVENT_MONITOR_STOPPED.

Definition round_actions (s : handle) (e : string * string) : list action :=
  [ARecv s (fst e); ARecv s (snd e)] ++ event_actions (event_hook (event (fst e))) (fst e) (c_str (snd e)).

Lemma round_event s w e l :
  1 <= s <= sockets w -> arrivals w !! s = Some (event_parts e ++ l) -> event_ok e ->
  runs NetP (monitor_round s) w (Returns (inl tt)) (after s l (errno w) (round_actions s e) w).
Proof.
  destruct e as [ev ad]. intros Hs Ha [Hlen Hev]. unfold monitor_round, runs.
  apply (wp_event_read s w ev ad l (fun m bytes address =>
    if event bytes =? ZMQ_EVENT_MONITOR_STOPPED then ret (inr tt)
    else on_event (event_hook (event bytes)) bytes (c_str address);; call (ZMsgClose m);; ret (inl tt)));
    [done|done|done|]. intros m Hm. cbn [fst] in *.
  destruct (Z.eqb_spec (event ev) ZMQ_EVENT_MONITOR_STOPPED); [done|].
  apply wp_bind. eapply wp_mono; [apply event_runs|]. intros o w' [-> ->].
  step x H; [by eexists; apply lookup_insert_eq|]. destruct H as [-> ->].
  apply wp_ret. split; [done|].
  cbn [live set_live emits]. rewrite Hm, delete_fresh. unfold round_actions. cbn [fst snd].
  by rewrite <- emits_after.
Qed.

(** How the reports end: with the context, between the parts of an event or
    not, or with the event that says so. *)
Inductive ending :=
| Terminated
| Interrupted (ev : string)
| Stopped (ev ad : string).

Definition ending_parts (e : ending) : list arrival :=
  match e with
  | Terminated => [Failed ETERM]
  | Interrupted ev => [Frame ev; Failed ETERM]
  | Stopped ev ad => [Frame ev; Frame ad]
  end.
Definition ending_ok (e : ending) : Prop :=
  match e with
  | Stopped ev _ =>
      Z.of_nat (String.length ev) = sizeof_zmq_event_t /\ event ev = ZMQ_EVENT_MONITOR_STOPPED
  | _ => True
  end.
Definition ending_actions (s : handle) (e : ending) : list action :=
  match e with
  | Terminated => []
  | Interrupted ev => [ARecv s ev]
  | Stopped ev ad => [ARecv s ev; ARecv s ad]
  end.

(** The messages that [break] leaves open. *)
Definition leaked (w : world) (e : ending) : gmap Z string :=
  match e with
  | Terminated => <[fresh_msg w := ""]> (live w)
  | Interrupted ev =>
      let l := <[fresh_msg w := ev]> (live w) in <[fresh (dom l : gset Z) := ""]> l
  | Stopped ev _ => <[fresh_msg w := ev]> (live w)
  end.

Lemma wp_round_ending s w e l :
  1 <= s <= sockets w -> arrivals w !! s = Some (ending_parts e ++ l) -> ending_ok e ->
  wp NetP (monitor_round s) w (fun o w' =>
    o = Returns (inr tt) /\ trace w' = trace w ++ ending_actions s e /\ live w' = leaked w e /\
    sockets w' = sockets w).
Proof.
  intros Hs Ha He. unfold monitor_round. destruct e as [|ev|ev ad]; cbn [ending_parts app] in Ha.
  - apply wp_bind, (wp_receive_ended s w l); [done|done|]. apply wp_ret.
    cbn. by rewrite app_nil_r.
  - apply wp_bind, (wp_receive_part s w ev (Failed ETERM :: l)); [done|done|]. intros m ->. cbn match.
    step x H; [by eexists; apply lookup_insert_eq|]. destruct H as [-> ->].
    apply wp_bind, (wp_receive_ended s _ l); [done|by apply lookup_insert_eq|]. by apply wp_ret.
  - destruct He as [Hlen Hev].
    apply (wp_event_read s w ev ad l (fun m bytes address =>
      if event bytes =? ZMQ_EVENT_MONITOR_STOPPED then ret (inr tt)
      else on_event (event_hook (event bytes)) bytes (c_str address);; call (ZMsgClose m);; ret (inl tt)));
      [done|done|done|]. intros m ->.
    rewrite Hev, Z.eqb_refl. by apply wp_ret.
Qed.

Definition loop_actions (s : handle) (es : list (string * string)) (e : ending) : list action :=
  concat (round_actions s <$> es) ++ ending_actions s e.

Lemma wp_monitor_loop s es e rest w :
  1 <= s <= sockets w ->
  arrivals w !! s = Some (concat (event_parts <$> es) ++ ending_parts e ++ rest) ->
  Forall event_ok es -> ending_ok e ->
  wp NetP (loop (fun _ : unit => monitor_round s) tt) w (fun o w' =>
    o = Returns tt /\ trace w' = trace w ++ loop_actions s es e /\ live w' = leaked w e /\
    sockets w' = sockets w).
Proof.
  intros Hs Ha Hes He. revert w Hs Ha. unfold loop_actions.
  induction Hes as [|ev es Hev _ IH]; intros w Hs Ha; cbn [fmap list_fmap concat] in *.
  - apply wp_loop. eapply wp_mono; [by apply (wp_round_ending s w e rest)|].
    intros o w' (-> & H). by split.
  - rewrite <- app_assoc in Ha. apply wp_loop.
    eapply wp_mono; [by apply (round_event s w ev _ Hs Ha)|]. intros o w' [-> ->].
    eapply wp_mono; [apply IH; [done|apply arrivals_after]|].
    intros o w' (-> & Ht & Hl & Hsk). split; [done|]. rewrite Ht, Hl, Hsk. cbn.
    by rewrite <- !app_assoc.
Qed.

(** [monitor], from the call to the end of the reports. *)
Definition monitor_actions (socket : socket_t) (addr : string) (events : Z) (s : handle)
    (es : list (string * string)) (e : ending) : list action :=
  [AMonitor (sptr socket) (Some addr) events; ASocket s ZMQ_PAIR; AConnect s addr] ++
  started_actions ++ loop_actions s es e ++ [AClose s].

Lemma wp_monitor socket ctx addr events es e rest w :
  open_socket socket w -> ctxptr socket = Some ctx -> ctx <> NULL ->
  arrivals w !! (sockets w + 1) = Some (concat (event_parts <$> es) ++ ending_parts e ++ rest) ->
  Forall event_ok es -> ending_ok e ->
  wp NetP (monitor socket addr events) w (fun o w' =>
    o = Returns NULL /\ live w' = leaked w e /\
    trace w' = trace w ++ monitor_actions socket addr events (sockets w + 1) es e).
Proof.
  intros Hs Hctx Hnull Ha Hes He. unfold monitor. unfold open_socket in Hs.
  step x H; [done|]. destruct H as [-> ->]. apply wp_bind, wp_check_rc_0.
  rewrite Hctx. apply wp_bind, wp_ret.
  step s H; [done|]. destruct H as [-> ->].
  destruct (Z.eqb_spec (sockets w + 1) NULL) as [E|_]; [unfold NULL in E; cbn in *; lia|].
  apply wp_bind, wp_ret.
  step rc H; [cbn in *; lia|]. destruct H as [-> ->]. apply wp_bind, wp_ret.
  apply wp_bind. eapply wp_mono; [apply started_runs|]. intros o w1 [-> ->].
  apply wp_bind. eapply wp_mono; [apply (wp_monitor_loop _ es e rest); [cbn; lia|exact Ha|done|done]|].
  intros o w2 (-> & Ht & Hl & Hsk).
  step rc H; [cbn in *; lia|]. destruct H as [-> ->]. apply wp_ret.
  split; [done|]. split; [exact Hl|].
  unfold emit, emits at 1. cbn [trace]. rewrite Ht. unfold monitor_actions. cbn.
  by rewrite <- !app_assoc.
Qed.

End facts.
