(* ===== verification/Config.v ===== *)
(** * The test configuration and the text protocol

    The class [config] of controller.cpp, and the frames in which the
    controller publishes a test: "StartProcesses" for the listeners and
    "StartWebsockets" for the workers. *)

From S2P Require Import Prelude CInt Text.
Local Open Scope Z_scope.

Record config := Config {
  machines : Z;
  processes : Z;
  instances : Z;
  interval : Z;
  messages : Z;
  message_length : Z;
  bwBytes : Z;
  send_messages : bool;
  randomized_interval : bool;
}.

(** The constructor [config ()]. *)
Definition default_config : config := {|
  machines := 1;
  processes := 100;
  instances := 75;
  send_messages := true;
  randomized_interval := true;
  interval := 60;
  messages := 12;
  message_length := 240;
  bwBytes := 4000000;
|}.

Definition set_machines (m : Z) (c : config) : config :=
  Config m (processes c) (instances c) (interval c) (messages c) (message_length c)
         (bwBytes c) (send_messages c) (randomized_interval c).

(** [config conf[iterations]; for (...) conf[i].machines = i+1;] *)
Definition iterations : nat := 30.
Definition conf : list config :=
  foldl (fun conf i => alter (set_machines (Z.of_nat i + 1)) i conf)
        (replicate iterations default_config) (seq 0 iterations).

(** The numbers of client processes and of results an iteration waits for:
    [conf.machines*conf.processes] and
    [conf.machines*conf.processes*conf.instances], in [int] arithmetic. *)
Definition clients_expected (c : config) : option Z := mul_int (machines c) (processes c).
Definition results_expected (c : config) : option Z :=
  p ← mul_int (machines c) (processes c); mul_int p (instances c).

(** Every field is an [int]. *)
Definition int_config (c : config) : Prop :=
  in_int (machines c) /\ in_int (processes c) /\ in_int (instances c) /\
  in_int (interval c) /\ in_int (messages c) /\ in_int (message_length c).

(** ** Published frames *)

Definition start_processes_frames (c : config) : list string :=
  ["StartProcesses"; to_string (processes c); ""].

Definition target_uri : string := "wss://54.84.134.93:9002".

Definition start_websockets_frames (c : config) : list string :=
  ["StartWebsockets";
   target_uri;
   to_string (instances c);
   bool_to_string (send_messages c);
   bool_to_string (randomized_interval c);
   to_string (interval c);
   to_string (messages c);
   to_string (message_length c);
   ""].

(** ** The configuration that is run *)

Lemma conf_lookup i : (i < iterations)%nat ->
  conf !! i = Some (set_machines (Z.of_nat i + 1) default_config).
Proof.
  intros Hi. unfold iterations in Hi.
  do 30 (destruct i as [|i]; [vm_compute; reflexivity|]). lia.
Qed.

Lemma conf_length : length conf = iterations.
Proof. reflexivity. Qed.
