(* ===== verification/Controller.v ===== *)
(** * controller.cpp

    The controller synchronises with the listeners, tells them to start their
    processes, synchronises with those, publishes the test, and collects one
    "Finished" message per process and one "Result" per connection into a
    [tally] that it reports at the end. *)

From S2P Require Import Prelude CInt Prog Text Double Sys Zmq ZHelpers Config.
Local Open Scope Z_scope.

(** ** Boost.Accumulators

    [accumulator_set<double, stats<...> >] is a library the program only
    calls: its type and operations are parameters. *)
Class Accumulators (D : Type) := {
  acc : Type;
  acc_empty : acc;
  acc_push : acc -> D -> acc;
  acc_count : acc -> Z;
  acc_min : acc -> D;
  acc_max : acc -> D;
  acc_mean : acc -> D;
  acc_variance : acc -> D;
}.

(** ** Synchronisation *)

(** One round on a REP socket with a receive timeout: after a timeout, invite
    with [hello]; after a request, reply.  Both loops of the controller start
    with it; the result says whether a request was answered. *)
Definition serve_round (publisher service : socket_t) (hello : string) : M sysE bool :=
  message <- message.new;;
  finally
    (ok <- socket.recv service message 0;;
     if negb ok then s_send publisher hello;; ret false
     else s_send service "";; ret true)
    (message.dtor message).

(** [while (subscribers < conf[iteration].machines) ...] *)
Definition sync_listeners (publisher syncservice : socket_t) (c : config) : M sysE Z :=
  loop (fun subscribers =>
    if subscribers <? machines c then
      next <- defined (add_int subscribers 1);;
      call (Cout ("sync " +:+ to_string next +:+ endl));;
      answered <- serve_round publisher syncservice "HELLO_LISTENER";;
      if negb answered then ret (inl subscribers)
      else next <- defined (add_int subscribers 1);; ret (inl next)
    else ret (inr subscribers)) 0.

(** [while (processes < conf[iteration].machines*conf[iteration].processes) ...] *)
Definition sync_processes (publisher instance_syncservice : socket_t) (c : config) : M sysE Z :=
  loop (fun processes =>
    expected <- defined (clients_expected c);;
    if processes <? expected then
      answered <- serve_round publisher instance_syncservice "HELLO_SOCKET";;
      if negb answered then ret (inl processes)
      else next <- defined (add_int processes 1);; ret (inl next)
    else ret (inr processes)) 0.

(** ** Publication *)

Definition start_processes (publisher : socket_t) (c : config) : M sysE unit :=
  s_sendmore publisher "StartProcesses";;
  s_sendmore publisher (to_string (processes c));;
  s_send publisher "";;
  ret tt.

Definition start_websockets (publisher : socket_t) (c : config) : M sysE unit :=
  s_sendmore publisher "StartWebsockets";;
  s_sendmore publisher "wss://54.84.134.93:9002";;
  s_sendmore publisher (to_string (instances c));;
  s_sendmore publisher (bool_to_string (send_messages c));;
  s_sendmore publisher (bool_to_string (randomized_interval c));;
  s_sendmore publisher (to_string (interval c));;
  s_sendmore publisher (to_string (messages c));;
  s_sendmore publisher (to_string (message_length c));;
  s_send publisher "";;
  ret tt.

(** ** Results *)

Section collect.
Context {D : Type} `{!Arith D} `{!Accumulators D}.

(** The counters of one iteration. *)
Record tally := Tally {
  clientsFinished : Z;
  clientsDied : Z;
  resultsReceived : Z;
  connectionsDied : Z;
  connectionsSucceeded : Z;
  meansum : D;
  variancesum : D;
  totalcount : Z;
  samples : Z;
  setup_stats : acc;
}.

Definition tally0 : tally :=
  Tally 0 0 0 0 0 (d_of_int 0) (d_of_int 0) 0 0 acc_empty.

(** The variables extracted from a "Result" line; [None] is a variable that
    was declared without a value and not assigned. *)
Record result_line := ResultLine {
  r_type : string;
  r_count : option Z;
  r_min : option D;
  r_max : option D;
  r_mean : option D;
  r_variance : option D;
  r_setup : option D;
}.

(** [std::stringstream ss(stats); ss >> type; ss >> count; ...] *)
Definition parse_result (stats : string) : result_line :=
  let ss := istringstream stats in
  let '(ss, type) := extract_string ss in
  let '(ss, count) := extract_int ss in
  let '(ss, min) := extract_double ss in
  let '(ss, max) := extract_double ss in
  let '(ss, mean) := extract_double ss in
  let '(ss, variance) := extract_double ss in
  let '(ss, setup) := extract_double ss in
  ResultLine (default "" type) count min max mean variance setup.

(** [status == "Finished"]: the client process ended with [exit_status]. *)
Definition tally_finished (exit_status : string) (t : tally) : option tally :=
  if bool_decide (exit_status = "0") then
    n ← add_int (clientsFinished t) 1;
    Some (Tally n (clientsDied t) (resultsReceived t) (connectionsDied t)
            (connectionsSucceeded t) (meansum t) (variancesum t) (totalcount t) (samples t)
            (setup_stats t))
  else
    n ← add_int (clientsDied t) 1;
    Some (Tally (clientsFinished t) n (resultsReceived t) (connectionsDied t)
            (connectionsSucceeded t) (meansum t) (variancesum t) (totalcount t) (samples t)
            (setup_stats t)).

(** [++connectionsDied] and [++connectionsSucceeded]. *)
Definition tally_died (t : tally) : option tally :=
  n ← add_int (connectionsDied t) 1;
  Some (Tally (clientsFinished t) (clientsDied t) (resultsReceived t) n
          (connectionsSucceeded t) (meansum t) (variancesum t) (totalcount t) (samples t)
          (setup_stats t)).
Definition tally_succeeded (t : tally) : option tally :=
  n ← add_int (connectionsSucceeded t) 1;
  Some (Tally (clientsFinished t) (clientsDied t) (resultsReceived t) (connectionsDied t) n
          (meansum t) (variancesum t) (totalcount t) (samples t) (setup_stats t)).

(** The success or death of one connection. *)
Definition tally_connection (c : config) (r : result_line) (t : tally) : option tally :=
  if negb (bool_decide (r_type r = "success")) then tally_died t
  else
    count ← r_count r;
    if count =? messages c then tally_succeeded t else tally_died t.

(** [if (count > 0) { meansum += mean*count; ... }] *)
Definition tally_latency (r : result_line) (t : tally) : option tally :=
  count ← r_count r;
  if 0 <? count then
    mean ← r_mean r;
    variance ← r_variance r;
    total ← add_int (totalcount t) count;
    n ← add_int (samples t) 1;
    pred ← sub_int count 1;
    Some (Tally (clientsFinished t) (clientsDied t) (resultsReceived t) (connectionsDied t)
            (connectionsSucceeded t) (dadd (meansum t) (dmul mean (d_of_int count)))
            (dadd (variancesum t) (dmul (d_of_int pred) variance)) total n (setup_stats t))
  else Some t.

(** [resultsReceived++] and [setup_stats(setup)]. *)
Definition tally_received (t : tally) : option tally :=
  n ← add_int (resultsReceived t) 1;
  Some (Tally (clientsFinished t) (clientsDied t) n (connectionsDied t)
          (connectionsSucceeded t) (meansum t) (variancesum t) (totalcount t) (samples t)
          (setup_stats t)).
Definition tally_setup (r : result_line) (t : tally) : option tally :=
  setup ← r_setup r;
  Some (Tally (clientsFinished t) (clientsDied t) (resultsReceived t) (connectionsDied t)
          (connectionsSucceeded t) (meansum t) (variancesum t) (totalcount t) (samples t)
          (acc_push (setup_stats t) setup)).

(** The condition of the progress message,
    [resultsExpected / 100 > 0 && resultsReceived % (resultsExpected/100) == 0]. *)
Definition progress_due (resultsExpected received : Z) : option bool :=
  step ← div_int resultsExpected 100;
  if 0 <? step then
    r ← rem_int received step;
    Some (r =? 0)
  else Some false.

(** The body of the [status == "Result"] branch after the frames were read:
    the extracted variables enter the counters. *)
Definition tally_line (c : config) (resultsExpected : Z) (r : result_line) (t : tally) :
    option tally :=
  t ← tally_setup r t;
  t ← tally_connection c r t;
  t ← tally_latency r t;
  _ ← progress_due resultsExpected (resultsReceived t);
  Some t.

Definition tally_result (c : config) (resultsExpected : Z) (stats : string) (t : tally) :
    option tally :=
  t ← tally_received t;
  tally_line c resultsExpected (parse_result stats) t.

(** [while (clientsFinished + clientsDied < machines*processes) ...] *)
Definition collect_step (receiver : socket_t) (c : config) (resultsExpected : Z) (t : tally) :
    M sysE (tally + tally) :=
  ended <- defined (add_int (clientsFinished t) (clientsDied t));;
  expected <- defined (clients_expected c);;
  if ended <? expected then
    status <- s_recv receiver;;
    if bool_decide (status = "Finished") then
      name <- s_recv receiver;;
      exit_status <- s_recv receiver;;
      (if bool_decide (exit_status <> "0")
       then call (Cout (name +:+ " exited with status " +:+ exit_status +:+ endl))
       else ret tt);;
      t <- defined (tally_finished exit_status t);;
      ret (inl t)
    else if bool_decide (status = "Result") then
      stats <- s_recv receiver;;
      s_recv receiver;;
      t <- defined (tally_result c resultsExpected stats t);;
      ret (inl t)
    else ret (inl t)
  else ret (inr t).

Definition collect (receiver : socket_t) (c : config) : M sysE tally :=
  resultsExpected <- defined (results_expected c);;
  loop (collect_step receiver c resultsExpected) tally0.

(** [meansum/totalcount] and [variancesum/(totalcount-samples)]. *)
Definition overallMean (t : tally) : D := ddiv (meansum t) (d_of_int (totalcount t)).
Definition overallVariance (t : tally) : option D :=
  n ← sub_int (totalcount t) (samples t);
  Some (ddiv (variancesum t) (d_of_int n)).

End collect.
Arguments tally D {_}.
Arguments result_line D : clear implicits.

(** ** The report and [main] *)

Section main.
Context `{!Accumulators double}.

Definition report (iteration : Z) (t : tally double) : M sysE unit :=
  call (Cout ("Iteration " +:+ to_string iteration +:+ " done:" +:+ endl));;
  call (Cout ("Clients completed " +:+ to_string (clientsFinished t) +:+ ", clients died " +:+
              to_string (clientsDied t) +:+ endl));;
  call (Cout ("Connections succeeded " +:+ to_string (connectionsSucceeded t) +:+ endl));;
  call (Cout ("Connections died " +:+ to_string (connectionsDied t) +:+ endl));;
  call (Cout ("Connection setup latency " +:+ g6 (acc_mean (setup_stats t)) +:+ "+-" +:+
              g6 (double_sqrt (acc_variance (setup_stats t))) +:+ " ms" +:+ endl));;
  overallVariance <- defined (overallVariance t);;
  call (Cout ("Average message latency " +:+ g6 (overallMean t) +:+ "+-" +:+
              g6 (double_sqrt overallVariance) +:+ " ms" +:+ endl)).

(** The body of [for (int iteration = 16; ...)]. *)
Definition run_iteration (publisher syncservice instance_syncservice receiver : socket_t)
    (iteration : Z) (c : config) : M sysE unit :=
  call (Cout ("Syncing slaves" +:+ endl));;
  sync_listeners publisher syncservice c;;
  call (Sleep 2);;
  call (Cout ("Broadcast StartProcesses" +:+ endl));;
  start_processes publisher c;;
  call (Cout ("Syncing processes" +:+ endl));;
  sync_processes publisher instance_syncservice c;;
  call (Cout ("Broadcasting start request" +:+ endl));;
  call (Cout (to_string (instances c) +:+ " instances " +:+ to_string (interval c) +:+
              " interval " +:+ to_string (messages c) +:+ " messages " +:+
              to_string (message_length c) +:+ " bytes" +:+ endl));;
  start_websockets publisher c;;
  t <- collect receiver c;;
  report iteration t.

(** [for (int iteration = 16; iteration < 17; iteration = iteration+2)]; an
    index outside of [conf] is undefined behaviour. *)
Definition iterate (publisher syncservice instance_syncservice receiver : socket_t) : M sysE Z :=
  loop (fun iteration =>
    if iteration <? 17 then
      c <- defined (conf !! Z.to_nat iteration);;
      run_iteration publisher syncservice instance_syncservice receiver iteration c;;
      next <- defined (add_int iteration 2);;
      ret (inl next)
    else ret (inr iteration)) 16.

Definition main : M sysE Z :=
  call (Cout ("Starting controller" +:+ endl));;
  context <- context.new_threads 1;;
  publisher <- socket.new context ZMQ_PUB;;
  socket.bind publisher "tcp://*:5561";;
  syncservice <- socket.new context ZMQ_REP;;
  let timeout := 5000 in
  socket.setsockopt_int syncservice ZMQ_RCVTIMEO timeout;;
  socket.bind syncservice "tcp://*:5562";;
  instance_syncservice <- socket.new context ZMQ_REP;;
  socket.setsockopt_int instance_syncservice ZMQ_RCVTIMEO timeout;;
  socket.bind instance_syncservice "tcp://*:5563";;
  receiver <- socket.new context ZMQ_PULL;;
  socket.bind receiver "tcp://*:5564";;
  iterate publisher syncservice instance_syncservice receiver;;
  call (Cout ("Ending" +:+ endl));;
  s_send publisher "END";;
  call (Sleep 1);;
  (* the destructors, in reverse order of construction *)
  socket.dtor receiver;;
  socket.dtor instance_syncservice;;
  socket.dtor syncservice;;
  socket.dtor publisher;;
  context.dtor context;;
  ret 0.

End main.
