(* ===== verification/Sync.v ===== *)
(** * The synchronisation phases of the controller

    [sync_listeners] and [sync_processes] against every sequence of timeouts
    and requests: what they send, when they return, and that otherwise they
    keep waiting.  [handshakes] is the abstract view of a synchronisation
    socket: for each peer, the number of timeouts before its request. *)

From S2P Require Import Prelude CInt Prog Text Sys Zmq ZHelpers Config Controller.
Local Open Scope Z_scope.

(** ** One round *)

Section round.
Context (publisher service : socket_t) (hello : string).

Definition ready (w : world) : Prop :=
  open_socket publisher w /\ open_socket service w /\ send_faults w = [].

(** A sub-program with one outcome, followed by its continuation. *)
Lemma wp_seq {A B} (m : M sysE A) (k : A -> M sysE B) w a w1 Q :
  runs NetP m w (Returns a) w1 -> wp NetP (k a) w1 Q -> wp NetP (bind m k) w Q.
Proof. intros H Hk. apply wp_bind. eapply wp_mono; [exact H|]. by intros ? ? [-> ->]. Qed.

Lemma serve_round_timeout w l :
  ready w -> arrivals w !! sptr service = Some (TimedOut :: l) ->
  runs NetP (serve_round publisher service hello) w (Returns false)
       (after (sptr service) l EAGAIN [ASend (sptr publisher) false hello] w).
Proof.
  intros (Hp & Hs & Hf) Ha. unfold serve_round. apply wp_bind, wp_message_new, wp_scoped, wp_bind.
  apply (wp_recv service (receiving w) Hs _ _ _ _ (live_receiving w) Ha). simpl.
  eapply wp_seq; [apply s_send_emits; [exact Hp|exact Hf]|]. apply wp_ret.
  split; [by eexists; apply lookup_insert_eq|]. split; [done|].
  unfold after, set_live, set_errno, recv_failed, pop_arrivals, set_arrivals, emit, emits. simpl.
  by rewrite delete_fresh.
Qed.

Lemma serve_round_request w b l :
  ready w -> arrivals w !! sptr service = Some (Frame b :: l) ->
  runs NetP (serve_round publisher service hello) w (Returns true)
       (after (sptr service) l (errno w)
          [ARecv (sptr service) b; ASend (sptr service) false ""] w).
Proof.
  intros (Hp & Hs & Hf) Ha. unfold serve_round. apply wp_bind, wp_message_new, wp_scoped, wp_bind.
  apply (wp_recv service (receiving w) Hs _ _ _ _ (live_receiving w) Ha). simpl.
  eapply wp_seq; [apply s_send_emits; [exact Hs|exact Hf]|]. apply wp_ret.
  split; [by eexists; apply lookup_insert_eq|]. split; [done|].
  unfold after, received, set_live, set_errno, pop_arrivals, set_arrivals, emit, emits. simpl.
  by rewrite insert_insert_eq, delete_fresh, <- app_assoc.
Qed.

Lemma serve_round_waits w :
  ready w -> arrivals w !! sptr service = Some [] ->
  runs NetP (serve_round publisher service hello) w Waits (receiving w).
Proof.
  intros (Hp & Hs & Hf) Ha. unfold serve_round. apply wp_bind, wp_message_new, wp_scoped, wp_bind.
  apply (wp_recv_waits service (receiving w) Hs); [apply live_receiving|done|]. done.
Qed.

Lemma ready_after w r e a : ready w -> ready (after (sptr service) r e a w).
Proof. done. Qed.

Lemma ready_emits w a : ready w -> ready (emits a w).
Proof. done. Qed.

(** ** Scripts of a synchronisation *)

(** For each peer: how many receive timeouts passed before its request, and
    the request's body. *)
Definition handshakes (l : list (nat * string)) : list arrival :=
  flat_map (fun '(k, b) => replicate k TimedOut ++ [Frame b]) l.

Definition any_timeout (l : list (nat * string)) : bool := existsb (fun '(k, _) => (0 <? k)%nat) l.

Definition errno_after (l : list (nat * string)) (e : Z) : Z := if any_timeout l then EAGAIN else e.

(** The actions of one peer's synchronisation, [extra] being what the loop
    does at the beginning of each round. *)
Definition handshake_actions (extra : list action) (h : nat * string) : list action :=
  concat (replicate (fst h) (extra ++ [ASend (sptr publisher) false hello])) ++
  extra ++ [ARecv (sptr service) (snd h); ASend (sptr service) false ""].

End round.

#[export] Hint Resolve serve_round_timeout serve_round_request serve_round_waits
  ready_after ready_emits : runs.

(** Socket [s] read down to [rest] where some timeouts may have happened. *)
Lemma errno_after_cons k b l e :
  errno_after l (if (0 <? k)%nat then EAGAIN else e) = errno_after ((k, b) :: l) e.
Proof.
  unfold errno_after, any_timeout. cbn [existsb].
  by destruct (existsb _ l), (0 <? k)%nat.
Qed.

(** ** A loop of rounds

    What the two synchronisation loops have in common: [limit] requests are
    wanted, and a round begins with the actions [extra i]. *)

Section poll.
Context (publisher service : socket_t) (hello : string) (limit : Z).
Context (extra : Z -> list action) (body : Z -> M sysE (Z + Z)).

Local Abbreviation srv := (sptr service).
Local Abbreviation ready := (ready publisher service).

Hypothesis limit_int : in_int limit.
Hypothesis body_round : forall i w o w', 0 <= i < limit ->
  runs NetP (answered <- serve_round publisher service hello;;
             if negb answered then ret (inl i)
             else next <- defined (add_int i 1);; ret (inl next)) (emits (extra i) w) o w' ->
  runs NetP (body i) w o w'.
Hypothesis body_exit : forall w, runs NetP (body limit) w (Returns (inr limit)) w.

Definition invitations (i : Z) (k : nat) : list action :=
  concat (replicate k (extra i ++ [ASend (sptr publisher) false hello])).

Definition poll_actions (i : Z) (l : list (nat * string)) : list action :=
  concat (imap (fun n h =>
    handshake_actions publisher service hello (extra (i + Z.of_nat n)) h) l).

Lemma poll_actions_cons i h l :
  poll_actions i (h :: l) =
  handshake_actions publisher service hello (extra i) h ++ poll_actions (i + 1) l.
Proof.
  unfold poll_actions. cbn [imap concat]. rewrite Z.add_0_r. do 2 f_equal.
  apply imap_ext. intros n h' _. cbn.
  by replace (i + 1 + Z.of_nat n) with (i + Z.of_nat (S n)) by lia.
Qed.

Lemma poll_timeouts k i w l o w' :
  0 <= i < limit -> ready w -> arrivals w !! srv = Some (replicate k TimedOut ++ l) ->
  runs NetP (loop body i)
    (after srv l (if (0 <? k)%nat then EAGAIN else errno w) (invitations i k) w) o w' ->
  runs NetP (loop body i) w o w'.
Proof.
  intros Hi. revert w. induction k as [|k IH]; intros w Hr Ha H.
  - cbn in H, Ha. by rewrite after_id in H.
  - eapply runs_loop_next.
    + eapply body_round; [done|]. eapply runs_bind.
      { apply serve_round_timeout; [by apply ready_emits|exact Ha]. }
      apply runs_ret.
    + rewrite after_emits. apply IH; [by apply ready_after|by rewrite arrivals_after|].
      rewrite after_after. cbn in H. by destruct (0 <? k)%nat.
Qed.

(** The peers in [l] are served, in order; then the loop is at [i + length l]. *)
Lemma poll_peers l i rest w o w' :
  0 <= i -> i + Z.of_nat (length l) <= limit -> ready w ->
  arrivals w !! srv = Some (handshakes l ++ rest) ->
  runs NetP (loop body (i + Z.of_nat (length l)))
    (after srv rest (errno_after l (errno w)) (poll_actions i l) w) o w' ->
  runs NetP (loop body i) w o w'.
Proof.
  revert i w. induction l as [|[k b] l IH]; intros i w Hi Hl Hr Ha H.
  - cbn in *. unfold poll_actions in H. by rewrite Z.add_0_r, after_id in H.
  - cbn [length] in *. cbn [handshakes flat_map] in Ha. rewrite <- !app_assoc in Ha.
    eapply poll_timeouts; [lia|done|exact Ha|].
    eapply runs_loop_next.
    + eapply body_round; [lia|]. eapply runs_bind.
      { apply serve_round_request; [by apply ready_emits, ready_after|]. apply arrivals_after. }
      cbn. eapply runs_bind; [apply runs_defined, add_int_Some; int_lia|apply runs_ret].
    + rewrite after_emits, after_after. apply IH; [lia|lia|done|apply arrivals_after|].
      rewrite after_after, <- (errno_after_cons k b) in *.
      replace (i + 1 + Z.of_nat (length l)) with (i + Z.of_nat (S (length l))) by lia.
      by rewrite poll_actions_cons in H.
Qed.

(** Enough requests: the loop returns, having served exactly [limit] peers. *)
Lemma poll_returns l rest w :
  limit = Z.of_nat (length l) -> ready w ->
  arrivals w !! srv = Some (handshakes l ++ rest) ->
  runs NetP (loop body 0) w (Returns limit)
    (after srv rest (errno_after l (errno w)) (poll_actions 0 l) w).
Proof.
  intros Hl Hr Ha. apply (poll_peers l 0 rest); [lia|lia|done|exact Ha|]. rewrite Z.add_0_l, <- Hl.
  apply runs_loop_exit, body_exit.
Qed.

(** Too few: it keeps inviting and never returns. *)
Lemma poll_waits l k w :
  Z.of_nat (length l) < limit -> ready w ->
  arrivals w !! srv = Some (handshakes l ++ replicate k TimedOut) ->
  exists w', runs NetP (loop body 0) w Waits w' /\
    trace w' = trace w ++ poll_actions 0 l ++
               invitations (Z.of_nat (length l)) k ++ extra (Z.of_nat (length l)).
Proof.
  intros Hl Hr Ha. eexists. split.
  - apply (poll_peers l 0 (replicate k TimedOut)); [lia|lia|done|exact Ha|]. rewrite Z.add_0_l.
    eapply poll_timeouts; [lia|done|rewrite arrivals_after; by rewrite app_nil_r|].
    apply runs_loop_waits. eapply body_round; [lia|].
    apply runs_bind_waits, serve_round_waits; [done|apply arrivals_after].
  - cbn. by rewrite <- !app_assoc.
Qed.

End poll.

(** ** The two loops *)

Section controller.
Context (publisher : socket_t) (c : config).

Definition sync_say (i : Z) : list action := [ACout ("sync " +:+ to_string (i + 1) +:+ endl)].

(** The actions of a synchronisation with the peers [l]. *)
Definition sync_listeners_actions (syncservice : socket_t) (l : list (nat * string)) :
    list action :=
  poll_actions publisher syncservice "HELLO_LISTENER" sync_say 0 l.
Definition sync_processes_actions (instance_syncservice : socket_t) (l : list (nat * string)) :
    list action :=
  poll_actions publisher instance_syncservice "HELLO_SOCKET" (fun _ => []) 0 l.

Lemma sync_listeners_round syncservice i w o w' :
  in_int (machines c) -> 0 <= i < machines c ->
  runs NetP (answered <- serve_round publisher syncservice "HELLO_LISTENER";;
             if negb answered then ret (inl i)
             else next <- defined (add_int i 1);; ret (inl next)) (emits (sync_say i) w) o w' ->
  runs NetP (if i <? machines c then
      next <- defined (add_int i 1);;
      call (Cout ("sync " +:+ to_string next +:+ endl));;
      answered <- serve_round publisher syncservice "HELLO_LISTENER";;
      if negb answered then ret (inl i)
      else next <- defined (add_int i 1);; ret (inl next)
    else ret (inr i)) w o w'.
Proof.
  intros Hm Hi H. rewrite (proj2 (Z.ltb_lt _ _)) by lia.
  eapply runs_bind; [apply runs_defined, add_int_Some; int_lia|].
  eapply runs_bind; [apply cout_runs|exact H].
Qed.

Lemma sync_processes_round service n i w o w' :
  clients_expected c = Some n -> 0 <= i < n ->
  runs NetP (answered <- serve_round publisher service "HELLO_SOCKET";;
             if negb answered then ret (inl i)
             else next <- defined (add_int i 1);; ret (inl next)) (emits [] w) o w' ->
  runs NetP (expected <- defined (clients_expected c);;
    if i <? expected then
      answered <- serve_round publisher service "HELLO_SOCKET";;
      if negb answered then ret (inl i)
      else next <- defined (add_int i 1);; ret (inl next)
    else ret (inr i)) w o w'.
Proof.
  intros Hn Hi H. rewrite emits_nil in H. eapply runs_bind; [apply runs_defined, Hn|].
  by rewrite (proj2 (Z.ltb_lt _ _)) by lia.
Qed.

Lemma clients_expected_int n : clients_expected c = Some n -> in_int n.
Proof. intros H. by apply int_result_inv in H as [-> ?]. Qed.

Lemma sync_listeners_returns syncservice l rest w :
  in_int (machines c) -> machines c = Z.of_nat (length l) ->
  ready publisher syncservice w ->
  arrivals w !! sptr syncservice = Some (handshakes l ++ rest) ->
  runs NetP (sync_listeners publisher syncservice c) w (Returns (machines c))
    (after (sptr syncservice) rest (errno_after l (errno w))
       (sync_listeners_actions syncservice l) w).
Proof.
  intros Hm Hl Hr Ha. eapply poll_returns with (extra := sync_say); [done|..|done|done|exact Ha].
  - intros. by apply sync_listeners_round.
  - intros w'. rewrite Z.ltb_irrefl. apply runs_ret.
Qed.

Lemma sync_processes_returns service n l rest w :
  clients_expected c = Some n -> n = Z.of_nat (length l) ->
  ready publisher service w ->
  arrivals w !! sptr service = Some (handshakes l ++ rest) ->
  runs NetP (sync_processes publisher service c) w (Returns n)
    (after (sptr service) rest (errno_after l (errno w)) (sync_processes_actions service l) w).
Proof.
  intros Hn Hl Hr Ha.
  eapply poll_returns with (extra := fun _ => []);
    [by apply clients_expected_int|..|done|done|exact Ha].
  - intros. by eapply sync_processes_round.
  - intros w'. eapply runs_bind; [apply runs_defined, Hn|]. rewrite Z.ltb_irrefl. apply runs_ret.
Qed.

End controller.
