(* ===== verification/Collect.v ===== *)
(** * The collection loop of the controller

    The sink socket delivers whole multipart messages, whose parts [collect]
    reads one at a time.  Here the loop is related to its specification
    [tally_messages], a fold over messages: the parts a "Finished" message has
    beyond those the loop reads are skipped by the next round, and the loop
    returns exactly when every client process has been reported. *)

From S2P Require Import Prelude CInt Prog Text Double Sys Zmq ZHelpers Config Controller.
Local Open Scope Z_scope.

(** ** Messages at the sink *)

(** What a listener sends when a process ends, and a worker per connection. *)
Inductive message :=
| Finished (name exit_status : string)
| Result (stats : string).

Definition message_frames (m : message) : list string :=
  match m with
  | Finished name exit_status => ["Finished"; name; exit_status; ""]
  | Result stats => ["Result"; stats; ""]
  end.

Definition frames (ms : list message) : list arrival := Frame <$> concat (message_frames <$> ms).

Definition is_finished (m : message) : bool := match m with Finished _ _ => true | _ => false end.

Definition finished_in (ms : list message) : Z := Z.of_nat (count_if is_finished ms).

Lemma frames_cons m ms : frames (m :: ms) = (Frame <$> message_frames m) ++ frames ms.
Proof. unfold frames. cbn. by rewrite fmap_app. Qed.

Lemma finished_in_cons m ms :
  finished_in (m :: ms) = (if is_finished m then 1 else 0) + finished_in ms.
Proof. unfold finished_in. cbn. destruct (is_finished m); lia. Qed.

Lemma finished_in_nonneg ms : 0 <= finished_in ms.
Proof. unfold finished_in. lia. Qed.

(** Decompose a step that succeeded. *)
Ltac tally_inv :=
  repeat match goal with
  | H : Some _ = Some _ |- _ => injection H as <-
  | H : None = Some _ |- _ => discriminate H
  | H : mbind _ _ = Some _ |- _ => apply bind_Some in H as (? & ? & ?)
  | H : add_int _ _ = Some _ |- _ => apply int_result_inv in H as [? ?]
  | H : sub_int _ _ = Some _ |- _ => apply int_result_inv in H as [? ?]
  | H : (if ?b then _ else _) = Some _ |- _ => destruct b eqn:?
  end.

Section spec.
Context {D : Type} `{!Arith D} `{!Accumulators D}.
Context (c : config) (resultsExpected : Z).

(** ** The specification: a fold over messages *)

Definition tally_message (m : message) (t : tally D) : option (tally D) :=
  match m with
  | Finished _ exit_status => tally_finished exit_status t
  | Result stats => tally_result c resultsExpected stats t
  end.

Fixpoint tally_messages (ms : list message) (t : tally D) : option (tally D) :=
  match ms with
  | [] => Some t
  | m :: ms => t' ← tally_message m t; tally_messages ms t'
  end.

(** The processes reported so far. *)
Definition ended (t : tally D) : Z := clientsFinished t + clientsDied t.

(** ** What one message changes *)

(** Each step of [tally_result] keeps the process counters. *)
Definition same_ended (t t' : tally D) : Prop :=
  clientsFinished t' = clientsFinished t /\ clientsDied t' = clientsDied t.

Lemma tally_result_ended stats t t' : tally_result c resultsExpected stats t = Some t' -> same_ended t t'.
Proof.
  unfold tally_result, tally_line, tally_received, tally_setup, tally_connection, tally_latency,
    tally_died, tally_succeeded, same_ended.
  intros H. tally_inv; done.
Qed.

Lemma tally_finished_ended s t t' : tally_finished s t = Some t' ->
  ended t' = ended t + 1 /\ (clientsFinished t <= clientsFinished t') /\ (clientsDied t <= clientsDied t').
Proof. unfold tally_finished, ended. intros H. tally_inv; cbn; lia. Qed.

(** The process counters are never negative. *)
Definition counted (t : tally D) : Prop := 0 <= clientsFinished t /\ 0 <= clientsDied t.

Lemma tally_message_ended m t t' :
  counted t -> tally_message m t = Some t' ->
  counted t' /\ ended t' = ended t + (if is_finished m then 1 else 0).
Proof.
  unfold counted. destruct m; cbn; intros Hc H.
  - apply tally_finished_ended in H. lia.
  - apply tally_result_ended in H as [H1 H2]. unfold ended. rewrite H1, H2. lia.
Qed.

Lemma tally_messages_ended ms t t' :
  counted t -> tally_messages ms t = Some t' ->
  counted t' /\ ended t' = ended t + finished_in ms.
Proof.
  revert t. induction ms as [|m ms IH]; cbn; intros t Hc H.
  - injection H as <-. unfold finished_in. cbn. split; [done|lia].
  - apply bind_Some in H as (t1 & H1 & H). apply tally_message_ended in H1 as [Hc1 He1]; [|done].
    apply IH in H as [Hc' He']; [|done]. rewrite finished_in_cons. split; [done|lia].
Qed.

(** ** The loop refines the fold *)

Context (receiver : socket_t) (n : Z).
Hypothesis expected : clients_expected c = Some n.

Local Abbreviation sink := (sptr receiver).
Local Abbreviation step := (collect_step receiver c resultsExpected).

Definition died_line (name exit_status : string) : list action :=
  if bool_decide (exit_status <> "0")
  then [ACout (name +:+ " exited with status " +:+ exit_status +:+ endl)] else [].

(** The actions of a message up to the last part its round reads, and the
    parts the round leaves. *)
Definition message_actions (m : message) : list action :=
  match m with
  | Finished name s => [ARecv sink "Finished"; ARecv sink name; ARecv sink s] ++ died_line name s
  | Result stats => [ARecv sink "Result"; ARecv sink stats; ARecv sink ""]
  end.
Definition leftover (m : message) : list string :=
  match m with Finished _ _ => [""] | Result _ => [] end.

Lemma step_open t w (m : M sysE (tally D + tally D)) o w' :
  counted t -> ended t < n -> runs NetP m w o w' ->
  runs NetP (ended <- defined (add_int (clientsFinished t) (clientsDied t));;
             expected <- defined (clients_expected c);;
             if ended <? expected then m else ret (inr t)) w o w'.
Proof.
  unfold counted, ended. intros Hc Hlt H.
  pose proof expected as Hn. apply int_result_inv in Hn as [-> Hn].
  eapply runs_bind; [apply runs_defined, add_int_Some; int_lia|].
  eapply runs_bind; [apply runs_defined, expected|].
  by rewrite (proj2 (Z.ltb_lt _ _)).
Qed.

Lemma step_closed t w :
  counted t -> ended t = n -> runs NetP (step t) w (Returns (inr t)) w.
Proof.
  unfold counted, ended. intros Hc He.
  pose proof expected as Hn. apply int_result_inv in Hn as [-> Hn]. unfold collect_step.
  eapply runs_bind; [apply runs_defined, add_int_Some; int_lia|].
  eapply runs_bind; [apply runs_defined, expected|].
  rewrite (proj2 (Z.ltb_ge _ _)) by lia. apply runs_ret.
Qed.

(** The body of the loop does its reads one after the other. *)
Lemma read_part {A} (k : string -> M sysE A) b l w o w' :
  open_socket receiver w -> arrivals w !! sink = Some (Frame b :: l) ->
  runs NetP (k b) (after sink l (errno w) [ARecv sink b] w) o w' ->
  runs NetP (bind (s_recv receiver) k) w o w'.
Proof. intros Hs Ha H. eapply runs_bind; [by apply s_recv_after|exact H]. Qed.

Lemma round_finished t t' name s rest w :
  counted t -> ended t < n -> open_socket receiver w ->
  arrivals w !! sink = Some (Frame "Finished" :: Frame name :: Frame s :: rest) ->
  tally_finished s t = Some t' ->
  runs NetP (step t) w (Returns (inl t'))
    (after sink rest (errno w) (message_actions (Finished name s)) w).
Proof.
  intros Hc Hlt Hs Ha Ht. apply step_open; [done..|].
  eapply read_part; [done|exact Ha|]. rewrite bool_decide_eq_true_2 by done.
  eapply read_part; [done|apply arrivals_after|]. rewrite after_after.
  eapply read_part; [done|apply arrivals_after|]. rewrite after_after.
  cbn [message_actions]. unfold died_line. case_bool_decide.
  - eapply runs_bind; [apply cout_runs|].
    eapply runs_bind; [by apply runs_defined|]. unfold emit. rewrite emits_after. apply runs_ret.
  - eapply runs_bind; [apply runs_ret|].
    eapply runs_bind; [by apply runs_defined|]. rewrite app_nil_r. apply runs_ret.
Qed.

Lemma round_result t t' stats rest w :
  counted t -> ended t < n -> open_socket receiver w ->
  arrivals w !! sink = Some (Frame "Result" :: Frame stats :: Frame "" :: rest) ->
  tally_result c resultsExpected stats t = Some t' ->
  runs NetP (step t) w (Returns (inl t'))
    (after sink rest (errno w) (message_actions (Result stats)) w).
Proof.
  intros Hc Hlt Hs Ha Ht. apply step_open; [done..|].
  eapply read_part; [done|exact Ha|].
  rewrite bool_decide_eq_false_2, bool_decide_eq_true_2 by done.
  eapply read_part; [done|apply arrivals_after|]. rewrite after_after.
  eapply read_part; [done|apply arrivals_after|]. rewrite after_after.
  eapply runs_bind; [by apply runs_defined|]. apply runs_ret.
Qed.

Lemma round_skip t rest w :
  counted t -> ended t < n -> open_socket receiver w ->
  arrivals w !! sink = Some (Frame "" :: rest) ->
  runs NetP (step t) w (Returns (inl t)) (after sink rest (errno w) [ARecv sink ""] w).
Proof.
  intros Hc Hlt Hs Ha. apply step_open; [done..|].
  eapply read_part; [done|exact Ha|].
  rewrite !bool_decide_eq_false_2 by done. apply runs_ret.
Qed.

Lemma round_message t t' m rest w :
  counted t -> ended t < n -> open_socket receiver w ->
  arrivals w !! sink = Some ((Frame <$> message_frames m) ++ rest) ->
  tally_message m t = Some t' ->
  runs NetP (step t) w (Returns (inl t'))
    (after sink ((Frame <$> leftover m) ++ rest) (errno w) (message_actions m) w).
Proof.
  intros Hc Hlt Hs Ha Ht. destruct m as [name s|stats].
  - by apply round_finished.
  - by apply round_result.
Qed.

Definition skipped (m : message) : list action := (fun b => ARecv sink b) <$> leftover m.

(** The leftover of a message is skipped when the loop goes round again. *)
Lemma rounds_leftover m t rest w o w' :
  counted t -> ended t < n -> open_socket receiver w ->
  arrivals w !! sink = Some ((Frame <$> leftover m) ++ rest) ->
  runs NetP (loop step t) (after sink rest (errno w) (skipped m) w) o w' ->
  runs NetP (loop step t) w o w'.
Proof.
  intros Hc Hlt Hs Ha H. destruct m as [name s|stats]; cbn in *.
  - eapply runs_loop_next; [by apply round_skip|exact H].
  - by rewrite after_id in H.
Qed.

(** All the actions of the loop over [ms]: the leftover of the last message
    is not read. *)
Fixpoint collect_actions (ms : list message) : list action :=
  match ms with
  | [] => []
  | [m] => message_actions m
  | m :: ms => message_actions m ++ skipped m ++ collect_actions ms
  end.

Definition last_leftover (ms : list message) : list arrival :=
  match last ms with Some m => Frame <$> leftover m | None => [] end.

(** Enough "Finished" messages, the last message being one: the loop returns
    the fold of the specification. *)
Lemma collect_from ms m t t' rest w :
  counted t -> ended t + finished_in (ms ++ [m]) = n -> is_finished m = true ->
  open_socket receiver w -> arrivals w !! sink = Some (frames (ms ++ [m]) ++ rest) ->
  tally_messages (ms ++ [m]) t = Some t' ->
  runs NetP (loop step t) w (Returns t')
    (after sink ((Frame <$> leftover m) ++ rest) (errno w) (collect_actions (ms ++ [m])) w).
Proof.
  revert t w. induction ms as [|m0 ms IH]; intros t w Hc Hn Hm Hs Ha Ht.
  - cbn [app] in *. rewrite finished_in_cons, Hm in Hn. unfold finished_in in Hn. cbn in Hn, Ht.
    rewrite bind_Some in Ht. destruct Ht as (t1 & Ht1 & [= ->]).
    destruct (tally_message_ended _ _ _ Hc Ht1) as [Hc1 He1]. rewrite Hm in He1.
    rewrite frames_cons, <- app_assoc in Ha.
    eapply runs_loop_next; [eapply round_message; [done|lia|done|exact Ha|done]|].
    apply runs_loop_exit, step_closed; [done|lia].
  - cbn [app] in *. rewrite finished_in_cons in Hn.
    pose proof (finished_in_nonneg ms). assert (1 <= finished_in (ms ++ [m])) as Hge.
    { unfold finished_in in *. rewrite count_if_app. cbn. rewrite Hm. lia. }
    cbn [tally_messages] in Ht. rewrite bind_Some in Ht. destruct Ht as (t1 & Ht1 & Ht).
    destruct (tally_message_ended _ _ _ Hc Ht1) as [Hc1 He1].
    rewrite frames_cons, <- app_assoc in Ha.
    eapply runs_loop_next.
    { eapply round_message; [done|destruct (is_finished m0); lia|done|exact Ha|done]. }
    eapply (rounds_leftover m0); [done|lia|done|apply arrivals_after|]. rewrite after_after.
    specialize (IH t1 (after sink (frames (ms ++ [m]) ++ rest) (errno w)
      (message_actions m0 ++ skipped m0) w) Hc1 ltac:(lia) Hm Hs (arrivals_after _ _ _ _ _) Ht).
    rewrite after_after in IH. cbn [errno after emits] in *.
    assert (collect_actions (m0 :: ms ++ [m]) =
      (message_actions m0 ++ skipped m0) ++ collect_actions (ms ++ [m])) as ->.
    { rewrite <- app_assoc. by destruct ms. }
    exact IH.
Qed.

(** Too few "Finished" messages: the loop waits for more. *)
Lemma collect_waits ms t t' w :
  counted t -> ended t + finished_in ms < n ->
  open_socket receiver w -> arrivals w !! sink = Some (frames ms) ->
  tally_messages ms t = Some t' ->
  exists w', runs NetP (loop step t) w Waits w'.
Proof.
  revert t w. induction ms as [|m ms IH]; intros t w Hc Hn Hs Ha Ht.
  - exists (receiving w). apply runs_loop_waits, step_open; [done|unfold finished_in in Hn; cbn in Hn; lia|].
    apply runs_bind_waits. by apply s_recv_waits.
  - rewrite finished_in_cons in Hn. pose proof (finished_in_nonneg ms).
    cbn [tally_messages] in Ht. rewrite bind_Some in Ht. destruct Ht as (t1 & Ht1 & Ht).
    destruct (tally_message_ended _ _ _ Hc Ht1) as [Hc1 He1].
    rewrite frames_cons in Ha.
    edestruct (IH t1) as [w' Hw']; [done|lia| | |done|].
    3: { exists w'. eapply runs_loop_next.
         { eapply round_message; [done|destruct (is_finished m); lia|done|exact Ha|done]. }
         eapply (rounds_leftover m); [done|lia|done|apply arrivals_after|exact Hw']. }
    { done. }
    apply arrivals_after.
Qed.

End spec.
