(* ===== verification/ControllerRun.v ===== *)
(** * Runs of the controller

    The functional correctness of one iteration and of [main]: the complete
    sequence of actions of the process, for every timing of the requests and
    every sequence of messages at the sink. *)

From S2P Require Import Prelude CInt Prog Text Double Sys Zmq ZHelpers Config Controller Sync Collect.
Local Open Scope Z_scope.

(** ** Publication *)

(** The actions that publish a multipart message. *)
Fixpoint multipart (s : handle) (parts : list string) : list action :=
  match parts with
  | [] => []
  | [p] => [ASend s false p]
  | p :: parts => ASend s true p :: multipart s parts
  end.

Lemma start_processes_runs publisher c w :
  open_socket publisher w -> send_faults w = [] ->
  runs NetP (start_processes publisher c) w (Returns tt)
    (emits (multipart (sptr publisher) (start_processes_frames c)) w).
Proof.
  intros Hs Hf. unfold start_processes.
  do 2 (eapply runs_bind; [by apply s_sendmore_emits|]).
  eapply runs_bind; [by apply s_send_emits|].
  unfold emit. rewrite !emits_emits. apply runs_ret.
Qed.

Lemma start_websockets_runs publisher c w :
  open_socket publisher w -> send_faults w = [] ->
  runs NetP (start_websockets publisher c) w (Returns tt)
    (emits (multipart (sptr publisher) (start_websockets_frames c)) w).
Proof.
  intros Hs Hf. unfold start_websockets.
  do 8 (eapply runs_bind; [by apply s_sendmore_emits|]).
  eapply runs_bind; [by apply s_send_emits|].
  unfold emit. rewrite !emits_emits. apply runs_ret.
Qed.

(** ** One iteration *)

Section iteration.
Context `{!Accumulators double}.
Context (publisher syncservice instance_syncservice receiver : socket_t) (c : config).

(** The lines of [report]. *)
Definition report_actions (iteration : Z) (t : tally double) (variance : double) : list action :=
  [ACout ("Iteration " +:+ to_string iteration +:+ " done:" +:+ endl);
   ACout ("Clients completed " +:+ to_string (clientsFinished t) +:+ ", clients died " +:+
          to_string (clientsDied t) +:+ endl);
   ACout ("Connections succeeded " +:+ to_string (connectionsSucceeded t) +:+ endl);
   ACout ("Connections died " +:+ to_string (connectionsDied t) +:+ endl);
   ACout ("Connection setup latency " +:+ g6 (acc_mean (setup_stats t)) +:+ "+-" +:+
          g6 (double_sqrt (acc_variance (setup_stats t))) +:+ " ms" +:+ endl);
   ACout ("Average message latency " +:+ g6 (overallMean t) +:+ "+-" +:+
          g6 (double_sqrt variance) +:+ " ms" +:+ endl)].

Lemma report_runs iteration t variance w :
  overallVariance t = Some variance ->
  runs NetP (report iteration t) w (Returns tt) (emits (report_actions iteration t variance) w).
Proof.
  intros Hv. unfold report.
  do 5 (eapply runs_bind; [apply cout_runs|]).
  eapply runs_bind; [by apply runs_defined|].
  unfold report_actions. rewrite <- !emit_emits, emits_nil. apply cout_runs.
Qed.

Definition config_line : string :=
  to_string (instances c) +:+ " instances " +:+ to_string (interval c) +:+
  " interval " +:+ to_string (messages c) +:+ " messages " +:+
  to_string (message_length c) +:+ " bytes" +:+ endl.

(** The actions of an iteration whose listeners [l1] and processes [l2]
    synchronise, and whose sink delivers [ms]. *)
Definition iteration_actions (iteration : Z) (l1 l2 : list (nat * string)) (ms : list message)
    (t : tally double) (variance : double) : list action :=
  [ACout ("Syncing slaves" +:+ endl)] ++
  sync_listeners_actions publisher syncservice l1 ++
  [ASleep 2; ACout ("Broadcast StartProcesses" +:+ endl)] ++
  multipart (sptr publisher) (start_processes_frames c) ++
  [ACout ("Syncing processes" +:+ endl)] ++
  sync_processes_actions publisher instance_syncservice l2 ++
  [ACout ("Broadcasting start request" +:+ endl); ACout config_line] ++
  multipart (sptr publisher) (start_websockets_frames c) ++
  collect_actions receiver ms ++
  report_actions iteration t variance.

(** The four sockets are open, distinct, and sends succeed. *)
Definition sockets_ready (w : world) : Prop :=
  open_socket publisher w /\ open_socket syncservice w /\ open_socket instance_syncservice w /\
  open_socket receiver w /\ send_faults w = [] /\
  sptr syncservice <> sptr instance_syncservice /\ sptr syncservice <> sptr receiver /\
  sptr instance_syncservice <> sptr receiver.

Lemma run_iteration_runs iteration n total l1 l2 ms m t variance rest1 rest2 rest w :
  sockets_ready w ->
  in_int (machines c) -> machines c = Z.of_nat (length l1) ->
  clients_expected c = Some n -> n = Z.of_nat (length l2) ->
  results_expected c = Some total ->
  finished_in (ms ++ [m]) = n -> is_finished m = true ->
  tally_messages c total (ms ++ [m]) tally0 = Some t -> overallVariance t = Some variance ->
  arrivals w !! sptr syncservice = Some (handshakes l1 ++ rest1) ->
  arrivals w !! sptr instance_syncservice = Some (handshakes l2 ++ rest2) ->
  arrivals w !! sptr receiver = Some (frames (ms ++ [m]) ++ rest) ->
  exists w', runs NetP (run_iteration publisher syncservice instance_syncservice receiver
                          iteration c) w (Returns tt) w' /\
    trace w' = trace w ++ iteration_actions iteration l1 l2 (ms ++ [m]) t variance /\
    live w' = live w /\ sockets w' = sockets w /\ send_faults w' = [].
Proof.
  intros (Hp & Hs & Hi & Hr & Hf & N1 & N2 & N3) Hm Hl1 Hn Hl2 Htot Hfin Hlast Ht Hv A1 A2 A3.
  eexists. split.
  - unfold run_iteration.
    eapply runs_bind; [apply cout_runs|].
    eapply runs_bind; [by eapply sync_listeners_returns|].
    eapply runs_bind; [apply sleep_runs|]. eapply runs_bind; [apply cout_runs|].
    eapply runs_bind; [by apply start_processes_runs|].
    eapply runs_bind; [apply cout_runs|].
    eapply runs_bind.
    { eapply sync_processes_returns; [done..|]. cbn. rewrite lookup_insert_ne by done. exact A2. }
    eapply runs_bind; [apply cout_runs|]. eapply runs_bind; [apply cout_runs|].
    eapply runs_bind; [by apply start_websockets_runs|].
    eapply runs_bind.
    { unfold collect. eapply runs_bind; [by apply runs_defined|].
      eapply collect_from; [done|done|exact Hfin|done|done| |done].
      cbn. rewrite !lookup_insert_ne by done. exact A3. }
    by apply report_runs.
  - split; [|done]. cbn. unfold iteration_actions. by rewrite <- !app_assoc.
Qed.

End iteration.

(** ** Opening and closing sockets *)

Lemma socket_new_runs ctx type w :
  ctx <> NULL -> 0 <= sockets w ->
  runs NetP (socket.new ctx type) w (Returns (Socket (sockets w + 1) (Some ctx)))
       (new_socket (emit (ASocket (sockets w + 1) type) w)).
Proof.
  intros Hc Hs. unfold socket.new. eapply runs_bind.
  { apply runs_call; [done|]. intros x w' [-> ->]. done. }
  destruct (Z.eqb_spec (sockets w + 1) NULL) as [E|E]; [unfold NULL in E; lia|]. apply runs_ret.
Qed.

Lemma rc_runs (e : sysE Z) w w1 :
  enabled NetP e w -> (forall rc w', contract NetP e w rc w' -> rc = 0 /\ w' = w1) ->
  runs NetP (rc <- call e;; check_rc rc) w (Returns tt) w1.
Proof. intros He Hc. eapply runs_bind; [by apply runs_call|]. apply runs_ret. Qed.

Lemma bind_runs s addr w :
  open_socket s w -> runs NetP (socket.bind s addr) w (Returns tt) (emit (ABind (sptr s) addr) w).
Proof. intros Hs. by apply rc_runs. Qed.

Lemma connect_runs s addr w :
  open_socket s w ->
  runs NetP (socket.connect s addr) w (Returns tt) (emit (AConnect (sptr s) addr) w).
Proof. intros Hs. by apply rc_runs. Qed.

Lemma setsockopt_runs s o v w :
  open_socket s w ->
  runs NetP (socket.setsockopt s o v) w (Returns tt) (emit (AOption (sptr s) o (inr v)) w).
Proof. intros Hs. by apply rc_runs. Qed.

Lemma setsockopt_int_runs s o v w :
  open_socket s w ->
  runs NetP (socket.setsockopt_int s o v) w (Returns tt) (emit (AOption (sptr s) o (inl v)) w).
Proof. intros Hs. by apply rc_runs. Qed.

Lemma socket_dtor_runs s w :
  open_socket s w -> runs NetP (socket.dtor s) w (Returns tt) (emit (AClose (sptr s)) w).
Proof.
  intros Hs. unfold socket.dtor, socket.close.
  destruct (Z.eqb_spec (sptr s) NULL) as [E|E]; [unfold open_socket, NULL in *; lia|].
  eapply runs_bind; [|apply runs_ret].
  eapply runs_bind. { apply runs_call; [done|]. intros rc w' [-> ->]. done. }
  eapply runs_bind; [apply runs_ret|apply runs_ret].
Qed.

Lemma context_dtor_runs ctx w :
  ctx <> NULL -> runs NetP (context.dtor ctx) w (Returns tt) (emit ACtxClose w).
Proof.
  intros Hc. unfold context.dtor, context.close. destruct (Z.eqb_spec ctx NULL); [done|].
  eapply runs_bind; [|apply runs_ret].
  eapply runs_bind. { apply runs_call; [done|]. intros rc w' [-> ->]. done. }
  eapply runs_bind; [apply runs_ret|apply runs_ret].
Qed.

(** The context is any non-null handle. *)
Lemma wp_context_new n w Q :
  (forall ctx, ctx <> NULL -> Q (Returns ctx) (emit (AContext n) w)) ->
  wp NetP (context.new_threads n) w Q.
Proof.
  intros HQ. unfold context.new_threads.
  apply wp_bind, wp_call; [done|]. intros ctx w' [Hc ->].
  apply wp_bind. destruct (Z.eqb_spec ctx NULL); [done|]. apply wp_ret.
  apply wp_bind, wp_call; [done|]. intros rc w' [-> ->].
  apply wp_bind, wp_ret, wp_ret. by apply HQ.
Qed.

(** ** [main] *)

Section main.
Context `{!Accumulators double}.

Definition publisher_addr : string := "tcp://*:5561".

Definition prologue : list action :=
  [ACout ("Starting controller" +:+ endl); AContext 1;
   ASocket 1 ZMQ_PUB; ABind 1 publisher_addr;
   ASocket 2 ZMQ_REP; AOption 2 ZMQ_RCVTIMEO (inl 5000); ABind 2 "tcp://*:5562";
   ASocket 3 ZMQ_REP; AOption 3 ZMQ_RCVTIMEO (inl 5000); ABind 3 "tcp://*:5563";
   ASocket 4 ZMQ_PULL; ABind 4 "tcp://*:5564"].

Definition epilogue : list action :=
  [ACout ("Ending" +:+ endl); ASend 1 false "END"; ASleep 1;
   AClose 4; AClose 3; AClose 2; AClose 1; ACtxClose].

(** The configuration of the only iteration. *)
Definition conf16 : config := set_machines 17 default_config.

Definition main_actions l1 l2 ms t variance : list action :=
  prologue ++
  iteration_actions (Socket 1 None) (Socket 2 None) (Socket 3 None) (Socket 4 None) conf16 16
    l1 l2 ms t variance ++
  epilogue.

(** A process about to run [main]: no socket yet, and sends succeed. *)
Definition initial (w : world) : Prop := sockets w = 0 /\ send_faults w = [].

Lemma iterate_runs publisher syncservice instance_syncservice receiver w w' :
  runs NetP (run_iteration publisher syncservice instance_syncservice receiver 16 conf16) w
       (Returns tt) w' ->
  runs NetP (iterate publisher syncservice instance_syncservice receiver) w (Returns 18) w'.
Proof.
  intros H. eapply runs_loop_next.
  - eapply runs_bind; [apply runs_defined; apply (conf_lookup 16); unfold iterations; lia|].
    eapply runs_bind; [exact H|]. eapply runs_bind; [by apply runs_defined|]. apply runs_ret.
  - apply runs_loop_exit. apply runs_ret.
Qed.

(** The next socket is created, configured or bound. *)
Ltac open_next :=
  eapply wp_seq;
  [first [apply socket_new_runs; [done|cbn; lia]
         |apply bind_runs; unfold open_socket; cbn; lia
         |apply setsockopt_int_runs; unfold open_socket; cbn; lia]|];
  cbn [sockets new_socket emit emits Z.add Pos.add sptr].

Lemma wp_main l1 l2 ms m t variance rest1 rest2 rest w :
  initial w ->
  length l1 = 17%nat -> length l2 = 1700%nat ->
  finished_in (ms ++ [m]) = 1700 -> is_finished m = true ->
  tally_messages conf16 127500 (ms ++ [m]) tally0 = Some t -> overallVariance t = Some variance ->
  arrivals w !! 2 = Some (handshakes l1 ++ rest1) ->
  arrivals w !! 3 = Some (handshakes l2 ++ rest2) ->
  arrivals w !! 4 = Some (frames (ms ++ [m]) ++ rest) ->
  wp NetP main w (fun o w' =>
    o = Returns 0 /\ live w' = live w /\
    trace w' = trace w ++ main_actions l1 l2 (ms ++ [m]) t variance).
Proof.
  intros [Hs Hf] Hl1 Hl2 Hfin Hm Ht Hv A1 A2 A3. unfold main.
  eapply wp_seq; [apply cout_runs|]. apply wp_bind, wp_context_new. intros ctx Hc. cbn beta iota.
  destruct w as [lv ar en sf so re ra la cl cr tr]. cbn in Hs, Hf, A1, A2, A3. subst so sf.
  do 2 open_next. do 3 open_next. do 3 open_next. do 2 open_next.
  match goal with |- wp _ _ ?wi _ =>
  edestruct (run_iteration_runs (Socket 1 (Some ctx)) (Socket 2 (Some ctx)) (Socket 3 (Some ctx))
    (Socket 4 (Some ctx)) conf16 16 1700 127500 l1 l2 ms m t variance rest1 rest2 rest wi) as
    (w' & Hrun & Htr & Hlive & Hso & Hsf);
    [|done|cbn; lia|done|lia|done|done|done|done|done|exact A1|exact A2|exact A3|] end.
  { unfold sockets_ready, open_socket. cbn. repeat split; lia. }
  eapply wp_seq; [apply iterate_runs, Hrun|].
  assert (forall k, 1 <= k <= 4 -> open_socket (Socket k (Some ctx)) w') as Hopen.
  { intros k Hk. unfold open_socket. rewrite Hso. cbn. lia. }
  eapply wp_seq; [apply cout_runs|].
  eapply wp_seq; [apply s_send_emits; [apply Hopen; lia|exact Hsf]|].
  eapply wp_seq; [apply sleep_runs|].
  do 4 (eapply wp_seq; [apply socket_dtor_runs, Hopen; lia|]).
  eapply wp_seq; [by apply context_dtor_runs|]. apply wp_ret.
  split; [done|]. split; [exact Hlive|].
  cbn [trace emit emits sptr]. rewrite Htr. cbn [trace emit emits new_socket].
  unfold main_actions, prologue, epilogue.
  change (iteration_actions (Socket 1 (Some ctx)) (Socket 2 (Some ctx)) (Socket 3 (Some ctx))
    (Socket 4 (Some ctx))) with (iteration_actions (Socket 1 None) (Socket 2 None)
    (Socket 3 None) (Socket 4 None)).
  rewrite <- !app_assoc. reflexivity.
Qed.

End main.
