(* ===== verification/Ownership.v ===== *)
(** * Ownership of sockets

    A [socket_t] owns a socket of libzmq: programs construct, move, close and
    destroy the objects in any order.  [exec] runs such a program with the
    class's methods; the invariant is that every socket ever opened is either
    held by exactly one object or has been closed exactly once. *)

From S2P Require Import Prelude CInt Prog Sys Zmq ZHelpers ControllerRun.
Local Open Scope Z_scope.

(** ** Programs *)

(** What a program does with its variables of type [socket_t]:
    [socket_t x (context, type)], [socket_t x (std::move (y))],
    [x = std::move (y)], [x.close ()], and the end of the scope of [x]. *)
Inductive op :=
| Construct (x : nat) (type : Z)
| MoveConstruct (x y : nat)
| MoveAssign (x y : nat)
| Close (x : nat)
| Destroy (x : nat).

(** The objects in scope. *)
Abbreviation objects := (gmap nat socket_t) (only parsing).

Definition exec (context : handle) (o : op) (st : objects) : M sysE objects :=
  match o with
  | Construct x type => s <- socket.new context type;; ret (<[x := s]> st)
  | MoveConstruct x y =>
      rhs <- defined (st !! y);;
      let '(s, rhs) := socket.new_move rhs in
      ret (<[x := s]> (<[y := rhs]> st))
  | MoveAssign x y =>
      s <- defined (st !! x);;
      rhs <- defined (st !! y);;
      let '(s, rhs) := socket.assign_move s rhs in
      ret (<[x := s]> (<[y := rhs]> st))
  | Close x => s <- defined (st !! x);; s <- socket.close s;; ret (<[x := s]> st)
  | Destroy x => s <- defined (st !! x);; socket.dtor s;; ret (delete x st)
  end.

Fixpoint exec_all (context : handle) (ops : list op) (st : objects) : M sysE objects :=
  match ops with
  | [] => ret st
  | o :: ops => st <- exec context o st;; exec_all context ops st
  end.

(** C++'s scoping: the variables in scope after an operation that only uses
    variables in scope and only constructs new ones. *)
Definition scope (o : op) (X : gset nat) : option (gset nat) :=
  match o with
  | Construct x _ => if decide (x ∈ X) then None else Some ({[x]} ∪ X)
  | MoveConstruct x y => if decide (x ∉ X /\ y ∈ X) then Some ({[x]} ∪ X) else None
  | MoveAssign x y => if decide (x ∈ X /\ y ∈ X) then Some X else None
  | Close x => if decide (x ∈ X) then Some X else None
  | Destroy x => if decide (x ∈ X) then Some (X ∖ {[x]}) else None
  end.

Fixpoint scope_all (ops : list op) (X : gset nat) : option (gset nat) :=
  match ops with
  | [] => Some X
  | o :: ops => X ← scope o X; scope_all ops X
  end.

(** ** Owners and closes of a handle *)

Definition holds (h : handle) (s : socket_t) : bool := sptr s =? h.
Definition owners (h : handle) (st : objects) : nat :=
  count_if (fun p => holds h (snd p)) (map_to_list st).
Definition is_close (h : handle) (a : action) : bool := match a with AClose s => s =? h | _ => false end.
Definition closes (h : handle) (l : list action) : nat := count_if (is_close h) l.

Definition opened (h : handle) (w : world) : bool := (1 <=? h) && (h <=? sockets w).

(** Every socket opened so far has one owner, or was closed once. *)
Definition owned_once (st : objects) (w : world) : Prop :=
  0 <= sockets w /\
  forall h, h <> NULL -> (owners h st + closes h (trace w))%nat = Nat.b2n (opened h w).

Lemma owners_insert_new h st x s :
  st !! x = None -> owners h (<[x := s]> st) = (Nat.b2n (holds h s) + owners h st)%nat.
Proof.
  intros Hx. unfold owners. rewrite (map_to_list_insert st x s Hx). cbn. by destruct (holds h s).
Qed.

Lemma owners_delete h st x s :
  st !! x = Some s -> owners h st = (Nat.b2n (holds h s) + owners h (delete x st))%nat.
Proof.
  intros Hx. rewrite <- (insert_delete_id st x s Hx) at 1.
  apply owners_insert_new, lookup_delete_eq.
Qed.

Lemma owners_insert h st x s s' :
  st !! x = Some s ->
  (owners h (<[x := s']> st) + Nat.b2n (holds h s) = Nat.b2n (holds h s') + owners h st)%nat.
Proof.
  intros Hx. rewrite (owners_delete h st x s Hx), <- insert_delete_eq.
  rewrite owners_insert_new by apply lookup_delete_eq. lia.
Qed.

(** An object holds an open socket or none. *)
Lemma owned_open st w x s :
  owned_once st w -> st !! x = Some s -> sptr s = NULL \/ open_socket s w.
Proof.
  intros [_ Ho] Hx. destruct (Z.eq_dec (sptr s) NULL) as [|Hn]; [by left|]. right.
  specialize (Ho (sptr s) Hn). rewrite (owners_delete _ _ _ _ Hx) in Ho.
  unfold holds in Ho. rewrite Z.eqb_refl in Ho. cbn in Ho. unfold opened in Ho. unfold open_socket.
  destruct (Z.leb_spec 1 (sptr s)), (Z.leb_spec (sptr s) (sockets w)); cbn in Ho; lia.
Qed.

(** ** Each operation keeps the invariant *)

(** Closing an object: its socket, if it has one, is closed, and it holds none
    afterwards. *)
Definition close_actions (s : socket_t) : list action :=
  if sptr s =? NULL then [] else [AClose (sptr s)].

Lemma close_runs s w :
  sptr s = NULL \/ open_socket s w ->
  runs NetP (socket.close s) w (Returns (Socket NULL (ctxptr s))) (emits (close_actions s) w).
Proof.
  intros Hs. unfold socket.close, close_actions.
  destruct (Z.eqb_spec (sptr s) NULL) as [E|E].
  - rewrite emits_nil, <- E. destruct s. apply runs_ret.
  - destruct Hs as [|Hs]; [done|].
    eapply runs_bind; [apply runs_call; [exact Hs|intros rc w' [-> ->]; done]|].
    eapply runs_bind; [apply runs_ret|]. apply runs_ret.
Qed.

Lemma closes_app h l l' : closes h (l ++ l') = (closes h l + closes h l')%nat.
Proof. apply count_if_app. Qed.

Lemma close_actions_closes h s : h <> NULL -> closes h (close_actions s) = Nat.b2n (holds h s).
Proof.
  intros Hh. unfold close_actions, closes, holds.
  destruct (Z.eqb_spec (sptr s) NULL) as [E|E]; cbn [count_if is_close].
  - destruct (Z.eqb_spec (sptr s) h); [congruence|done].
  - by destruct (sptr s =? h).
Qed.

Lemma owned_construct st w x type ctx :
  owned_once st w -> st !! x = None ->
  owned_once (<[x := Socket (sockets w + 1) ctx]> st) (new_socket (emit (ASocket (sockets w + 1) type) w)).
Proof.
  intros [Hn Ho] Hx. split; [cbn; lia|]. intros h Hh. specialize (Ho h Hh).
  rewrite owners_insert_new by done. cbn [trace new_socket emit emits]. rewrite closes_app.
  unfold opened, holds in *. cbn [sptr sockets new_socket emit emits closes count_if is_close].
  destruct (Z.eqb_spec (sockets w + 1) h), (Z.leb_spec 1 h), (Z.leb_spec h (sockets w)),
    (Z.leb_spec h (sockets w + 1)); cbn in *; lia.
Qed.

Lemma owned_move_construct st w x y rhs :
  owned_once st w -> st !! x = None -> st !! y = Some rhs ->
  owned_once (<[x := fst (socket.new_move rhs)]> (<[y := snd (socket.new_move rhs)]> st)) w.
Proof.
  intros [Hn Ho] Hx Hy. split; [done|]. intros h Hh. specialize (Ho h Hh).
  rewrite owners_insert_new by (rewrite lookup_insert_ne; congruence).
  pose proof (owners_insert h st y rhs (snd (socket.new_move rhs)) Hy) as He.
  unfold holds in *. cbn [socket.new_move fst snd sptr] in *.
  destruct (Z.eqb_spec NULL h); [congruence|]. cbn in He. lia.
Qed.

Lemma owned_move_assign st w x y s rhs :
  owned_once st w -> st !! x = Some s -> st !! y = Some rhs ->
  owned_once (<[x := fst (socket.assign_move s rhs)]> (<[y := snd (socket.assign_move s rhs)]> st)) w.
Proof.
  intros [Hn Ho] Hx Hy. split; [done|]. intros h Hh. specialize (Ho h Hh).
  pose proof (owners_insert h st y rhs (snd (socket.assign_move s rhs)) Hy) as He.
  unfold holds in *. cbn [socket.assign_move fst snd sptr] in *.
  destruct (decide (x = y)) as [->|Hne].
  - simplify_eq. rewrite insert_insert_eq. lia.
  - pose proof (owners_insert h (<[y := Socket (sptr s) (ctxptr rhs)]> st) x s
      (Socket (sptr rhs) (ctxptr s))) as He'.
    rewrite lookup_insert_ne in He' by done. specialize (He' Hx).
    unfold holds in *. cbn [sptr] in *. lia.
Qed.

Lemma owned_close st w x s :
  owned_once st w -> st !! x = Some s ->
  owned_once (<[x := Socket NULL (ctxptr s)]> st) (emits (close_actions s) w).
Proof.
  intros [Hn Ho] Hx. split; [done|]. intros h Hh. specialize (Ho h Hh).
  cbn [trace emits]. rewrite closes_app, close_actions_closes by done.
  pose proof (owners_insert h st x s (Socket NULL (ctxptr s)) Hx) as He.
  change (opened h (emits _ w)) with (opened h w).
  unfold holds in *. cbn [sptr] in *. destruct (Z.eqb_spec NULL h); [congruence|]. cbn in He. lia.
Qed.

Lemma owned_destroy st w x s :
  owned_once st w -> st !! x = Some s -> owned_once (delete x st) (emits (close_actions s) w).
Proof.
  intros [Hn Ho] Hx. split; [done|]. intros h Hh. specialize (Ho h Hh).
  cbn [trace emits]. rewrite closes_app, close_actions_closes by done.
  pose proof (owners_delete h st x s Hx) as He. change (opened h (emits _ w)) with (opened h w). lia.
Qed.

Lemma exec_keeps context o st w X :
  context <> NULL -> owned_once st w -> scope o (dom st) = Some X ->
  exists st' w', runs NetP (exec context o st) w (Returns st') w' /\ owned_once st' w' /\ dom st' = X.
Proof.
  intros Hc Ho Hsc. destruct o as [x type|x y|x y|x|x]; cbn [scope] in Hsc; case_decide as Hd;
    simplify_eq; cbn [exec].
  - apply not_elem_of_dom in Hd. eexists _, _. split; [|split; [by apply owned_construct|by rewrite dom_insert_L]].
    eapply runs_bind; [apply socket_new_runs; [done|apply Ho]|]. apply runs_ret.
  - destruct Hd as [Hx%not_elem_of_dom [rhs Hy]%elem_of_dom].
    eexists _, w. split; [|split].
    + eapply runs_bind; [by apply runs_defined|]. apply runs_ret.
    + by apply owned_move_construct.
    + rewrite !dom_insert_L. apply elem_of_dom_2 in Hy. set_solver.
  - destruct Hd as [[s Hx]%elem_of_dom [rhs Hy]%elem_of_dom].
    eexists _, w. split; [|split].
    + eapply runs_bind; [by apply runs_defined|]. eapply runs_bind; [by apply runs_defined|]. apply runs_ret.
    + by apply owned_move_assign.
    + rewrite !dom_insert_L. apply elem_of_dom_2 in Hx, Hy. set_solver.
  - apply elem_of_dom in Hd as [s Hx].
    eexists _, _. split; [|split; [by apply owned_close|]].
    + eapply runs_bind; [by apply runs_defined|].
      eapply runs_bind; [apply close_runs; by eapply owned_open|]. apply runs_ret.
    + rewrite dom_insert_L. apply elem_of_dom_2 in Hx. set_solver.
  - apply elem_of_dom in Hd as [s Hx].
    eexists _, _. split; [|split; [by apply owned_destroy|by rewrite dom_delete_L]].
    eapply runs_bind; [by apply runs_defined|].
    eapply runs_bind; [eapply runs_bind; [apply close_runs; by eapply owned_open|apply runs_ret]|]. apply runs_ret.
Qed.

Lemma exec_all_keeps context ops st w X :
  context <> NULL -> owned_once st w -> scope_all ops (dom st) = Some X ->
  exists st' w', runs NetP (exec_all context ops st) w (Returns st') w' /\ owned_once st' w' /\ dom st' = X.
Proof.
  intros Hc. revert st w. induction ops as [|o ops IH]; intros st w Ho Hs; cbn [scope_all exec_all] in *.
  - injection Hs as <-. exists st, w. split; [apply runs_ret|done].
  - apply bind_Some in Hs as (Y & Hs & Hr).
    destruct (exec_keeps context o st w Y) as (st1 & w1 & H1 & Ho1 & <-); [done..|].
    destruct (IH st1 w1 Ho1 Hr) as (st2 & w2 & H2 & Ho2 & Hd).
    exists st2, w2. split; [by eapply runs_bind|done].
Qed.

(** A program that has opened no socket yet. *)
Lemma owned_once_initial w :
  sockets w = 0 -> (forall h, closes h (trace w) = 0%nat) -> owned_once ∅ w.
Proof.
  intros Hs Ht. split; [lia|]. intros h Hh. rewrite Ht. unfold owners. rewrite map_to_list_empty. cbn.
  unfold opened. rewrite Hs. destruct (Z.leb_spec 1 h), (Z.leb_spec h 0); cbn; lia.
Qed.
