(* ===== verification/Listener.v ===== *)
(** * listener.cpp

    A listener answers the controller's invitation once, then obeys
    "StartProcesses" (launch that many workers, report the end of each to the
    sink) until "END". *)

From S2P Require Import Prelude CInt Prog Text Sys Zmq ZHelpers.
Local Open Scope Z_scope.

(** [bp::launch (exec, args, ctx)] with the output of the child silenced. *)
Definition start_child (procName coordinator : string) : M sysE unit :=
  let exec := "./listener-websocket" in
  let args := ["listener-websocket"; procName; coordinator] in
  e <- call (Launch exec args);;
  match e with Some x => throw x | None => ret tt end.

(** The frames of one "Finished" message. *)
Definition send_finished (sink : socket_t) (status : Z) : M sysE unit :=
  s_sendmore sink "Finished";;
  s_sendmore sink "";;
  s_sendmore sink (to_string status);;
  s_send sink "";;
  ret tt.

(** [for (int i = 0; i < processes; i++) ... start_child(cname, address)] *)
Definition child_name (listenerName : string) (i : Z) : string :=
  listenerName +:+ "-" +:+ to_string i.

Definition start_children (listenerName address : string) (processes : Z) : M sysE unit :=
  for_ (fun i => start_child (child_name listenerName i) address) 0 (Z.to_nat processes).

(** [while (unfinished > 0) ...]; [int status;] has no value of its own, so it
    is read only if waitpid stored one. *)
Definition wait_children (listenerName : string) (sink : socket_t) (processes : Z) : M sysE unit :=
  loop (fun unfinished =>
    if 0 <? unfinished then
      '(result, status) <- call (Waitpid 0 WNOHANG);;
      if result =? 0 then
        call (Sleep 10);;
        ret (inl unfinished)
      else if result =? -1 then
        unfinished <- defined (sub_int unfinished 1);;
        status <- defined status;;
        call (Cout (listenerName +:+ " error..." +:+ to_string status +:+ endl));;
        send_finished sink status;;
        ret (inl unfinished)
      else
        unfinished <- defined (sub_int unfinished 1);;
        status <- defined status;;
        call (Cout (listenerName +:+ " " +:+ to_string result +:+ " child exited " +:+
                    to_string status +:+ endl));;
        send_finished sink status;;
        ret (inl unfinished)
    else ret (inr tt)) processes.

(** The "StartProcesses" branch; [int processes;] likewise. *)
Definition handle_start_processes (listenerName address : string) (subscriber sink : socket_t) :
    M sysE unit :=
  req <- s_recv subscriber;;
  s_recv subscriber;;
  processes <- defined (snd (extract_int (istringstream req)));;
  call (Cout (listenerName +:+ "Launching " +:+ to_string processes +:+ " processes" +:+ endl));;
  start_children listenerName address processes;;
  call (Cout "Waiting for the processes to finish");;
  wait_children listenerName sink processes.

(** The inner [while (1)]; it is left only by [return 0]. *)
Definition serve_requests (listenerName address : string) (subscriber sink : socket_t) :
    M sysE Z :=
  loop (fun _ : unit =>
    processingRequest <- s_recv subscriber;;
    call (Cout (listenerName +:+ " processing request " +:+ processingRequest +:+ endl));;
    if bool_decide (processingRequest = "END") then
      call (Cout ("Finishing" +:+ endl));;
      ret (inr 0)
    else if bool_decide (processingRequest = "StartProcesses") then
      handle_start_processes listenerName address subscriber sink;;
      ret (inl tt)
    else ret (inl tt)) tt.

(** The outer [while (1)]. *)
Definition listen (listenerName address : string) (subscriber syncclient sink : socket_t) :
    M sysE Z :=
  loop (fun _ : unit =>
    msg <- s_recv subscriber;;
    if bool_decide (msg = "HELLO_LISTENER") then
      call (Cout (listenerName +:+ " Sending synchronization request" +:+ endl));;
      s_send syncclient "";;
      s_recv syncclient;;
      status <- serve_requests listenerName address subscriber sink;;
      ret (inr status)
    else ret (inl tt)) tt.

(** ["Client" + std::to_string(rand()%10000+1)] *)
Definition listener_name (r : Z) : option string :=
  r ← rem_int r 10000;
  r ← add_int r 1;
  Some ("Client" +:+ to_string r).

(** [argv[1]], or "localhost" with a warning. *)
Definition coordinator_address (argv : list string) : M sysE string :=
  match argv !! 1%nat with
  | Some address => ret address
  | None =>
      call (Cout ("WARNING: need to specify coordinator address" +:+ endl));;
      ret "localhost"
  end.

Definition main (argv : list string) : M sysE Z :=
  call (Cout ("Listener version 5" +:+ endl));;
  context <- context.new_threads 1;;
  call Srand;;
  r <- call Rand;;
  listenerName <- defined (listener_name r);;
  address <- coordinator_address argv;;
  let subscriber_addr := "tcp://" +:+ address +:+ ":5561" in
  let syncclient_addr := "tcp://" +:+ address +:+ ":5562" in
  let sink_addr := "tcp://" +:+ address +:+ ":5564" in
  subscriber <- socket.new context ZMQ_SUB;;
  socket.connect subscriber subscriber_addr;;
  socket.setsockopt subscriber ZMQ_SUBSCRIBE "StartProcesses";;
  socket.setsockopt subscriber ZMQ_SUBSCRIBE "END";;
  socket.setsockopt subscriber ZMQ_SUBSCRIBE "HELLO_LISTENER";;
  syncclient <- socket.new context ZMQ_REQ;;
  socket.connect syncclient syncclient_addr;;
  sink <- socket.new context ZMQ_PUSH;;
  socket.connect sink sink_addr;;
  status <- listen listenerName address subscriber syncclient sink;;
  (* the destructors, in reverse order of construction *)
  socket.dtor sink;;
  socket.dtor syncclient;;
  socket.dtor subscriber;;
  context.dtor context;;
  ret status.
