(* ===== verification/Worker.v ===== *)
(** * listener-websocket.cpp

    A worker process answers "HELLO_SOCKET" once, waits for one
    "StartWebsockets" request, runs the requested clients, sends the result of
    each to the sink, and ends. *)

From S2P Require Import Prelude CInt Prog Text Sys Zmq ZHelpers.
From Stdlib Require Import Ascii.
Local Open Scope Z_scope.

(** ** The client id *)

(** [sizeof(unsigned long)] on the platforms the program is built for. *)
Definition longsize : Z := 8.
Definition id_length_bytes : Z := 16.

(** [static_cast<char>((i >> (4*j)) & 0xFF)] for [i] = 0, 8 and [j] = 0..7:
    the bytes stored at [client_id[i+j]]. *)
Definition client_id_byte (i j : Z) : ascii := to_char (Z.land (Z.shiftr i (4 * j)) 255).

Definition client_id : list ascii :=
  concat ((fun k : nat =>
    let i := Z.of_nat k * longsize in
    (fun j : nat => client_id_byte i (Z.of_nat j)) <$> seq 0 (Z.to_nat longsize))
    <$> seq 0 (Z.to_nat (id_length_bytes / longsize))).

(** What [id += client_id] appends: the C string in the array; without a NUL
    character in it the read runs past its end. *)
Fixpoint c_string (bytes : list ascii) : option string :=
  match bytes with
  | [] => None
  | b :: bytes =>
      if bool_decide (b = to_char 0) then Some ""
      else s ← c_string bytes; Some (String b s)
  end.

(** ** [doTheWork] *)

(** A call of a client object that may throw. *)
Definition may_throw {A} (r : exn + A) : M sysE A :=
  match r with inl x => throw x | inr a => ret a end.
Definition may_throw_unit (r : option exn) : M sysE unit :=
  match r with Some x => throw x | None => ret tt end.

(** [new telemetry_client(...)] for each instance, pushed on [clients]. *)
Fixpoint new_clients (id : string) (messages : Z) (randomized_interval : bool)
    (interval message_length : Z) (n : nat) : M sysE (list Z) :=
  match n with
  | O => ret []
  | S n =>
      r <- call (ClientNew id messages randomized_interval interval message_length);;
      client <- may_throw r;;
      clients <- new_clients id messages randomized_interval interval message_length n;;
      ret (client :: clients)
  end.

(** [for (int i = 0; i < instances; i++) f(i, clients[i])] *)
Fixpoint for_clients (f : Z -> Z -> M sysE unit) (i : Z) (clients : list Z) : M sysE unit :=
  match clients with
  | [] => ret tt
  | client :: clients => f i client;; for_clients f (i + 1) clients
  end.

Definition run_client (uri : string) (i client : Z) : M sysE unit :=
  call (Cout ("run client " +:+ to_string i +:+ endl));;
  r <- call (ClientRun client uri);;
  may_throw_unit r.

Definition wait_client (i client : Z) : M sysE unit :=
  r <- call (ClientWait client);; may_throw_unit r.

Definition send_result (sink : socket_t) (i client : Z) : M sysE unit :=
  r <- call (ClientStats client);;
  stats <- may_throw r;;
  s_sendmore sink "Result";;
  s_sendmore sink stats;;
  s_send sink "";;
  ret tt.

Definition doTheWork (clientName uri : string) (instances : Z) (send_messages randomized_interval : bool)
    (interval messages message_length : Z) (sink : socket_t) : M sysE unit :=
  suffix <- defined (c_string client_id);;
  let id := clientName +:+ suffix in
  call (Cout (clientName +:+ "+" +:+ suffix +:+ "=" +:+ id +:+ endl));;
  clients <- new_clients id messages randomized_interval interval message_length
               (Z.to_nat instances);;
  for_clients (run_client uri) 0 clients;;
  for_clients wait_client 0 clients;;
  for_clients (send_result sink) 0 clients.

(** ** The request *)

(** The variables of a request; [None] for those without a value. *)
Record request := Request {
  q_uri : string;
  q_instances : option Z;
  q_send_messages : option bool;
  q_randomized_interval : option bool;
  q_interval : option Z;
  q_messages : option Z;
  q_message_length : option Z;
}.

Definition empty_request : request := Request "" None None None None None None.

(** A failed extraction leaves the variable alone. *)
Definition assign {A} (new old : option A) : option A :=
  match new with Some x => Some x | None => old end.

(** [switch (i) { case 0: ss >> uri; break; ... }] *)
Definition set_param (i : nat) (frame : string) (q : request) : request :=
  let ss := istringstream frame in
  match i with
  | 0 => Request (default (q_uri q) (snd (extract_string ss))) (q_instances q) (q_send_messages q)
           (q_randomized_interval q) (q_interval q) (q_messages q) (q_message_length q)
  | 1 => Request (q_uri q) (assign (snd (extract_int ss)) (q_instances q)) (q_send_messages q)
           (q_randomized_interval q) (q_interval q) (q_messages q) (q_message_length q)
  | 2 => Request (q_uri q) (q_instances q) (assign (snd (extract_bool ss)) (q_send_messages q))
           (q_randomized_interval q) (q_interval q) (q_messages q) (q_message_length q)
  | 3 => Request (q_uri q) (q_instances q) (q_send_messages q)
           (assign (snd (extract_bool ss)) (q_randomized_interval q)) (q_interval q)
           (q_messages q) (q_message_length q)
  | 4 => Request (q_uri q) (q_instances q) (q_send_messages q) (q_randomized_interval q)
           (assign (snd (extract_int ss)) (q_interval q)) (q_messages q) (q_message_length q)
  | 5 => Request (q_uri q) (q_instances q) (q_send_messages q) (q_randomized_interval q)
           (q_interval q) (assign (snd (extract_int ss)) (q_messages q)) (q_message_length q)
  | 6 => Request (q_uri q) (q_instances q) (q_send_messages q) (q_randomized_interval q)
           (q_interval q) (q_messages q) (assign (snd (extract_int ss)) (q_message_length q))
  | _ => q
  end%nat.

Definition param_count : nat := 7.

(** [for (int i = 0; i < param_count; i++) { ss(s_recv(subscriber)); ... }] *)
Fixpoint receive_params (subscriber : socket_t) (i n : nat) (q : request) : M sysE request :=
  match n with
  | O => ret q
  | S n =>
      frame <- s_recv subscriber;;
      receive_params subscriber (S i) n (set_param i frame q)
  end.

Definition print_bool (b : bool) : string := if b then "1" else "0".

(** The "StartWebsockets" branch, with its [try]. *)
Definition handle_start_websockets (listenerName : string) (subscriber sink : socket_t) :
    M sysE unit :=
  q <- receive_params subscriber 0 param_count empty_request;;
  s_recv subscriber;;
  instances <- defined (q_instances q);;
  send_messages <- defined (q_send_messages q);;
  randomized_interval <- defined (q_randomized_interval q);;
  interval <- defined (q_interval q);;
  messages <- defined (q_messages q);;
  call (Cout ("Received request StartWebsockets " +:+ to_string instances +:+ " " +:+
              print_bool send_messages +:+ " " +:+ print_bool randomized_interval +:+ " " +:+
              to_string interval +:+ " " +:+ to_string messages +:+ " " +:+ endl));;
  message_length <- defined (q_message_length q);;
  try_catch
    (doTheWork listenerName (q_uri q) instances send_messages randomized_interval interval
               messages message_length sink)
    (fun e =>
      message <- what e;;
      call (Cout ("Exception caught " +:+ message +:+ endl))).

(** The inner [while(1)]: other requests are ignored; [break] after the work. *)
Definition await_request (listenerName : string) (subscriber sink : socket_t) : M sysE unit :=
  loop (fun _ : unit =>
    processingRequest <- s_recv subscriber;;
    if bool_decide (processingRequest = "StartWebsockets") then
      handle_start_websockets listenerName subscriber sink;;
      ret (inr tt)
    else ret (inl tt)) tt.

(** The outer [while(1)]. *)
Definition work (listenerName : string) (subscriber syncclient sink : socket_t) : M sysE unit :=
  loop (fun _ : unit =>
    msg <- s_recv subscriber;;
    if bool_decide (msg = "HELLO_SOCKET") then
      call (Cout (listenerName +:+ " Sending synchronization request" +:+ endl));;
      s_send syncclient listenerName;;
      s_recv syncclient;;
      await_request listenerName subscriber sink;;
      call (Cout (listenerName +:+ "DONE" +:+ endl));;
      ret (inr tt)
    else ret (inl tt)) tt.

Definition main (argv : list string) : M sysE Z :=
  context <- context.new_threads 1;;
  let listenerName := default "" (argv !! 1%nat) in
  let address := default "localhost" (argv !! 2%nat) in
  call (Cout ("Starting client " +:+ listenerName +:+ endl));;
  let subscriber_addr := "tcp://" +:+ address +:+ ":5561" in
  let syncclient_addr := "tcp://" +:+ address +:+ ":5563" in
  let sink_addr := "tcp://" +:+ address +:+ ":5564" in
  subscriber <- socket.new context ZMQ_SUB;;
  socket.connect subscriber subscriber_addr;;
  socket.setsockopt subscriber ZMQ_SUBSCRIBE "StartWebsockets";;
  socket.setsockopt subscriber ZMQ_SUBSCRIBE "HELLO_SOCKET";;
  syncclient <- socket.new context ZMQ_REQ;;
  socket.connect syncclient syncclient_addr;;
  sink <- socket.new context ZMQ_PUSH;;
  socket.connect sink sink_addr;;
  work listenerName subscriber syncclient sink;;
  (* the destructors, in reverse order of construction *)
  socket.dtor sink;;
  socket.dtor syncclient;;
  socket.dtor subscriber;;
  context.dtor context;;
  ret 0.
