(* ===== verification/ListenerFacts.v ===== *)
(** * The listener

    What a listener does for every sequence of requests and every sequence of
    waitpid results: the processes it launches, the "Finished" messages it
    sends, and how it ends. *)

From S2P Require Import Prelude CInt Prog Text Sys Zmq ZHelpers Config Controller Sync Collect.
From S2P Require Import ControllerRun Listener.
Local Open Scope Z_scope.

Section listener.
Context (listenerName address : string) (subscriber syncclient sink : socket_t).

(** What a listener relies on: its sockets are open, sends and launches
    succeed; [fr] will arrive at the subscriber, [rs] are the next results of
    waitpid. *)
Definition listening (w : world) (fr : list arrival) (rs : list (Z * option Z)) : Prop :=
  open_socket subscriber w /\ open_socket syncclient w /\ open_socket sink w /\
  send_faults w = [] /\ launch_faults w = [] /\
  arrivals w !! sptr subscriber = Some fr /\ reaps w = rs.

Lemma listening_emits w fr rs a : listening w fr rs -> listening (emits a w) fr rs.
Proof. done. Qed.

(** ** Reporting the children *)

(** The parts of a "Finished" message, as the sink sees them. *)
Definition finished_actions (status : Z) : list action :=
  multipart (sptr sink) (message_frames (Finished "" (to_string status))).

Lemma send_finished_runs status w :
  open_socket sink w -> send_faults w = [] ->
  runs NetP (send_finished sink status) w (Returns tt) (emits (finished_actions status) w).
Proof.
  intros Hs Hf. unfold send_finished.
  do 3 (eapply runs_bind; [by apply s_sendmore_emits|]).
  eapply runs_bind; [by apply s_send_emits|].
  unfold emit. rewrite !emits_emits. apply runs_ret.
Qed.

(** A waitpid result that is no error: nothing has changed, or child [pid]
    ended with [status]. *)
Definition reap_ok (r : Z * option Z) : Prop := 0 <= fst r /\ (fst r <> 0 -> is_Some (snd r)).
Definition is_exit (r : Z * option Z) : bool := negb (fst r =? 0).

Definition reap_actions (r : Z * option Z) : list action :=
  AReap (fst r) (snd r) ::
  if fst r =? 0 then [ASleep 10]
  else
    ACout (listenerName +:+ " " +:+ to_string (fst r) +:+ " child exited " +:+
           to_string (default 0 (snd r)) +:+ endl) ::
    finished_actions (default 0 (snd r)).

Definition wait_actions (rs : list (Z * option Z)) : list action := concat (reap_actions <$> rs).

Lemma waitpid_runs w r rs :
  reaps w = r :: rs ->
  runs NetP (call (Waitpid 0 WNOHANG)) w (Returns r)
    (set_reaps rs (emit (AReap (fst r) (snd r)) w)).
Proof.
  intros Hr. apply runs_call; cbn; rewrite Hr; [done|]. by intros x w' [-> ->].
Qed.

Local Abbreviation wait_step := (fun unfinished =>
    if 0 <? unfinished then
      '(result, status) <- call (Waitpid 0 WNOHANG);;
      if result =? 0 then
        call (Sleep 10);;
        ret (inl unfinished)
      else if result =? -1 then
        unfinished <- defined (sub_int unfinished 1);;
        status <- defined status;;
        call (Cout (listenerName +:+ " error..." +:+ to_string status +:+ endl));;
        send_finished sink status;;
        ret (inl unfinished)
      else
        unfinished <- defined (sub_int unfinished 1);;
        status <- defined status;;
        call (Cout (listenerName +:+ " " +:+ to_string result +:+ " child exited " +:+
                    to_string status +:+ endl));;
        send_finished sink status;;
        ret (inl unfinished)
    else ret (inr tt)).

Lemma reap_round r rs n w :
  reap_ok r -> 0 < n -> in_int n -> open_socket sink w -> send_faults w = [] ->
  reaps w = r :: rs ->
  runs NetP (wait_step n) w (Returns (inl (if is_exit r then n - 1 else n)))
    (emits (reap_actions r) (set_reaps rs w)).
Proof.
  intros [Hpos Hst] Hn Hi Hs Hf Hr. rewrite (proj2 (Z.ltb_lt _ _)) by lia.
  eapply runs_bind; [by apply waitpid_runs|]. destruct r as [pid status]. cbn [fst snd] in *.
  unfold is_exit, reap_actions. cbn [fst snd]. destruct (Z.eqb_spec pid 0) as [->|Hp]; cbn [negb].
  - eapply runs_bind; [apply sleep_runs|]. rewrite <- !emit_emits, emits_nil. apply runs_ret.
  - destruct (Hst Hp) as [st ->]. rewrite (proj2 (Z.eqb_neq pid (-1))) by lia.
    eapply runs_bind; [apply runs_defined, int_result_Some; int_lia|].
    eapply runs_bind; [by apply runs_defined|]. eapply runs_bind; [apply cout_runs|].
    eapply runs_bind; [by apply send_finished_runs|].
    rewrite <- !emit_emits. apply runs_ret.
Qed.

(** The children are reported until [unfinished] of them have ended. *)
Lemma wait_children_from rs r rs' n w fr :
  Forall reap_ok (rs ++ [r]) -> is_exit r = true -> in_int n ->
  Z.of_nat (count_if is_exit (rs ++ [r])) = n ->
  listening w fr (rs ++ r :: rs') ->
  exists w', runs NetP (wait_children listenerName sink n) w (Returns tt) w' /\
    trace w' = trace w ++ wait_actions (rs ++ [r]) /\ listening w' fr rs'.
Proof.
  unfold wait_children. intros Hok Hr. revert n w.
  induction rs as [|r0 rs IH]; intros n w Hn Hc Hw; cbn [app] in *; rewrite Forall_cons in Hok;
    destruct Hok as [Hok0 Hok]; cbn [count_if] in Hc;
    assert (0 < n) by (rewrite ?count_if_app in Hc; cbn [count_if] in Hc; rewrite Hr in Hc; lia);
    pose proof Hw as (S1 & S2 & S3 & F1 & F2 & A & R).
  - rewrite Hr in Hc. cbn in Hc. subst n.
    exists (emits (reap_actions r) (set_reaps rs' w)).
    split; [|split; [cbn; by rewrite app_nil_r|done]].
    eapply runs_loop_next; [by apply reap_round|]. rewrite Hr.
    apply runs_loop_exit. apply runs_ret.
  - destruct (IH Hok (if is_exit r0 then n - 1 else n)
      (emits (reap_actions r0) (set_reaps (rs ++ r :: rs') w))) as (w' & Hrun & Htr & Hw');
      [destruct (is_exit r0); int_lia|destruct (is_exit r0); lia|done|].
    exists w'. split; [|split; [|done]].
    + eapply runs_loop_next; [by apply reap_round|exact Hrun].
    + rewrite Htr. cbn. by rewrite <- app_assoc.
Qed.

(** A script of waitpid results in which exactly [n] children end, the last
    result being such an end. *)
Definition reap_script (n : Z) (rs : list (Z * option Z)) : Prop :=
  Forall reap_ok rs /\ Z.of_nat (count_if is_exit rs) = Z.max 0 n /\
  match last rs with Some r => is_exit r = true | None => True end.

Lemma wait_children_returns n rs rs' w fr :
  reap_script n rs -> in_int n -> listening w fr (rs ++ rs') ->
  exists w', runs NetP (wait_children listenerName sink n) w (Returns tt) w' /\
    trace w' = trace w ++ wait_actions rs /\ listening w' fr rs'.
Proof.
  intros (Hok & Hc & Hl) Hn Hw. destruct (Z.leb_spec n 0) as [Hle|Hgt].
  - destruct rs as [|r rs] using rev_ind.
    + exists w. split; [|split; [by rewrite app_nil_r|done]].
      unfold wait_children. apply runs_loop_exit.
      rewrite (proj2 (Z.ltb_ge _ _)) by lia. apply runs_ret.
    + rewrite last_snoc in Hl. rewrite count_if_app in Hc. cbn in Hc. rewrite Hl in Hc. lia.
  - destruct rs as [|r rs _] using rev_ind; [cbn in Hc; lia|].
    rewrite last_snoc in Hl. rewrite <- app_assoc in Hw.
    apply (wait_children_from rs r rs' n w fr); [done|done|done|lia|exact Hw].
Qed.

(** The number of "Finished" messages sent is the number of children that
    ended. *)
Definition finished_sent (acts : list action) : nat :=
  count_if (fun a => match a with
                     | ASend s true b => (s =? sptr sink) && bool_decide (b = "Finished")
                     | _ => false
                     end) acts.

Lemma finished_sent_app l1 l2 :
  finished_sent (l1 ++ l2) = (finished_sent l1 + finished_sent l2)%nat.
Proof. apply count_if_app. Qed.

Lemma to_string_ne_Finished z : to_string z <> "Finished".
Proof.
  intros H. destruct (to_string_scan z "" I) as (s1 & v & k & Hs & Hk & Hd & _).
  rewrite string_app_nil_r, H in Hs. injection Hs as _ <-. cbn in Hd.
  injection Hd as _ <- _. lia.
Qed.

Lemma reap_actions_finished r :
  finished_sent (reap_actions r) = if is_exit r then 1%nat else 0%nat.
Proof.
  unfold reap_actions, is_exit. destruct (fst r =? 0); [done|]. cbn [negb].
  unfold finished_actions, finished_sent. cbn -[to_string]. rewrite Z.eqb_refl.
  by rewrite (bool_decide_eq_false_2 _ (to_string_ne_Finished _)).
Qed.

Lemma wait_actions_finished rs : finished_sent (wait_actions rs) = count_if is_exit rs.
Proof.
  induction rs as [|r rs IH]; [done|]. unfold wait_actions in *. cbn [fmap list_fmap concat].
  rewrite finished_sent_app, IH, reap_actions_finished. done.
Qed.

(** ** Launching the children *)

Definition launch_action (i : Z) : action :=
  ALaunch "./listener-websocket" ["listener-websocket"; child_name listenerName i; address].

Definition launch_actions (n : Z) : list action :=
  (fun k : nat => launch_action (0 + Z.of_nat k)) <$> seq 0 (Z.to_nat n).

Lemma start_child_runs i w :
  launch_faults w = [] ->
  runs NetP (start_child (child_name listenerName i) address) w (Returns tt)
    (emit (launch_action i) w).
Proof.
  intros Hf. unfold start_child. eapply runs_bind.
  { apply runs_call; [done|]. cbn. rewrite Hf. intros x w' [-> ->]. split; [done|].
    unfold set_launch_faults. cbn. rewrite <- Hf. reflexivity. }
  apply runs_ret.
Qed.

Lemma start_children_from from n w :
  launch_faults w = [] ->
  runs NetP (for_ (fun i => start_child (child_name listenerName i) address) from n) w (Returns tt)
    (emits ((fun k : nat => launch_action (from + Z.of_nat k)) <$> seq 0 n) w).
Proof.
  revert from w. induction n as [|n IH]; intros from w Hf.
  - cbn. rewrite emits_nil. apply runs_ret.
  - cbn [for_]. eapply runs_bind; [by apply start_child_runs|].
    cbn [seq fmap list_fmap]. rewrite <- emit_emits, Z.add_0_r.
    rewrite <- (fmap_S_seq 0 n), <- list_fmap_compose.
    rewrite (list_fmap_ext _ (fun k : nat => launch_action (from + 1 + Z.of_nat k))).
    + by apply IH.
    + intros i x _. cbn. f_equal. lia.
Qed.

(** ** Requests *)

(** What the controller publishes to a listener before "END": requests it does
    not know, and "StartProcesses" with the number of processes, the empty
    delimiter, and (not a frame) the waitpid results of the children. *)
Inductive command :=
| Other (frame : string)
| Start (n : Z) (delimiter : string) (rs : list (Z * option Z)).

Definition command_ok (cmd : command) : Prop :=
  match cmd with
  | Other frame => frame <> "END" /\ frame <> "StartProcesses"
  | Start n _ rs => in_int n /\ reap_script n rs
  end.

Definition command_frames (cmd : command) : list arrival :=
  match cmd with
  | Other frame => [Frame frame]
  | Start n delimiter _ => [Frame "StartProcesses"; Frame (to_string n); Frame delimiter]
  end.

Definition command_reaps (cmd : command) : list (Z * option Z) :=
  match cmd with Other _ => [] | Start _ _ rs => rs end.

Definition read_actions (frame : string) : list action :=
  [ARecv (sptr subscriber) frame;
   ACout (listenerName +:+ " processing request " +:+ frame +:+ endl)].

Definition start_actions (n : Z) (delimiter : string) (rs : list (Z * option Z)) : list action :=
  [ARecv (sptr subscriber) (to_string n); ARecv (sptr subscriber) delimiter;
   ACout (listenerName +:+ "Launching " +:+ to_string n +:+ " processes" +:+ endl)] ++
  launch_actions n ++ [ACout "Waiting for the processes to finish"] ++ wait_actions rs.

Definition command_actions (cmd : command) : list action :=
  match cmd with
  | Other frame => read_actions frame
  | Start n delimiter rs => read_actions "StartProcesses" ++ start_actions n delimiter rs
  end.

Lemma extract_printed n : in_int n -> extract_int (istringstream (to_string n)) = (IStream "" true false, Some n).
Proof.
  intros Hn. apply (extract_int_to_string _ n ""); [done|done|done|].
  cbn. rewrite string_app_nil_r. pose proof (skip_ws_to_string n "") as H.
  by rewrite string_app_nil_r in H.
Qed.

Lemma handle_start_processes_runs n delimiter rs fr rs' w :
  in_int n -> reap_script n rs ->
  listening w (Frame (to_string n) :: Frame delimiter :: fr) (rs ++ rs') ->
  exists w', runs NetP (handle_start_processes listenerName address subscriber sink) w
      (Returns tt) w' /\
    trace w' = trace w ++ start_actions n delimiter rs /\ listening w' fr rs'.
Proof.
  intros Hn Hrs (S1 & S2 & S3 & F1 & F2 & A & R).
  set (w1 := after (sptr subscriber) fr (errno w)
    [ARecv (sptr subscriber) (to_string n); ARecv (sptr subscriber) delimiter] w).
  set (w2 := emits (ACout (listenerName +:+ "Launching " +:+ to_string n +:+ " processes" +:+ endl)
    :: launch_actions n ++ [ACout "Waiting for the processes to finish"]) w1).
  destruct (wait_children_returns n rs rs' w2 fr) as (w' & Hrun & Htr & Hw'); [done|done| |].
  { split_and!; try done. apply arrivals_after. }
  exists w'. split; [|split; [|done]].
  - unfold handle_start_processes. eapply runs_bind; [by apply s_recv_after|].
    eapply runs_bind; [apply s_recv_after; [done|apply arrivals_after]|]. rewrite after_after.
    eapply runs_bind; [apply runs_defined; by rewrite extract_printed|].
    eapply runs_bind; [apply cout_runs|].
    eapply runs_bind; [by apply start_children_from|].
    eapply runs_bind; [apply cout_runs|].
    unfold w2 in Hrun. rewrite <- emit_emits, <- emits_emits in Hrun. exact Hrun.
  - rewrite Htr. unfold w2, w1, start_actions.
    cbn [trace after emits set_errno pop_arrivals set_arrivals].
    by rewrite <- !app_assoc, <- !app_comm_cons, <- !app_assoc.
Qed.

Lemma read_command frame w fr rs o w' (k : string -> M sysE (unit + Z)) :
  listening w (Frame frame :: fr) rs ->
  runs NetP (k frame) (after (sptr subscriber) fr (errno w) (read_actions frame) w) o w' ->
  runs NetP (processingRequest <- s_recv subscriber;;
    call (Cout (listenerName +:+ " processing request " +:+ processingRequest +:+ endl));;
    k processingRequest) w o w'.
Proof.
  intros (S1 & S2 & S3 & F1 & F2 & A & R) H.
  eapply runs_bind; [by apply s_recv_after|]. eapply runs_bind; [apply cout_runs|].
  unfold emit. rewrite emits_after. exact H.
Qed.

Lemma listening_after w frame fr rs acts :
  listening w (frame :: fr) rs -> listening (after (sptr subscriber) fr (errno w) acts w) fr rs.
Proof. intros (S1 & S2 & S3 & F1 & F2 & A & R). split_and!; try done. apply arrivals_after. Qed.

(** Every command is obeyed in order, until "END" ends the listener with 0. *)
Lemma serve_requests_returns cmds fr rs' w :
  Forall command_ok cmds ->
  listening w (concat (command_frames <$> cmds) ++ Frame "END" :: fr)
              (concat (command_reaps <$> cmds) ++ rs') ->
  exists w', runs NetP (serve_requests listenerName address subscriber sink) w (Returns 0) w' /\
    trace w' = trace w ++ concat (command_actions <$> cmds) ++
               read_actions "END" ++ [ACout ("Finishing" +:+ endl)] /\
    listening w' fr rs'.
Proof.
  unfold serve_requests. revert w.
  induction cmds as [|cmd cmds IH]; intros w Hok Hw; cbn [fmap list_fmap concat app] in *.
  - eexists. split; [|split].
    + apply runs_loop_exit. eapply read_command; [exact Hw|].
      eapply runs_bind; [apply cout_runs|apply runs_ret].
    + cbn [trace emit emits after]. by rewrite <- app_assoc.
    + by apply listening_emits, (listening_after w (Frame "END")).
  - rewrite Forall_cons in Hok. destruct Hok as [Hcmd Hok]. rewrite <- !app_assoc in Hw.
    destruct cmd as [frame|n delimiter rs].
    + destruct Hcmd as [Hne1 Hne2].
      destruct (IH _ Hok (listening_after w (Frame frame) _ _ (read_actions frame) Hw))
        as (w' & Hrun & Htr & Hw').
      exists w'. split; [|split; [|done]].
      * eapply runs_loop_next; [|exact Hrun]. eapply read_command; [exact Hw|].
        rewrite !bool_decide_eq_false_2 by done. apply runs_ret.
      * rewrite Htr. cbn. by rewrite <- app_assoc.
    + destruct Hcmd as [Hn Hrs]. cbn [command_frames command_reaps app] in Hw.
      pose proof (listening_after w (Frame "StartProcesses") _ _ (read_actions "StartProcesses") Hw)
        as Hw1.
      destruct (handle_start_processes_runs n delimiter rs _ _ _ Hn Hrs Hw1)
        as (w2 & Hrun2 & Htr2 & Hw2).
      destruct (IH w2 Hok Hw2) as (w' & Hrun & Htr & Hw').
      exists w'. split; [|split; [|done]].
      * eapply runs_loop_next; [|exact Hrun]. eapply read_command; [exact Hw|].
        rewrite bool_decide_eq_false_2, bool_decide_eq_true_2 by done.
        eapply runs_bind; [exact Hrun2|apply runs_ret].
      * rewrite Htr, Htr2. cbn [trace after emits command_actions]. by rewrite <- !app_assoc.
Qed.

(** ** The whole life of a listener *)

(** Frames before the invitation are discarded. *)
Lemma listen_returns noise reply l cmds fr rs' w :
  Forall (fun f => f <> "HELLO_LISTENER") noise -> Forall command_ok cmds ->
  sptr subscriber <> sptr syncclient ->
  arrivals w !! sptr syncclient = Some (Frame reply :: l) ->
  listening w ((Frame <$> noise) ++ Frame "HELLO_LISTENER" ::
               concat (command_frames <$> cmds) ++ Frame "END" :: fr)
              (concat (command_reaps <$> cmds) ++ rs') ->
  exists w', runs NetP (listen listenerName address subscriber syncclient sink) w (Returns 0) w' /\
    trace w' = trace w ++ (ARecv (sptr subscriber) <$> noise) ++
      [ARecv (sptr subscriber) "HELLO_LISTENER";
       ACout (listenerName +:+ " Sending synchronization request" +:+ endl);
       ASend (sptr syncclient) false ""; ARecv (sptr syncclient) reply] ++
      concat (command_actions <$> cmds) ++
      read_actions "END" ++ [ACout ("Finishing" +:+ endl)] /\
    listening w' fr rs'.
Proof.
  intros Hnoise Hok Hne. unfold listen. revert w.
  induction Hnoise as [|f noise Hf Hnoise IH]; intros w Hsync Hw; cbn [fmap list_fmap app] in *.
  - pose proof Hw as (S1 & S2 & S3 & F1 & F2 & A & R).
    set (fr' := concat (command_frames <$> cmds) ++ Frame "END" :: fr) in *.
    set (w1 := after (sptr syncclient) l (errno w) [ARecv (sptr syncclient) reply]
      (emits [ACout (listenerName +:+ " Sending synchronization request" +:+ endl);
              ASend (sptr syncclient) false ""]
        (after (sptr subscriber) fr' (errno w) [ARecv (sptr subscriber) "HELLO_LISTENER"] w))).
    destruct (serve_requests_returns cmds fr rs' w1) as (w' & Hrun & Htr & Hw'); [exact Hok| |].
    { split_and!; try done. unfold w1. rewrite arrivals_after_ne by done. apply arrivals_after. }
    exists w'. split; [|split; [|exact Hw']].
    + apply runs_loop_exit. eapply runs_bind; [by apply s_recv_after|].
      rewrite bool_decide_eq_true_2 by done. eapply runs_bind; [apply cout_runs|].
      eapply runs_bind; [by apply s_send_emits|].
      eapply runs_bind.
      { apply s_recv_after; [done|]. cbn. rewrite lookup_insert_ne by done. exact Hsync. }
      unfold emit. rewrite emits_emits. eapply runs_bind; [exact Hrun|apply runs_ret].
    + rewrite Htr. cbn [trace w1 after emits set_errno pop_arrivals set_arrivals].
      by rewrite <- !app_assoc.
  - pose proof Hw as (S1 & S2 & S3 & F1 & F2 & A & R).
    destruct (IH _ ltac:(rewrite <- Hsync; by apply arrivals_after_ne)
      (listening_after w (Frame f) _ _ [ARecv (sptr subscriber) f] Hw)) as (w' & Hrun & Htr & Hw').
    exists w'. split; [|split; [|done]].
    + eapply runs_loop_next; [|exact Hrun]. eapply runs_bind; [by apply s_recv_after|].
      rewrite bool_decide_eq_false_2 by done. apply runs_ret.
    + rewrite Htr. cbn. by rewrite <- app_assoc.
Qed.

End listener.
