(* ===== verification/WorkerFacts.v ===== *)
(** * The worker

    The request a worker decodes is the configuration the controller
    published; the clients it runs, and the results it sends for them; what
    becomes of an exception. *)

From S2P Require Import Prelude CInt Prog Text Sys Zmq ZHelpers Config Controller Sync Collect.
From S2P Require Import ControllerRun Worker.
Local Open Scope Z_scope.

(** ** The client id *)

(** Every byte of the array but [client_id[8]] is 0, so the C string in it is
    empty. *)
Lemma client_id_empty : c_string client_id = Some "".
Proof. reflexivity. Qed.

(** ** Decoding a request *)

Lemma no_space_target : no_space target_uri.
Proof.
  intros c Hc. cbn in Hc. repeat destruct Hc as [<-|Hc]; [reflexivity..|done].
Qed.

Lemma extract_int_printed z : in_int z -> snd (extract_int (istringstream (to_string z))) = Some z.
Proof.
  intros Hz. rewrite (extract_int_to_string _ z ""); [done|done|done|done|].
  pose proof (skip_ws_to_string z "") as H. by rewrite string_app_nil_r in *.
Qed.

Lemma extract_bool_printed b : snd (extract_bool (istringstream (bool_to_string b))) = Some b.
Proof. by destruct b. Qed.

Definition request_of (c : config) : request :=
  Request target_uri (Some (instances c)) (Some (send_messages c)) (Some (randomized_interval c))
    (Some (interval c)) (Some (messages c)) (Some (message_length c)).

(** The parameters of a request, set from the frames one after the other. *)
Fixpoint decode_from (i : nat) (frames : list string) (q : request) : request :=
  match frames with
  | [] => q
  | frame :: frames => decode_from (S i) frames (set_param i frame q)
  end.

Definition decode (frames : list string) : request := decode_from 0 frames empty_request.

(** The frames after "StartWebsockets", without the delimiter. *)
Definition parameter_frames (c : config) : list string :=
  [target_uri; to_string (instances c); bool_to_string (send_messages c);
   bool_to_string (randomized_interval c); to_string (interval c); to_string (messages c);
   to_string (message_length c)].

Section set_param.
Context (u : string) (n : option Z) (s r : option bool) (i m l : option Z).
Local Abbreviation q := (Request u n s r i m l).

Lemma set_param_uri : set_param 0 target_uri q = Request target_uri n s r i m l.
Proof.
  unfold set_param. rewrite (extract_string_word _ target_uri "");
    [done|apply no_space_target|done|done|done|reflexivity].
Qed.
Lemma set_param_instances z : in_int z -> set_param 1 (to_string z) q = Request u (Some z) s r i m l.
Proof. intros. unfold set_param. by rewrite extract_int_printed. Qed.
Lemma set_param_send b : set_param 2 (bool_to_string b) q = Request u n (Some b) r i m l.
Proof. unfold set_param. by rewrite extract_bool_printed. Qed.
Lemma set_param_randomized b : set_param 3 (bool_to_string b) q = Request u n s (Some b) i m l.
Proof. unfold set_param. by rewrite extract_bool_printed. Qed.
Lemma set_param_interval z : in_int z -> set_param 4 (to_string z) q = Request u n s r (Some z) m l.
Proof. intros. unfold set_param. by rewrite extract_int_printed. Qed.
Lemma set_param_messages z : in_int z -> set_param 5 (to_string z) q = Request u n s r i (Some z) l.
Proof. intros. unfold set_param. by rewrite extract_int_printed. Qed.
Lemma set_param_length z : in_int z -> set_param 6 (to_string z) q = Request u n s r i m (Some z).
Proof. intros. unfold set_param. by rewrite extract_int_printed. Qed.
End set_param.

Lemma decode_parameters c : int_config c -> decode (parameter_frames c) = request_of c.
Proof.
  intros (H1 & H2 & H3 & H4 & H5 & H6). unfold decode, request_of, parameter_frames, empty_request.
  cbn [decode_from].
  by rewrite set_param_uri, set_param_instances, set_param_send, set_param_randomized,
    set_param_interval, set_param_messages, set_param_length.
Qed.

(** ** Running the clients *)

Section worker.
Context (listenerName : string) (subscriber syncclient sink : socket_t).

(** What a worker relies on: its sockets are open and sends succeed; [fr] will
    arrive at the subscriber; it has made none of the clients in [scripts]. *)
Definition working (w : world) (fr : list arrival) (scripts : list client_script) : Prop :=
  open_socket subscriber w /\ open_socket syncclient w /\ open_socket sink w /\
  send_faults w = [] /\ arrivals w !! sptr subscriber = Some fr /\
  clients w = scripts /\ objects w = [].

(** A client with the arguments [a] that ends normally with the statistics
    [stats]. *)
Definition good_client (a : client_args) (stats : string) : client_script :=
  ClientScript a None None None (inr stats).

Section clients.
Context (uri : string) (messages : Z) (randomized : bool) (interval length : Z).

(** What every client of the worker is made with. *)
Definition arguments : client_args :=
  ClientArgs listenerName messages randomized interval length uri.

Definition new_action (i : nat) : action :=
  AClientNew (Z.of_nat i) listenerName messages randomized interval length.

Lemma new_clients_runs n k stats w :
  objects w = replicate k Constructed -> clients w = good_client arguments <$> stats ->
  (k + n <= List.length stats)%nat ->
  runs NetP (new_clients listenerName messages randomized interval length n) w
    (Returns (Z.of_nat <$> seq k n))
    (set_objects (replicate (k + n) Constructed) (emits (new_action <$> seq k n) w)).
Proof.
  revert k w. induction n as [|n IH]; intros k w Hk Hc Hlen.
  - cbn. rewrite emits_nil, Nat.add_0_r, <- Hk. apply runs_ret.
  - cbn [new_clients].
    destruct (lookup_lt_is_Some_2 stats k ltac:(lia)) as [st Hst].
    assert (List.length (objects w) = k) as Hlen' by (by rewrite Hk, length_replicate).
    assert (clients w !! List.length (objects w) = Some (good_client arguments st)) as Hlk
      by (by rewrite Hc, list_lookup_fmap, Hlen', Hst).
    assert (objects w ++ [Constructed] = replicate (S k) Constructed) as Happ
      by (by rewrite Hk, replicate_S_end).
    eapply runs_bind.
    { apply runs_call; cbn; rewrite Hlk; [by eexists|]. cbn. by intros x w' [-> ->]. }
    eapply runs_bind; [apply runs_ret|]. rewrite Happ, Hlen'.
    eapply runs_bind; [apply (IH (S k)); [done|done|lia]|].
    cbn [seq fmap list_fmap].
    replace (set_objects (replicate (k + S n) Constructed) _) with
      (set_objects (replicate (S k + n) Constructed) (emits (new_action <$> seq (S k) n)
         (set_objects (replicate (S k) Constructed) (emit (new_action k) w)))).
    + apply runs_ret.
    + unfold set_objects, emit, emits. cbn [objects]. rewrite Nat.add_succ_comm. cbn.
      by rewrite <- app_assoc.
Qed.

(** A loop over [n] clients takes them from phase [p] to [q], one by one. *)
Definition stage (p q : phase) (n i : nat) : list phase := replicate i q ++ replicate (n - i) p.

Lemma stage_lookup p q n i : (i < n)%nat -> stage p q n i !! i = Some p.
Proof.
  intros Hi. unfold stage. rewrite lookup_app_r; rewrite length_replicate; [|lia].
  apply lookup_replicate. split; [done|lia].
Qed.

Lemma stage_next p q n i : (i < n)%nat -> <[i:=q]> (stage p q n i) = stage p q n (S i).
Proof.
  intros Hi. unfold stage. replace i with (List.length (replicate i q) + 0)%nat at 1
    by (rewrite length_replicate; lia).
  rewrite insert_app_r. replace (n - i)%nat with (S (n - S i)) by lia.
  rewrite (replicate_S_end i q), <- app_assoc. done.
Qed.

Lemma stage_same p n i : (i <= n)%nat -> stage p p n i = replicate n p.
Proof. intros Hi. unfold stage. rewrite <- replicate_add. f_equal. lia. Qed.

Lemma stage_first p q n : stage p q n 0 = replicate n p.
Proof. unfold stage. by rewrite Nat.sub_0_r. Qed.

Lemma stage_last p q n : stage p q n n = replicate n q.
Proof. unfold stage. by rewrite Nat.sub_diag, app_nil_r. Qed.

Lemma for_clients_runs (f : Z -> Z -> M sysE unit) (g : Z -> Z -> list action) p q n w :
  (forall i acts, (i < n)%nat ->
     runs NetP (f (Z.of_nat i) (Z.of_nat i)) (set_objects (stage p q n i) (emits acts w)) (Returns tt)
       (set_objects (stage p q n (S i)) (emits (acts ++ g (Z.of_nat i) (Z.of_nat i)) w))) ->
  runs NetP (for_clients f 0 (Z.of_nat <$> seq 0 n)) (set_objects (replicate n p) w) (Returns tt)
    (set_objects (replicate n q) (emits (concat (imap (fun j c => g (0 + Z.of_nat j) c) (Z.of_nat <$> seq 0 n))) w)).
Proof.
  intros H. rewrite <- (stage_first p q), <- (stage_last p q).
  enough (forall m k acts, (k + m = n)%nat ->
    runs NetP (for_clients f (Z.of_nat k) (Z.of_nat <$> seq k m)) (set_objects (stage p q n k) (emits acts w)) (Returns tt)
      (set_objects (stage p q n n)
        (emits (acts ++ concat (imap (fun j c => g (Z.of_nat k + Z.of_nat j) c) (Z.of_nat <$> seq k m))) w))) as He.
  { rewrite <- (emits_nil w) at 1. by apply (He n 0%nat []). }
  induction m as [|m IH]; intros k acts Hk.
  - cbn. rewrite app_nil_r. replace k with n by lia. apply runs_ret.
  - cbn [seq fmap list_fmap for_clients imap concat]. eapply runs_bind; [apply H; lia|].
    replace (Z.of_nat k + 1) with (Z.of_nat (S k)) by lia. rewrite Z.add_0_r, app_assoc.
    rewrite (imap_ext _ (fun j c => g (Z.of_nat (S k) + Z.of_nat j) c)); [apply IH; lia|].
    intros j c _. cbn. f_equal. lia.
Qed.

(** The clients made so far, all of them good. *)
Definition made (stats : list string) (w : world) : Prop :=
  clients w = good_client arguments <$> stats /\ open_socket sink w /\ send_faults w = [].

(** The client whose turn it is. *)
Lemma made_client stats p q i acts w :
  made stats w -> (i < List.length stats)%nat ->
  exists st, stats !! i = Some st /\
    client_at (set_objects (stage p q (List.length stats) i) (emits acts w)) (Z.of_nat i) p (good_client arguments st).
Proof.
  intros (Hcl & _) Hi. destruct (lookup_lt_is_Some_2 stats i Hi) as [st Hst]. exists st. split; [done|].
  split; [lia|]. rewrite Nat2Z.id. cbn. rewrite Hcl, list_lookup_fmap, Hst.
  split; [by apply stage_lookup|done].
Qed.

(** A call on it that moves it to the next phase. *)
Lemma set_phase_stage p q n i acts a w : (i < n)%nat ->
  set_phase (Z.of_nat i) q (emit a (set_objects (stage p q n i) (emits acts w))) =
  set_objects (stage p q n (S i)) (emits (acts ++ [a]) w).
Proof.
  intros Hi. unfold set_phase. rewrite Nat2Z.id. cbn [objects emit emits set_objects].
  rewrite stage_next by done. unfold set_objects, emits. cbn. by rewrite <- app_assoc.
Qed.

Definition run_actions (i c : Z) : list action :=
  [ACout ("run client " +:+ to_string i +:+ endl); AClientRun c uri].

Definition result_actions (stats : list string) (i c : Z) : list action :=
  AClientStats c ::
  multipart (sptr sink) (message_frames (Result (default "" (stats !! Z.to_nat c)))).

Lemma run_client_runs stats i acts w :
  made stats w -> (i < List.length stats)%nat ->
  runs NetP (run_client uri (Z.of_nat i) (Z.of_nat i))
    (set_objects (stage Constructed Started (List.length stats) i) (emits acts w)) (Returns tt)
    (set_objects (stage Constructed Started (List.length stats) (S i))
       (emits (acts ++ run_actions (Z.of_nat i) (Z.of_nat i)) w)).
Proof.
  intros Hm Hi. unfold run_client, run_actions. eapply runs_bind; [apply cout_runs|].
  unfold emit. rewrite emits_objects, emits_emits. set (a := ACout _).
  destruct (made_client stats Constructed Started i (acts ++ [a]) w Hm Hi) as (st & _ & Hat).
  eapply runs_bind.
  { apply runs_call; [by eexists|]. destruct Hat as (_ & _ & Hcl). intros x w' [Hx ->]. rewrite Hcl in Hx.
    split; [exact Hx|reflexivity]. }
  cbn. rewrite set_phase_stage by done. rewrite <- app_assoc. apply runs_ret.
Qed.

Lemma wait_client_runs stats i acts w :
  made stats w -> (i < List.length stats)%nat ->
  runs NetP (wait_client (Z.of_nat i) (Z.of_nat i))
    (set_objects (stage Started Joined (List.length stats) i) (emits acts w)) (Returns tt)
    (set_objects (stage Started Joined (List.length stats) (S i)) (emits (acts ++ [AClientWait (Z.of_nat i)]) w)).
Proof.
  intros Hm Hi. destruct (made_client stats Started Joined i acts w Hm Hi) as (st & _ & Hat).
  unfold wait_client. eapply runs_bind.
  { apply runs_call; [by eexists|]. destruct Hat as (_ & _ & Hcl). intros x w' [Hx ->]. rewrite Hcl in Hx.
    split; [exact Hx|reflexivity]. }
  cbn. rewrite set_phase_stage by done. apply runs_ret.
Qed.

Lemma send_result_runs stats i acts w :
  made stats w -> (i < List.length stats)%nat ->
  runs NetP (send_result sink (Z.of_nat i) (Z.of_nat i))
    (set_objects (stage Joined Joined (List.length stats) i) (emits acts w)) (Returns tt)
    (set_objects (stage Joined Joined (List.length stats) (S i))
       (emits (acts ++ result_actions stats (Z.of_nat i) (Z.of_nat i)) w)).
Proof.
  intros Hm Hi. destruct (made_client stats Joined Joined i acts w Hm Hi) as (st & Hst & Hat).
  rewrite !stage_same in * by lia. destruct Hm as (_ & Hs & Hf).
  unfold send_result. eapply runs_bind.
  { apply runs_call; [by eexists|]. destruct Hat as (_ & _ & Hcl). intros x w' [Hx ->]. rewrite Hcl in Hx.
    injection Hx as ->. split; reflexivity. }
  eapply runs_bind; [apply runs_ret|].
  do 2 (eapply runs_bind; [by apply s_sendmore_emits|]).
  eapply runs_bind; [by apply s_send_emits|].
  unfold emit, result_actions. rewrite Nat2Z.id, Hst, !emits_objects, !emits_emits. apply runs_ret.
Qed.

Definition handles (stats : list string) : list Z := Z.of_nat <$> seq 0 (List.length stats).

(** Everything [doTheWork] does for clients that report [stats]. *)
Definition work_actions (stats : list string) : list action :=
  ACout (listenerName +:+ "+" +:+ "" +:+ "=" +:+ listenerName +:+ endl) ::
  (new_action <$> seq 0 (List.length stats)) ++
  concat (imap (fun j c => run_actions (0 + Z.of_nat j) c) (handles stats)) ++
  concat (imap (fun j c => [AClientWait c]) (handles stats)) ++
  concat (imap (fun j c => result_actions stats (0 + Z.of_nat j) c) (handles stats)).

Lemma doTheWork_runs send_messages stats fr w :
  working w fr (good_client arguments <$> stats) ->
  runs NetP (doTheWork listenerName uri (Z.of_nat (List.length stats)) send_messages randomized
               interval messages length sink) w (Returns tt)
    (set_objects (replicate (List.length stats) Joined) (emits (work_actions stats) w)).
Proof.
  intros (S1 & S2 & S3 & F & A & C & K). unfold doTheWork.
  eapply runs_bind; [apply runs_defined, client_id_empty|]. rewrite string_app_nil_r.
  eapply runs_bind; [apply cout_runs|]. rewrite Nat2Z.id.
  eapply runs_bind; [apply (new_clients_runs _ 0 stats); [done|done|lia]|]. rewrite Nat.add_0_l.
  match goal with |- runs _ _ (set_objects _ ?v) _ _ => set (w1 := v) end.
  assert (made stats w1) as Hm by done.
  eapply runs_bind.
  { apply for_clients_runs with (q := Started) (g := run_actions). intros. by apply run_client_runs. }
  eapply runs_bind.
  { apply for_clients_runs with (q := Joined) (g := fun _ c => [AClientWait c]). intros. by apply wait_client_runs. }
  match goal with |- runs _ _ _ _ ?w' => replace w' with
    (set_objects (replicate (List.length stats) Joined)
      (emits (concat (imap (fun j c => result_actions stats (0 + Z.of_nat j) c) (handles stats)))
      (emits (concat (imap (fun j c => [AClientWait c]) (handles stats)))
        (emits (concat (imap (fun j c => run_actions (0 + Z.of_nat j) c) (handles stats))) w1)))) end.
  { apply for_clients_runs. intros. by apply send_result_runs. }
  unfold w1, work_actions. by rewrite emit_emits, !emits_emits, <- ?app_comm_cons, <- ?app_assoc.
Qed.

End clients.

(** The arguments of the clients of a configuration. *)
Definition client_arguments (c : config) : client_args :=
  arguments target_uri (messages c) (randomized_interval c) (interval c) (message_length c).

(** ** The request, received part by part *)

Lemma receive_params_runs fs i q rest w :
  open_socket subscriber w -> arrivals w !! sptr subscriber = Some ((Frame <$> fs) ++ rest) ->
  runs NetP (receive_params subscriber i (List.length fs) q) w (Returns (decode_from i fs q))
    (after (sptr subscriber) rest (errno w) ((fun f => ARecv (sptr subscriber) f) <$> fs) w).
Proof.
  revert i q w. induction fs as [|f fs IH]; intros i q w Hs Ha; cbn in *.
  - rewrite after_id by done. apply runs_ret.
  - eapply runs_bind; [by apply s_recv_after|].
    specialize (IH (S i) (set_param i f q)
      (after (sptr subscriber) ((Frame <$> fs) ++ rest) (errno w) [ARecv (sptr subscriber) f] w)
      Hs (arrivals_after _ _ _ _ _)).
    by rewrite after_after in IH.
Qed.

Definition request_line (c : config) : string :=
  "Received request StartWebsockets " +:+ to_string (instances c) +:+ " " +:+
  print_bool (send_messages c) +:+ " " +:+ print_bool (randomized_interval c) +:+ " " +:+
  to_string (interval c) +:+ " " +:+ to_string (messages c) +:+ " " +:+ endl.

Definition receive_actions (fs : list string) : list action :=
  (fun f => ARecv (sptr subscriber) f) <$> fs.

(** From the frame after "StartWebsockets" to the last result. *)
Definition request_actions (c : config) (stats : list string) : list action :=
  receive_actions (parameter_frames c ++ [""]) ++ [ACout (request_line c)] ++
  work_actions target_uri (messages c) (randomized_interval c) (interval c) (message_length c) stats.

(** The world after the work: nothing else of it matters to the rest. *)
Lemma handle_start_websockets_runs c stats fr w :
  int_config c -> instances c = Z.of_nat (List.length stats) ->
  working w ((Frame <$> parameter_frames c) ++ Frame "" :: fr) (good_client (client_arguments c) <$> stats) ->
  runs NetP (handle_start_websockets listenerName subscriber sink) w (Returns tt)
    (set_objects (replicate (List.length stats) Joined)
      (after (sptr subscriber) fr (errno w) (request_actions c stats) w)).
Proof.
  intros Hc Hn (S1 & S2 & S3 & F & A & C & K). unfold handle_start_websockets.
  eapply runs_bind.
  { change param_count with (List.length (parameter_frames c)). by apply receive_params_runs. }
  change (decode_from 0 (parameter_frames c) empty_request) with (decode (parameter_frames c)).
  rewrite decode_parameters by done.
  eapply runs_bind; [apply s_recv_after; [done|apply arrivals_after]|]. rewrite after_after.
  unfold request_of. cbn [q_uri q_instances q_send_messages q_randomized_interval q_interval
    q_messages q_message_length].
  do 5 (eapply runs_bind; [by apply runs_defined|]).
  eapply runs_bind; [apply cout_runs|].
  eapply runs_bind; [by apply runs_defined|]. apply runs_try_returns.
  set (w1 := emit _ _).
  pose proof (doTheWork_runs target_uri (messages c) (randomized_interval c) (interval c)
    (message_length c) (send_messages c) stats fr w1) as H.
  rewrite <- Hn in H.
  match goal with |- runs _ _ _ _ ?w' => replace w' with
    (set_objects (replicate (List.length stats) Joined) (emits (work_actions target_uri (messages c)
      (randomized_interval c) (interval c) (message_length c) stats) w1)) end.
  - apply H. split_and!; try done. apply arrivals_after.
  - unfold w1, emit. rewrite emits_after, emits_after. unfold request_actions, receive_actions.
    rewrite fmap_app. cbn [fmap list_fmap]. rewrite <- !app_assoc. reflexivity.
Qed.

(** ** The whole life of a worker *)

(** Frames the inner loop does not know. *)
Definition ignored (fs : list string) : Prop := Forall (fun f => f <> "StartWebsockets") fs.

Lemma await_request_runs fs c stats fr w :
  ignored fs -> int_config c -> instances c = Z.of_nat (List.length stats) ->
  working w ((Frame <$> fs) ++ (Frame <$> start_websockets_frames c) ++ fr)
    (good_client (client_arguments c) <$> stats) ->
  runs NetP (await_request listenerName subscriber sink) w (Returns tt)
    (set_objects (replicate (List.length stats) Joined)
      (after (sptr subscriber) fr (errno w)
        (receive_actions (fs ++ ["StartWebsockets"]) ++ request_actions c stats) w)).
Proof.
  intros Hfs Hc Hn. unfold await_request. revert w.
  induction Hfs as [|f fs Hf Hfs IH]; intros w (S1 & S2 & S3 & F & A & C & K).
  - change (arrivals w !! sptr subscriber = Some (Frame "StartWebsockets" ::
      (Frame <$> parameter_frames c) ++ Frame "" :: fr)) in A.
    apply runs_loop_exit. eapply runs_bind; [by apply s_recv_after|].
    rewrite bool_decide_eq_true_2 by done.
    match goal with |- runs _ _ ?w0 _ _ => pose proof
      (handle_start_websockets_runs c stats fr w0 Hc Hn) as H end.
    rewrite after_after in H.
    eapply runs_bind; [apply H; split_and!; try done; apply arrivals_after|].
    apply runs_ret.
  - cbn [fmap list_fmap app] in A. eapply runs_loop_next.
    { eapply runs_bind; [by apply s_recv_after|].
      rewrite bool_decide_eq_false_2 by done. apply runs_ret. }
    match goal with |- runs _ _ ?w0 _ _ => specialize (IH w0) end.
    rewrite after_after in IH. apply IH. split_and!; try done. apply arrivals_after.
Qed.

Lemma work_runs noise reply l fs c stats fr w :
  Forall (fun f => f <> "HELLO_SOCKET") noise -> ignored fs ->
  int_config c -> instances c = Z.of_nat (List.length stats) ->
  sptr subscriber <> sptr syncclient ->
  arrivals w !! sptr syncclient = Some (Frame reply :: l) ->
  working w ((Frame <$> noise) ++ Frame "HELLO_SOCKET" ::
             (Frame <$> fs) ++ (Frame <$> start_websockets_frames c) ++ fr)
    (good_client (client_arguments c) <$> stats) ->
  exists w', runs NetP (work listenerName subscriber syncclient sink) w (Returns tt) w' /\
    trace w' = trace w ++ receive_actions (noise ++ ["HELLO_SOCKET"]) ++
      [ACout (listenerName +:+ " Sending synchronization request" +:+ endl);
       ASend (sptr syncclient) false listenerName; ARecv (sptr syncclient) reply] ++
      receive_actions (fs ++ ["StartWebsockets"]) ++ request_actions c stats ++
      [ACout (listenerName +:+ "DONE" +:+ endl)] /\
    live w' = live w /\ sockets w' = sockets w /\ objects w' = replicate (List.length stats) Joined.
Proof.
  intros Hnoise Hfs Hc Hn Hne. unfold work. revert w.
  induction Hnoise as [|f noise Hf Hnoise IH]; intros w Hsync (S1 & S2 & S3 & F & A & C & K);
    cbn [fmap list_fmap app] in A.
  - eexists. split; [|split].
    + apply runs_loop_exit. eapply runs_bind; [by apply s_recv_after|].
      rewrite bool_decide_eq_true_2 by done. eapply runs_bind; [apply cout_runs|].
      eapply runs_bind; [by apply s_send_emits|].
      eapply runs_bind.
      { apply s_recv_after; [done|]. cbn. rewrite lookup_insert_ne by done. exact Hsync. }
      eapply runs_bind.
      { apply await_request_runs; [exact Hfs|exact Hc|exact Hn|]. split_and!; try done.
        rewrite arrivals_after_ne by done. cbn. apply lookup_insert_eq. }
      eapply runs_bind; [apply cout_runs|]. apply runs_ret.
    + change (receive_actions ([] ++ ["HELLO_SOCKET"])) with
        [ARecv (sptr subscriber) "HELLO_SOCKET"].
      cbn [trace emit emits after set_objects set_errno pop_arrivals set_arrivals].
      rewrite <- !app_assoc. reflexivity.
    + done.
  - destruct (IH (after (sptr subscriber) ((Frame <$> noise) ++ Frame "HELLO_SOCKET" ::
      (Frame <$> fs) ++ (Frame <$> start_websockets_frames c) ++ fr) (errno w)
      [ARecv (sptr subscriber) f] w)) as (w' & Hrun & Htr & Hl & Hso).
    { rewrite <- Hsync. by apply arrivals_after_ne. }
    { split_and!; try done. apply arrivals_after. }
    exists w'. split; [|split; [|done]].
    + eapply runs_loop_next; [|exact Hrun]. eapply runs_bind; [by apply s_recv_after|].
      rewrite bool_decide_eq_false_2 by done. apply runs_ret.
    + rewrite Htr. cbn [trace after emits set_errno pop_arrivals set_arrivals].
      change (receive_actions ((f :: noise) ++ ["HELLO_SOCKET"])) with
        (ARecv (sptr subscriber) f :: receive_actions (noise ++ ["HELLO_SOCKET"])).
      rewrite <- !app_assoc. reflexivity.
Qed.

End worker.
