(* ===== verification/Stats.v ===== *)
(** * The aggregated statistics

    What the controller's sums mean.  Over exact rationals the reported mean
    is the mean of all samples of all connections, and the reported variance
    is the pooled within-connection variance if each client reports the
    unbiased variance of its samples; with the population variance, which is
    what Boost's [tag::variance] is, it is too small.  Further, the invariants
    of the counters, and the result lines that leave variables unset. *)

From S2P Require Import Prelude CInt Prog Text Double Sys Zmq ZHelpers Config Controller Collect.
From Stdlib Require Import QArith Qcanon.
Local Open Scope Z_scope.

(** ** Exact sums *)

Section sums.
Local Open Scope Qc_scope.

Definition Qc_sum (xs : list Qc) : Qc := foldr Qcplus 0 xs.
Definition Qc_length (xs : list Qc) : Qc := Qc_of_Z (Z.of_nat (length xs)).
Definition Qc_mean (xs : list Qc) : Qc := Qc_sum xs / Qc_length xs.
(** The sum of squared deviations from the mean. *)
Definition Qc_ss (xs : list Qc) : Qc :=
  Qc_sum ((fun x => (x - Qc_mean xs) * (x - Qc_mean xs)) <$> xs).
(** The unbiased and the population variance. *)
Definition sample_variance (xs : list Qc) : Qc := Qc_ss xs / (Qc_length xs - 1).
Definition population_variance (xs : list Qc) : Qc := Qc_ss xs / Qc_length xs.

Lemma Qc_of_Z_add a b : Qc_of_Z (a + b) = Qc_of_Z a + Qc_of_Z b.
Proof.
  unfold Qc_of_Z. apply Qc_is_canon. cbn [this Q2Qc Qcplus].
  rewrite !Qred_correct, inject_Z_plus. reflexivity.
Qed.

Lemma Qc_of_Z_inj a b : Qc_of_Z a = Qc_of_Z b -> a = b.
Proof.
  unfold Qc_of_Z. intros H. apply (f_equal this) in H. cbn [this Q2Qc] in H.
  assert (inject_Z a == inject_Z b)%Q as He.
  { rewrite <- (Qred_correct (inject_Z a)), <- (Qred_correct (inject_Z b)), H. reflexivity. }
  by apply inject_Z_injective.
Qed.

Lemma Qc_of_Z_nonzero a : a <> 0%Z -> Qc_of_Z a <> 0.
Proof. intros Ha H. apply Ha, Qc_of_Z_inj, H. Qed.

Lemma Qc_sum_app xs ys : Qc_sum (xs ++ ys) = Qc_sum xs + Qc_sum ys.
Proof.
  induction xs as [|x xs IH].
  - change (Qc_sum ys = 0 + Qc_sum ys). ring.
  - change (x + Qc_sum (xs ++ ys) = x + Qc_sum xs + Qc_sum ys). rewrite IH. ring.
Qed.

Lemma Qc_mean_sum xs : xs <> [] -> Qc_mean xs * Qc_length xs = Qc_sum xs.
Proof.
  intros Hne. unfold Qc_mean. field. apply Qc_of_Z_nonzero.
  destruct xs; [done|]. cbn [length]. lia.
Qed.

Lemma Qc_ss_singleton x : Qc_ss [x] = 0.
Proof.
  assert (Qc_mean [x] = x) as Hm.
  { unfold Qc_mean, Qc_length. change (Qc_of_Z (Z.of_nat (length [x]))) with (Qc_of_Z 1).
    change (Qc_sum [x]) with (x + 0). change (Qc_of_Z 1) with 1. field. discriminate. }
  unfold Qc_ss. rewrite Hm.
  change ((x - x) * (x - x) + 0 = 0). ring.
Qed.

Lemma Qc_length_pred xs : Qc_length xs - 1 = Qc_of_Z (Z.of_nat (length xs) - 1).
Proof.
  unfold Qc_length. replace (Z.of_nat (length xs) - 1)%Z with (Z.of_nat (length xs) + -1)%Z by lia.
  rewrite Qc_of_Z_add. change (Qc_of_Z (-1)) with (- (1)). ring.
Qed.

(** What the controller adds for one connection. *)
Lemma sample_variance_term xs : xs <> [] ->
  Qc_of_Z (Z.of_nat (length xs) - 1) * sample_variance xs = Qc_ss xs.
Proof.
  intros Hne. unfold sample_variance. rewrite Qc_length_pred.
  destruct xs as [|x [|y xs]]; [done| |].
  - rewrite Qc_ss_singleton. unfold Qcdiv. ring.
  - field. apply Qc_of_Z_nonzero. cbn [length]. lia.
Qed.

End sums.

(** ** The counters *)

(** Compute the fields of an explicit [tally] and the binds of known options. *)
Ltac tally_cbn :=
  cbn [id default from_option clientsFinished clientsDied resultsReceived connectionsDied
       connectionsSucceeded meansum variancesum totalcount samples setup_stats mbind option_bind].

Definition assigned {A} (o : option A) : bool := if o then true else false.

Lemma assigned_Some {A} (o : option A) : assigned o = true -> exists x, o = Some x.
Proof. destruct o; [eauto|done]. Qed.

Section counters.
Context {D : Type} `{!Arith D} `{!Accumulators D}.
Context (c : config) (resultsExpected : Z).

Definition line_count (r : result_line D) : Z := default 0 (r_count r).
Definition has_samples (r : result_line D) : bool := 0 <? line_count r.
Definition succeeded (r : result_line D) : bool :=
  bool_decide (r_type r = "success") && (line_count r =? messages c).

(** A line whose extraction assigned every variable the code then reads. *)
Definition complete (r : result_line D) : bool :=
  assigned (r_setup r) && assigned (r_count r) &&
  (negb (has_samples r) || assigned (r_mean r) && assigned (r_variance r)).

(** The lines of the results among the messages. *)
Definition lines (ms : list message) : list (result_line D) :=
  omap (fun m => match m with Result stats => Some (parse_result stats) | _ => None end) ms.

Definition ended_with (p : string -> bool) (ms : list message) : Z :=
  Z.of_nat (count_if (fun m => match m with Finished _ s => p s | _ => false end) ms).

Definition total (f : result_line D -> Z) (rs : list (result_line D)) : Z :=
  foldr (fun r n => f r + n) 0 rs.

Definition add_mean (r : result_line D) (s : D) : D :=
  if has_samples r then dadd s (dmul (default (d_of_int 0) (r_mean r)) (d_of_int (line_count r))) else s.
Definition add_variance (r : result_line D) (s : D) : D :=
  if has_samples r then dadd s (dmul (d_of_int (line_count r - 1)) (default (d_of_int 0) (r_variance r))) else s.

(** The relation of the counters before and after the lines [rs]. *)
Record advanced (rs : list (result_line D)) (t t' : tally D) : Prop := {
  adv_received : resultsReceived t' = resultsReceived t + Z.of_nat (length rs);
  adv_succeeded : connectionsSucceeded t' =
    connectionsSucceeded t + total (fun r => Z.b2z (succeeded r)) rs;
  adv_died : connectionsDied t' =
    connectionsDied t + total (fun r => Z.b2z (negb (succeeded r))) rs;
  adv_samples : samples t' = samples t + total (fun r => Z.b2z (has_samples r)) rs;
  adv_count : totalcount t' = totalcount t + total (fun r => Z.max 0 (line_count r)) rs;
  adv_mean : meansum t' = foldl (fun s r => add_mean r s) (meansum t) rs;
  adv_variance : variancesum t' = foldl (fun s r => add_variance r s) (variancesum t) rs;
}.

Lemma total_cons f r rs : total f (r :: rs) = f r + total f rs.
Proof. done. Qed.

Lemma advanced_nil t : advanced [] t t.
Proof. split; cbn; lia || done. Qed.

Lemma advanced_cons r rs t t1 t2 : advanced [r] t t1 -> advanced rs t1 t2 -> advanced (r :: rs) t t2.
Proof.
  intros [] []. split; rewrite ?total_cons in *; cbn [length foldl] in *; try (change (total _ []) with 0 in *; lia).
  all: congruence.
Qed.

Lemma tally_finished_keeps s t t' : tally_finished s t = Some t' -> advanced [] t t'.
Proof. unfold tally_finished. intros H. tally_inv; split; cbn; lia || done. Qed.

Definition after_line (r : result_line D) (setup : D) (t : tally D) : tally D :=
  Tally (clientsFinished t) (clientsDied t) (resultsReceived t + 1)
    (connectionsDied t + Z.b2z (negb (succeeded r))) (connectionsSucceeded t + Z.b2z (succeeded r))
    (add_mean r (meansum t)) (add_variance r (variancesum t))
    (totalcount t + Z.max 0 (line_count r)) (samples t + Z.b2z (has_samples r))
    (acc_push (setup_stats t) setup).

(** The ranges in which one more line does not overflow a counter. *)
Definition room (n : Z) (t : tally D) : Prop :=
  0 <= connectionsDied t <= INT_MAX - n /\
  0 <= connectionsSucceeded t <= INT_MAX - n /\ 0 <= samples t <= INT_MAX - n.

Lemma progress_due_defined received :
  in_int resultsExpected -> 0 <= received <= INT_MAX ->
  is_Some (progress_due resultsExpected received).
Proof.
  intros He Hr. unfold progress_due, div_int, rem_int.
  rewrite decide_False by done.
  assert (INT_MIN <= Z.quot resultsExpected 100 <= INT_MAX) as Hq.
  { unfold in_int in He. split.
    - transitivity (Z.quot INT_MIN 100); [done|apply Z.quot_le_mono; lia].
    - transitivity (Z.quot INT_MAX 100); [apply Z.quot_le_mono; lia|done]. }
  rewrite int_result_Some by done. cbn [mbind option_bind].
  destruct (Z.ltb_spec 0 (Z.quot resultsExpected 100)); [|eauto].
  rewrite decide_False by lia. rewrite decide_True; [eauto|].
  pose proof (Z.quot_pos received (Z.quot resultsExpected 100)).
  pose proof (Z.quot_le_upper_bound received (Z.quot resultsExpected 100) received).
  unfold in_int, INT_MIN in *. nia.
Qed.

Lemma tally_connection_spec r count t :
  r_count r = Some count -> room 1 t ->
  tally_connection c r t = Some (Tally (clientsFinished t) (clientsDied t) (resultsReceived t)
    (connectionsDied t + Z.b2z (negb (succeeded r))) (connectionsSucceeded t + Z.b2z (succeeded r))
    (meansum t) (variancesum t) (totalcount t) (samples t) (setup_stats t)).
Proof.
  intros Hc (Hd & Hs & Hn). destruct t as [f d n cd cs ms vs tc sm st]; cbn [connectionsDied connectionsSucceeded samples] in *.
  unfold tally_connection, succeeded, line_count, tally_died, tally_succeeded. rewrite Hc.
  tally_cbn.
  destruct (bool_decide _); cbn [negb andb Z.b2z mbind option_bind].
  1: destruct (count =? messages c); cbn [negb andb Z.b2z mbind option_bind].
  all: rewrite add_int_Some by int_lia; cbn [mbind option_bind]; by rewrite ?Z.add_0_r.
Qed.

Lemma tally_latency_spec r count t :
  r_count r = Some count -> count <= INT_MAX ->
  (0 < count -> is_Some (r_mean r) /\ is_Some (r_variance r)) ->
  0 <= samples t < INT_MAX -> 0 <= totalcount t <= INT_MAX - Z.max 0 count ->
  tally_latency r t = Some (Tally (clientsFinished t) (clientsDied t) (resultsReceived t)
    (connectionsDied t) (connectionsSucceeded t)
    (add_mean r (meansum t)) (add_variance r (variancesum t))
    (totalcount t + Z.max 0 (line_count r)) (samples t + Z.b2z (has_samples r)) (setup_stats t)).
Proof.
  intros Hc Hi Hmv Hn Ht. destruct t as [f d n cd cs ms vs tc sm st]; cbn [samples totalcount] in *.
  unfold tally_latency, add_mean, add_variance, has_samples, line_count. rewrite Hc.
  tally_cbn.
  destruct (Z.ltb_spec 0 count) as [Hp|Hp]; cbn [Z.b2z].
  - destruct (Hmv Hp) as [[mean ->] [variance ->]]. cbn [id default from_option mbind option_bind].
    rewrite Z.max_r by lia. unfold sub_int.
    rewrite !add_int_Some by int_lia. cbn [mbind option_bind].
    rewrite int_result_Some by int_lia. done.
  - rewrite Z.max_l by lia. by rewrite !Z.add_0_r.
Qed.

(** The values [complete] provides. *)
Lemma complete_values r : complete r = true ->
  exists setup count, r_setup r = Some setup /\ r_count r = Some count /\ line_count r = count /\
    (0 < count -> is_Some (r_mean r) /\ is_Some (r_variance r)).
Proof.
  unfold complete, has_samples, line_count, assigned.
  destruct (r_setup r), (r_count r); cbn [id default from_option andb]; try discriminate.
  intros H. eexists _, _. do 3 (split; [done|]). intros Hp.
  rewrite (proj2 (Z.ltb_lt _ _) Hp) in H. cbn in H.
  destruct (r_mean r), (r_variance r); try discriminate. eauto.
Qed.

(** A complete line is tallied, and a line that is not complete reads a
    variable that was not assigned. *)
Lemma tally_result_spec stats t :
  let r := parse_result stats in
  complete r = true -> in_int resultsExpected -> line_count r <= INT_MAX ->
  room 1 t -> 0 <= totalcount t <= INT_MAX - Z.max 0 (line_count r) ->
  0 <= resultsReceived t < INT_MAX ->
  exists setup, tally_result c resultsExpected stats t = Some (after_line r setup t).
Proof.
  intros r (setup & count & Hs & Hc & Hl & Hmv)%complete_values He Hi Hr Ht Hrr.
  exists setup. destruct t as [f d n cd cs ms vs tc sm st].
  unfold tally_result, tally_line, tally_received. fold r.
  cbn [resultsReceived totalcount] in *. rewrite add_int_Some by int_lia.
  unfold tally_setup. rewrite Hs.
  tally_cbn.
  erewrite tally_connection_spec; [|exact Hc|exact Hr].
  tally_cbn.
  erewrite tally_latency_spec; [|exact Hc|lia|exact Hmv|unfold room in Hr; cbn in *; lia|by rewrite <- Hl].
  tally_cbn. destruct (progress_due_defined (n + 1)) as [b ->]; [done|lia|]. done.
Qed.

Lemma after_line_advanced r setup t : advanced [r] t (after_line r setup t).
Proof. split; cbn; lia || done. Qed.

Lemma total_nonneg f rs : (forall r, 0 <= f r) -> 0 <= total f rs.
Proof. intros Hf. induction rs as [|r rs IH]; [done|]. rewrite total_cons. specialize (Hf r). lia. Qed.

(** Every counter can still take [n] messages with [k] samples. *)
Definition fits (n k : Z) (t : tally D) : Prop :=
  0 <= clientsFinished t <= INT_MAX - n /\ 0 <= clientsDied t <= INT_MAX - n /\
  0 <= resultsReceived t <= INT_MAX - n /\ 0 <= totalcount t <= INT_MAX - k /\ room n t.

Lemma fits_line n k r setup t :
  0 <= n -> 0 <= k -> fits (1 + n) (Z.max 0 (line_count r) + k) t -> fits n k (after_line r setup t).
Proof.
  unfold fits, room. cbn. intros Hn Hk. destruct (succeeded r), (has_samples r); cbn; lia.
Qed.

Definition after_finished (s : string) (t : tally D) : tally D :=
  let ok := bool_decide (s = "0") in
  Tally (clientsFinished t + Z.b2z ok) (clientsDied t + Z.b2z (negb ok)) (resultsReceived t)
    (connectionsDied t) (connectionsSucceeded t) (meansum t) (variancesum t) (totalcount t)
    (samples t) (setup_stats t).

Lemma tally_finished_spec s t :
  0 <= clientsFinished t < INT_MAX -> 0 <= clientsDied t < INT_MAX ->
  tally_finished s t = Some (after_finished s t).
Proof.
  intros Hf Hd. unfold tally_finished, after_finished. destruct t as [f d n cd cs ms vs tc sm st]; cbn [clientsFinished clientsDied] in *.
  case_match; rewrite add_int_Some by int_lia; tally_cbn; cbn [negb Z.b2z]; by rewrite Z.add_0_r.
Qed.

Lemma fits_finished n k s t : 0 <= n -> fits (1 + n) k t -> fits n k (after_finished s t).
Proof. unfold fits, room. cbn. intros Hn. case_bool_decide; cbn; lia. Qed.

(** The counters of the processes reported so far. *)
Definition reported (ms : list message) (t t' : tally D) : Prop :=
  clientsFinished t' = clientsFinished t + ended_with (fun s => bool_decide (s = "0")) ms /\
  clientsDied t' = clientsDied t + ended_with (fun s => negb (bool_decide (s = "0"))) ms.

Lemma reported_cons m ms t t1 t2 : reported [m] t t1 -> reported ms t1 t2 -> reported (m :: ms) t t2.
Proof.
  unfold reported, ended_with. cbn [count_if]. destruct m; repeat case_match; lia.
Qed.

Lemma total_const f n rs : Forall (fun r => f r = n) rs -> total f rs = n * Z.of_nat (length rs).
Proof.
  induction 1 as [|r rs Hr _ IH]; [cbn; lia|]. rewrite total_cons, Hr, IH. cbn [length]. lia.
Qed.

Lemma samples_nonneg rs : 0 <= total (fun r => Z.max 0 (line_count r)) rs.
Proof. apply total_nonneg. lia. Qed.

Lemma tally_messages_defined ms t :
  in_int resultsExpected ->
  fits (Z.of_nat (length ms)) (total (fun r => Z.max 0 (line_count r)) (lines ms)) t ->
  Forall (fun r => complete r = true) (lines ms) ->
  exists t', tally_messages c resultsExpected ms t = Some t' /\
    advanced (lines ms) t t' /\ reported ms t t'.
Proof.
  intros He. revert t. induction ms as [|m ms IH]; intros t Hf Hc.
  { exists t. split; [done|]. split; [apply advanced_nil|]. unfold reported, ended_with. cbn. lia. }
  pose proof (samples_nonneg (lines ms)) as Hk.
  cbn [length] in Hf. rewrite Nat2Z.inj_succ, <- Z.add_1_l in Hf.
  destruct m as [name s|stats].
  - cbn [tally_messages tally_message].
    pose proof Hf as (Hf1 & Hf2 & _). rewrite tally_finished_spec by lia. cbn [mbind option_bind].
    destruct (IH (after_finished s t)) as (t' & Ht & Ha & Hr); [apply fits_finished; [lia|done]|done|].
    exists t'. split; [done|]. split; [by destruct Ha|].
    eapply reported_cons; [|done]. unfold reported, ended_with, after_finished. cbn. case_bool_decide; cbn; lia.
  - change (lines (Result stats :: ms)) with (parse_result stats :: lines ms) in *.
    rewrite total_cons in Hf. apply Forall_cons in Hc as [Hc1 Hc].
    pose proof Hf as (_ & _ & Hf3 & Hf4 & Hf5).
    destruct (tally_result_spec stats t) as [setup Hs]; try done; try lia.
    { unfold room in *. lia. }
    destruct (IH (after_line (parse_result stats) setup t)) as (t' & Ht & Ha & Hr);
      [apply fits_line; [lia..|done]|done|].
    exists t'. split; [cbn [tally_messages tally_message]; by rewrite Hs|].
    split; [eapply advanced_cons; [apply after_line_advanced|done]|].
    eapply reported_cons; [|done]. unfold reported, ended_with, after_line. cbn. lia.
Qed.

End counters.

(** ** The reported mean and variance *)

Section pooled.
Local Open Scope Qc_scope.
Context `{!Accumulators Qc}.
Context (var : list Qc -> Qc).

(** A line reports the samples [xs] of a connection with the variance [var]. *)
Definition describes (r : result_line Qc) (xs : list Qc) : Prop :=
  is_Some (r_setup r) /\ r_count r = Some (Z.of_nat (length xs)) /\
  (xs <> [] -> r_mean r = Some (Qc_mean xs) /\ r_variance r = Some (var xs)).

(** What [variancesum] gains from a connection. *)
Definition variance_term (xs : list Qc) : Qc :=
  if decide (xs = []) then 0 else Qc_of_Z (Z.of_nat (length xs) - 1) * var xs.

(** The number of connections with at least one sample. *)
Definition sampled (xss : list (list Qc)) : Z :=
  Z.of_nat (count_if (fun xs => negb (bool_decide (xs = []))) xss).

Lemma describes_complete r xs : describes r xs -> complete r = true.
Proof.
  intros ([s Hs] & Hc & Hmv). unfold complete, has_samples, line_count, assigned. rewrite Hs, Hc.
  destruct xs as [|x xs]; [done|]. destruct Hmv as [-> ->]; [done|]. cbn. apply orb_true_r.
Qed.

Lemma describes_samples r xs : describes r xs -> has_samples r = negb (bool_decide (xs = [])).
Proof.
  intros (_ & Hc & _). unfold has_samples, line_count. rewrite Hc. by destruct xs.
Qed.

Lemma describes_count r xs : describes r xs -> Z.max 0 (line_count r) = Z.of_nat (length xs).
Proof. intros (_ & Hc & _). unfold line_count. rewrite Hc. cbn. lia. Qed.

Lemma describes_mean r xs s : describes r xs -> add_mean r s = s + Qc_sum xs.
Proof.
  intros H. unfold add_mean. rewrite (describes_samples _ _ H).
  destruct H as (_ & Hc & Hmv). case_bool_decide as Hx; cbn [negb].
  - subst. change (s = s + 0). ring.
  - destruct Hmv as [-> _]; [done|]. unfold line_count. rewrite Hc. cbn [default from_option id].
    change (dadd s _) with (s + Qc_mean xs * Qc_length xs). by rewrite Qc_mean_sum.
Qed.

Lemma describes_variance r xs s : describes r xs -> add_variance r s = s + variance_term xs.
Proof.
  intros H. unfold add_variance, variance_term. rewrite (describes_samples _ _ H).
  destruct H as (_ & Hc & Hmv). case_bool_decide as Hx; cbn [negb].
  - rewrite decide_True by done. ring.
  - destruct Hmv as [_ ->]; [done|]. unfold line_count. rewrite Hc. by rewrite decide_False.
Qed.

Context (c : config) (resultsExpected : Z).

Lemma described_sums rs xss : Forall2 describes rs xss ->
  total (fun r => Z.max 0 (line_count r)) rs = Z.of_nat (length (concat xss)) /\
  total (fun r => Z.b2z (has_samples r)) rs = sampled xss /\
  (forall s, foldl (fun s r => add_mean r s) s rs = s + Qc_sum (concat xss)) /\
  (forall s, foldl (fun s r => add_variance r s) s rs = s + Qc_sum (variance_term <$> xss)).
Proof.
  induction 1 as [|r xs rs xss Hr _ (IHc & IHs & IHm & IHv)].
  { split_and!; [done|done|intros s; change (s = s + 0); ring..]. }
  split_and!.
  - rewrite total_cons, (describes_count _ _ Hr), IHc. cbn [concat]. rewrite length_app. lia.
  - rewrite total_cons, (describes_samples _ _ Hr), IHs. unfold sampled. cbn [count_if].
    case_bool_decide; cbn [negb Z.b2z]; lia.
  - intros s. cbn [foldl concat]. rewrite (describes_mean _ _ _ Hr), IHm, Qc_sum_app. ring.
  - intros s. cbn [foldl fmap list_fmap]. rewrite (describes_variance _ _ _ Hr), IHv.
    change (Qc_sum (variance_term xs :: ?l)) with (variance_term xs + Qc_sum l). ring.
Qed.

Lemma pooled_sums ms xss :
  Forall2 describes (lines ms) xss -> in_int resultsExpected ->
  (Z.of_nat (length ms + length (concat xss)) <= INT_MAX)%Z ->
  exists t, tally_messages c resultsExpected ms tally0 = Some t /\
    totalcount t = Z.of_nat (length (concat xss)) /\ samples t = sampled xss /\
    meansum t = Qc_sum (concat xss) /\ variancesum t = Qc_sum (variance_term <$> xss).
Proof.
  intros Hd He Hb. destruct (described_sums _ _ Hd) as (Hc & Hs & Hm & Hv).
  destruct (tally_messages_defined c resultsExpected ms tally0) as (t & Ht & Ha & _).
  - done.
  - rewrite Hc. unfold fits, room. cbn. lia.
  - clear -Hd. induction Hd; constructor; eauto using describes_complete.
  - exists t. split; [done|]. destruct Ha. rewrite adv_count0, adv_samples0, adv_mean0, adv_variance0.
    rewrite Hc, Hs, Hm, Hv. cbn. split_and!; [done|done|..]; apply Qcplus_0_l.
Qed.

Lemma sampled_le xss : (sampled xss <= Z.of_nat (length (concat xss)))%Z.
Proof.
  unfold sampled. induction xss as [|xs xss IH]; cbn [count_if concat]; [done|].
  rewrite length_app. destruct xs; cbn in *; lia.
Qed.

End pooled.

(** ** The client's choice of variance *)

Section variance.
Local Open Scope Qc_scope.

Lemma sample_terms xss : Qc_sum (variance_term sample_variance <$> xss) = Qc_sum (Qc_ss <$> xss).
Proof.
  induction xss as [|xs xss IH]; [done|]. cbn [fmap list_fmap].
  change (Qc_sum (?a :: ?l)) with (a + Qc_sum l) in *. rewrite IH. f_equal.
  unfold variance_term. case_decide; [by subst|]. by apply sample_variance_term.
Qed.

Lemma population_terms n xss : n <> 0%nat -> Forall (fun xs => length xs = n) xss ->
  Qc_sum (variance_term population_variance <$> xss) * Qc_of_Z (Z.of_nat n) =
  Qc_of_Z (Z.of_nat n - 1) * Qc_sum (Qc_ss <$> xss).
Proof.
  intros Hn. induction 1 as [|xs xss Hxs _ IH]; [cbn [fmap list_fmap Qc_sum foldr]; ring|].
  cbn [fmap list_fmap]. change (Qc_sum (?a :: ?l)) with (a + Qc_sum l).
  rewrite Qcmult_plus_distr_l, IH, Qcmult_plus_distr_r. f_equal.
  unfold variance_term. rewrite decide_False by (by destruct xs).
  unfold population_variance, Qc_length. rewrite Hxs. field.
  apply Qc_of_Z_nonzero. lia.
Qed.

End variance.

(** ** The order of the messages *)

(** Two tallies that differ at most in the accumulated setup times. *)
Section same_totals.
Context {D : Type} `{!Accumulators D}.

Definition totals (t : tally D) : Z * Z * Z * Z * Z * (D * D) * Z * Z :=
  (clientsFinished t, clientsDied t, resultsReceived t, connectionsDied t, connectionsSucceeded t,
   (meansum t, variancesum t), totalcount t, samples t).

Definition same_totals (t t' : tally D) : Prop := totals t = totals t'.

#[export] Instance same_totals_equivalence : Equivalence same_totals.
Proof.
  unfold same_totals. split; [by intros t|by intros t t'|]. intros t1 t2 t3 H12 H23. congruence.
Qed.

#[export] Instance overallMean_same `{!Arith D} : Proper (same_totals ==> eq) (overallMean (D := D)).
Proof. intros t t' [=]. unfold overallMean. congruence. Qed.

#[export] Instance overallVariance_same `{!Arith D} : Proper (same_totals ==> eq) (overallVariance (D := D)).
Proof.
  intros t t' H. unfold same_totals, totals in H. injection H as _ _ _ _ _ _ Hv Hc Hs.
  unfold overallVariance. by rewrite Hv, Hc, Hs.
Qed.

End same_totals.

Section order.
Context `{!Accumulators Qc}.

#[export] Instance Qc_sum_Permutation : Proper (Permutation ==> eq) Qc_sum.
Proof.
  intros xs ys. induction 1 as [|x l l' _ IH|x y l|]; [done| | |congruence].
  - change ((x + Qc_sum l = x + Qc_sum l')%Qc). by rewrite IH.
  - change ((y + (x + Qc_sum l) = x + (y + Qc_sum l))%Qc). ring.
Qed.

#[export] Instance total_Permutation (f : result_line Qc -> Z) : Proper (Permutation ==> eq) (total f).
Proof. intros rs rs'. induction 1; rewrite ?total_cons in *; lia. Qed.

#[export] Instance lines_Permutation : Proper (Permutation ==> Permutation) (lines (D := Qc)).
Proof. unfold lines. solve_proper. Qed.

#[export] Instance ended_with_Permutation p : Proper (Permutation ==> eq) (ended_with p).
Proof. intros ms ms' H. unfold ended_with. by rewrite H. Qed.

(** A fold of additions is the sum of what each line adds to nothing. *)
Lemma foldl_additions (add : result_line Qc -> Qc -> Qc) rs s :
  (forall r s, add r s = s + add r 0)%Qc ->
  foldl (fun s r => add r s) s rs = (s + Qc_sum ((fun r => add r 0%Qc) <$> rs))%Qc.
Proof.
  intros Ha. revert s. induction rs as [|r rs IH]; intros s.
  - change (s = s + 0)%Qc. ring.
  - cbn [foldl fmap list_fmap]. rewrite IH, Ha.
    change (Qc_sum (?a :: ?l)) with (a + Qc_sum l)%Qc. ring.
Qed.

Lemma add_mean_additive (r : result_line Qc) s : (add_mean r s = s + add_mean r 0)%Qc.
Proof.
  unfold add_mean. destruct (has_samples r); [|ring].
  change (dadd ?a ?b) with (a + b)%Qc. change (dmul ?a ?b) with (a * b)%Qc.
  destruct (r_mean r); cbn [default from_option id]; ring.
Qed.

Lemma add_variance_additive (r : result_line Qc) s : (add_variance r s = s + add_variance r 0)%Qc.
Proof.
  unfold add_variance. destruct (has_samples r); [|ring].
  change (dadd ?a ?b) with (a + b)%Qc. change (dmul ?a ?b) with (a * b)%Qc.
  destruct (r_variance r); cbn [default from_option id]; ring.
Qed.

Lemma advanced_Permutation c rs rs' (t t1 t2 : tally Qc) :
  Permutation rs rs' -> advanced c rs t t1 -> advanced c rs' t t2 ->
  clientsFinished t1 = clientsFinished t2 -> clientsDied t1 = clientsDied t2 -> same_totals t1 t2.
Proof.
  intros Hp [] [] Hf Hd. unfold same_totals, totals. rewrite Hf, Hd.
  rewrite adv_received0, adv_succeeded0, adv_died0, adv_samples0, adv_count0, adv_mean0, adv_variance0.
  rewrite adv_received1, adv_succeeded1, adv_died1, adv_samples1, adv_count1, adv_mean1, adv_variance1.
  rewrite !(foldl_additions _ _ _ add_mean_additive), !(foldl_additions _ _ _ add_variance_additive).
  rewrite !(total_Permutation _ _ _ Hp), (Permutation_length Hp).
  by rewrite !(Qc_sum_Permutation _ _ (fmap_Permutation _ _ _ Hp)).
Qed.

End order.

(** ** Lines that leave a variable unassigned *)

Section incomplete.
Context {D : Type} `{!Arith D} `{!Accumulators D}.
Context (c : config) (resultsExpected : Z).

(** A line that is tallied was complete. *)
Lemma tally_line_complete r t t' : tally_line c resultsExpected r t = Some t' -> complete r = true.
Proof.
  unfold tally_line, complete, has_samples, line_count, assigned.
  intros (t1 & Hs & (t2 & _ & (t3 & Hl & _)%bind_Some)%bind_Some)%bind_Some.
  unfold tally_setup in Hs. destruct (r_setup r); [|done].
  unfold tally_latency in Hl. destruct (r_count r) as [count|]; [|done].
  cbn [mbind option_bind id default from_option] in *. case_match; [|done].
  destruct (r_mean r); [|done]. by destruct (r_variance r).
Qed.

(** Each result line is counted as received. *)
Lemma tally_messages_received ms t t' : tally_messages c resultsExpected ms t = Some t' ->
  resultsReceived t' = resultsReceived t + Z.of_nat (length (lines (D := D) ms)).
Proof.
  revert t. induction ms as [|m ms IH]; intros t H; [injection H as <-; cbn; lia|].
  cbn [tally_messages] in H. apply bind_Some in H as (t1 & H1 & H). rewrite (IH t1 H). destruct m as [name s|stats].
  - destruct (tally_finished_keeps c s t t1 H1) as [Hr _ _ _ _ _ _]. rewrite Hr.
    change (lines (Finished name s :: ms)) with (lines (D := D) ms). cbn [length]. lia.
  - change (lines (Result stats :: ms)) with (parse_result (D := D) stats :: lines ms).
    cbn [length]. enough (resultsReceived t1 = resultsReceived t + 1) by lia.
    cbn [tally_message] in H1. revert H1.
    unfold tally_result, tally_line, tally_received, tally_setup, tally_connection, tally_latency, tally_died, tally_succeeded.
    intros H1. tally_inv; done.
Qed.

Lemma tally_result_incomplete stats t :
  complete (parse_result stats) = false -> tally_result c resultsExpected stats t = None.
Proof.
  intros Hc. destruct (tally_result _ _ _ _) as [t'|] eqn:H; [|done].
  apply bind_Some in H as (t1 & _ & H). apply tally_line_complete in H. congruence.
Qed.
End incomplete.
