(* ===== verification/Client.v ===== *)
(** * clients/base-client.hpp

    A client object is shared by three threads: the one that created it, the
    asio thread that runs the connection's handlers, and the telemetry thread
    that sends the messages.  The member variables are the record [client], each
    handler and each section of the telemetry loop that runs without giving
    the lock up is a function on it, and [step] interleaves them.  The member
    functions a derived class overrides are the class [Virtual]. *)

From S2P Require Import Prelude CInt Text Double ZHelpers Controller.
From Stdlib Require Import Ascii.
Local Open Scope Z_scope.

(** ** Effects *)

(** The calls of the WebSocket library, the logs and the clock, in order.  A
    [connection_hdl] is a weak pointer, empty until it is assigned. *)
Abbreviation connection_hdl := (option Z) (only parsing).
(** 0 is success. *)
Abbreviation error_code := Z (only parsing).

Variant channel := alog_app | elog_warn | elog_fatal | cout | cerr | log_file.

(** The events a handler can be registered for. *)
Variant slot := OpenSlot | CloseSlot | FailSlot | MessageSlot | TlsInitSlot | SocketInitSlot.
#[export] Instance slot_eq_dec : EqDecision slot.
Proof. solve_decision. Defined.

(** [SetHandler] is of the endpoint, [SetConnectionHandler] of one connection;
    a handler is named by the member function bound to the object. *)
Variant effect :=
| Write (ch : channel) (line : string)
| ClearAccessChannels (level : string)
| SetAccessChannels (level : string)
| InitAsio
| StartPerpetual
| SetHandler (s : slot) (method : string)
| SetConnectionHandler (hdl : Z) (s : slot) (method : string)
| OpenLog (filename : string)
| CloseLog
| GetConnection (uri : string) (con : error_code + Z)
| SetExtensions (header : string)
| SleepFor (seconds : Z)
| Connect (hdl : connection_hdl)
| Sent (hdl : connection_hdl) (msg : string) (ec : error_code)
| Closed (hdl : connection_hdl) (reason : string) (ec : error_code)
| StopPerpetual
| Terminate.

(** What the endpoint answers to a call on a connection. *)
Definition endpoint := connection_hdl -> error_code.

(** [ec.message()] *)
Class Messages := error_message : error_code -> string.

(** ** The object *)

Section client.
Context `{!Accumulators double} `{!Messages}.

(** Times are in nanoseconds; a time point that was never assigned is the
    clock's epoch.  [m_setupTime] has no initial value. *)
Record client := Client {
  m_open : bool;
  m_done : bool;
  m_finite_messages : bool;
  m_total_messages : Z;
  m_count : Z;
  m_random_interval : bool;
  m_interval : Z;
  m_message_pending : bool;
  m_message_length : Z;
  m_failed : bool;
  m_stats : acc (D := double);
  m_start : Z;
  m_con_start : Z;
  m_setupTime : option double;
  m_hdl : connection_hdl;
  threads : bool;
}.

Definition base_client (client_id : string) (total_messages : Z) (random_interval : bool)
    (interval message_length : Z) : client * list effect :=
  (Client false false true total_messages 0 random_interval interval false message_length false
     acc_empty 0 0 None None false,
   let filename := "logs/" +:+ client_id +:+ ".log" in
   [ClearAccessChannels "all"; SetAccessChannels "app"; InitAsio;
    OpenLog filename; Write cout (client_id +:+ "log file " +:+ filename +:+ endl);
    SetHandler OpenSlot "base_client::on_open"; SetHandler CloseSlot "base_client::on_close";
    SetHandler FailSlot "base_client::on_fail"; SetHandler MessageSlot "base_client::on_message"]).

(** The destructor. *)
Definition dtor (c : client) : list effect := [CloseLog].

(** Assignments to the members. *)
Definition set_open (setup : double) (c : client) : client :=
  Client true (m_done c) (m_finite_messages c) (m_total_messages c) (m_count c)
    (m_random_interval c) (m_interval c) (m_message_pending c) (m_message_length c) (m_failed c)
    (m_stats c) (m_start c) (m_con_start c) (Some setup) (m_hdl c) (threads c).
Definition set_done (failed : bool) (c : client) : client :=
  Client (m_open c) true (m_finite_messages c) (m_total_messages c) (m_count c)
    (m_random_interval c) (m_interval c) (m_message_pending c) (m_message_length c) failed
    (m_stats c) (m_start c) (m_con_start c) (m_setupTime c) (m_hdl c) (threads c).
Definition set_pending (pending : bool) (c : client) : client :=
  Client (m_open c) (m_done c) (m_finite_messages c) (m_total_messages c) (m_count c)
    (m_random_interval c) (m_interval c) pending (m_message_length c) (m_failed c)
    (m_stats c) (m_start c) (m_con_start c) (m_setupTime c) (m_hdl c) (threads c).
Definition set_count (n : Z) (c : client) : client :=
  Client (m_open c) (m_done c) (m_finite_messages c) (m_total_messages c) n
    (m_random_interval c) (m_interval c) (m_message_pending c) (m_message_length c) (m_failed c)
    (m_stats c) (m_start c) (m_con_start c) (m_setupTime c) (m_hdl c) (threads c).
Definition set_stats (stats : acc) (c : client) : client :=
  Client (m_open c) (m_done c) (m_finite_messages c) (m_total_messages c) (m_count c)
    (m_random_interval c) (m_interval c) (m_message_pending c) (m_message_length c) (m_failed c)
    stats (m_start c) (m_con_start c) (m_setupTime c) (m_hdl c) (threads c).
Definition set_start (now : Z) (c : client) : client :=
  Client (m_open c) (m_done c) (m_finite_messages c) (m_total_messages c) (m_count c)
    (m_random_interval c) (m_interval c) (m_message_pending c) (m_message_length c) (m_failed c)
    (m_stats c) now (m_con_start c) (m_setupTime c) (m_hdl c) (threads c).
Definition set_connection (hdl : connection_hdl) (now : Z) (c : client) : client :=
  Client (m_open c) (m_done c) (m_finite_messages c) (m_total_messages c) (m_count c)
    (m_random_interval c) (m_interval c) (m_message_pending c) (m_message_length c) (m_failed c)
    (m_stats c) (m_start c) now (m_setupTime c) hdl (threads c).
Definition set_threads (c : client) : client :=
  Client (m_open c) (m_done c) (m_finite_messages c) (m_total_messages c) (m_count c)
    (m_random_interval c) (m_interval c) (m_message_pending c) (m_message_length c) (m_failed c)
    (m_stats c) (m_start c) (m_con_start c) (m_setupTime c) (m_hdl c) true.

(** [duration_cast<microseconds>(end - start)] and [elapsed.count()/1000.0]. *)
Definition elapsed (start end_ : Z) : Z := Z.quot (end_ - start) 1000.
Definition milliseconds (micros : Z) : double := ddiv (d_of_int micros) (d_of_int 1000).

(** ** The creating thread *)

(** [run]: [con] is the outcome of [get_connection], a handle or an error;
    [delay] the draw from 0..15, [now] the clock. *)
Definition run (uri : string) (con : error_code + Z) (delay now : Z) (c : client) :
    client * list effect :=
  let opening := [Write log_file ("Connect to " +:+ uri); Write cout ("Get connection" +:+ endl)] in
  match con with
  | inl ec =>
      (c, opening ++ [GetConnection uri con;
                      Write alog_app ("Get Connection Error: " +:+ error_message ec)])
  | inr hdl =>
      (set_threads (set_connection (Some hdl) now c),
       opening ++ [GetConnection uri con; SleepFor delay; Connect (Some hdl)])
  end.

(** [wait] joins both threads through pointers that only [run] sets. *)
Definition wait (c : client) : option unit := if threads c then Some tt else None.

(** ** The handlers *)

Definition on_open (now : Z) (c : client) : client * list effect :=
  let setup := milliseconds (elapsed (m_con_start c) now) in
  (set_open setup c,
   [Write alog_app "Connection opened, starting telemetry!";
    Write log_file ("Connection opened in " +:+ g6 setup +:+ "ms , starting telemetry!" +:+ endl)]).

Definition on_close (c : client) : client * list effect :=
  (set_done (m_failed c) c,
   [Write cout ("Closed" +:+ endl);
    Write log_file ("Connection closed, stopping telemetry!" +:+ endl)]).

Definition on_fail (c : client) : client * list effect :=
  (set_done true c,
   [Write alog_app "Connection failed, stopping telemetry!";
    Write log_file ("Connection failed, stopping telemetry!" +:+ endl)]).

Definition on_message (now : Z) (c : client) : client * list effect :=
  let us := elapsed (m_start c) now in
  (set_stats (acc_push (m_stats c) (milliseconds us)) (set_pending false c),
   [Write alog_app ("Message echo received in " +:+ to_string us +:+ "microseconds");
    Write log_file ("Echo in " +:+ g6 (milliseconds us) +:+ "ms" +:+ endl)]).

(** ** Results *)

Definition stats_fields (c : client) (setup : double) : string :=
  to_string (acc_count (m_stats c)) +:+ " " +:+ g6 (acc_min (m_stats c)) +:+ " " +:+
  g6 (acc_max (m_stats c)) +:+ " " +:+ g6 (acc_mean (m_stats c)) +:+ " " +:+
  g6 (acc_variance (m_stats c)) +:+ " " +:+ g6 setup.

Definition stats_type (c : client) : string :=
  if negb (m_failed c) then "success" else if m_open c then "fail-opened" else "fail".

(** Both branches end with [m_setupTime]. *)
Definition get_stats (c : client) : option string :=
  setup ← m_setupTime c;
  Some (stats_type c +:+ " " +:+ stats_fields c setup).

End client.
Arguments client {_}.
