(* ===== verification/Telemetry.v ===== *)
(** * The telemetry loop of clients/base-client.hpp

    The loop is a machine of the sections between which the other threads may
    run; [step] interleaves it with the handlers, and the invariant holds in
    every state the interleaving reaches.  The loop calls the member functions
    of the derived class through [Virtual], and the theorems are proved against
    the laws in [VirtualLaws]. *)

From S2P Require Import Prelude CInt Text Double ZHelpers Controller Client.
From Stdlib Require Import Ascii.
From Stdlib.Relations Require Import Relation_Operators.
Local Open Scope Z_scope.

(** ** The interface of a client class *)

(** The object [X] of a class with [base_client] as its base: the members the
    loop calls, and the handlers it registers for the events of the endpoint;
    a handler without a result has undefined behaviour. *)
Class Virtual `{!Accumulators double} (X : Type) := {
  base : X -> client;
  with_base : client -> X -> X;
  send_message : endpoint -> string -> X -> error_code * list effect;
  close : endpoint -> string -> X -> list effect;
  fail : endpoint -> string -> X -> list effect;
  event : Type;
  handle : endpoint -> event -> X -> option (X * list effect);
}.

(** The messages a list of effects hands to the endpoint successfully. *)
Definition is_delivered (e : effect) : bool := match e with Sent _ _ ec => ec =? 0 | _ => false end.
Definition delivered (l : list effect) : Z := Z.of_nat (count_if is_delivered l).

(** ** The loop *)

Section telemetry.
Context `{!Accumulators double} `{!Messages} {X : Type} `{!Virtual X}.

(** What the random generators, the clock and the endpoint answer in a section. *)
Record input := Input {
  i_endpoint : endpoint;
  i_now : Z;
  i_delay : Z;
  i_payload : nat -> Z;
}.

Variant pc :=
| Entry
| Head
| Pause
| Guard
| NotReady
| Compose
| Send (msg : string)
| After (ec : error_code)
| Tail
| Ended.

(** [for (i < m_message_length) val << static_cast<char>(payload_rng())], where
    [draw i] is the [i]-th draw. *)
Definition payload (message_length : Z) (draw : nat -> Z) : string :=
  String.string_of_list_ascii ((fun i => to_char (draw i)) <$> seq 0 (Z.to_nat message_length)).

Definition telemetry (i : input) (p : pc) (x : X) : option (pc * X * list effect) :=
  let c := base x in
  match p with
  | Entry => Some (Head, x, [Write cout ("telemetry_loop" +:+ endl)])
  | Head =>
      if negb (m_finite_messages c) || (m_count c <? m_total_messages c)
      then Some (Pause, x, []) else Some (Tail, x, [])
  | Pause =>
      if negb (m_random_interval c) then Some (Guard, x, [SleepFor (m_interval c)])
      else Some (Guard, x, [Write alog_app ("Sleeping for " +:+ to_string (i_delay i) +:+ "s");
                            SleepFor (i_delay i)])
  | Guard =>
      if m_done c then Some (Tail, x, [Write alog_app "Connection done, breaking"])
      else if negb (m_open c) || m_message_pending c then Some (NotReady, x, [])
      else Some (Compose, x, [])
  | NotReady =>
      Some (Head, x, [Write alog_app "connection not ready for sending"; SleepFor 1])
  | Compose =>
      n ← add_int (m_count c) 1;
      Some (Send (payload (m_message_length c) (i_payload i)), with_base (set_count n c) x, [])
  | Send msg =>
      let x := with_base (set_start (i_now i) (set_pending true c)) x in
      let '(ec, l) := send_message (i_endpoint i) msg x in
      Some (After ec, x, l)
  | After ec =>
      if ec =? 0 then Some (Head, x, [])
      else Some (Head, with_base (set_pending false c) x,
                 [Write elog_warn ("Send Error: " +:+ error_message ec)])
  | Tail =>
      if m_count c =? m_total_messages c then
        Some (Ended, x, [SleepFor 10; Write alog_app "Close"] ++
                        close (i_endpoint i) "connection finished" x)
      else
        Some (Ended, x, [SleepFor 1; Write elog_fatal "Fail"] ++
                        fail (i_endpoint i) "connection failed" x)
  | Ended => None
  end.

(** ** Interleavings *)

Record state := State { thread : pc; object : X; effects : list effect }.

Definition self (s : state) : client := base (object s).

(** One section of the telemetry thread. *)
Definition run_section (i : input) (s : state) : option state :=
  '(p, x, l) ← telemetry i (thread s) (object s);
  Some (State p x (effects s ++ l)).

(** One handler on the asio thread. *)
Definition run_handler (ep : endpoint) (e : event) (s : state) : option state :=
  '(x, l) ← handle ep e (object s);
  Some (State (thread s) x (effects s ++ l)).

Inductive step : state -> state -> Prop :=
| step_section i s s' : run_section i s = Some s' -> step s s'
| step_handler ep e s s' : run_handler ep e s = Some s' -> step s s'.

(** The states of a connection whose object is [x] when [run] returns. *)
Definition reachable (x : X) : state -> Prop :=
  clos_refl_trans_1n _ step (State Entry x []).

(** A schedule that says which thread runs next, executed. *)
Definition run_choice (a : input + endpoint * event) (s : state) : option state :=
  match a with inl i => run_section i s | inr (ep, e) => run_handler ep e s end.

Fixpoint run_schedule (l : list (input + endpoint * event)) (s : state) : option state :=
  match l with
  | [] => Some s
  | a :: l => s' ← run_choice a s; run_schedule l s'
  end.

End telemetry.

(** ** The laws of the interface *)

(** What a handler may do to the base object: one of the base's own handlers,
    or nothing. *)
Variant handled `{!Accumulators double} `{!Messages} (c : client) : client -> Prop :=
| handled_none : handled c c
| handled_open now : handled c (fst (on_open now c))
| handled_close : handled c (fst (on_close c))
| handled_fail : handled c (fst (on_fail c))
| handled_message now : handled c (fst (on_message now c)).

Class VirtualLaws `{!Accumulators double} `{!Messages} (X : Type) `{!Virtual X} := {
  base_with_base c x : base (with_base c x) = c;
  send_delivers ep msg x ec l : send_message ep msg x = (ec, l) ->
    delivered l = (if ec =? 0 then 1 else 0);
  close_delivers ep reason x : delivered (close ep reason x) = 0;
  fail_delivers ep reason x : delivered (fail ep reason x) = 0;
  handle_base ep e x x' l : handle ep e x = Some (x', l) ->
    handled (base x) (base x') /\ delivered l = 0;
}.

(** The count of an accumulator set, as Boost documents it. *)
Class CountLaws `{!Accumulators double} := {
  acc_count_empty : acc_count (acc_empty (D := double)) = 0;
  acc_count_push a x : acc_count (acc_push (D := double) a x) = acc_count a + 1;
}.

Lemma delivered_app l l' : delivered (l ++ l') = delivered l + delivered l'.
Proof. unfold delivered. induction l as [|e l IH]; cbn [app count_if]; lia. Qed.
