(* ===== verification/TelemetryFacts.v ===== *)
(** * The telemetry loop: invariants and progress

    In every reachable state the loop has counted at most the configured
    number of messages, hands a message over only when the connection is open
    and no echo is awaited, and has at most one message outstanding; once the
    connection is done, at most one more message is sent; and a server that
    echoes every message lets the loop send all of them and close. *)

From S2P Require Import Prelude CInt Text Double ZHelpers Controller Client Telemetry.
From Stdlib.Relations Require Import Relation_Operators.
Local Open Scope Z_scope.

Section facts.
Context `{!Accumulators double} `{!Messages} {X : Type} `{!Virtual X}.
Context `{!VirtualLaws X} `{!CountLaws}.

(** The members of a client that only the loop changes. *)
Record same_loop (c c' : client) : Prop := {
  same_finite : m_finite_messages c' = m_finite_messages c;
  same_total : m_total_messages c' = m_total_messages c;
  same_count : m_count c' = m_count c;
}.

(** What a handler changes of the rest. *)
Lemma handled_spec c c' : handled c c' ->
  same_loop c c' /\ (m_open c = true -> m_open c' = true) /\ (m_done c = true -> m_done c' = true) /\
  (m_message_pending c' = m_message_pending c /\ acc_count (m_stats c') = acc_count (m_stats c) \/
   m_message_pending c' = false /\ acc_count (m_stats c') = acc_count (m_stats c) + 1).
Proof.
  destruct 1; cbn; (split; [by split|]); rewrite ?acc_count_push; auto.
Qed.

(** The object [run] leaves behind. *)
Definition fresh (total : Z) (c : client) : Prop :=
  m_finite_messages c = true /\ m_total_messages c = total /\ m_count c = 0 /\
  m_message_pending c = false /\ acc_count (m_stats c) = 0.

Lemma base_client_fresh id total random interval length uri hdl delay now :
  fresh total (fst (run uri (inr hdl) delay now (fst (base_client id total random interval length)))).
Proof. repeat split. apply acc_count_empty. Qed.

(** The loop is between the check of the connection and the hand-over. *)
Definition about_to_send (p : pc) : bool := match p with Compose | Send _ => true | _ => false end.
Definition counting (p : pc) : bool :=
  match p with Pause | Guard | NotReady | Compose => true | _ => false end.

Record invariant (total : Z) (s : state (X := X)) : Prop := {
  inv_finite : m_finite_messages (self s) = true;
  inv_total : m_total_messages (self s) = total;
  inv_count : 0 <= m_count (self s) <= Z.max 0 total;
  inv_counting : counting (thread s) = true -> m_count (self s) < total;
  inv_ready : about_to_send (thread s) = true ->
    m_open (self s) = true /\ m_message_pending (self s) = false;
  inv_echoes : 0 <= acc_count (m_stats (self s));
  inv_outstanding : delivered (effects s) <=
    acc_count (m_stats (self s)) + (if m_message_pending (self s) then 1 else 0);
  inv_failed : forall ec, thread s = After ec -> ec <> 0 ->
    delivered (effects s) <= acc_count (m_stats (self s));
  inv_delivered : delivered (effects s) +
    (match thread s with Send _ => 1 | _ => 0 end) <= m_count (self s);
}.

Lemma invariant_init total x : fresh total (base x) -> invariant total (State Entry x []).
Proof.
  intros (Hf & Ht & Hn & Hp & Ha).
  split; unfold self; cbn [object thread effects]; rewrite ?Hf, ?Ht, ?Hn, ?Hp, ?Ha; done || lia.
Qed.

(** A section that leaves the object alone and sends nothing. *)
Definition quiet (p : pc) : bool := match p with Send _ | After _ => false | _ => true end.

Lemma invariant_quiet total p x l p' l' :
  invariant total (State p x l) -> delivered l' = 0 -> quiet p' = true ->
  (counting p' = true -> m_count (base x) < total) ->
  (about_to_send p' = true -> m_open (base x) = true /\ m_message_pending (base x) = false) ->
  invariant total (State p' x (l ++ l')).
Proof.
  intros [Hf Ht Hn _ _ He Ho _ Hd] Hl Hq Hc Hr.
  split; unfold self in *; cbn [thread object effects] in *; rewrite ?delivered_app, ?Hl, ?Z.add_0_r;
    try done.
  - intros ec ->. done.
  - destruct p'; try done; destruct p; lia.
Qed.

Lemma invariant_compose total x l n msg :
  invariant total (State Compose x l) -> add_int (m_count (base x)) 1 = Some n ->
  invariant total (State (Send msg) (with_base (set_count n (base x)) x) (l ++ [])).
Proof.
  intros [Hf Ht Hn Hc Hr He Ho _ Hd] [-> _]%int_result_inv.
  split; unfold self in *; cbn [thread object effects] in *; rewrite ?app_nil_r, ?base_with_base; cbn.
  all: try done.
  all: specialize (Hc eq_refl); lia.
Qed.

Lemma invariant_send total ep now x l msg ec l' :
  invariant total (State (Send msg) x l) ->
  let y := with_base (set_start now (set_pending true (base x))) x in
  send_message ep msg y = (ec, l') -> invariant total (State (After ec) y (l ++ l')).
Proof.
  intros [Hf Ht Hn Hc Hr He Ho _ Hd] y Hs%send_delivers. subst y.
  destruct Hr as [_ Hp]; [done|].
  split; unfold self in *; cbn [thread object effects] in *; rewrite ?delivered_app, ?Hs, ?base_with_base; cbn.
  all: rewrite ?Hp in *; try done.
  - destruct (ec =? 0); lia.
  - intros ec' [= <-] He'%Z.eqb_neq. rewrite He'. lia.
  - destruct (ec =? 0); lia.
Qed.

Lemma invariant_send_error total x l ec l' :
  invariant total (State (After ec) x l) -> ec <> 0 -> delivered l' = 0 ->
  invariant total (State Head (with_base (set_pending false (base x)) x) (l ++ l')).
Proof.
  intros [Hf Ht Hn Hc Hr He Ho Hx Hd] Hec Hl. specialize (Hx ec eq_refl Hec).
  split; unfold self in *; cbn [thread object effects] in *;
    rewrite ?delivered_app, ?Hl, ?base_with_base; cbn; done || lia.
Qed.

Lemma invariant_section total i s s' :
  invariant total s -> run_section i s = Some s' -> invariant total s'.
Proof.
  destruct s as [p x l]. intros Hi Hs.
  apply bind_Some in Hs as ([[p' x'] l'] & Hs & [= <-]). cbn [thread object effects] in *.
  pose proof Hi as [Hf Ht Hn Hc Hr _ _ _ _]. unfold self in *. cbn [thread object] in *.
  destruct p; cbn [telemetry] in Hs.
  - injection Hs as <- <- <-. by eapply invariant_quiet.
  - rewrite Hf in Hs. cbn in Hs. destruct (Z.ltb_spec (m_count (base x)) (m_total_messages (base x)));
      injection Hs as <- <- <-; eapply invariant_quiet; try done; intros _; lia.
  - case_match; injection Hs as <- <- <-; eapply invariant_quiet; try done; intros _; by apply Hc.
  - destruct (m_done _); [injection Hs as <- <- <-; by eapply invariant_quiet|].
    destruct (m_open _) eqn:Hop, (m_message_pending _) eqn:Hpe; injection Hs as <- <- <-;
      eapply invariant_quiet; try done; intros _; by apply Hc.
  - injection Hs as <- <- <-. by eapply invariant_quiet.
  - apply bind_Some in Hs as (n & Hn' & [= <- <- <-]). by apply invariant_compose.
  - destruct (send_message _ _ _) as [ec l1] eqn:Hm. injection Hs as <- <- <-. by eapply invariant_send.
  - destruct (Z.eqb_spec ec 0); injection Hs as <- <- <-;
      [by eapply invariant_quiet|by eapply invariant_send_error].
  - case_match; injection Hs as <- <- <-; eapply invariant_quiet; try done.
    all: change (delivered (?a :: ?b :: ?k)) with (delivered k); apply close_delivers || apply fail_delivers.
  - done.
Qed.

Lemma invariant_handler total ep e s s' :
  invariant total s -> run_handler ep e s = Some s' -> invariant total s'.
Proof.
  destruct s as [p x l]. intros [Hf Ht Hn Hc Hr He Ho Hx Hd] Hs.
  apply bind_Some in Hs as ([x' l'] & [Hb Hl]%handle_base & [= <-]).
  apply handled_spec in Hb as ([Sf St Sn] & Hopen & _ & Hp).
  unfold self in *. cbn [thread object effects] in *.
  split; unfold self; cbn [thread object effects]; rewrite ?delivered_app, ?Hl, ?Sf, ?St, ?Sn, ?Z.add_0_r; try done.
  - intros Ha. destruct (Hr Ha) as [Ho' Hp']. split; [auto|]. destruct Hp as [[-> _]|[-> _]]; done.
  - destruct Hp as [[_ ->]|[_ ->]]; lia.
  - destruct Hp as [[-> ->]|[-> ->]]; [done|]. destruct (m_message_pending (base x)); lia.
  - intros ec Hec Hne. specialize (Hx ec Hec Hne). destruct Hp as [[_ ->]|[_ ->]]; lia.
Qed.

Lemma invariant_reachable total x s : fresh total (base x) -> reachable x s -> invariant total s.
Proof.
  intros Hf%invariant_init Hs. unfold reachable in Hs.
  remember (State Entry x []) as s0 eqn:H0'. clear H0'.
  induction Hs as [|s0 s1 s Hs _ IH]; [done|]. apply IH. inversion Hs; subst;
    eauto using invariant_section, invariant_handler.
Qed.

(** ** The loop is never undefined *)

Lemma section_defined total i s :
  invariant total s -> in_int total -> thread s <> Ended -> exists s', run_section i s = Some s'.
Proof.
  intros [Hf Ht Hn Hc _ _ _ _ _] Hin Hp. destruct s as [p x l]. unfold self in *.
  cbn [thread object] in *. unfold run_section. cbn [thread object effects].
  destruct p; cbn [telemetry]; try done; try (repeat case_match; eexists; reflexivity).
  specialize (Hc eq_refl). rewrite add_int_Some by int_lia. eexists. reflexivity.
Qed.

(** ** A connection that is done *)

(** The messages the loop is committed to. *)
Definition committed (p : pc) : Z := if about_to_send p then 1 else 0.

Lemma delivered_quiet l : forallb (fun e => negb (is_delivered e)) l = true -> delivered l = 0.
Proof.
  unfold delivered. induction l as [|e l IH]; cbn [forallb count_if]; [done|].
  destruct (is_delivered e); [done|]. exact IH.
Qed.

(** Settle the effects of a section that sends nothing. *)
Ltac quiet_lia :=
  match goal with |- delivered _ + delivered ?k + _ <= _ => rewrite (delivered_quiet k) by done end; lia.

Lemma section_done i s s' :
  m_done (self s) = true -> run_section i s = Some s' ->
  m_done (self s') = true /\
  delivered (effects s') + committed (thread s') <= delivered (effects s) + committed (thread s).
Proof.
  destruct s as [p x l]. unfold self, committed. intros Hd Hs.
  apply bind_Some in Hs as ([[p' x'] l'] & Hs & [= <-]). cbn [thread object effects] in *.
  rewrite delivered_app. destruct p; cbn [telemetry] in Hs.
  1-5: repeat case_match; simplify_eq; (split; [congruence|]); cbn [about_to_send];
    quiet_lia.
  - apply bind_Some in Hs as (n & _ & [= <- <- <-]). rewrite base_with_base.
    split; [done|]. cbn [about_to_send]. quiet_lia.
  - destruct (send_message _ _ _) as [ec l1] eqn:Hm. injection Hs as <- <- <-.
    apply send_delivers in Hm as ->. rewrite base_with_base. split; [done|]. cbn [about_to_send].
    destruct (ec =? 0); lia.
  - case_match; injection Hs as <- <- <-; rewrite ?base_with_base; (split; [done|]); cbn [about_to_send];
      quiet_lia.
  - case_match; injection Hs as <- <- <-; (split; [done|]); cbn [about_to_send];
      change (delivered (?a :: ?b :: ?k)) with (delivered k);
      rewrite ?close_delivers, ?fail_delivers; lia.
  - done.
Qed.

Lemma step_done s s' :
  m_done (self s) = true -> step s s' ->
  m_done (self s') = true /\
  delivered (effects s') + committed (thread s') <= delivered (effects s) + committed (thread s).
Proof.
  intros Hd Hstep. destruct Hstep as [i s1 s2 Hs|ep e s1 s2 Hs]; [by eapply section_done|].
  apply bind_Some in Hs as ([x' l'] & [Hb Hl]%handle_base & [= <-]).
  apply handled_spec in Hb as (_ & _ & Hdone & _).
  unfold self in *. cbn [thread object effects]. rewrite delivered_app, Hl. split; [auto|lia].
Qed.

Lemma steps_done s s' :
  m_done (self s) = true -> clos_refl_trans_1n _ step s s' ->
  delivered (effects s') + committed (thread s') <= delivered (effects s) + committed (thread s).
Proof.
  intros Hd Hs. induction Hs as [|s s1 s' Hs _ IH]; [done|].
  apply step_done in Hs as [Hd1 Hle]; [|done]. specialize (IH Hd1). lia.
Qed.

(** ** Schedules *)

Lemma run_schedule_steps l s s' : run_schedule l s = Some s' -> clos_refl_trans_1n _ step s s'.
Proof.
  revert s. induction l as [|a l IH]; intros s Hs.
  - injection Hs as <-. apply rt1n_refl.
  - apply bind_Some in Hs as (s1 & Ha & Hs). eapply rt1n_trans; [|by apply IH].
    destruct a as [i|[ep e]]; [by eapply step_section|by eapply step_handler].
Qed.

Lemma run_schedule_app l l' s : run_schedule (l ++ l') s = s' ← run_schedule l s; run_schedule l' s'.
Proof.
  revert s. induction l as [|a l IH]; intros s; [done|]. cbn [app run_schedule].
  destruct (run_choice a s); [apply IH|done].
Qed.

(** What a schedule leads to, observed through [f]. *)
Lemma run_schedule_observe {B} (f : state -> B) l s s' v :
  run_schedule l s = Some s' -> f <$> run_schedule l s = Some v -> f s' = v.
Proof. intros ->. by intros [=]. Qed.

(** Handling the event [e] records the echo of a message. *)
Definition echo_event (e : event) : Prop :=
  forall ep x, exists now x' l', handle ep e x = Some (x', l') /\ base x' = fst (on_message now (base x)).

(** The endpoint accepts every message. *)
Definition accepts (i : input) : Prop := forall msg x, fst (send_message (i_endpoint i) msg x) = 0.

(** The loop sends one message, and the server echoes it. *)
Definition exchange (ie : input * event) : list (input + endpoint * event) :=
  let '(i, e) := ie in repeat (inl i) 6 ++ [inr (i_endpoint i, e)].

(** The loop is about to test its condition on a working connection. *)
Record ready (count total : Z) (s : state) : Prop := {
  ready_thread : thread s = Head;
  ready_finite : m_finite_messages (self s) = true;
  ready_open : m_open (self s) = true;
  ready_done : m_done (self s) = false;
  ready_pending : m_message_pending (self s) = false;
  ready_count : m_count (self s) = count;
  ready_total : m_total_messages (self s) = total;
}.

Lemma schedule_section i p x l p' x' l' rest s' :
  telemetry i p x = Some (p', x', l') ->
  run_schedule rest (State p' x' (l ++ l')) = Some s' ->
  run_schedule (inl i :: rest) (State p x l) = Some s'.
Proof. intros Ht Hr. cbn [run_schedule run_choice]. unfold run_section. cbn [thread object]. by rewrite Ht. Qed.

Lemma schedule_handler ep e p x l x' l' rest s' :
  handle ep e x = Some (x', l') ->
  run_schedule rest (State p x' (l ++ l')) = Some s' ->
  run_schedule (inr (ep, e) :: rest) (State p x l) = Some s'.
Proof. intros Ht Hr. cbn [run_schedule run_choice]. unfold run_handler. cbn [thread object]. by rewrite Ht. Qed.

Lemma exchange_runs n total i e s :
  ready n total s -> 0 <= n < total -> in_int total -> accepts i -> echo_event e ->
  exists s', run_schedule (exchange (i, e)) s = Some s' /\ ready (n + 1) total s' /\
    delivered (effects s') = delivered (effects s) + 1 /\
    acc_count (m_stats (self s')) = acc_count (m_stats (self s)) + 1.
Proof.
  destruct s as [p x l]. intros [Hp Hf Ho Hd Hm Hn Ht] Hlt Hin Ha He.
  unfold self in *. cbn [thread object effects] in *. subst p.
  set (y := with_base (set_count (n + 1) (base x)) x).
  set (z := with_base (set_start (i_now i) (set_pending true (base y))) y).
  destruct (send_message (i_endpoint i) (payload (m_message_length (base x)) (i_payload i)) z) as [ec sent] eqn:Hs.
  pose proof (Ha (payload (m_message_length (base x)) (i_payload i)) z) as Hec. rewrite Hs in Hec. cbn in Hec. subst ec.
  pose proof (send_delivers _ _ _ _ _ Hs) as Hsent.
  destruct (He (i_endpoint i) z) as (now & x' & l' & Hh & Hb).
  destruct (handle_base _ _ _ _ _ Hh) as [_ Hl'].
  assert (exists w, telemetry i Pause x = Some (Guard, x, w) /\ delivered w = 0) as (w & Hw & Hw0).
  { cbn [telemetry]. destruct (negb _); eexists; split; reflexivity. }
  eexists. split; [|shelve]. unfold exchange. cbn [repeat app].
  eapply schedule_section; [cbn [telemetry]; rewrite Hf, Hn, Ht, (proj2 (Z.ltb_lt _ _)) by lia; reflexivity|].
  eapply schedule_section; [exact Hw|].
  eapply schedule_section; [cbn [telemetry]; rewrite Hd, Ho, Hm; reflexivity|].
  eapply schedule_section; [cbn [telemetry]; rewrite Hn, add_int_Some by int_lia; reflexivity|].
  eapply schedule_section; [cbn [telemetry]; fold y; fold z; rewrite Hs; reflexivity|].
  eapply schedule_section; [reflexivity|].
  eapply schedule_handler; [exact Hh|]. reflexivity.
  Unshelve.
  cbn [thread object effects].
  assert (base x' = fst (on_message now (set_start (i_now i) (set_pending true (set_count (n + 1) (base x)))))) as Hb0.
  { rewrite Hb. subst z y. by rewrite !base_with_base. }
  unfold self. cbn [object]. split; [split; unfold self; cbn [thread object]; rewrite ?Hb0; cbn; done || lia|].
  rewrite Hb0, !delivered_app, Hsent, Hl', Hw0. cbn. rewrite acc_count_push. split; [|done].
  change (delivered []) with 0. lia.
Qed.

Definition session (rounds : list (input * event)) (last : input) : list (input + endpoint * event) :=
  concat (exchange <$> rounds) ++ [inl last; inl last].

Lemma rounds_run n total rounds s :
  ready n total s -> 0 <= n -> n + Z.of_nat (length rounds) <= total -> in_int total ->
  Forall (fun ie => accepts (fst ie) /\ echo_event (snd ie)) rounds ->
  exists s', run_schedule (concat (exchange <$> rounds)) s = Some s' /\
    ready (n + Z.of_nat (length rounds)) total s' /\
    delivered (effects s') = delivered (effects s) + Z.of_nat (length rounds) /\
    acc_count (m_stats (self s')) = acc_count (m_stats (self s)) + Z.of_nat (length rounds).
Proof.
  intros Hr Hn Hle Hin Hall. revert n s Hr Hn Hle.
  induction Hall as [|[i e] rounds [Ha He] _ IH]; intros n s Hr Hn Hle; cbn [length] in *.
  - exists s. rewrite !Z.add_0_r. done.
  - destruct (exchange_runs n total i e s) as (s1 & Hs1 & Hr1 & Hd1 & Hc1); [done|lia|done..|].
    destruct (IH (n + 1) s1) as (s2 & Hs2 & Hr2 & Hd2 & Hc2); [done|lia|lia|].
    exists s2. cbn [fmap list_fmap concat]. rewrite run_schedule_app, Hs1. cbn [mbind option_bind].
    split; [done|]. replace (n + Z.of_nat (S (length rounds))) with (n + 1 + Z.of_nat (length rounds)) by lia.
    split; [done|]. lia.
Qed.

(** The loop of a connection whose server echoes every message sends them all
    and closes it. *)
Lemma session_runs total rounds last s :
  ready 0 total s -> Z.of_nat (length rounds) = total -> in_int total ->
  Forall (fun ie => accepts (fst ie) /\ echo_event (snd ie)) rounds ->
  exists s' l, run_schedule (session rounds last) s = Some s' /\ thread s' = Ended /\
    m_count (self s') = total /\ delivered (effects s') = delivered (effects s) + total /\
    acc_count (m_stats (self s')) = acc_count (m_stats (self s)) + total /\
    effects s' = l ++ close (i_endpoint last) "connection finished" (object s').
Proof.
  intros Hr Hlen Hin Hall.
  destruct (rounds_run 0 total rounds s) as ([p x l] & Hs & [Hp Hf _ _ _ Hn Ht] & Hd & Hc); [done|lia..|done|done|].
  rewrite Z.add_0_l in *. unfold self in *. cbn [thread object effects] in *. subst p.
  set (fin := [SleepFor 10; Write alog_app "Close"]).
  exists (State Ended x ((l ++ []) ++ fin ++ close (i_endpoint last) "connection finished" x)), (l ++ fin).
  unfold session. rewrite run_schedule_app, Hs. cbn [mbind option_bind]. split.
  - eapply schedule_section; [cbn [telemetry]; rewrite Hf, Hn, Ht, (proj2 (Z.ltb_ge _ _)) by lia; reflexivity|].
    eapply schedule_section; [cbn [telemetry]; rewrite Hn, Ht, Hlen, Z.eqb_refl; reflexivity|]. done.
  - cbn [thread object effects]. split_and!; [done|lia| |lia|by rewrite app_nil_r, app_assoc].
    rewrite !delivered_app, close_delivers, Hd, Hlen. change (delivered fin) with 0. change (delivered []) with 0. lia.
Qed.

(** ** A message without an echo *)

(** The loop waits for the echo of a message it has sent, with more to send. *)
Definition waits_at (p : pc) : bool :=
  match p with After ec => ec =? 0 | Head | Pause | Guard | NotReady => true | _ => false end.

Record waiting (s : state (X := X)) : Prop := {
  waiting_thread : waits_at (thread s) = true;
  waiting_pending : m_message_pending (self s) = true;
  waiting_done : m_done (self s) = false;
  waiting_count : m_count (self s) < m_total_messages (self s);
}.

(** A section leaves it waiting. *)
Lemma section_waiting i s : waiting s ->
  exists s', run_section i s = Some s' /\ waiting s' /\ delivered (effects s') = delivered (effects s).
Proof.
  destruct s as [p x l]. intros [Ht Hp Hd Hc]. unfold self in *. cbn [thread object] in *.
  assert (exists p' l', telemetry i p x = Some (p', x, l') /\ waits_at p' = true /\ delivered l' = 0)
    as (p' & l' & He & Hw & Hl).
  { destruct p; try done; cbn [telemetry].
    - rewrite (proj2 (Z.ltb_lt _ _) Hc), orb_true_r. eauto.
    - destruct (m_random_interval (base x)); cbn; eauto 6.
    - rewrite Hd, Hp, orb_true_r. eauto.
    - eauto 6.
    - cbn in Ht. rewrite Ht. eauto. }
  exists (State p' x (l ++ l')). unfold run_section. cbn [thread object effects]. rewrite He. split; [done|].
  split; [by split|]. by rewrite delivered_app, Hl, Z.add_0_r.
Qed.

(** So does a handler that neither records an echo nor ends the connection. *)
Lemma handler_waiting ep e s x' l' : waiting s -> handle ep e (object s) = Some (x', l') ->
  m_message_pending (base x') = true -> m_done (base x') = false ->
  exists s', run_handler ep e s = Some s' /\ waiting s' /\ delivered (effects s') = delivered (effects s).
Proof.
  destruct s as [p x l]. intros [Ht _ _ Hc] He Hp Hd. unfold self in *. cbn [thread object] in *.
  pose proof (handle_base _ _ _ _ _ He) as [[[_ Et En] _]%handled_spec Hl].
  exists (State p x' (l ++ l')). unfold run_handler. cbn [thread object effects]. rewrite He. split; [done|].
  split; [split; unfold self; cbn [thread object]; by rewrite ?Et, ?En|].
  by rewrite delivered_app, Hl, Z.add_0_r.
Qed.

(** The handlers of the events that satisfy [silent] do neither. *)
Definition keeps_waiting (silent : event -> Prop) : Prop :=
  forall ep e x, silent e -> m_message_pending (base x) = true -> m_done (base x) = false ->
  exists x' l', handle ep e x = Some (x', l') /\ m_message_pending (base x') = true /\ m_done (base x') = false.

Definition only_events (silent : event -> Prop) : list (input + endpoint * event) -> Prop :=
  Forall (fun a => match a with inl _ => True | inr (_, e) => silent e end).

Lemma schedule_waiting silent l s : keeps_waiting silent -> only_events silent l -> waiting s ->
  exists s', run_schedule l s = Some s' /\ waiting s' /\ delivered (effects s') = delivered (effects s).
Proof.
  intros Hk Hl. revert s. induction Hl as [|a l Ha _ IH]; intros s Hw; [by exists s|].
  assert (exists s1, run_choice a s = Some s1 /\ waiting s1 /\ delivered (effects s1) = delivered (effects s))
    as (s1 & H1 & Hw1 & Hd1).
  { destruct a as [i|[ep e]]; [by apply section_waiting|]. pose proof Hw as [_ Hp Hd _].
    destruct (Hk ep e (object s) Ha Hp Hd) as (x' & l' & He & Hp' & Hd'). by apply (handler_waiting ep e s x' l'). }
  destruct (IH s1 Hw1) as (s' & Hs & Hw' & Hd'). exists s'. cbn [run_schedule]. rewrite H1. cbn [mbind option_bind].
  rewrite <- Hd1. done.
Qed.

(** The sections until the thread of a connection that is done has ended. *)
Definition sections_left (p : pc) : nat :=
  match p with After _ | NotReady => 5 | Head => 4 | Pause => 3 | Guard => 2 | Tail => 1 | _ => 0 end.

Definition on_the_way (p : pc) : bool := match p with Tail => true | p => waits_at p end.

Lemma section_ending i p x : m_done (base x) = true -> m_count (base x) < m_total_messages (base x) ->
  on_the_way p = true ->
  exists p' l', telemetry i p x = Some (p', x, l') /\ sections_left p = S (sections_left p') /\
    (on_the_way p' = true \/ p' = Ended).
Proof.
  intros Hd Hc Hp. destruct p; try done; cbn [telemetry].
  - rewrite (proj2 (Z.ltb_lt _ _) Hc), orb_true_r. eauto 6.
  - destruct (m_random_interval (base x)); cbn; eauto 8.
  - rewrite Hd. eauto 6.
  - eauto 8.
  - cbn in Hp. rewrite Hp. eauto 6.
  - destruct (m_count _ =? _); eauto 8.
Qed.

Lemma sections_ending inputs p x k : m_done (base x) = true -> m_count (base x) < m_total_messages (base x) ->
  on_the_way p = true \/ p = Ended -> length inputs = sections_left p ->
  exists s', run_schedule (inl <$> inputs) (State p x k) = Some s' /\ thread s' = Ended.
Proof.
  intros Hd Hc. revert p k. induction inputs as [|i inputs IH]; intros p k Hp Hlen.
  - eexists. split; [reflexivity|]. destruct Hp as [Hp| ->]; [by destruct p|done].
  - destruct Hp as [Hp| ->]; [|done]. destruct (section_ending i p x Hd Hc Hp) as (p' & l' & Ht & Hs & Hp').
    destruct (IH p' (k ++ l') Hp') as (s' & Hr & He); [cbn in Hlen; lia|]. exists s'. split; [|done].
    cbn [fmap list_fmap]. by eapply schedule_section.
Qed.

(** With the close handler of the base class, the loop ends instead. *)
Lemma close_ends ep e s x' l' inputs : waiting s -> handle ep e (object s) = Some (x', l') ->
  base x' = fst (on_close (base (object s))) -> length inputs = sections_left (thread s) ->
  exists s', run_schedule (inr (ep, e) :: (inl <$> inputs)) s = Some s' /\ thread s' = Ended.
Proof.
  destruct s as [p x l]. intros [Ht _ _ Hc] He Hb Hlen. unfold self in *. cbn [thread object] in *.
  destruct (sections_ending inputs p x' (l ++ l')) as (s' & Hs & Hend); try (by rewrite Hb); try done.
  - left. by destruct p.
  - exists s'. split; [|done]. by eapply schedule_handler.
Qed.
End facts.
