(* ===== verification/Report.v ===== *)
(** * The result line between a client and the controller

    [get_stats] (clients/base-client.hpp) prints what controller.cpp extracts:
    the count exactly, and each number to six significant digits.  The mean
    of no samples is NaN, which the extraction rejects: the variables behind it
    stay unassigned, and the controller reads one of them. *)

From S2P Require Import Prelude CInt Text Double Controller Collect Stats Client.
From Stdlib Require Import Floats.SpecFloat Ascii.
Local Open Scope Z_scope.

(** ** Numbers *)

(** The doubles that print as a number. *)
Definition numeric (x : double) : bool :=
  match x with S754_zero _ | S754_finite _ _ _ => true | _ => false end.

(** [d] is [x] to six significant digits. *)
Definition rounds (x : double) (d : decimal) : Prop :=
  match x with
  | S754_finite neg m e => six_digits neg m e d
  | S754_zero neg => d = Dec neg 0 0
  | _ => False
  end.

Lemma g6_reads x rest : numeric x = true -> ends_number rest ->
  exists d, scan_float (g6 x +:+ rest) = (Some d, rest) /\ rounds x d.
Proof.
  destruct x as [neg| | |neg m e]; try done; intros _ Hr; [|by apply g6_scan].
  exists (Dec neg 0 0). split; [|done].
  pose proof (ends_mantissa_digits _ (ends_number_mantissa _ Hr)) as Hd.
  assert (scan_mantissa (String (digit 0) rest) = (0, 1%nat, 0%nat, rest)) as Hm.
  { unfold scan_mantissa. rewrite scan_digits_digit, scan_digits_stop by done.
    destruct rest as [|c rest]; [done|]. destruct Hr as (_ & Hp & _). by rewrite decide_False. }
  cbn [g6]. unfold scan_float. destruct neg.
  - change ("-0" +:+ rest) with (String "-" (String (digit 0) rest)).
    change (scan_sign (String "-" ?s)) with (true, s). cbn match.
    rewrite Hm, decide_False, scan_exponent_none by done. done.
  - change ("0" +:+ rest) with (String (digit 0) rest). rewrite scan_sign_digit by lia.
    rewrite Hm, decide_False, scan_exponent_none by done. done.
Qed.

Lemma fixed_string_head n k : 0 <= n -> exists d s, 0 <= d < 10 /\ fixed_string n k = String (digit d) s.
Proof.
  intros Hn. unfold fixed_string. pose proof (strip_zeros_spec k n Hn) as Hs.
  destruct (strip_zeros k n) as [n' k']. destruct Hs as (Hn' & _ & _).
  destruct (dec_string_head (n' / 10 ^ Z.of_nat k')) as (d & s & Hd & ->).
  - apply Z.div_pos; [lia|]. apply Z.pow_pos_nonneg; lia.
  - rewrite string_app_cons. eauto.
Qed.

Lemma g6_head x : numeric x = true -> exists c s, g6 x = String c s /\ is_space c = false.
Proof.
  destruct x as [[]| | |neg m e]; try done; intros _; [by eexists _, _|by eexists _, _|].
  cbn [g6]. unfold fraction. set (n := Z.pos m * _). set (den := 2 ^ _).
  assert (0 < den) by (unfold den; apply Z.pow_pos_nonneg; lia).
  assert (0 < n) by (unfold n; pose proof (Z.pow_pos_nonneg 2 (Z.max e 0)); lia).
  pose proof (round6_spec n den ltac:(done) ltac:(done)) as H6.
  destruct (round6 n den) as [D X]. destruct H6 as [HD _]. unfold format6. destruct neg.
  - rewrite string_app_cons. by eexists _, _.
  - rewrite string_app_nil.
    destruct (fixed_string_head D (Z.to_nat (5 - X))) as (d1 & s1 & Hd1 & H1); [lia|].
    destruct (fixed_string_head D 5) as (d2 & s2 & Hd2 & H2); [lia|].
    rewrite H1, H2. destruct (_ && _).
    + eexists _, _. split; [reflexivity|by apply is_space_digit].
    + rewrite string_app_cons. eexists _, _. split; [reflexivity|by apply is_space_digit].
Qed.

Lemma skip_ws_head c s : is_space c = false -> skip_ws (String c s) = String c s.
Proof. intros H. cbn [skip_ws]. by rewrite H. Qed.

Section extract.
Context {D : Type} `{!Arith D}.

(** The decimals in range of the type. *)
Definition in_range (d : decimal) : bool := negb (snd (d_of_dec (D := D) d)).
Definition read (d : decimal) : D := fst (d_of_dec d).

(** Reading a printed number behind a space. *)
Lemma extract_double_g6 st x d rest :
  numeric x = true -> scan_float (g6 x +:+ rest) = (Some d, rest) ->
  good st = true -> text st = " " +:+ g6 x +:+ rest ->
  extract_double st = (IStream rest (at_end rest) (negb (in_range d)), Some (read d)).
Proof.
  intros Hx Hs Hg Ht. destruct (g6_head x Hx) as (c & s & Hc & Hsp). unfold extract_double.
  rewrite (sentry_good st (g6 x +:+ rest)); [|done| |].
  - rewrite Hs. unfold in_range, read. destruct (d_of_dec d) as [y overflow]. cbn [fst snd].
    by rewrite negb_involutive.
  - rewrite Ht, string_app_cons. cbn [skip_ws]. change (is_space " ") with true. cbn match.
    rewrite string_app_nil, Hc, string_app_cons. by apply skip_ws_head.
  - by rewrite Hc.
Qed.

Lemma extract_double_bad st : good st = false ->
  extract_double (D := D) st = (IStream (text st) (eofbit st) true, None).
Proof. intros H. unfold extract_double. by rewrite (sentry_bad st H). Qed.

(** "nan" is rejected at its first letter. *)
Lemma extract_double_nan st rest :
  good st = true -> text st = " " +:+ g6 S754_nan +:+ rest ->
  extract_double st = (IStream ("nan" +:+ rest) false true, Some (d_of_int 0)).
Proof.
  intros Hg Ht. unfold extract_double. by rewrite (sentry_good st ("nan" +:+ rest)); [|rewrite ?Ht..].
Qed.

(** ** The line *)

Lemma space_ends s : ends_number (" " +:+ s).
Proof. done. Qed.

(** The type and the count of a line. *)
Lemma parse_type w n rest :
  no_space w -> w <> "" -> in_int n -> stops_digits rest ->
  extract_string (istringstream (w +:+ " " +:+ to_string n +:+ rest)) =
    (IStream (" " +:+ to_string n +:+ rest) false false, Some w) /\
  extract_int (IStream (" " +:+ to_string n +:+ rest) false false) =
    (IStream rest (at_end rest) false, Some n).
Proof.
  intros Hw Hne Hn Hr. split.
  - rewrite (extract_string_word _ w (" " +:+ to_string n +:+ rest)); try done.
    by apply skip_ws_word.
  - apply extract_int_to_string; try done. cbn [text]. rewrite string_app_cons. cbn [skip_ws].
    change (is_space " ") with true. cbn match. rewrite string_app_nil. apply skip_ws_to_string.
Qed.

(** The texts of the numbers from the minimum on. *)
Definition tail_of (xs : list double) : string := foldr (fun x s => " " +:+ g6 x +:+ s) "" xs.

Lemma tail_ends xs : ends_number (tail_of xs).
Proof. by destruct xs. Qed.

Lemma tail_at_end x xs : at_end (tail_of (x :: xs)) = false.
Proof. done. Qed.

(** Each number of a tail reads as a decimal near it. *)
Lemma tail_decimals xs : Forall (fun x => numeric x = true) xs ->
  exists ds, Forall2 rounds xs ds /\
    forall k x d, xs !! k = Some x -> ds !! k = Some d ->
      scan_float (g6 x +:+ tail_of (drop (S k) xs)) = (Some d, tail_of (drop (S k) xs)).
Proof.
  induction 1 as [|x xs Hx _ (ds & Hds & Hk)].
  - exists []. done.
  - destruct (g6_reads x (tail_of xs) Hx (tail_ends xs)) as (d & Hs & Hd).
    exists (d :: ds). split; [by constructor|]. intros [|k] x' d' Hx' Hd'; cbn in *.
    + simplify_eq. by rewrite drop_0.
    + by apply Hk.
Qed.

Lemma tail_next k x xs : xs !! k = Some x ->
  tail_of (drop k xs) = " " +:+ g6 x +:+ tail_of (drop (S k) xs).
Proof. intros H. by rewrite (drop_S xs x k H). Qed.

End extract.

Section line.
Context {D : Type} `{!Arith D}.

(** The line of a type, a count and five numbers. *)
Definition print_line (type : string) (count : Z) (xs : list double) : string :=
  type +:+ " " +:+ to_string count +:+ tail_of xs.

Lemma parse_line type count x1 x2 x3 x4 x5 :
  no_space type -> type <> "" -> in_int count ->
  Forall (fun x => numeric x = true) [x1; x2; x3; x4; x5] ->
  exists d1 d2 d3 d4 d5, Forall2 rounds [x1; x2; x3; x4; x5] [d1; d2; d3; d4; d5] /\
    (Forall (fun d => in_range (D := D) d = true) [d1; d2; d3; d4; d5] ->
     parse_result (print_line type count [x1; x2; x3; x4; x5]) =
     ResultLine type (Some count) (Some (read d1)) (Some (read d2)) (Some (read d3))
       (Some (read d4)) (Some (read d5))).
Proof.
  intros Ht Hne Hc Hnum. destruct (tail_decimals _ Hnum) as (ds & Hds & Hscan).
  pose proof (Forall2_length _ _ _ Hds) as Hlen.
  destruct ds as [|d1 [|d2 [|d3 [|d4 [|d5 [|? ?]]]]]]; try discriminate Hlen.
  exists d1, d2, d3, d4, d5. split; [done|]. intros Hr.
  assert (forall st k x d, [x1; x2; x3; x4; x5] !! k = Some x -> [d1; d2; d3; d4; d5] !! k = Some d ->
    good st = true -> text st = tail_of (drop k [x1; x2; x3; x4; x5]) ->
    extract_double st = (IStream (tail_of (drop (S k) [x1; x2; x3; x4; x5]))
      (at_end (tail_of (drop (S k) [x1; x2; x3; x4; x5]))) false, Some (read d))) as Hstep.
  { intros st k x d Hx Hd Hg Htx.
    rewrite (extract_double_g6 st x d (tail_of (drop (S k) [x1; x2; x3; x4; x5])));
      [|by eapply Forall_lookup_1 in Hnum|by apply Hscan|done|by rewrite Htx; apply tail_next].
    eapply Forall_lookup_1 in Hr; [|exact Hd]. by rewrite Hr. }
  unfold parse_result, print_line.
  destruct (parse_type type count (tail_of [x1; x2; x3; x4; x5])) as [-> ->]; try done.
  cbn match. rewrite tail_at_end.
  rewrite (Hstep _ 0%nat x1 d1) by done. cbn [drop]. rewrite tail_at_end.
  rewrite (Hstep _ 1%nat x2 d2) by done. cbn [drop]. rewrite tail_at_end.
  rewrite (Hstep _ 2%nat x3 d3) by done. cbn [drop]. rewrite tail_at_end.
  rewrite (Hstep _ 3%nat x4 d4) by done. cbn [drop]. rewrite tail_at_end.
  rewrite (Hstep _ 4%nat x5 d5) by done. done.
Qed.

(** A line whose mean is not a number leaves the last variable unassigned. *)
Lemma parse_line_nan type count x1 x2 rest :
  no_space type -> type <> "" -> in_int count -> numeric x1 = true -> numeric x2 = true ->
  r_setup (parse_result (D := D) (print_line type count [x1; x2; S754_nan] +:+ rest)) = None.
Proof.
  intros Ht Hne Hc H1 H2. unfold print_line. rewrite !string_app_assoc. cbn [tail_of foldr].
  rewrite !string_app_assoc, string_app_nil.
  set (s3 := " " +:+ g6 S754_nan +:+ rest). set (s2 := " " +:+ g6 x2 +:+ s3).
  unfold parse_result.
  destruct (parse_type type count (" " +:+ g6 x1 +:+ s2)) as [-> ->]; try done. cbn match.
  destruct (g6_reads x1 s2 H1) as (d1 & Hd1 & _); [done|].
  destruct (g6_reads x2 s3 H2) as (d2 & Hd2 & _); [done|].
  rewrite (extract_double_g6 _ x1 d1 s2) by done. cbn match.
  destruct (in_range d1); cbn [negb].
  2: { repeat (rewrite extract_double_bad by done; cbn match). done. }
  rewrite (extract_double_g6 _ x2 d2 s3) by done. cbn match.
  destruct (in_range d2); cbn [negb].
  2: { repeat (rewrite extract_double_bad by done; cbn match). done. }
  rewrite (extract_double_nan _ rest) by done. cbn match.
  repeat (rewrite extract_double_bad by done; cbn match). done.
Qed.

End line.

(** ** The line of a client *)

Section client.
Context `{!Accumulators double}.

Definition stats_numbers (c : client) (setup : double) : list double :=
  [acc_min (m_stats c); acc_max (m_stats c); acc_mean (m_stats c); acc_variance (m_stats c); setup].

Lemma get_stats_line c setup : m_setupTime c = Some setup ->
  get_stats c = Some (print_line (stats_type c) (acc_count (m_stats c)) (stats_numbers c setup)).
Proof.
  intros Hs. unfold get_stats. rewrite Hs. cbn [mbind option_bind].
  unfold stats_fields, print_line, stats_numbers. cbn [tail_of foldr].
  by rewrite string_app_nil_r.
Qed.

Lemma stats_type_word c : no_space (stats_type c) /\ stats_type c <> "".
Proof.
  unfold stats_type. destruct (negb _); [|destruct (m_open c)]; (split; [|done]);
    intros x Hx; cbn in Hx; naive_solver.
Qed.

End client.
