(* ===== verification/Clients.v ===== *)
(** * The client classes

    [telemetry_client] (clients/telemetry-client-tls.hpp and
    clients/telemetry-client.hpp) overrides no member function the loop calls;
    [mobile_signaling_client] keeps a primary and a signaling connection,
    sends on the second when the first fails, and replaces the handlers.  Both
    are instances of [Virtual] and discharge [VirtualLaws]. *)

From S2P Require Import Prelude CInt Text Double ZHelpers Controller Client Telemetry.
From Stdlib Require Import Ascii.
Local Open Scope Z_scope.

(** ** base_client and telemetry_client *)

Module plain.
Section plain.
Context `{!Accumulators double} `{!Messages}.

(** The constructor of the class of telemetry-client-tls.hpp, and that of
    telemetry-client.hpp. *)
Definition telemetry_client_tls (client_id : string) (total_messages : Z) (random_interval : bool)
    (interval message_length : Z) : client * list effect :=
  let '(c, l) := base_client client_id total_messages random_interval interval message_length in
  (c, l ++ [SetHandler TlsInitSlot "telemetry_client::on_tls_init";
            SetHandler SocketInitSlot "telemetry_client::on_socket_init"]).

Definition telemetry_client (client_id : string) (total_messages : Z) (random_interval : bool)
    (interval message_length : Z) : client * list effect :=
  let '(c, l) := base_client client_id total_messages random_interval interval message_length in
  (c, l ++ [SetHandler SocketInitSlot "telemetry_client::on_socket_init"]).

Definition send_message (ep : endpoint) (msg : string) (c : client) : error_code * list effect :=
  let ec := ep (m_hdl c) in (ec, [Sent (m_hdl c) msg ec]).

(** The overload of [endpoint::close] without an error code throws; nothing on
    the telemetry thread catches it. *)
Definition close (ep : endpoint) (status : string) (c : client) : list effect :=
  let ec := ep (m_hdl c) in
  Closed (m_hdl c) status ec :: (if ec =? 0 then [] else [Terminate]).

Definition fail (ep : endpoint) (status : string) (c : client) : list effect :=
  [Write cerr ("Connection failed " +:+ status)].

(** The events of the connection; times are of the clock. *)
Variant event := Opened (now : Z) | ConnectionClosed | ConnectionFailed | Message (now : Z).

Definition handle (ep : endpoint) (e : event) (c : client) : option (client * list effect) :=
  Some match e with
       | Opened now => on_open now c
       | ConnectionClosed => on_close c
       | ConnectionFailed => on_fail c
       | Message now => on_message now c
       end.

#[global] Instance virtual : Virtual client := {
  base c := c;
  with_base c _ := c;
  Telemetry.send_message := send_message;
  Telemetry.close := close;
  Telemetry.fail := fail;
  Telemetry.event := event;
  Telemetry.handle := handle;
}.

#[global] Instance virtual_laws : VirtualLaws client.
Proof.
  split; cbn.
  - done.
  - intros ep msg x ec l [= <- <-]. unfold delivered. cbn. by destruct (ep _ =? 0).
  - intros ep reason x. unfold delivered, close. by destruct (ep _ =? 0).
  - done.
  - intros ep e x x' l [= Hx]. destruct e; injection Hx as <- <-; split; done || constructor.
Qed.

End plain.
End plain.

(** ** mobile_signaling_client *)

Module mobile.
Section mobile.
Context `{!Accumulators double} `{!Messages}.

(** The function objects the program makes of type [message_handler]. *)
Variant message_handler := bind_on_message.

Record mobile_client := Mobile {
  m_base : client;
  m_hdl_primary : connection_hdl;
  m_hdl_signaling : connection_hdl;
  m_client_id : string;
  m_on_message_handler : option message_handler;
}.

Definition set_base (c : client) (x : mobile_client) : mobile_client :=
  Mobile c (m_hdl_primary x) (m_hdl_signaling x) (m_client_id x) (m_on_message_handler x).
Definition set_primary (hdl : Z) (x : mobile_client) : mobile_client :=
  Mobile (m_base x) (Some hdl) (m_hdl_signaling x) (m_client_id x) (m_on_message_handler x).
Definition set_signaling (hdl : Z) (x : mobile_client) : mobile_client :=
  Mobile (m_base x) (m_hdl_primary x) (Some hdl) (m_client_id x) (m_on_message_handler x).
Definition set_message_handler (h : message_handler) (x : mobile_client) : mobile_client :=
  Mobile (m_base x) (m_hdl_primary x) (m_hdl_signaling x) (m_client_id x) (Some h).

(** [websocketpp::uri(...).str()] of the configuration's addresses. *)
Context (uri_str : string -> string).
Definition coordinator : string :=
  uri_str "ws://ec2-54-204-81-231.compute-1.amazonaws.com:9000".
Definition destination : string :=
  uri_str "ws://ec2-54-196-58-229.compute-1.amazonaws.com:9002".

Definition new (client_id : string) (total_messages : Z) (random_interval : bool)
    (interval message_length : Z) : mobile_client * list effect :=
  let '(c, l) := base_client client_id total_messages random_interval interval message_length in
  (set_message_handler bind_on_message (Mobile c None None client_id None),
   l ++ [StartPerpetual;
         SetHandler CloseSlot "mobile_signaling_client::on_close_primary";
         SetHandler FailSlot "mobile_signaling_client::on_fail";
         SetHandler MessageSlot "mobile_signaling_client::on_message_primary";
         SetAccessChannels "app"]).

Definition extensions_header (connection_id : string) : string :=
  "mobile-signaling; connection_id=" +:+ String (to_char 34) connection_id +:+ String (to_char 34) "".

(** The outcome of [get_connection]: an error, or a connection's handle. *)
Abbreviation get_con := (error_code + Z)%type (only parsing).

Definition connect_primary (uri : string) (con : get_con) (x : mobile_client) :
    mobile_client * list effect :=
  match con with
  | inl ec =>
      (x, [GetConnection uri con; Write alog_app ("Get Connection Error: " +:+ error_message ec)])
  | inr hdl =>
      (set_primary hdl x,
       [GetConnection uri con; SetExtensions (extensions_header (m_client_id x));
        SetConnectionHandler hdl OpenSlot "mobile_signaling_client::on_open_primary";
        Connect (Some hdl)])
  end.

Definition connect_signaling (uri connection_id : string) (con : get_con) (x : mobile_client) :
    mobile_client * list effect :=
  match con with
  | inl ec =>
      (x, [GetConnection uri con; Write elog_warn ("Get Connection Error: " +:+ error_message ec)])
  | inr hdl =>
      (set_signaling hdl x,
       [GetConnection uri con; SetExtensions (extensions_header connection_id);
        SetConnectionHandler hdl OpenSlot "base_client::on_open";
        SetConnectionHandler hdl CloseSlot "mobile_signaling_client::on_close_signaling";
        SetConnectionHandler hdl MessageSlot "mobile_signaling_client::on_message_signaling";
        Connect (Some hdl)])
  end.

(** [run]: the threads are started whatever [connect_primary] did, and
    [m_con_start] is not assigned. *)
Definition run (uri : string) (con : get_con) (x : mobile_client) : mobile_client * list effect :=
  let connectUri := destination in
  let '(x, l) := connect_primary connectUri con x in
  (set_base (set_threads (m_base x)) x,
   [Write log_file ("Connect to " +:+ uri);
    Write alog_app ("Connect primary " +:+ connectUri)] ++ l).

Definition send_message (ep : endpoint) (msg : string) (x : mobile_client) :
    error_code * list effect :=
  let ec := ep (m_hdl_primary x) in
  let first := [Write alog_app "Sending message (mobile)"; Sent (m_hdl_primary x) msg ec] in
  if ec =? 0 then (ec, first ++ [Write alog_app "Sent on signaling"])
  else
    let ec' := ep (m_hdl_signaling x) in
    (ec', first ++
      [Write alog_app ("First channel option failed, " +:+ error_message ec +:+ ", trying second");
       Sent (m_hdl_signaling x) msg ec'] ++
      (if ec' =? 0 then []
       else [Write elog_warn ("Sending message failed, " +:+ error_message ec')])).

Definition close (ep : endpoint) (status : string) (x : mobile_client) : list effect :=
  [Write alog_app ("mobile close " +:+ status);
   Closed (m_hdl_signaling x) status (ep (m_hdl_signaling x));
   Closed (m_hdl_primary x) status (ep (m_hdl_primary x));
   StopPerpetual].

Definition fail (ep : endpoint) (status : string) (x : mobile_client) : list effect :=
  Write elog_fatal ("Mobile connection failed " +:+ status) :: close ep status x.

(** The parameters of the extensions a response offers, in order, as the
    library parses them: a name and its attributes. *)
Abbreviation parameter_list := (list (string * list (string * string))) (only parsing).

Fixpoint find_attribute (key : string) (a : list (string * string)) : option string :=
  match a with
  | [] => None
  | (k, v) :: a => if bool_decide (k = key) then Some v else find_attribute key a
  end.

Fixpoint response_connection_id (extensions : parameter_list) (connection_id : string) : string :=
  match extensions with
  | [] => connection_id
  | (name, a) :: extensions =>
      response_connection_id extensions
        (if bool_decide (name = "mobile-signaling")
         then default connection_id (find_attribute "connection_id" a)
         else connection_id)
  end.

Definition get_response_connection_id (extensions : parameter_list) : string :=
  response_connection_id extensions "".

(** [hdl.lock().get()] printed as a pointer. *)
Context (pointer_string : Z -> string).

Definition on_open_primary (hdl : Z) (now : Z) (extensions : parameter_list) (con : get_con)
    (x : mobile_client) : mobile_client * list effect :=
  let opening := Write alog_app ("Primary connection open (" +:+ pointer_string hdl +:+
                                 "), opening secondary") in
  let '(c, l) := on_open now (m_base x) in
  let x := set_primary hdl (set_base c x) in
  let connection_id := get_response_connection_id extensions in
  let '(x, l') := connect_signaling coordinator connection_id con x in
  (x, [opening] ++ l ++ [Write alog_app ("Primary connection id " +:+ connection_id)] ++ l').

(** The events of both connections.  [state] is what [get_con_from_hdl] of the
    primary handle gives: no connection for an error, else the connection's
    state. *)
Variant connection_state := connecting | open | closing | closed.

Variant event :=
| OpenedPrimary (hdl now : Z) (extensions : parameter_list) (con : get_con)
| OpenedSignaling (now : Z)
| ClosedPrimary
| ClosedSignaling
| ConnectionFailed (state : error_code + connection_state)
| MessagePrimary (now : Z)
| MessageSignaling (now : Z).

(** [primary_con->get_state()] is called before [ec] is tested: without a
    connection the pointer is null. *)
Definition on_fail (state : error_code + connection_state) (x : mobile_client) :
    option (mobile_client * list effect) :=
  let opening := Write alog_app "Connection failed!" in
  match state with
  | inl ec => None
  | inr st =>
      match st with
      | closed | closing =>
          let '(c, l) := Client.on_fail (m_base x) in Some (set_base c x, opening :: l)
      | _ => Some (x, [opening])
      end
  end.

Definition in_base (f : client -> client * list effect) (x : mobile_client) :
    option (mobile_client * list effect) :=
  let '(c, l) := f (m_base x) in Some (set_base c x, l).

(** [on_message_primary] and [on_message_signaling] *)
Definition on_message_either (now : Z) (x : mobile_client) : option (mobile_client * list effect) :=
  match m_on_message_handler x with
  | Some bind_on_message => in_base (on_message now) x
  | None => Some (x, [])
  end.

Definition handle (ep : endpoint) (e : event) (x : mobile_client) :
    option (mobile_client * list effect) :=
  match e with
  | OpenedPrimary hdl now extensions con => Some (on_open_primary hdl now extensions con x)
  | OpenedSignaling now => in_base (on_open now) x
  | ClosedPrimary => Some (x, [Write alog_app "Primary connection closed!"])
  | ClosedSignaling => Some (x, [Write alog_app "Signaling connection closed!"])
  | ConnectionFailed state => on_fail state x
  | MessagePrimary now | MessageSignaling now => on_message_either now x
  end.

Lemma message_base now x x' l :
  on_message_either now x = Some (x', l) -> handled (m_base x) (m_base x') /\ delivered l = 0.
Proof.
  unfold on_message_either. destruct (m_on_message_handler x) as [[]|]; intros [= <- <-];
    split; done || constructor.
Qed.

#[global] Instance virtual : Virtual mobile_client := {
  base := m_base;
  with_base := set_base;
  Telemetry.send_message := send_message;
  Telemetry.close := close;
  Telemetry.fail := fail;
  Telemetry.event := event;
  Telemetry.handle := handle;
}.

#[global] Instance virtual_laws : VirtualLaws mobile_client.
Proof.
  split; cbn.
  - done.
  - intros ep msg x ec l. unfold send_message.
    destruct (ep (m_hdl_primary x) =? 0) eqn:H1; intros [= <- <-].
    + unfold delivered. cbn. by rewrite !H1.
    + unfold delivered. cbn. rewrite H1. by destruct (ep (m_hdl_signaling x) =? 0) eqn:H2; cbn; rewrite ?H2.
  - done.
  - done.
  - intros ep e x x' l He. destruct e; cbn in He; try (injection He as <- <-; split; done || constructor).
    + destruct con; injection He as <- <-; split; done || constructor.
    + unfold on_fail in He. destruct state as [|[]]; try done; injection He as <- <-;
        split; try done; [apply handled_none..|apply handled_fail|apply handled_fail].
    + by apply message_base in He.
    + by apply message_base in He.
Qed.

End mobile.

(** [generate_client_id]: byte [j] of a random word is [(val >> (4*j)) & 0xFF];
    the encoder is the library's. *)
Definition longsize : nat := 8.
Definition id_bytes (val : Z) : list ascii :=
  (fun j : nat => to_char (Z.land (Z.shiftr val (4 * Z.of_nat j)) 255)) <$> seq 0 longsize.

Definition generate_client_id (base64_encode : list ascii -> string) (val0 val1 : Z) : string :=
  base64_encode (id_bytes val0 ++ id_bytes val1).

End mobile.

(** ** plain-client.cpp *)

Module plain_client.
Section plain_client.
Context `{!Accumulators double} `{!Messages}.

(** [main]: the object after [run], its effects, and [wait]. *)
Definition main (uri_str : string -> string) (con : error_code + Z) :
    option (mobile.mobile_client * list effect) :=
  let '(x, l) := mobile.new "" 5 true 1 256 in
  let '(x, l') := mobile.run uri_str
                    "ws://ec2-54-211-126-143.compute-1.amazonaws.com:9002" con x in
  _ ← wait (mobile.m_base x);
  Some (x, l ++ [Write cout ("Run!" +:+ endl)] ++ l').

End plain_client.
End plain_client.
