(* ===== verification/Handlers.v ===== *)
(** * Which handler an event reaches

    The constructors of the client classes register member functions with the
    endpoint, and [mobile_signaling_client] replaces some of them for a single
    connection.  [Routing] is what websocketpp documents of this: a connection
    takes over the handlers of the endpoint when it is created, and its own
    registrations replace them.  From it follows which member function each
    event reaches, as [plain.handle] and [mobile.handle] have it. *)

From S2P Require Import Prelude CInt Text Double Controller Client Clients.
Local Open Scope Z_scope.

(** ** The library's rule *)

(** The handler of the endpoint, and that of a connection, for a slot, after
    the calls of a list. *)
Class Routing (default_handler : list effect -> slot -> option string)
    (connection_handler : list effect -> Z -> slot -> option string) : Prop := {
  default_nil s : default_handler [] s = None;
  default_set l s m : default_handler (l ++ [SetHandler s m]) s = Some m;
  default_keep l e s : (forall m, e <> SetHandler s m) ->
    default_handler (l ++ [e]) s = default_handler l s;
  connection_nil hdl s : connection_handler [] hdl s = None;
  connection_new l uri hdl s :
    connection_handler (l ++ [GetConnection uri (inr hdl)]) hdl s = default_handler l s;
  connection_set l hdl s m : connection_handler (l ++ [SetConnectionHandler hdl s m]) hdl s = Some m;
  connection_keep l e hdl s : (forall uri, e <> GetConnection uri (inr hdl)) ->
    (forall m, e <> SetConnectionHandler hdl s m) ->
    connection_handler (l ++ [e]) hdl s = connection_handler l hdl s;
}.

(** The rule, executed. *)
Definition same_slot (s s' : slot) : bool :=
  match s, s' with
  | OpenSlot, OpenSlot | CloseSlot, CloseSlot | FailSlot, FailSlot | MessageSlot, MessageSlot
  | TlsInitSlot, TlsInitSlot | SocketInitSlot, SocketInitSlot => true
  | _, _ => false
  end.

Lemma same_slot_spec s s' : reflect (s = s') (same_slot s s').
Proof. destruct s, s'; by constructor. Qed.

Definition update_default (s : slot) (d : option string) (e : effect) : option string :=
  match e with
  | SetHandler s' m => if same_slot s' s then Some m else d
  | _ => d
  end.

Definition update_connection (hdl : Z) (s : slot) (dc : option string * option string) (e : effect) :
    option string * option string :=
  (update_default s (fst dc) e,
   match e with
   | GetConnection _ (inr h) => if h =? hdl then fst dc else snd dc
   | SetConnectionHandler h s' m => if (h =? hdl) && same_slot s' s then Some m else snd dc
   | _ => snd dc
   end).

Definition replay_default (l : list effect) (s : slot) : option string := foldl (update_default s) None l.
Definition replay (l : list effect) (hdl : Z) (s : slot) : option string * option string :=
  foldl (update_connection hdl s) (None, None) l.
Definition replay_connection (l : list effect) (hdl : Z) (s : slot) : option string := snd (replay l hdl s).

Lemma replay_fst l hdl s : fst (replay l hdl s) = replay_default l s.
Proof.
  induction l as [|e l IH] using rev_ind; [done|].
  unfold replay, replay_default in *. rewrite !foldl_app. cbn [foldl].
  destruct (foldl (update_connection hdl s) _ l) as [d c]. cbn in *. by subst.
Qed.

Lemma replay_connection_snoc l e hdl s :
  replay_connection (l ++ [e]) hdl s =
  snd (update_connection hdl s (replay_default l s, replay_connection l hdl s) e).
Proof.
  unfold replay_connection. rewrite <- (replay_fst l hdl s).
  replace (replay (l ++ [e]) hdl s) with (update_connection hdl s (replay l hdl s) e)
    by (unfold replay; by rewrite foldl_app).
  by destruct (replay l hdl s).
Qed.

Lemma replay_default_snoc l e s : replay_default (l ++ [e]) s = update_default s (replay_default l s) e.
Proof. unfold replay_default. by rewrite foldl_app. Qed.

(** It keeps the rule, and it is the only way to. *)
#[export] Instance replay_routing : Routing replay_default replay_connection.
Proof.
  split; try done; intros; rewrite ?replay_default_snoc, ?replay_connection_snoc; cbn.
  - by destruct (same_slot_spec s s).
  - destruct e; try done. cbn. destruct (same_slot_spec s0 s); naive_solver.
  - by rewrite Z.eqb_refl.
  - rewrite Z.eqb_refl. by destruct (same_slot_spec s s).
  - destruct e as [| | | | | |h s' m| | |? [|h]| | | | | | |]; try done; cbn;
      destruct (Z.eqb_spec h hdl); try destruct (same_slot_spec s' s); naive_solver.
Qed.

Section routing.
Context `{R : !Routing default_handler connection_handler}.

Lemma default_replay l s : default_handler l s = replay_default l s.
Proof.
  induction l as [|e l IH] using rev_ind; [apply default_nil|].
  rewrite replay_default_snoc, <- IH.
  destruct e as [| | | | |s' m| | | | | | | | | | |]; try (rewrite default_keep; [done|by intros ? [=]]).
  cbn. destruct (same_slot_spec s' s); [subst; apply default_set|]. apply default_keep. naive_solver.
Qed.

Lemma connection_replay l hdl s : connection_handler l hdl s = replay_connection l hdl s.
Proof.
  induction l as [|e l IH] using rev_ind; [apply connection_nil|].
  rewrite replay_connection_snoc, <- IH, <- default_replay.
  destruct e as [| | | | | |h s' m| | |? [|h]| | | | | | |];
    try (rewrite connection_keep; [done|by intros ? [=]..]); cbn; destruct (Z.eqb_spec h hdl); subst.
  - destruct (same_slot_spec s' s); subst; [apply connection_set|]. apply connection_keep; naive_solver.
  - apply connection_keep; naive_solver.
  - apply connection_new.
  - apply connection_keep; naive_solver.
Qed.

(** ** telemetry_client *)

(** The member function for each event of a telemetry client. *)
Definition telemetry_method (s : slot) : string :=
  match s with
  | OpenSlot => "base_client::on_open"
  | CloseSlot => "base_client::on_close"
  | FailSlot => "base_client::on_fail"
  | MessageSlot => "base_client::on_message"
  | TlsInitSlot => "telemetry_client::on_tls_init"
  | SocketInitSlot => "telemetry_client::on_socket_init"
  end.

Context `{!Accumulators double} `{!Messages}.

(** The connection that [run] opens has all its handlers, those of
    [plain.handle] and the two that prepare the socket. *)
Lemma telemetry_handlers id total random interval length uri hdl delay now s :
  let '(c, l) := plain.telemetry_client_tls id total random interval length in
  let '(_, l') := run uri (inr hdl) delay now c in
  connection_handler (l ++ l') hdl s = Some (telemetry_method s).
Proof.
  cbn -[app]. rewrite connection_replay. destruct s; cbn; by rewrite Z.eqb_refl.
Qed.

(** Without TLS, there is no handler for its context. *)
Lemma telemetry_handlers_tcp id total random interval length uri hdl delay now s :
  let '(c, l) := plain.telemetry_client id total random interval length in
  let '(_, l') := run uri (inr hdl) delay now c in
  connection_handler (l ++ l') hdl s =
    if decide (s = TlsInitSlot) then None else Some (telemetry_method s).
Proof.
  cbn -[app]. rewrite connection_replay. destruct s; cbn; by rewrite Z.eqb_refl.
Qed.

(** ** mobile_signaling_client *)

Context (uri_str : string -> string) (pointer_string : Z -> string).

(** The slot and the member function that [mobile.handle] has for an event,
    and whether the event is of the connection [h], where [p] is the primary
    and [q] the signaling one. *)
Definition mobile_slot (e : mobile.event) : slot :=
  match e with
  | mobile.OpenedPrimary _ _ _ _ | mobile.OpenedSignaling _ => OpenSlot
  | mobile.ClosedPrimary | mobile.ClosedSignaling => CloseSlot
  | mobile.ConnectionFailed _ => FailSlot
  | mobile.MessagePrimary _ | mobile.MessageSignaling _ => MessageSlot
  end.

Definition mobile_method (e : mobile.event) : string :=
  match e with
  | mobile.OpenedPrimary _ _ _ _ => "mobile_signaling_client::on_open_primary"
  | mobile.OpenedSignaling _ => "base_client::on_open"
  | mobile.ClosedPrimary => "mobile_signaling_client::on_close_primary"
  | mobile.ClosedSignaling => "mobile_signaling_client::on_close_signaling"
  | mobile.ConnectionFailed _ => "mobile_signaling_client::on_fail"
  | mobile.MessagePrimary _ => "mobile_signaling_client::on_message_primary"
  | mobile.MessageSignaling _ => "mobile_signaling_client::on_message_signaling"
  end.

Definition occurs_on (p q : Z) (e : mobile.event) (h : Z) : Prop :=
  match e with
  | mobile.OpenedPrimary _ _ _ _ | mobile.ClosedPrimary | mobile.MessagePrimary _ => h = p
  | mobile.OpenedSignaling _ | mobile.ClosedSignaling | mobile.MessageSignaling _ => h = q
  | mobile.ConnectionFailed _ => h = p \/ h = q
  end.

(** Once the primary connection has opened and the signaling connection is
    created, each event of either reaches the member function that
    [mobile.handle] has for it.  So a failure of any of the two reaches
    [on_fail], which looks only at the primary, and no end of a connection
    reaches [base_client::on_close]. *)
Lemma mobile_handlers id total random interval length uri p now extensions q e h :
  p <> q -> occurs_on p q e h ->
  let '(x, l) := mobile.new id total random interval length in
  let '(x, l') := mobile.run uri_str uri (inr p) x in
  let '(x, l'') := mobile.on_open_primary uri_str pointer_string p now extensions (inr q) x in
  connection_handler (l ++ l' ++ l'') h (mobile_slot e) = Some (mobile_method e).
Proof.
  intros Hpq%Z.eqb_neq Ho. pose proof Hpq as Hqp. rewrite Z.eqb_sym in Hqp.
  cbn -[app]. rewrite connection_replay.
  destruct e; cbn in Ho; try destruct Ho as [Ho|Ho]; subst h; cbn;
    by rewrite ?Z.eqb_refl, ?Hpq, ?Hqp, ?Z.eqb_refl.
Qed.

End routing.
