(* ===== verification/SessionFacts.v ===== *)
(** * Sessions of the telemetry client

    What the schedules of a [telemetry_client] do to the members the results
    are printed from, the whole session of a connection whose server echoes
    every message, and the head of the result line. *)

From S2P Require Import Prelude CInt Text Double ZHelpers Config Controller Stats Report Client.
From S2P Require Import Telemetry TelemetryFacts Clients.
From Stdlib Require Import Ascii Floats.SpecFloat.
Local Open Scope Z_scope.

Section schedules.
Context `{!Accumulators double} `{!Messages}.

Definition is_opened (a : input + endpoint * Telemetry.event (X := client)) : bool :=
  match a with inr (_, plain.Opened _) => true | _ => false end.

(** A section of the loop changes neither the setup time nor the outcome. *)
Lemma section_results i (s s' : state (X := client)) :
  run_section i s = Some s' ->
  m_setupTime (self s') = m_setupTime (self s) /\ m_failed (self s') = m_failed (self s).
Proof.
  destruct s as [p x l]. intros ([[p' x'] l'] & Hs & [= <-])%bind_Some.
  cbn [thread object] in Hs. unfold self. cbn [object].
  destruct p; cbn [telemetry] in Hs; try (repeat case_match; simplify_eq; done).
  apply bind_Some in Hs as (n & _ & [= <- <- <-]). done.
Qed.

Lemma choice_setup a (s s' : state (X := client)) :
  is_opened a = false -> run_choice a s = Some s' -> m_setupTime (self s') = m_setupTime (self s).
Proof.
  destruct a as [i|[ep e]]; intros Ha Hs; [by apply section_results in Hs as [-> _]|].
  apply bind_Some in Hs as ([x' l'] & Hs & [= <-]). unfold self. cbn [object].
  destruct e; try done; injection Hs as <- <-; done.
Qed.

Lemma schedule_setup l (s s' : state (X := client)) :
  Forall (fun a => is_opened a = false) l -> run_schedule l s = Some s' ->
  m_setupTime (self s') = m_setupTime (self s).
Proof.
  intros Hl. revert s. induction Hl as [|a l Ha _ IH]; intros s Hs; [by injection Hs as <-|].
  apply bind_Some in Hs as (s1 & H1 & Hs). rewrite (IH s1 Hs). by eapply choice_setup.
Qed.

Definition is_failed (a : input + endpoint * Telemetry.event (X := client)) : bool :=
  match a with inr (_, plain.ConnectionFailed) => true | _ => false end.

Lemma choice_results a (s s' : state (X := client)) :
  is_failed a = false -> run_choice a s = Some s' ->
  m_failed (self s') = m_failed (self s) /\
  (is_Some (m_setupTime (self s)) -> is_Some (m_setupTime (self s'))).
Proof.
  destruct a as [i|[ep e]]; intros Ha Hs.
  - apply section_results in Hs as [-> ->]. done.
  - apply bind_Some in Hs as ([x' l'] & Hs & [= <-]). unfold self. cbn [object].
    destruct e; try done; injection Hs as <- <-; cbn; eauto.
Qed.

Lemma schedule_results l (s s' : state (X := client)) :
  Forall (fun a => is_failed a = false) l -> run_schedule l s = Some s' ->
  m_failed (self s') = m_failed (self s) /\
  (is_Some (m_setupTime (self s)) -> is_Some (m_setupTime (self s'))).
Proof.
  intros Hl. revert s. induction Hl as [|a l Ha _ IH]; intros s Hs; [by injection Hs as <-|].
  apply bind_Some in Hs as (s1 & H1 & Hs). destruct (IH s1 Hs) as [-> Hsome].
  destruct (choice_results _ _ _ Ha H1) as [-> Hsome1]. auto.
Qed.

End schedules.

(** ** A whole session *)

(** Each section's inputs with the echo that follows at the given time. *)
Definition echoed_rounds `{!Accumulators double} `{!Messages} (rounds : list (input * Z)) :
    list (input * Telemetry.event (X := client)) :=
  List.map (fun it => (fst it, plain.Message (snd it))) rounds.

(** The loop starts and the connection opens; then the session follows. *)
Definition opening `{!Accumulators double} `{!Messages} (first : input) (now : Z) :
    list (input + endpoint * Telemetry.event (X := client)) :=
  [inl first; inr (i_endpoint first, plain.Opened now)].
Definition whole_session `{!Accumulators double} `{!Messages} (first : input) (now : Z)
    (rounds : list (input * Z)) (last : input) : list (input + endpoint * Telemetry.event (X := client)) :=
  opening first now ++ session (echoed_rounds rounds) last.

Lemma session_result `{!Accumulators double} `{!Messages} `{!CountLaws} total x rounds first now last :
  fresh total x -> m_done x = false -> in_int total -> Z.of_nat (length rounds) = total ->
  Forall (fun it : input * Z => forall hdl, i_endpoint (fst it) hdl = 0) rounds ->
  exists (s : state (X := client)) l,
    run_schedule ([inl first; inr (i_endpoint first, plain.Opened now)] ++
                  session (echoed_rounds rounds) last)
      (State Entry x []) = Some s /\
    thread s = Ended /\ m_count (self s) = total /\ delivered (effects s) = total /\
    acc_count (m_stats (self s)) = total /\
    effects s = l ++ plain.close (i_endpoint last) "connection finished" (self s).
Proof.
  intros (Hf & Ht & Hn & Hp & Ha) Hd Hin Hlen Hall.
  set (s0 := State Head (fst (on_open now x))
               (([] ++ [Write cout ("telemetry_loop" +:+ endl)]) ++ snd (on_open now x))).
  destruct (session_runs (X := client) total (echoed_rounds rounds) last s0)
    as (s & l & Hs & He & Hc & Hde & Hac & Hl).
  - split; done.
  - unfold echoed_rounds. by rewrite List.length_map.
  - done.
  - unfold echoed_rounds. apply Forall_map. eapply Forall_impl; [exact Hall|]. intros [i t] Hi. split.
    + intros msg y. apply Hi.
    + intros ep y. exists t. eexists _, _. split; reflexivity.
  - exists s, l. split; [exact Hs|]. split_and!; [done|done|exact Hde| |exact Hl].
    rewrite Hac. cbn. by rewrite Ha.
Qed.

Lemma session_not_failed `{!Accumulators double} `{!Messages} first now rounds last :
  Forall (fun a => is_failed a = false) (whole_session first now rounds last).
Proof.
  unfold whole_session, session, echoed_rounds.
  apply Forall_app. split; [by repeat constructor|]. apply Forall_app. split; [|by repeat constructor].
  induction rounds as [|[i t] rounds IH]; [constructor|].
  cbn [List.map fmap list_fmap concat]. apply Forall_app. split; [by repeat constructor|exact IH].
Qed.

(** After it, the client has a result line of type "success". *)
Lemma session_line `{!Accumulators double} `{!Messages} x first now rounds last (s : state (X := client)) :
  m_failed x = false -> run_schedule (whole_session first now rounds last) (State Entry x []) = Some s ->
  exists setup, m_setupTime (self s) = Some setup /\ stats_type (self s) = "success".
Proof.
  intros Hf Hs. pose proof (session_not_failed first now rounds last) as Hl.
  apply (schedule_results _ _ _ Hl) in Hs as Hr. destruct Hr as [Hfs _].
  unfold whole_session in Hs, Hl.
  rewrite run_schedule_app in Hs. apply bind_Some in Hs as (s1 & H1 & Hs).
  apply Forall_app in Hl as [_ Hl].
  destruct (schedule_results _ _ _ Hl Hs) as [_ Hsome].
  destruct Hsome as [setup Hsetup]; [injection H1 as <-; cbn; eauto|].
  exists setup. split; [done|]. unfold stats_type. rewrite Hfs. cbn. by rewrite Hf.
Qed.

(** ** The head of a line *)

(** Whatever numbers follow, the type and the count are read as printed. *)
Lemma parse_line_head `{!Arith D} type count xs :
  no_space type -> type <> "" -> in_int count ->
  r_type (parse_result (D := D) (print_line type count xs)) = type /\
  r_count (parse_result (D := D) (print_line type count xs)) = Some count.
Proof.
  intros Ht Hne Hc. unfold parse_result, print_line.
  destruct (parse_type type count (tail_of xs)) as [-> ->]; try done; [by destruct xs|].
  repeat (destruct (extract_double _)). done.
Qed.

(** A connection whose server echoes every message ends with a line that the
    controller counts as succeeded, with one sample per message. *)
Lemma completed_session `{!Accumulators double} `{!Messages} `{!CountLaws} `{!Arith D} cfg total x rounds
    first now last :
  fresh total x -> m_done x = false -> m_failed x = false -> in_int total ->
  Z.of_nat (length rounds) = total ->
  Forall (fun it : input * Z => forall hdl, i_endpoint (fst it) hdl = 0) rounds ->
  messages cfg = total ->
  exists (s : state (X := client)) stats,
    run_schedule (whole_session first now rounds last) (State Entry x []) = Some s /\
    thread s = Ended /\ get_stats (self s) = Some stats /\
    succeeded cfg (parse_result (D := D) stats) = true /\ line_count (parse_result (D := D) stats) = total.
Proof.
  intros Hf Hd Hnf Hin Hlen Hall Hcfg.
  destruct (session_result total x rounds first now last) as (s & l & Hs & Hend & _ & _ & Hcount & _); try done.
  destruct (session_line x first now rounds last s Hnf Hs) as (setup & Hsetup & Htype).
  pose proof (get_stats_line (self s) setup Hsetup) as Hline. rewrite Htype, Hcount in Hline.
  eexists s, _. split; [exact Hs|]. split; [done|]. split; [exact Hline|].
  destruct (parse_line_head (D := D) "success" total (stats_numbers (self s) setup)) as [Hty Hco]; [|done|done|].
  { intros c Hc'. cbn in Hc'. repeat destruct Hc' as [<-|Hc']; done. }
  assert (line_count (parse_result (D := D) (print_line "success" total (stats_numbers (self s) setup))) = total) as Hlc
    by (unfold line_count; by rewrite Hco).
  split; [|done]. unfold succeeded. rewrite Hty, Hlc, Hcfg, Z.eqb_refl. done.
Qed.
