(* ===== verification/SslEcho.v ===== *)
(** * utils/ssl-server.cpp and utils/ssl-client.cpp

    The echo server and its test client, as the handlers Boost.Asio calls when
    an asynchronous operation completes.  The server's [session] objects live
    on a heap and delete themselves; the operations in progress hold raw
    pointers to them and to their buffers.  The invariant of [step] says that
    each session has exactly one operation in progress, so that no handler
    runs on a deleted session, and that what a session writes is what it read. *)

From S2P Require Import Prelude.
From stdpp Require Import gmap fin_maps list.
From Stdlib.Relations Require Import Relation_Operators.
Local Open Scope Z_scope.

(** Boost.System error codes; 0 is no error. *)
Abbreviation error_code := Z (only parsing).

(** ** The server *)

Module server.

Definition max_length : nat := 1024.

(** [data_], and the history of the socket: the pieces read and written. *)
Record session := Session { data_ : list Z; reads : list (list Z); writes : list (list Z) }.

(** An operation in progress on behalf of a session; [Write] has the length of
    its buffer. *)
Variant operation :=
| Accept (s : nat)
| Handshake (s : nat)
| Read (s : nat)
| Write (s : nat) (n : nat).

Definition owner (o : operation) : nat :=
  match o with Accept s | Handshake s | Read s | Write s _ => s end.

Record server := Server {
  heap : gmap nat session;
  pending : list operation;
  next_address : nat;
}.

Definition begin (o : operation) (v : server) : server :=
  Server (heap v) (pending v ++ [o]) (next_address v).

(** [delete this]. *)
Definition delete_session (s : nat) (v : server) : server :=
  Server (delete s (heap v)) (pending v) (next_address v).

(** A member function of a session that was deleted has undefined behaviour. *)
Definition on_session {A} (s : nat) (v : server) (f : session -> A) : option A :=
  f <$> heap v !! s.

Definition start (s : nat) (v : server) : option server :=
  on_session s v (fun _ => begin (Handshake s) v).

Definition handle_handshake (s : nat) (error : error_code) (v : server) : option server :=
  on_session s v (fun _ =>
    if error =? 0 then begin (Read s) v else delete_session s v).

Definition handle_read (s : nat) (error : error_code) (bytes_transferred : nat) (v : server) :
    option server :=
  on_session s v (fun _ =>
    if error =? 0 then begin (Write s bytes_transferred) v else delete_session s v).

Definition handle_write (s : nat) (error : error_code) (v : server) : option server :=
  on_session s v (fun _ =>
    if error =? 0 then begin (Read s) v else delete_session s v).

(** The constructor of [session]; nothing is in [data_] yet. *)
Definition new_session : session := Session [] [] [].

Definition start_accept (v : server) : server :=
  let s := next_address v in
  begin (Accept s) (Server (<[s := new_session]> (heap v)) (pending v) (S s)).

Definition handle_accept (s : nat) (error : error_code) (v : server) : option server :=
  v ← (if error =? 0 then start s v else Some (delete_session s v));
  Some (start_accept v).

Definition initial : server := start_accept (Server ∅ [] 0).

(** The library stores the bytes it read in front of the buffer, and sends
    the first [n] bytes of it. *)
Definition fill (bytes : list Z) (x : session) : session :=
  Session (bytes ++ drop (length bytes) (data_ x)) (reads x ++ [bytes]) (writes x).
Definition flush (n : nat) (x : session) : session :=
  Session (data_ x) (reads x) (writes x ++ [take n (data_ x)]).

Definition update (s : nat) (f : session -> session) (v : server) : server :=
  Server (alter f s (heap v)) (pending v) (next_address v).

(** The operation [o] is no longer in progress. *)
Definition finish (l1 l2 : list operation) (v : server) : server :=
  Server (heap v) (l1 ++ l2) (next_address v).

(** How an operation completes: with an error, or with the bytes it read. *)
Definition complete (o : operation) (error : error_code) (bytes : list Z) (v : server) :
    option server :=
  match o with
  | Accept s => handle_accept s error v
  | Handshake s => handle_handshake s error v
  | Read s =>
      if error =? 0 then handle_read s error (length bytes) (update s (fill bytes) v)
      else handle_read s error 0 v
  | Write s n =>
      handle_write s error (if error =? 0 then update s (flush n) v else v)
  end.

Inductive step (v v' : server) : Prop :=
| step_complete l1 o l2 error bytes :
    pending v = l1 ++ o :: l2 -> (length bytes <= max_length)%nat ->
    complete o error bytes (finish l1 l2 v) = Some v' -> step v v'.

(** An operation completes on a session that was deleted. *)
Definition stuck (v : server) : Prop :=
  exists l1 o l2 error bytes, pending v = l1 ++ o :: l2 /\ (length bytes <= max_length)%nat /\
    complete o error bytes (finish l1 l2 v) = None.

Definition reachable : server -> Prop := clos_refl_trans_n1 _ step initial.

(** ** Its invariant *)

(** The traffic of a session agrees with its operation in progress. *)
Definition traffic (o : operation) (x : session) : Prop :=
  match o with
  | Accept _ | Handshake _ => reads x = [] /\ writes x = []
  | Read _ => reads x = writes x
  | Write _ n => reads x = writes x ++ [take n (data_ x)] /\ (n <= length (data_ x))%nat /\ (n <= max_length)%nat
  end.

Definition is_accept (o : operation) : bool := match o with Accept _ => true | _ => false end.

Record well_formed (v : server) : Prop := {
  inv_unique : NoDup (owner <$> pending v);
  inv_live : forall s, is_Some (heap v !! s) <-> s ∈ owner <$> pending v;
  inv_traffic : forall o x, o ∈ pending v -> heap v !! owner o = Some x -> traffic o x;
  inv_fresh : forall s, s ∈ owner <$> pending v -> (s < next_address v)%nat;
}.

Definition accepting (v : server) : nat := count_if is_accept (pending v).
Definition invariant (v : server) : Prop := well_formed v /\ accepting v = 1%nat.

(** Without the operation [o] of the session [s]. *)
Record open_invariant (s : nat) (v : server) : Prop := {
  open_unique : NoDup (owner <$> pending v);
  open_gone : s ∉ owner <$> pending v;
  open_live : forall s', is_Some (heap v !! s') <-> s' = s \/ s' ∈ owner <$> pending v;
  open_traffic : forall o x, o ∈ pending v -> heap v !! owner o = Some x -> traffic o x;
  open_fresh : forall s', s' = s \/ s' ∈ owner <$> pending v -> (s' < next_address v)%nat;
}.

Lemma finish_open l1 o l2 v :
  invariant v -> pending v = l1 ++ o :: l2 ->
  open_invariant (owner o) (finish l1 l2 v) /\
  (exists x, heap v !! owner o = Some x /\ traffic o x) /\
  (count_if is_accept (l1 ++ l2) + (if is_accept o then 1 else 0) = 1)%nat.
Proof.
  intros [[Hu Hl Ht Hf] Ha] Hp. unfold accepting in Ha. rewrite Hp in *.
  rewrite fmap_app, fmap_cons in Hu, Hl, Hf.
  assert (forall s', s' ∈ (owner <$> l1) ++ owner o :: (owner <$> l2) <->
                     s' = owner o \/ s' ∈ owner <$> (l1 ++ l2)) as Hin.
  { intros s'. rewrite fmap_app, !elem_of_app, elem_of_cons. tauto. }
  assert (forall o', o' ∈ l1 ++ l2 -> o' ∈ l1 ++ o :: l2) as Hsub.
  { intros o'. rewrite !elem_of_app, elem_of_cons. tauto. }
  split; [|split].
  - rewrite <- Permutation_middle in Hu. apply NoDup_cons in Hu as [Hn Hu].
    split; cbn [finish heap pending next_address].
    + by rewrite fmap_app.
    + by rewrite fmap_app.
    + intros s'. by rewrite Hl, Hin.
    + eauto.
    + intros s' Hs'. apply Hf. by apply Hin.
  - destruct (proj2 (Hl (owner o))) as [x Hx]; [apply Hin; auto|]. exists x. split; [done|].
    apply Ht; [|done]. rewrite elem_of_app, elem_of_cons. auto.
  - rewrite count_if_app in *. cbn [count_if] in Ha. destruct (is_accept o); lia.
Qed.

Lemma begin_well_formed o v x :
  open_invariant (owner o) v -> heap v !! owner o = Some x -> traffic o x -> well_formed (begin o v).
Proof.
  intros [Hu Hg Hl Ht Hf] Hx Htr.
  assert (forall s', s' ∈ owner <$> (pending v ++ [o]) <->
                     s' = owner o \/ s' ∈ owner <$> pending v) as Hin.
  { intros s'. rewrite fmap_app, elem_of_app. cbn. rewrite elem_of_cons, elem_of_nil. tauto. }
  split; cbn [begin heap pending next_address].
  - rewrite fmap_app. cbn [fmap list_fmap]. rewrite <- Permutation_cons_append. by apply NoDup_cons.
  - intros s'. by rewrite Hl, Hin.
  - intros o' x' Ho Hx'. apply elem_of_app in Ho as [Ho|Ho]; [eauto|].
    apply elem_of_cons in Ho as [->|Ho%elem_of_nil]; [congruence|done].
  - intros s' Hs'. apply Hf. by apply Hin.
Qed.

Lemma begin_accepting o v : accepting (begin o v) = (accepting v + (if is_accept o then 1 else 0))%nat.
Proof. unfold accepting. cbn [begin pending]. rewrite count_if_app. cbn [count_if]. destruct (is_accept o); lia. Qed.

Lemma delete_well_formed s v : open_invariant s v -> well_formed (delete_session s v).
Proof.
  intros [Hu Hg Hl Ht Hf]. split; cbn [delete_session heap pending next_address]; [done| | |].
  - intros s'. destruct (decide (s' = s)) as [->|Hne].
    + rewrite lookup_delete_eq. split; [by intros [? ?]|done].
    + rewrite lookup_delete_ne by done. rewrite Hl. tauto.
  - intros o x Ho [_ Hx]%lookup_delete_Some. eauto.
  - intros s' Hs'. apply Hf. auto.
Qed.

(** The library's writes to a session whose operation completed. *)
Lemma update_open s f v : open_invariant s v -> open_invariant s (update s f v).
Proof.
  intros [Hu Hg Hl Ht Hf]. split; cbn [update heap pending next_address]; try done.
  - intros s'. destruct (decide (s' = s)) as [->|Hne].
    + rewrite lookup_alter_eq, fmap_is_Some. apply Hl.
    + rewrite lookup_alter_ne by done. apply Hl.
  - intros o x Ho Hx. rewrite lookup_alter_ne in Hx; [eauto|].
    intros ->. apply Hg. by apply list_elem_of_fmap_2.
Qed.

(** A new session that waits for a connection, when none does. *)
Lemma accept_invariant v : well_formed v -> accepting v = 0%nat -> invariant (start_accept v).
Proof.
  intros [Hu Hl Ht Hf] Ha. unfold start_accept.
  assert (next_address v ∉ owner <$> pending v) as Hn by (intros H%Hf; lia).
  split.
  2: { rewrite begin_accepting. unfold accepting in *. cbn [pending is_accept]. lia. }
  apply (begin_well_formed _ _ (Session [] [] [])); cbn [owner heap pending next_address];
    [|by rewrite lookup_insert_eq|done].
  split; cbn [heap pending next_address]; try done.
  - intros s'. destruct (decide (s' = next_address v)) as [->|Hne].
    + rewrite lookup_insert_eq. split; [auto|by eexists].
    + rewrite lookup_insert_ne by done. rewrite Hl. tauto.
  - intros o x Ho Hx. rewrite lookup_insert_ne in Hx; [eauto|].
    intros He. apply Hn. rewrite He. by apply list_elem_of_fmap_2.
  - intros s' [->|Hs']; [lia|]. specialize (Hf s' Hs'). lia.
Qed.

Lemma initial_invariant : invariant initial.
Proof.
  apply accept_invariant; [|done]. split; cbn [heap pending next_address fmap list_fmap].
  - apply NoDup_nil_2.
  - intros s. rewrite lookup_empty. split; [by intros [? ?]|intros H; by apply elem_of_nil in H].
  - intros o x H. by apply elem_of_nil in H.
  - intros s H. by apply elem_of_nil in H.
Qed.

(** The session whose operation completed: begin the next one, or delete it. *)
Lemma continue_invariant s v error o x :
  open_invariant s v -> accepting v = 1%nat -> heap v !! s = Some x ->
  owner o = s -> is_accept o = false -> (error = 0 -> traffic o x) ->
  exists v', on_session s v (fun _ => if error =? 0 then begin o v else delete_session s v) = Some v' /\
    invariant v'.
Proof.
  intros Ho Ha Hx <- Hacc Htr. unfold on_session. rewrite Hx. cbn [fmap option_map option_fmap].
  eexists. split; [reflexivity|]. destruct (Z.eqb_spec error 0).
  - split; [eapply begin_well_formed; eauto|]. rewrite begin_accepting, Hacc. lia.
  - split; [by apply delete_well_formed|done].
Qed.

Lemma handle_accept_invariant s error v x :
  open_invariant s v -> heap v !! s = Some x -> reads x = [] /\ writes x = [] ->
  accepting v = 0%nat -> exists v', handle_accept s error v = Some v' /\ invariant v'.
Proof.
  intros Ho Hx Htr Ha. unfold handle_accept. destruct (error =? 0).
  - unfold start, on_session. rewrite Hx. cbn [fmap option_map option_fmap mbind option_bind].
    eexists. split; [reflexivity|]. apply accept_invariant; [by eapply begin_well_formed|].
    rewrite begin_accepting, Ha. done.
  - cbn [mbind option_bind]. eexists. split; [reflexivity|].
    apply accept_invariant; [by apply delete_well_formed|done].
Qed.

Lemma fill_traffic s bytes x :
  (length bytes <= max_length)%nat -> traffic (Read s) x ->
  traffic (Write s (length bytes)) (fill bytes x).
Proof.
  cbn. intros Hb ->. rewrite take_app_length. split_and!; [done| |done]. rewrite length_app. lia.
Qed.

(** Whatever operation completes, the handler runs on a live session and keeps
    the invariant. *)
Lemma complete_invariant l1 o l2 error bytes v :
  invariant v -> pending v = l1 ++ o :: l2 -> (length bytes <= max_length)%nat ->
  exists v', complete o error bytes (finish l1 l2 v) = Some v' /\ invariant v'.
Proof.
  intros Hi Hp Hb. destruct (finish_open _ _ _ _ Hi Hp) as (Ho & (x & Hx & Htr) & Ha).
  change (heap v) with (heap (finish l1 l2 v)) in Hx.
  change (l1 ++ l2) with (pending (finish l1 l2 v)) in Ha. fold (accepting (finish l1 l2 v)) in Ha.
  generalize dependent (finish l1 l2 v). intros w Ho Hx Ha.
  destruct o as [s|s|s|s n]; cbn [owner is_accept complete] in *.
  - eapply handle_accept_invariant; [done..|lia].
  - eapply (continue_invariant s w error (Read s)); try done; [lia|]. intros _. cbn in *. destruct Htr. congruence.
  - destruct (Z.eqb_spec error 0) as [->|Hne].
    + eapply (continue_invariant s _ 0 (Write s (length bytes)) (fill bytes x)); try done.
      * by apply update_open.
      * unfold accepting in *. cbn [update pending]. lia.
      * cbn [update heap]. by rewrite lookup_alter_eq, Hx.
      * intros _. by apply fill_traffic.
    + eapply (continue_invariant s w error (Write s 0)); try done. lia.
  - destruct (Z.eqb_spec error 0) as [->|Hne].
    + eapply (continue_invariant s _ 0 (Read s) (flush n x)); try done.
      * by apply update_open.
      * unfold accepting in *. cbn [update pending]. lia.
      * cbn [update heap]. by rewrite lookup_alter_eq, Hx.
      * intros _. cbn in *. apply Htr.
    + eapply (continue_invariant s w error (Read s)); try done. lia.
Qed.

Lemma reachable_invariant v : reachable v -> invariant v.
Proof.
  induction 1 as [|v v' Hs _ IH]; [apply initial_invariant|].
  destruct Hs as [l1 o l2 error bytes Hp Hb Hc].
  destruct (complete_invariant l1 o l2 error bytes v IH Hp Hb) as (v2 & Hc2 & Hi). congruence.
Qed.

End server.

(** ** The test client *)

Module client.
Section client.
Context (message : error_code -> string).

Definition max_length : nat := 1024.

(** The one operation in progress; [None] lets [io_service::run] return. *)
Variant operation :=
| Connecting
| Handshaking
| Writing (request : string)
| Reading (length : nat).

Variant output := Cout (s : string) | Sleep (seconds : Z).

Definition verify_certificate (preverified : bool) (subject_name : string) : bool * list output :=
  (preverified, [Cout ("Verifying " +:+ subject_name +:+ newline)]).

Definition handle_connect (error : error_code) : option operation * list output :=
  if error =? 0 then (Some Handshaking, [])
  else (None, [Cout ("Connect failed: " +:+ message error +:+ newline)]).

Definition handle_handshake (error : error_code) : option operation * list output :=
  if error =? 0 then (Some (Writing "REQUEST"), [Sleep 100])
  else (None, [Cout ("Handshake failed: " +:+ message error +:+ newline)]).

(** [buffer(reply_, n)] is no longer than the array. *)
Definition handle_write (error : error_code) (bytes_transferred : nat) :
    option operation * list output :=
  if error =? 0 then (Some (Reading (Nat.min bytes_transferred max_length)), [])
  else (None, [Cout ("Write failed: " +:+ message error +:+ newline)]).

Definition handle_read (error : error_code) (reply : string) : option operation * list output :=
  if error =? 0 then (None, [Cout "Reply: "; Cout reply; Cout newline])
  else (None, [Cout ("Read failed: " +:+ message error +:+ newline)]).

(** A composed operation without an error transfers its whole buffer: [reply]
    is what the peer sends. *)
Definition complete (o : operation) (error : error_code) (reply : string) :
    option operation * list output :=
  match o with
  | Connecting => handle_connect error
  | Handshaking => handle_handshake error
  | Writing request => handle_write error (String.length request)
  | Reading n => handle_read error (String.substring 0 n reply)
  end.

(** A whole run: the outcome of each operation in turn. *)
Fixpoint run (outcomes : list error_code) (reply : string) (o : operation) :
    option operation * list output :=
  match outcomes with
  | [] => (Some o, [])
  | error :: outcomes =>
      match complete o error reply with
      | (None, l) => (None, l)
      | (Some o, l) => let '(r, l') := run outcomes reply o in (r, l ++ l')
      end
  end.

End client.
End client.
