(* ===== verification/Capture.v ===== *)
(** * The output capture of listener.cpp

    [begin_read] and [end_read] echo what a child writes: each completed read
    prints the bytes it brought and begins the next one, until a read fails.
    The state is the array [buffer], the number of reads in progress on [in],
    and what was printed. *)

From S2P Require Import Prelude.
Local Open Scope Z_scope.

Record capture := Capture {
  buffer : list Byte.byte;
  reading : nat;
  printed : list Byte.byte;
}.

Definition buffer_size : nat := 4096.

Definition begin_read (c : capture) : capture :=
  Capture (buffer c) (S (reading c)) (printed c).

Definition end_read (ec : Z) (bytes_transferred : nat) (c : capture) : capture :=
  if ec =? 0 then
    begin_read (Capture (buffer c) (reading c) (printed c ++ take bytes_transferred (buffer c)))
  else c.

(** A read in progress completes: without an error the library has stored the
    bytes, no more than the buffer holds, in front of it. *)
Definition complete (ec : Z) (bytes : list Byte.byte) (c : capture) : capture :=
  let bytes := take buffer_size bytes in
  let stored := if ec =? 0 then bytes ++ drop (length bytes) (buffer c) else buffer c in
  end_read ec (if ec =? 0 then length bytes else 0%nat) (Capture stored (Nat.pred (reading c)) (printed c)).

(** Completions happen only while a read is in progress. *)
Fixpoint run (l : list (Z * list Byte.byte)) (c : capture) : capture :=
  match l, reading c with
  | (ec, bytes) :: l, S _ => run l (complete ec bytes c)
  | _, _ => c
  end.

(** What the child wrote until the first failed read. *)
Fixpoint written (l : list (Z * list Byte.byte)) : list Byte.byte :=
  match l with
  | (ec, bytes) :: l => if ec =? 0 then take buffer_size bytes ++ written l else []
  | [] => []
  end.

Lemma complete_read ec bytes c :
  reading c = 1%nat -> length (buffer c) = buffer_size ->
  let c' := complete ec bytes c in
  length (buffer c') = buffer_size /\
  (ec = 0 -> reading c' = 1%nat /\ printed c' = printed c ++ take buffer_size bytes) /\
  (ec <> 0 -> reading c' = 0%nat /\ printed c' = printed c).
Proof.
  intros Hr Hb. cbn zeta. unfold complete, end_read. destruct (Z.eqb_spec ec 0) as [->|He].
  - cbn [begin_read buffer reading printed]. rewrite Hr, take_app_length.
    split_and!; [|done..]. rewrite length_app, length_drop, Hb, length_take. lia.
  - cbn [buffer reading printed]. by rewrite Hr.
Qed.

(** The capture prints everything the child wrote until a read fails, whatever
    the sizes of the pieces; one read is in progress until then, and none
    afterwards.  The array is never written out of its bounds. *)
Lemma run_prints l c :
  reading c = 1%nat -> length (buffer c) = buffer_size ->
  printed (run l c) = printed c ++ written l /\
  reading (run l c) = (if forallb (fun x => fst x =? 0) l then 1%nat else 0%nat) /\
  length (buffer (run l c)) = buffer_size.
Proof.
  revert c. induction l as [|[ec bytes] l IH]; intros c Hr Hb.
  - cbn. by rewrite app_nil_r, Hr.
  - cbn [run written forallb fst]. rewrite Hr. destruct (complete_read ec bytes c Hr Hb) as (Hb' & Hs & Hf).
    destruct (Z.eqb_spec ec 0) as [->|He].
    + destruct Hs as [Hr' Hp]; [done|]. destruct (IH _ Hr' Hb') as (-> & -> & ->).
      by rewrite Hp, app_assoc.
    + destruct Hf as [Hr' Hp]; [done|]. cbn [andb].
      assert (run l (complete ec bytes c) = complete ec bytes c) as ->.
      { destruct l as [|[] l]; cbn [run]; [done|]. by rewrite Hr'. }
      by rewrite Hp, app_nil_r.
Qed.
