(* ===== verification/Asio.v ===== *)
(** * Boost.Asio and OpenSSL, as the programs call them

    The events of the programs that use Boost.Asio directly: the ssl utilities
    and the socket handlers of the telemetry client.  A call that configures an
    object either succeeds or throws; [io_service::run] hands completions to the
    program one at a time.  [AsioP] is the protocol, [asio_sim] an environment
    that keeps it. *)

From ITree Require Import ITree.
From S2P Require Import Prelude CInt Prog.
Local Open Scope Z_scope.

(** Boost.System error codes; 0 is no error. *)
Abbreviation error_code := Z (only parsing).

(** Calls that configure an object; contexts are named by handles. *)
Inductive setup :=
| IoService
| Acceptor (port : Z)
| Resolve (host service : string)
| SetOptions (ctx options : Z)
| SetPasswordCallback (ctx : Z) (password : string)
| UseCertificateChainFile (ctx : Z) (file : string)
| UsePrivateKeyFile (ctx : Z) (file : string)
| LoadVerifyFile (ctx : Z) (file : string)
| SetVerifyPeer
| SetVerifyCallback
| SetNoDelay (on : bool)
| GetReceiveBufferSize.

(** What [io_service::run] reports to the test client: an operation completed
    (a read with the bytes of [reply]), or a certificate is to be verified. *)
Inductive report :=
| Completed (error : error_code) (reply : string)
| Certificate (preverified : bool) (subject_name : string).

(** [Next n limit]: one of the [n] operations in progress of the server
    completes, a read with at most [limit] bytes. *)
Variant asioE : Type -> Type :=
| Setup (s : setup) : asioE (option exn)
| NewContext : asioE (exn + Z)
| SSL_CTX_get_mode (ctx : Z) : asioE Z
| SSL_CTX_set_mode (ctx mode : Z) : asioE Z
| SSL_CTX_get_options (ctx : Z) : asioE Z
| SSL_CTX_set_cipher_list (ctx : Z) (l : string) : asioE Z
| Next (n limit : nat) : asioE (exn + nat * error_code * list Z)
| NextReport : asioE (exn + report)
| Verified (preverified : bool) : asioE unit
| Cout (s : string) : asioE unit
| Cerr (s : string) : asioE unit
| Sleep (seconds : Z) : asioE unit.

(** ** The host a program runs on *)

Inductive output :=
| ASetup (s : setup)
| AContext (ctx : Z)
| AVerified (preverified : bool)
| ACout (s : string)
| ACerr (s : string)
| ASleep (seconds : Z).

(** [faults]: the outcomes of the next calls that configure, [None] (and the
    empty list) for success.  [completions] and [reports]: what the server's
    and the client's operations will do. *)
Record host := Host {
  faults : list (option exn);
  contexts : Z;
  completions : list (exn + nat * error_code * list Z);
  reports : list (exn + report);
  log : list output;
}.

Definition logs (l : list output) (w : host) : host :=
  Host (faults w) (contexts w) (completions w) (reports w) (log w ++ l).
Definition pop_fault (w : host) : host :=
  Host (tail (faults w)) (contexts w) (completions w) (reports w) (log w).
Definition new_context (w : host) : host :=
  Host (faults w) (contexts w + 1) (completions w) (reports w) (log w).
Definition pop_completion (w : host) : host :=
  Host (faults w) (contexts w) (tail (completions w)) (reports w) (log w).
Definition pop_report (w : host) : host :=
  Host (faults w) (contexts w) (completions w) (tail (reports w)) (log w).

Definition next_fault (w : host) : option exn := hd None (faults w).

(** The scripted completion, for [n] operations in progress and a buffer of
    [limit] bytes. *)
Definition clip (n limit : nat) (c : exn + nat * error_code * list Z) :
    exn + nat * error_code * list Z :=
  match c with
  | inl x => inl x
  | inr (i, error, bytes) => inr (i mod n, error, take limit bytes)%nat
  end.

Definition asio_enabled {X} (e : asioE X) (w : host) : Prop :=
  match e with
  | Next n _ => (0 < n)%nat /\ completions w <> []
  | NextReport => reports w <> []
  | _ => True
  end.

(** The bit masks OpenSSL answers are not known. *)
Definition asio_contract {X} (e : asioE X) (w : host) : X -> host -> Prop :=
  match e in asioE X return X -> host -> Prop with
  | Setup s => fun r w' => r = next_fault w /\ w' = logs [ASetup s] (pop_fault w)
  | NewContext => fun r w' =>
      match next_fault w with
      | Some x => r = inl x /\ w' = pop_fault w
      | None => r = inr (contexts w + 1) /\
                w' = new_context (logs [AContext (contexts w + 1)] (pop_fault w))
      end
  | SSL_CTX_get_mode _ | SSL_CTX_get_options _ => fun _ w' => w' = w
  | SSL_CTX_set_mode _ _ | SSL_CTX_set_cipher_list _ _ => fun _ w' => w' = w
  | Next n limit => fun r w' =>
      Some r = clip n limit <$> head (completions w) /\ w' = pop_completion w
  | NextReport => fun r w' => Some r = head (reports w) /\ w' = pop_report w
  | Verified b => fun _ w' => w' = logs [AVerified b] w
  | Cout s => fun _ w' => w' = logs [ACout s] w
  | Cerr s => fun _ w' => w' = logs [ACerr s] w
  | Sleep n => fun _ w' => w' = logs [ASleep n] w
  end.

(** While nothing completes, [io_service::run] does not return. *)
Definition asio_blocked {X} (e : asioE X) (w : host) : Prop :=
  match e with
  | Next n _ => (0 < n)%nat /\ completions w = []
  | NextReport => reports w = []
  | _ => False
  end.

Definition AsioP : protocol asioE host :=
  Protocol _ _ (@asio_enabled) (@asio_contract) (@asio_blocked).

Definition asio_sim : handler asioE host := fun X e w =>
  match e in asioE X return option (X * host) with
  | Setup s => Some (next_fault w, logs [ASetup s] (pop_fault w))
  | NewContext =>
      match next_fault w with
      | Some x => Some (inl x, pop_fault w)
      | None => Some (inr (contexts w + 1),
                      new_context (logs [AContext (contexts w + 1)] (pop_fault w)))
      end
  | SSL_CTX_get_mode _ | SSL_CTX_get_options _ => Some (4, w)
  | SSL_CTX_set_mode _ mode => Some (mode, w)
  | SSL_CTX_set_cipher_list _ _ => Some (1, w)
  | Next n limit =>
      match completions w with
      | c :: _ => Some (clip n limit c, pop_completion w)
      | [] => None
      end
  | NextReport => match reports w with r :: _ => Some (r, pop_report w) | [] => None end
  | Verified b => Some (tt, logs [AVerified b] w)
  | Cout s => Some (tt, logs [ACout s] w)
  | Cerr s => Some (tt, logs [ACerr s] w)
  | Sleep n => Some (tt, logs [ASleep n] w)
  end.

#[export] Instance asio_lawful : Lawful AsioP asio_sim.
Proof.
  refine {| view w := w; consistent _ := True |}.
  - intros X e w _ He. destruct e; cbn in He |- *; try (by eexists _, _).
    + destruct (next_fault w); by eexists _, _.
    + destruct (completions w); [by destruct He|]. by eexists _, _.
    + destruct (reports w); [done|]. by eexists _, _.
  - intros X e w _ He. destruct e; try done; cbn in *.
    + by destruct He as [_ ->].
    + by rewrite He.
Defined.

(** ** Calls that may throw *)

Definition attempt (s : setup) : M asioE unit :=
  e <- call (Setup s);;
  match e with Some x => throw x | None => ret tt end.

Definition ssl_context : M asioE Z :=
  c <- call NewContext;;
  match c with inl x => throw x | inr ctx => ret ctx end.

Lemma logs_logs l1 l2 w : logs l2 (logs l1 w) = logs (l1 ++ l2) w.
Proof. unfold logs. cbn. by rewrite app_assoc. Qed.

(** [m] only appends to the log, and returns a value that satisfies [P] or
    throws. *)
Definition quiet {A} (ok : output -> Prop) (m : M asioE A) (P : A -> Prop) : Prop :=
  forall w, wp AsioP m w (fun o w' =>
    (exists l, log w' = log w ++ l /\ Forall ok l) /\
    completions w' = completions w /\ reports w' = reports w /\
    match o with Returns a => P a | Stops (Thrown _) => True | _ => False end).

Section quiet.
Context (ok : output -> Prop).

Lemma quiet_ret {A} (a : A) (P : A -> Prop) : P a -> quiet ok (ret a) P.
Proof.
  intros HP w. apply wp_ret. split_and!; [|done..]. exists []. by rewrite app_nil_r.
Qed.

Lemma quiet_throw {A} x (P : A -> Prop) : quiet ok (throw x) P.
Proof. intros w. apply wp_halt. split_and!; [|done..]. exists []. by rewrite app_nil_r. Qed.

Lemma quiet_bind {A B} (m : M asioE A) (k : A -> M asioE B) P Q :
  quiet ok m P -> (forall a, P a -> quiet ok (k a) Q) -> quiet ok (bind m k) Q.
Proof.
  intros Hm Hk w. apply wp_bind. eapply wp_mono; [apply Hm|].
  intros o w1 ((l1 & H1 & Ho1) & Hc & Hr & Ho). destruct o as [a|[] |]; [|by eauto 8..|done].
  eapply wp_mono; [by apply Hk|]. intros o w2 ((l2 & H2 & Ho2) & Hc2 & Hr2 & Ho').
  split_and!; [|congruence..|done]. exists (l1 ++ l2). rewrite H2, H1, app_assoc.
  split; [done|by apply Forall_app].
Qed.

(** A call that always answers and logs what is [ok]. *)
Lemma quiet_call {X} (e : asioE X) (P : X -> Prop) :
  (forall w, asio_enabled e w) ->
  (forall w x w', asio_contract e w x w' -> P x /\ exists l, log w' = log w ++ l /\ Forall ok l /\
     completions w' = completions w /\ reports w' = reports w) ->
  quiet ok (call e) P.
Proof.
  intros He Hc w. apply wp_call; [apply He|]. intros x w' H.
  destruct (Hc w x w' H) as (HP & l & Hl & Ho & H1 & H2). eauto 8.
Qed.

Lemma quiet_attempt s : ok (ASetup s) -> quiet ok (attempt s) (fun _ => True).
Proof.
  intros Hs. apply (quiet_bind _ _ (fun _ => True)).
  - apply quiet_call; [done|]. intros w x w' [_ ->]. split; [done|]. eexists. by split; [reflexivity|auto].
  - intros [x|] _; [apply quiet_throw|by apply quiet_ret].
Qed.

Lemma quiet_context : (forall c, ok (AContext c)) -> quiet ok ssl_context (fun _ => True).
Proof.
  intros Hs. apply (quiet_bind _ _ (fun _ => True)).
  - apply quiet_call; [done|]. intros w x w' H. split; [done|]. cbn in H.
    destruct (next_fault w); destruct H as [_ ->].
    + exists []. cbn. by rewrite app_nil_r.
    + eexists. by split; [reflexivity|auto].
  - intros [x|c] _; [apply quiet_throw|by apply quiet_ret].
Qed.

(** Reading or setting a bit mask logs nothing; printing logs the text. *)
Lemma quiet_silent {X} (e : asioE X) :
  (forall w, asio_enabled e w) -> (forall w x w', asio_contract e w x w' -> w' = w) ->
  quiet ok (call e) (fun _ => True).
Proof.
  intros He Hc. apply quiet_call; [done|]. intros w x w' ->%Hc. split; [done|].
  exists []. by rewrite app_nil_r.
Qed.

Lemma quiet_cout s : ok (ACout s) -> quiet ok (call (Cout s)) (fun _ => True).
Proof.
  intros Hs. apply quiet_call; [done|]. intros w x w' ->. split; [done|]. eexists. split; [done|]. auto.
Qed.

End quiet.

Create HintDb quiet.
#[export] Hint Resolve quiet_ret quiet_throw quiet_attempt quiet_context quiet_cout : quiet.
