(* ===== verification/SslMain.v ===== *)
(** * The ssl utilities as programs, and the TLS handlers

    The constructors and [main] of utils/ssl-server.cpp and
    utils/ssl-client.cpp around the handlers of [SslEcho], and the handlers with
    which telemetry_client (clients/telemetry-client-tls.hpp) prepares a TLS
    connection.  [io_service::run] is the library's loop: it waits for a
    completion and calls its handler, until no operation is in progress. *)

From Stdlib Require Import Ascii.
From S2P Require Import Prelude CInt Text Prog Asio SslEcho.
Local Open Scope Z_scope.

(** The constants of the OpenSSL and Boost.Asio headers;
    [SSL_MODE_RELEASE_BUFFERS] is not defined by every version. *)
Class OpenSsl := {
  SSL_OP_NO_COMPRESSION : Z;
  SSL_MODE_RELEASE_BUFFERS : option Z;
  SSL_MODE_ENABLE_PARTIAL_WRITE : Z;
  default_workarounds : Z;
  no_sslv2 : Z;
  single_dh_use : Z;
}.

(** [atoi]: a number that an [int] cannot hold is undefined. *)
Definition atoi (s : string) : option Z :=
  let '(neg, s1) := scan_sign (skip_ws s) in
  let '(v, _, _) := scan_digits s1 0 0 in
  int_result (if neg then - v else v).

(** Conversion to [unsigned short]. *)
Definition to_ushort (z : Z) : Z := z mod 65536.

(** [operator<<] of [std::bitset<32>]: the bits from the highest down. *)
Fixpoint bits (n : nat) (z : Z) : string :=
  match n with
  | O => ""
  | S n => String (if Z.testbit z (Z.of_nat n) then "1"%char else "0"%char) (bits n z)
  end.
Definition bitset32 (z : Z) : string := bits 32 z.

Section programs.
(** [e.what ()] and [error.message ()]. *)
Context (what : exn -> string) (message : error_code -> string) {openssl : OpenSsl}.

Definition catch_main (m : M asioE Z) : M asioE Z :=
  try_catch m (fun e => call (Cerr ("Exception: " +:+ what e +:+ newline));; ret 0).

(** ** ssl-server.cpp *)

Definition get_password : string := "test".

Definition server_options : Z :=
  Z.lor (Z.lor (Z.lor SSL_OP_NO_COMPRESSION default_workarounds) no_sslv2) single_dh_use.

Definition cipher_list : string :=
  "ECDHE-RSA-AES128-GCM-SHA256:ECDHE-ECDSA-AES128-GCM-SHA256:ECDHE-RSA-AES128-SHA256:" +:+
  "ECDHE-ECDSA-AES128-SHA256:DHE-DSS-AES128-GCM-SHA256:DHE-RSA-AES128-GCM-SHA256:" +:+
  "DHE-RSA-AES128-SHA256:DHE-DSS-AES128-SHA256:ECDH-RSA-AES128-GCM-SHA256:" +:+
  "ECDH-ECDSA-AES128-GCM-SHA256:ECDH-RSA-AES128-SHA256:ECDH-ECDSA-AES128-SHA256:" +:+
  "AES128-GCM-SHA256:AES128-SHA256:ECDHE-RSA-AES128-SHA:ECDHE-ECDSA-AES128-SHA:" +:+
  "SRP-DSS-AES-128-CBC-SHA:SRP-RSA-AES-128-CBC-SHA:DHE-RSA-AES128-SHA:DHE-DSS-AES128-SHA:" +:+
  "AECDH-AES128-SHA:SRP-AES-128-CBC-SHA:ECDH-RSA-AES128-SHA:ECDH-ECDSA-AES128-SHA:" +:+
  "AES128-SHA:PSK-AES128-CBC-SHA".

(** [#ifdef SSL_MODE_RELEASE_BUFFERS] *)
Definition release_buffers (ctx mode : Z) : M asioE unit :=
  match SSL_MODE_RELEASE_BUFFERS with
  | Some release =>
      mode <- call (SSL_CTX_set_mode ctx (Z.lor (Z.lor mode release) SSL_MODE_ENABLE_PARTIAL_WRITE));;
      call (Cout ("SSL mode: " +:+ bitset32 mode +:+ newline))
  | None => ret tt
  end.

(** The constructor of [server]. *)
Definition server_new (port : Z) : M asioE server.server :=
  attempt (Acceptor port);;
  ctx <- ssl_context;;
  attempt (SetOptions ctx server_options);;
  attempt (SetPasswordCallback ctx get_password);;
  attempt (UseCertificateChainFile ctx "server.pem");;
  attempt (UsePrivateKeyFile ctx "key.pem");;
  mode <- call (SSL_CTX_get_mode ctx);;
  release_buffers ctx mode;;
  options <- call (SSL_CTX_get_options ctx);;
  call (Cout ("Options: " +:+ bitset32 options +:+ " | " +:+ bitset32 SSL_OP_NO_COMPRESSION +:+ newline));;
  call (SSL_CTX_set_cipher_list ctx cipher_list);;
  ret (server.start_accept (server.Server ∅ [] 0)).

(** The handler of the [i]-th operation in progress. *)
Definition dispatch (i : nat) (error : error_code) (bytes : list Z) (v : server.server) :
    option server.server :=
  o ← server.pending v !! i;
  server.complete o error bytes
    (server.finish (take i (server.pending v)) (drop (S i) (server.pending v)) v).

Definition server_round (v : server.server) : M asioE (server.server + unit) :=
  if bool_decide (server.pending v = []) then ret (inr tt)
  else
    r <- call (Next (length (server.pending v)) server.max_length);;
    match r with
    | inl x => throw x
    | inr (i, error, bytes) =>
        v <- defined (dispatch i error bytes v);;
        ret (inl v)
    end.

Definition server_run (v : server.server) : M asioE unit := loop server_round v.

Definition server_main (argv : list string) : M asioE Z :=
  catch_main (
    if negb (bool_decide (length argv = 2%nat)) then
      call (Cerr ("Usage: server <port>" +:+ newline));;
      ret 1
    else
      attempt IoService;;
      port <- defined (argv !! 1%nat ≫= atoi);;
      s <- server_new (to_ushort port);;
      server_run s;;
      ret 0).

(** ** ssl-client.cpp *)

Definition perform (l : list client.output) : M asioE unit :=
  foldr (fun a k =>
    match a with client.Cout s => call (Cout s) | client.Sleep n => call (Sleep n) end;; k)
    (ret tt) l.

(** The constructor of [client]. *)
Definition client_new : M asioE client.operation :=
  attempt SetVerifyPeer;;
  attempt SetVerifyCallback;;
  ret client.Connecting.

Definition client_round (o : client.operation) : M asioE (client.operation + unit) :=
  r <- call NextReport;;
  match r with
  | inl x => throw x
  | inr (Certificate preverified subject_name) =>
      let '(accepted, out) := client.verify_certificate preverified subject_name in
      perform out;;
      call (Verified accepted);;
      ret (inl o)
  | inr (Completed error reply) =>
      let '(next, out) := client.complete message o error reply in
      perform out;;
      ret (match next with Some o => inl o | None => inr tt end)
  end.

Definition client_run (o : client.operation) : M asioE unit := loop client_round o.

Definition client_main (argv : list string) : M asioE Z :=
  catch_main (
    if negb (bool_decide (length argv = 3%nat)) then
      call (Cerr ("Usage: client <host> <port>" +:+ newline));;
      ret 1
    else
      attempt IoService;;
      host <- defined (argv !! 1%nat);;
      service <- defined (argv !! 2%nat);;
      attempt (Resolve host service);;
      ctx <- ssl_context;;
      attempt (LoadVerifyFile ctx "server.pem");;
      o <- client_new;;
      client_run o;;
      ret 0).

(** ** telemetry-client-tls.hpp *)

(** The context is returned whether or not it accepts the options. *)
Definition on_tls_init : M asioE Z :=
  ctx <- ssl_context;;
  try_catch
    (attempt (SetOptions ctx (Z.lor (Z.lor default_workarounds no_sslv2) single_dh_use)))
    (fun e => call (Cout (what e +:+ newline)));;
  ret ctx.

Definition on_socket_init : M asioE unit :=
  attempt (SetNoDelay true);;
  attempt GetReceiveBufferSize.

(** That of telemetry-client.hpp, on a socket without TLS. *)
Definition on_socket_init_tcp : M asioE unit :=
  attempt (SetNoDelay true);;
  attempt GetReceiveBufferSize.

(** ** The server runs *)

Lemma dispatch_invariant i error bytes v :
  server.invariant v -> (i < length (server.pending v))%nat -> (length bytes <= server.max_length)%nat ->
  exists v', dispatch i error bytes v = Some v' /\ server.invariant v'.
Proof.
  intros Hv Hi Hb. destruct (lookup_lt_is_Some_2 _ _ Hi) as [o Ho]. unfold dispatch. rewrite Ho.
  cbn [mbind option_bind]. apply server.complete_invariant; [done| |done].
  symmetry. by apply take_drop_middle.
Qed.

Lemma invariant_pending v : server.invariant v -> server.pending v <> [].
Proof. intros [_ Ha] Hp. unfold server.accepting in Ha. by rewrite Hp in Ha. Qed.

(** The first completion that is an exception. *)
Fixpoint first_throw {A} (l : list (exn + A)) : option exn :=
  match l with
  | inl x :: _ => Some x
  | inr _ :: l => first_throw l
  | [] => None
  end.

(** From a state that satisfies the invariant, [io_service::run] serves for
    ever, unless the library throws. *)
Lemma server_run_serves v w :
  server.invariant v ->
  wp AsioP (server_run v) w (fun o w' =>
    o = (match first_throw (completions w) with Some x => Stops (Thrown x) | None => Waits end) /\
    log w' = log w).
Proof.
  remember (completions w) as l eqn:Hl. revert v w Hl.
  induction l as [|c l IH]; intros v w Hl Hv; apply wp_loop; unfold server_round;
    rewrite bool_decide_false by (by apply invariant_pending); apply wp_bind;
    assert (0 < length (server.pending v))%nat as Hn
      by (pose proof (invariant_pending v Hv); destruct (server.pending v); [done|cbn; lia]).
  - by apply wp_call_blocked.
  - apply wp_call; [by split; [|cbn; rewrite <- Hl]|]. intros r w1 [Hr ->]. rewrite <- Hl in Hr. cbn in Hr.
    injection Hr as ->. destruct c as [x|[[i error] bytes]]; cbn [clip first_throw]; [by apply wp_halt|].
    destruct (dispatch_invariant (i mod length (server.pending v)) error (take server.max_length bytes) v)
      as (v' & Hd & Hv'); [done|apply Nat.mod_upper_bound; lia|rewrite length_take; lia|].
    rewrite Hd. cbn [defined]. apply wp_bind, wp_ret, wp_ret.
    apply (IH v' (pop_completion w)); [|done]. cbn. by rewrite <- Hl.
Qed.

Lemma server_new_quiet ok port :
  ok (ASetup (Acceptor port)) -> (forall c, ok (AContext c)) -> (forall s, ok (ACout s)) ->
  (forall s, (forall p, s <> Acceptor p) -> ok (ASetup s)) ->
  quiet ok (server_new port) server.invariant.
Proof.
  intros Ha Hc Ho Hs. unfold server_new.
  repeat (eapply quiet_bind;
    [first [apply quiet_attempt; by auto | by apply quiet_context | apply quiet_cout; by auto
           | apply quiet_silent; done
           | unfold release_buffers; destruct SSL_MODE_RELEASE_BUFFERS;
             [eapply quiet_bind; [by apply quiet_silent|intros; apply quiet_cout; by auto]|by apply quiet_ret]]
    |intros ? _]).
  apply quiet_ret, server.initial_invariant.
Qed.

(** A catch block of [main] turns an exception into the status 0. *)
Lemma wp_catch_main m w Q :
  wp AsioP m w (fun o w' =>
    match o with
    | Stops (Thrown x) => Q (Returns 0) (logs [ACerr ("Exception: " +:+ what x +:+ newline)] w')
    | o => Q o w'
    end) ->
  wp AsioP (catch_main m) w Q.
Proof.
  intros H. apply wp_try_catch. eapply wp_mono; [exact H|]. clear. intros [a|[] |] w' HQ; try done.
  apply wp_bind, wp_call; [done|]. intros [] ? ->. by apply wp_ret.
Qed.

(** The part of the server's [main] after the usage check. *)
Lemma server_main_body ok n w :
  ok (ASetup (Acceptor (to_ushort n))) -> (forall c, ok (AContext c)) -> (forall s, ok (ACout s)) ->
  (forall s, (forall p, s <> Acceptor p) -> ok (ASetup s)) ->
  wp AsioP (s <- server_new (to_ushort n);; server_run s;; ret 0) w (fun o w' =>
    (exists acts, log w' = log w ++ acts /\ Forall ok acts) /\
    (o = Waits /\ first_throw (completions w) = None \/ exists x, o = Stops (Thrown x))).
Proof.
  intros Ha Hc Ho Hs. apply wp_bind.
  eapply wp_mono; [by apply (server_new_quiet ok)|].
  intros o w1 (Hl & Hcs & _ & Hr). destruct o as [v|[x| | |]|]; try done; [|by eauto].
  apply wp_bind. eapply wp_mono; [by apply server_run_serves|].
  intros o w2 [-> Hl2]. rewrite Hl2, <- Hcs. destruct (first_throw (completions w1)); eauto.
Qed.

Lemma server_main_usage argv w (Q : outcome Z -> host -> Prop) :
  length argv <> 2%nat ->
  Q (Returns 1) (logs [ACerr ("Usage: server <port>" +:+ newline)] w) ->
  wp AsioP (server_main argv) w Q.
Proof.
  intros Hn HQ. apply wp_catch_main. rewrite bool_decide_false by done.
  apply wp_bind, wp_call; [done|]. intros [] w' ->. by apply wp_ret.
Qed.

(** ** The client runs *)

Lemma perform_runs l w :
  runs AsioP (perform l) w (Returns tt)
    (logs ((fun a => match a with client.Cout s => ACout s | client.Sleep n => ASleep n end) <$> l) w).
Proof.
  revert w. induction l as [|a l IH]; intros w.
  - apply wp_ret. split; [done|]. unfold logs. cbn. rewrite app_nil_r. by destruct w.
  - cbn [perform foldr fmap list_fmap]. destruct a as [s|n];
      (eapply runs_bind; [by apply runs_call; [|intros [] ? ->]|]);
      match goal with |- runs _ _ _ _ (logs (?a :: ?r) _) =>
        replace (logs (a :: r) w) with (logs r (logs [a] w)) by apply logs_logs end; apply IH.
Qed.

Definition set_reports (l : list (exn + report)) (w : host) : host :=
  Host (faults w) (contexts w) (completions w) l (log w).

Lemma set_reports_logs l a w : set_reports l (logs a w) = logs a (set_reports l w).
Proof. done. Qed.
Lemma set_reports_twice l l' w : set_reports l (set_reports l' w) = set_reports l w.
Proof. done. Qed.

(** One completion of the client. *)
Lemma client_round_completed o error reply next out l w :
  reports w = inr (Completed error reply) :: l ->
  client.complete message o error reply = (next, out) ->
  runs AsioP (client_round o) w (Returns (match next with Some o => inl o | None => inr tt end))
    (logs ((fun a => match a with client.Cout s => ACout s | client.Sleep n => ASleep n end) <$> out)
       (set_reports l w)).
Proof.
  intros Hr Hc. unfold client_round. eapply runs_bind.
  - apply runs_call with (a := inr (Completed error reply)) (v1 := set_reports l w); [cbn; by rewrite Hr|].
    intros x w' [Hx ->]. rewrite Hr in Hx. injection Hx as ->.
    split; [done|]. unfold pop_report, set_reports. by rewrite Hr.
  - cbn beta iota. rewrite Hc. eapply runs_bind; [apply perform_runs|]. apply runs_ret.
Qed.

(** A certificate during the handshake: its subject is printed, and the
    verdict of the library is passed on. *)
Definition certificate_log (c : bool * string) : list output :=
  [ACout ("Verifying " +:+ snd c +:+ newline); AVerified (fst c)].

Lemma client_round_certificate o c l w :
  reports w = inr (Certificate (fst c) (snd c)) :: l ->
  runs AsioP (client_round o) w (Returns (inl o)) (logs (certificate_log c) (set_reports l w)).
Proof.
  intros Hr. unfold client_round. eapply runs_bind.
  - apply runs_call with (a := inr (Certificate (fst c) (snd c))) (v1 := set_reports l w); [cbn; by rewrite Hr|].
    intros x w' [Hx ->]. rewrite Hr in Hx. injection Hx as ->.
    split; [done|]. unfold pop_report, set_reports. by rewrite Hr.
  - cbn [client.verify_certificate]. eapply runs_bind; [apply perform_runs|]. cbn [fmap list_fmap].
    eapply runs_bind; [by apply runs_call; [|intros [] ? ->]|]. rewrite logs_logs. apply runs_ret.
Qed.

Lemma client_certificates o cs l w out w' :
  reports w = ((fun c => inr (Certificate (fst c) (snd c))) <$> cs) ++ l ->
  runs AsioP (client_run o) (logs (concat (certificate_log <$> cs)) (set_reports l w)) out w' ->
  runs AsioP (client_run o) w out w'.
Proof.
  revert w. induction cs as [|c cs IH]; intros w Hr Hk.
  - cbn in Hr, Hk. replace w with (logs [] (set_reports l w)); [done|].
    unfold logs, set_reports. cbn. rewrite app_nil_r, <- Hr. by destruct w.
  - cbn [fmap list_fmap app] in Hr. eapply runs_loop_next; [exact (client_round_certificate _ _ _ _ Hr)|].
    apply IH; [done|].
    cbn [fmap list_fmap concat] in Hk. rewrite <- logs_logs in Hk. exact Hk.
Qed.

(** The whole session of a client whose four operations succeed: whatever
    certificates it is shown in the handshake, it prints the first seven bytes
    it is sent. *)
Lemma client_replies cs reply l w :
  reports w = inr (Completed 0 "") ::
    ((fun c => inr (Certificate (fst c) (snd c))) <$> cs) ++
    [inr (Completed 0 ""); inr (Completed 0 ""); inr (Completed 0 reply)] ++ l ->
  runs AsioP (client_run client.Connecting) w (Returns tt)
    (logs (concat (certificate_log <$> cs) ++
       [ASleep 100; ACout "Reply: "; ACout (String.substring 0 7 reply); ACout newline])
     (set_reports l w)).
Proof.
  intros Hr. eapply runs_loop_next; [by apply (client_round_completed client.Connecting 0 "" (Some client.Handshaking) [])|].
  eapply client_certificates; [reflexivity|].
  eapply runs_loop_next;
    [by apply (client_round_completed client.Handshaking 0 "" (Some (client.Writing "REQUEST")) [client.Sleep 100])|].
  eapply runs_loop_next;
    [by apply (client_round_completed (client.Writing "REQUEST") 0 "" (Some (client.Reading 7)) [])|].
  eapply runs_loop_exit, (wp_mono AsioP);
    [by apply (client_round_completed (client.Reading 7) 0 reply None
               [client.Cout "Reply: "; client.Cout (String.substring 0 7 reply); client.Cout newline])|].
  intros o w' [-> ->]. split; [done|]. cbn [fmap list_fmap].
  rewrite !set_reports_logs, !set_reports_twice, !logs_logs. reflexivity.
Qed.

(** A call that configures ends as scripted; it succeeds while no faults are
    left. *)
Lemma attempt_outcome s w :
  runs AsioP (attempt s) w
    (match next_fault w with Some x => Stops (Thrown x) | None => Returns tt end)
    (logs [ASetup s] (pop_fault w)).
Proof.
  unfold attempt. eapply runs_bind; [by apply runs_call; [|intros ? ? [-> ->]]|].
  destruct (next_fault w); [apply runs_halt|apply runs_ret].
Qed.

Lemma ssl_context_outcome w :
  runs AsioP ssl_context w
    (match next_fault w with Some x => Stops (Thrown x) | None => Returns (contexts w + 1) end)
    (match next_fault w with
     | Some _ => pop_fault w
     | None => new_context (logs [AContext (contexts w + 1)] (pop_fault w))
     end).
Proof.
  unfold ssl_context. apply wp_bind, wp_call; [done|]. intros r w' H. cbn in H.
  destruct (next_fault w); destruct H as [-> ->]; [by apply wp_halt|by apply wp_ret].
Qed.

Lemma pop_no_fault w : faults w = [] -> pop_fault w = w.
Proof. intros Hf. destruct w. cbn in Hf. by subst. Qed.

Lemma new_context_logs a w : new_context (logs a w) = logs a (new_context w).
Proof. done. Qed.

Lemma attempt_runs s w :
  faults w = [] -> runs AsioP (attempt s) w (Returns tt) (logs [ASetup s] w).
Proof.
  intros Hf. pose proof (attempt_outcome s w) as H. rewrite (pop_no_fault w Hf) in H.
  unfold next_fault in H. by rewrite Hf in H.
Qed.

Lemma ssl_context_runs w :
  faults w = [] ->
  runs AsioP ssl_context w (Returns (contexts w + 1))
    (new_context (logs [AContext (contexts w + 1)] w)).
Proof.
  intros Hf. pose proof (ssl_context_outcome w) as H. rewrite (pop_no_fault w Hf) in H.
  unfold next_fault in H. by rewrite Hf in H.
Qed.

Lemma client_main_replies arg host service cs reply l w :
  faults w = [] ->
  reports w = inr (Completed 0 "") ::
    ((fun c => inr (Certificate (fst c) (snd c))) <$> cs) ++
    [inr (Completed 0 ""); inr (Completed 0 ""); inr (Completed 0 reply)] ++ l ->
  let ctx := contexts w + 1 in
  runs AsioP (client_main [arg; host; service]) w (Returns 0)
    (Host [] ctx (completions w) l (log w ++
       [ASetup IoService; ASetup (Resolve host service); AContext ctx;
        ASetup (LoadVerifyFile ctx "server.pem"); ASetup SetVerifyPeer; ASetup SetVerifyCallback] ++
       concat (certificate_log <$> cs) ++
       [ASleep 100; ACout "Reply: "; ACout (String.substring 0 7 reply); ACout newline])).
Proof.
  intros Hf Hr. cbn zeta. unfold client_main. apply runs_try_returns. cbn [length bool_decide].
  eapply runs_bind; [by apply attempt_runs|].
  do 2 (eapply runs_bind; [by apply runs_defined|]).
  eapply runs_bind; [by apply attempt_runs|].
  eapply runs_bind; [by apply ssl_context_runs|].
  eapply runs_bind; [by apply attempt_runs|].
  unfold client_new. eapply runs_bind.
  { eapply runs_bind; [by apply attempt_runs|]. eapply runs_bind; [by apply attempt_runs|]. apply runs_ret. }
  eapply runs_bind; [by apply client_replies|]. apply wp_ret. split; [done|].
  rewrite !logs_logs, !new_context_logs, !logs_logs, set_reports_logs, logs_logs.
  unfold logs, new_context, set_reports. cbn [faults contexts completions reports log].
  by rewrite Hf, <- !app_assoc.
Qed.

(** ** The TLS handlers *)

(** Once there is a context, it is returned, also when it rejects the options:
    the exception only leaves a line on the standard output. *)
Lemma on_tls_init_returns f l w :
  faults w = None :: f :: l ->
  let ctx := contexts w + 1 in
  let options := SetOptions ctx (Z.lor (Z.lor default_workarounds no_sslv2) single_dh_use) in
  runs AsioP on_tls_init w (Returns ctx)
    (Host l ctx (completions w) (reports w) (log w ++ [AContext ctx; ASetup options] ++
       match f with Some x => [ACout (what x +:+ newline)] | None => [] end)).
Proof.
  intros Hf. cbn zeta. destruct w as [fs c cs rs lg]. cbn in Hf. subst fs. unfold on_tls_init.
  eapply runs_bind; [exact (ssl_context_outcome (Host (None :: f :: l) c cs rs lg))|].
  eapply runs_bind; [|apply wp_ret; done]. destruct f as [x|].
  - eapply runs_try_throws; [apply (attempt_outcome _ (Host (Some x :: l) _ _ _ _))|]. apply runs_call; [done|]. intros [] w' ->.
    split; [done|]. unfold logs, new_context, pop_fault. cbn. by rewrite <- !app_assoc.
  - apply runs_try_returns. eapply wp_mono; [apply (attempt_outcome _ (Host (None :: l) _ _ _ _))|]. intros o w' [-> ->].
    split; [done|]. unfold logs, new_context, pop_fault. cbn. by rewrite <- !app_assoc.
Qed.

(** The socket is used only if both options could be accessed: a failure of
    either call leaves the handler as an exception. *)
Lemma on_socket_init_outcome w :
  wp AsioP on_socket_init w (fun o w' =>
    o = match faults w with
        | Some x :: _ | None :: Some x :: _ => Stops (Thrown x)
        | _ => Returns tt
        end).
Proof.
  destruct w as [fs c cs rs lg]. apply wp_bind. eapply wp_mono; [apply attempt_outcome|].
  intros o w' [-> ->]. destruct fs as [|[x|] fs]; cbn [next_fault hd faults]; [|done|];
    (eapply wp_mono; [apply attempt_outcome|]); intros o w' [-> _]; [done|]. by destruct fs as [|[] fs].
Qed.

(** The same without TLS. *)
Lemma on_socket_init_tcp_outcome w :
  wp AsioP on_socket_init_tcp w (fun o w' =>
    o = match faults w with
        | Some x :: _ | None :: Some x :: _ => Stops (Thrown x)
        | _ => Returns tt
        end).
Proof. apply on_socket_init_outcome. Qed.

End programs.
