(* ===== verification/Sim.v ===== *)
(** * An environment that keeps the protocol

    [sim] answers every call of the system interface on a [world]; it is a
    lawful environment of [NetP], so that the protocol can be kept, and every
    theorem about [NetP] is one about executions in [sim]. *)

From S2P Require Import Prelude CInt Prog Text Double Sys Controller.
From ITree Require Import ITree.
From Stdlib Require Import Floats.SpecFloat.
Local Open Scope Z_scope.

(** A block of memory nobody wrote to. *)
Fixpoint zeros (n : nat) : string := match n with O => "" | S n => String (to_char 0) (zeros n) end.

Lemma length_zeros n : String.length (zeros n) = n.
Proof. induction n as [|n IH]; [done|]. cbn. by rewrite IH. Qed.

Definition sim : handler sysE world := fun X e w =>
  match e in sysE X return option (X * world) with
  | NewMsg => Some (fresh_msg w, w)
  | ZMsgInit m => Some (0, set_live (<[m := ""]> (live w)) w)
  | ZMsgInitSize m n => Some (0, set_live (<[m := zeros (Z.to_nat n)]> (live w)) w)
  | ZMsgData m => Some (m, w)
  | ZMsgSize m => Some (Z.of_nat (String.length (default "" (live w !! m))), w)
  | ZMsgClose m => Some (0, set_live (delete m (live w)) w)
  | ZMsgSend m s flags =>
      match head_fault (send_faults w) with
      | Some e =>
          Some (-1, set_errno e (set_send_faults (tail (send_faults w)) (emit (ASendFailed s e) w)))
      | None =>
          let b := default "" (live w !! m) in
          Some (Z.of_nat (String.length b),
                set_live (<[m := ""]> (live w)) (set_send_faults (tail (send_faults w))
                  (emit (ASend s (bool_decide (flags = ZMQ_SNDMORE)) b) w)))
      end
  | ZMsgRecv m s _ | ZRecvmsg s m _ =>
      match arrivals w !! s with
      | Some (Frame b :: l) =>
          Some (Z.of_nat (String.length b),
                set_live (<[m := b]> (live w)) (pop_arrivals s l (emit (ARecv s b) w)))
      | Some (TimedOut :: l) => Some (-1, set_errno EAGAIN (pop_arrivals s l w))
      | Some (Failed e :: l) => Some (-1, set_errno e (pop_arrivals s l w))
      | _ => None
      end
  | ZErrno => Some (errno w, w)
  | ZStrerror _ => Some ("error", w)
  | MemWrite p bytes => Some (tt, set_live (<[p := bytes]> (live w)) w)
  | MemRead p _ => Some (default "" (live w !! p), w)
  | Cout s => Some (tt, emit (ACout s) w)
  | Sleep n => Some (tt, emit (ASleep n) w)
  | Srand => Some (tt, w)
  | Rand => match randoms w with x :: l => Some (x, set_randoms l w) | [] => None end
  | ZCtxNew => Some (1, w)
  | ZCtxSet _ _ v => Some (0, emit (AContext v) w)
  | ZCtxDestroy _ => Some (0, emit ACtxClose w)
  | ZSocket _ t => Some (sockets w + 1, new_socket (emit (ASocket (sockets w + 1) t) w))
  | ZClose s => Some (0, emit (AClose s) w)
  | ZBind s a => Some (0, emit (ABind s a) w)
  | ZConnect s a => Some (0, emit (AConnect s a) w)
  | ZSocketMonitor s a evs => Some (0, emit (AMonitor s a evs) w)
  | ZSetsockopt s o v => Some (0, emit (AOption s o (inr v)) w)
  | ZSetsockoptInt s o v => Some (0, emit (AOption s o (inl v)) w)
  | Waitpid _ _ =>
      match reaps w with
      | r :: l => Some (r, set_reaps l (emit (AReap (fst r) (snd r)) w))
      | [] => None
      end
  | Launch exec args =>
      Some (hd None (launch_faults w),
            set_launch_faults (tail (launch_faults w)) (emit (ALaunch exec args) w))
  | ClientNew id total random interval length =>
      match clients w !! List.length (objects w) with
      | Some cs =>
          let c := Z.of_nat (List.length (objects w)) in
          Some (match cs_new cs with Some e => inl e | None => inr c end,
                set_objects (objects w ++ [Constructed])
                  (emit (AClientNew c id total random interval length) w))
      | None => None
      end
  | ClientRun c uri =>
      Some ((clients w !! Z.to_nat c) ≫= cs_run, set_phase c Started (emit (AClientRun c uri) w))
  | ClientWait c =>
      Some ((clients w !! Z.to_nat c) ≫= cs_wait, set_phase c Joined (emit (AClientWait c) w))
  | ClientStats c =>
      match clients w !! Z.to_nat c with
      | Some s => Some (cs_stats s, emit (AClientStats c) w)
      | None => None
      end
  | _ => None
  end.

#[export] Instance sim_lawful : Lawful NetP sim.
Proof.
  refine {| view w := w; consistent _ := True |}.
  - intros X e w _ He. destruct e; cbn in He |- *; try done;
      try (eexists _, _; split; [reflexivity|]; done).
    + destruct He as [_ Hn]. eexists _, _. split; [reflexivity|]. split; [|done]. split; [done|].
      eexists. split; [|reflexivity]. rewrite length_zeros. lia.
    + destruct (head_fault _); eexists _, _; (split; [reflexivity|]); split_and!; lia || done.
    + destruct He as (_ & _ & a & l & ->). destruct a; eexists _, _; (split; [reflexivity|]); split_and!; lia || done.
    + destruct He as (_ & _ & a & l & ->). destruct a; eexists _, _; (split; [reflexivity|]); split_and!; lia || done.
    + destruct (randoms w); [done|]. eexists _, _. done.
    + destruct (reaps w); [done|]. eexists _, _. done.
    + destruct He as (cs & Hc & _). rewrite Hc. eexists _, _. done.
    + destruct He as (cs & _ & _ & Hc). rewrite Hc. eexists _, _. done.
  - intros X e w _ He. destruct e; try done.
    + destruct He as (_ & _ & Ha). cbn in *. by rewrite Ha.
    + destruct He as (_ & _ & Ha). cbn in *. by rewrite Ha.
    + cbn in *. by rewrite He.
Defined.

(** ** Samples as an accumulator set

    The statistics of a list of samples, as Boost documents them: of no
    samples, the minimum is the largest number and the maximum the least, and
    mean and variance are the quotient by the count; the variance is that of
    the population. *)
Definition double_le (x y : double) : bool := SFleb x y.

#[export] Instance sample_list : Accumulators double := {
  acc := list double;
  acc_empty := [];
  acc_push a x := a ++ [x];
  acc_count a := Z.of_nat (length a);
  acc_min := foldl (fun m x => if double_le x m then x else m) (DBL_MAX false);
  acc_max := foldl (fun m x => if double_le m x then x else m) (DBL_MAX true);
  acc_mean a := ddiv (foldl dadd (d_of_int 0) a) (d_of_int (Z.of_nat (length a)));
  acc_variance a :=
    let n := d_of_int (Z.of_nat (length a)) in
    let mean := ddiv (foldl dadd (d_of_int 0) a) n in
    let square x := let d := SFsub prec emax x mean in dmul d d in
    ddiv (foldl dadd (d_of_int 0) (square <$> a)) n;
}.
