(* ===== verification/Live.v ===== *)
(** * Workers with client objects

    [NetP] answers a worker's calls on its client objects from scripts of their
    outcomes.  Here the objects are there: [live_env] is an environment that
    constructs, runs and joins [telemetry_client] objects of base-client.hpp
    (files Client.v and Telemetry.v), each on a schedule of its threads, and it
    keeps [NetP].  So whatever is proved of a worker against the scripts holds
    of its executions with the objects. *)

From S2P Require Import Prelude CInt Prog Text Double Sys Config Controller Sim Stats Client.
From S2P Require Import Telemetry TelemetryFacts Clients SessionFacts WorkerFacts.
Local Open Scope Z_scope.

Section live.
Context `{!Accumulators double} `{!Messages}.

(** ** The objects *)

(** What happens to one client object: its arguments, the connection and the
    delay [run] gets, the clock, and a schedule of its threads. *)
Record plan := Plan {
  pl_args : client_args;
  pl_hdl : Z;
  pl_delay : Z;
  pl_now : Z;
  pl_schedule : list (input + endpoint * Telemetry.event (X := client));
}.

Inductive client_object :=
| Made (x : client)
| Ran (x : client)
| Finished (s : state (X := client)).

Definition phase_of (o : client_object) : phase :=
  match o with Made _ => Constructed | Ran _ => Started | Finished _ => Joined end.

(** A worker process: the outside world, and the client objects it made. *)
Record process := Process { net : world; objs : list client_object }.

(** The object of a plan, when it is constructed and when [run] returns. *)
Definition made (p : plan) : client :=
  let a := pl_args p in
  fst (plain.telemetry_client_tls (ca_id a) (ca_messages a) (ca_random a) (ca_interval a) (ca_length a)).
Definition started (p : plan) : client :=
  fst (run (ca_uri (pl_args p)) (inr (pl_hdl p)) (pl_delay p) (pl_now p) (made p)).

Definition is_ended (p : pc) : bool := match p with Ended => true | _ => false end.

(** ** The environment *)

Section environment.
Context (plans : list plan).

Definition with_object (c : Z) (o : client_object) (v : process) : process :=
  Process (net v) (<[Z.to_nat c := o]> (objs v)).

Definition construct (id : string) (messages : Z) (random : bool) (interval length : Z) (v : process) :
    process :=
  Process (net v) (objs v ++ [Made (fst (plain.telemetry_client_tls id messages random interval length))]).

Definition run_object (c : Z) (uri : string) (v : process) : option process :=
  o ← objs v !! Z.to_nat c; p ← plans !! Z.to_nat c;
  match o with
  | Made x => Some (with_object c (Ran (fst (run uri (inr (pl_hdl p)) (pl_delay p) (pl_now p) x))) v)
  | _ => None
  end.

(** [wait] returns when the schedule has ended the telemetry thread. *)
Definition join_object (c : Z) (v : process) : option process :=
  o ← objs v !! Z.to_nat c; p ← plans !! Z.to_nat c;
  match o with
  | Ran x =>
      _ ← wait x;
      s ← run_schedule (pl_schedule p) (State Entry x []);
      if is_ended (thread s) then Some (with_object c (Finished s) v) else None
  | _ => None
  end.

Definition object_line (c : Z) (v : process) : option string :=
  o ← objs v !! Z.to_nat c;
  match o with Finished s => get_stats (self s) | _ => None end.

(** The outside world only records the calls of client objects. *)
Definition recorded {X} (e : sysE X) (v : process) : option process :=
  option_map (fun r => Process (snd r) (objs v)) (sim X e (net v)).

(** The calls of a client object are executed on the object. *)
Definition live_env : handler sysE process := fun X e v =>
  match e in sysE X return option (X * process) with
  | ClientNew id messages random interval length =>
      option_map (fun v => (inr (Z.of_nat (List.length (objs v))),
                            construct id messages random interval length v))
        (recorded (ClientNew id messages random interval length) v)
  | ClientRun c uri => option_map (pair None) (v ← recorded (ClientRun c uri) v; run_object c uri v)
  | ClientWait c => option_map (pair None) (v ← recorded (ClientWait c) v; join_object c v)
  | ClientStats c =>
      v ← recorded (ClientStats c) v;
      option_map (fun line => (inr line, v)) (object_line c v)
  | e => option_map (fun r => (fst r, Process (snd r) (objs v))) (sim _ e (net v))
  end.

(** ** It keeps the protocol *)

(** The plan ends the telemetry thread, and the object then prints [line]. *)
Definition prints (p : plan) (line : string) : Prop :=
  exists s, run_schedule (pl_schedule p) (State Entry (started p) []) = Some s /\
    thread s = Ended /\ get_stats (self s) = Some line.

Definition ends_well (p : plan) : Prop :=
  exists s, run_schedule (pl_schedule p) (State Entry (started p) []) = Some s /\
    thread s = Ended /\ is_Some (get_stats (self s)).

Definition line_of (p : plan) : string :=
  default "" (s ← run_schedule (pl_schedule p) (State Entry (started p) []); get_stats (self s)).

Lemma ends_well_prints p : ends_well p -> prints p (line_of p).
Proof.
  intros (s & Hs & He & line & Hl). exists s. split; [done|]. split; [done|].
  unfold line_of. rewrite Hs. cbn [mbind option_bind]. by rewrite Hl.
Qed.

(** How far the object of a plan has come. *)
Definition object_of (p : plan) (o : client_object) : Prop :=
  match o with
  | Made x => x = made p
  | Ran x => x = started p
  | Finished s => run_schedule (pl_schedule p) (State Entry (started p) []) = Some s
  end.

Record coherent (v : process) : Prop := {
  coh_scripts : Forall2 (fun p cs => exists line, prints p line /\ cs = good_client (pl_args p) line)
    plans (clients (net v));
  coh_phases : objects (net v) = phase_of <$> objs v;
  coh_objects : forall i o, objs v !! i = Some o -> exists p, plans !! i = Some p /\ object_of p o;
}.

Definition on_client {X} (e : sysE X) : bool :=
  match e with
  | ClientNew _ _ _ _ _ | ClientRun _ _ | ClientWait _ | ClientStats _ => true
  | _ => false
  end.

(** The other calls do not concern the client objects. *)
Lemma sim_frame X (e : sysE X) w x w' :
  on_client e = false -> sim X e w = Some (x, w') -> clients w' = clients w /\ objects w' = objects w.
Proof.
  destruct e; try done; cbn; intros _ Hs; repeat (case_match; try done); by injection Hs as <- <-.
Qed.

Lemma live_other X (e : sysE X) v : on_client e = false ->
  live_env X e v = option_map (fun r => (fst r, Process (snd r) (objs v))) (sim X e (net v)).
Proof. by destruct e. Qed.

Lemma coherent_client v c ph cs :
  coherent v -> client_at (net v) c ph cs ->
  exists p line o, plans !! Z.to_nat c = Some p /\ prints p line /\ cs = good_client (pl_args p) line /\
    objs v !! Z.to_nat c = Some o /\ phase_of o = ph /\ object_of p o.
Proof.
  intros [Hs Hp Ho] (_ & Hph & Hcs). rewrite Hp, list_lookup_fmap in Hph.
  apply fmap_Some in Hph as (o & Hob & ->). destruct (Ho _ _ Hob) as (p & Hpl & Hpo).
  destruct (Forall2_lookup_r _ _ _ _ _ Hs Hcs) as (p' & Hpl' & line & Hl & ->).
  rewrite Hpl in Hpl'. injection Hpl' as <-. by exists p, line, o.
Qed.

(** The object of client [c] moves on. *)
Lemma coherent_phase v c p o a :
  coherent v -> plans !! Z.to_nat c = Some p -> object_of p o ->
  coherent (Process (set_phase c (phase_of o) (emit a (net v))) (<[Z.to_nat c := o]> (objs v))).
Proof.
  intros [Hs Hp Ho] Hpl Hpo. split; cbn [net objs]; [exact Hs| |].
  - unfold set_phase. cbn. by rewrite Hp, list_fmap_insert.
  - intros i o' [(<- & -> & _)|[_ Hi]]%list_lookup_insert_Some; eauto.
Qed.

Lemma coherent_new v cs a id messages random interval length :
  coherent v -> clients (net v) !! List.length (objects (net v)) = Some cs ->
  cs_args cs = ClientArgs id messages random interval length (ca_uri (cs_args cs)) ->
  coherent (construct id messages random interval length
    (Process (set_objects (objects (net v) ++ [Constructed]) (emit a (net v))) (objs v))) /\
  cs_new cs = None.
Proof.
  intros [Hs Hp Ho] Hcs Ha. rewrite Hp, List.length_map in Hcs.
  destruct (Forall2_lookup_r _ _ _ _ _ Hs Hcs) as (p & Hpl & line & _ & ->). split; [|done].
  cbn in Ha. split; cbn [construct net objs]; [exact Hs| |].
  - cbn. by rewrite Hp, fmap_app.
  - intros i o [Hi|[Hi Hi']]%lookup_app_Some; [eauto|].
    apply list_lookup_singleton_Some in Hi' as [Hi' <-].
    exists p. split; [rewrite <- Hpl; f_equal; lia|]. cbn. unfold made. by rewrite Ha.
Qed.

Lemma live_answer X (e : sysE X) v : coherent v -> net_enabled e (net v) ->
  exists x v', live_env X e v = Some (x, v') /\ net_contract e (net v) x (net v') /\ coherent v'.
Proof.
  intros Hv He. destruct (on_client e) eqn:Hc.
  - destruct e; try done; cbn in He.
    + destruct He as (cs & Hcs & Ha).
      destruct (coherent_new v cs (AClientNew (Z.of_nat (List.length (objects (net v)))) id messages random
        interval length) _ _ _ _ _ Hv Hcs Ha) as [Hnew Hn].
      cbn [live_env recorded sim option_map]. unfold recorded. cbn [sim]. rewrite Hcs. cbn.
      eexists _, _. split; [reflexivity|]. split; [|exact Hnew]. cbn. rewrite Hcs, Hn.
      split; [|done]. by rewrite (coh_phases _ Hv), List.length_map.
    + destruct He as (cs & Hat & Hu).
      destruct (coherent_client _ _ _ _ Hv Hat) as (p & line & o & Hpl & Hpr & -> & Hob & Hph & Hof).
      destruct Hat as (_ & _ & Hcs). destruct o as [x| |]; try done.
      change (x = made p) in Hof. cbn in Hu. subst x uri.
      eexists _, _. split.
      { cbn. unfold run_object. cbn [objs]. rewrite Hob. cbn. rewrite Hpl. reflexivity. }
      cbn [net with_object net_contract snd]. rewrite Hcs. split; [done|].
      by apply (coherent_phase v c p (Ran (started p))).
    + destruct He as (cs & Hat).
      destruct (coherent_client _ _ _ _ Hv Hat) as (p & line & o & Hpl & (s & Hs & Hend & _) & -> & Hob & Hph & Hof).
      destruct Hat as (_ & _ & Hcs). destruct o as [|x|]; try done.
      change (x = started p) in Hof. subst x.
      eexists _, _. split.
      { cbn [live_env recorded sim option_map mbind option_bind]. unfold recorded. cbn [sim option_map].
        cbn [mbind option_bind]. unfold join_object. cbn [objs mbind option_bind]. rewrite Hob.
        cbn [mbind option_bind]. rewrite Hpl. cbn [mbind option_bind].
        change (wait (started p)) with (Some tt). cbn [mbind option_bind]. rewrite Hs.
        cbn [mbind option_bind]. rewrite Hend. reflexivity. }
      cbn [net with_object net_contract snd]. rewrite Hcs. split; [done|].
      by apply (coherent_phase v c p (Finished s)).
    + destruct He as (cs & Hat).
      destruct (coherent_client _ _ _ _ Hv Hat) as (p & line & o & Hpl & (s & Hs & _ & Hl) & -> & Hob & Hph & Hof).
      destruct Hat as (_ & _ & Hcs). destruct o as [| |s']; try done.
      unfold object_of in Hof. rewrite Hs in Hof. injection Hof as <-.
      eexists _, _. split.
      { cbn. unfold recorded. cbn. rewrite Hcs. cbn [option_map mbind option_bind].
        unfold object_line. cbn [objs]. rewrite Hob. cbn [mbind option_bind]. rewrite Hl. reflexivity. }
      cbn [net net_contract snd]. rewrite Hcs. split; [done|]. destruct Hv as [H1 H2 H3]. by split.
  - rewrite live_other by done. destruct (lawful_answer (Lawful := sim_lawful) X e (net v) I He) as (x & w & Hx & Hk & _).
    cbn in Hx, Hk. rewrite Hx. cbn. eexists _, _. split; [reflexivity|]. split; [done|].
    destruct (sim_frame X e (net v) x w Hc Hx) as [H1 H2]. destruct Hv as [Hs Hp Ho].
    split; cbn; [by rewrite H1|by rewrite H2|done].
Qed.

Lemma live_block X (e : sysE X) v : coherent v -> net_blocked e (net v) -> live_env X e v = None.
Proof.
  intros _ He. destruct (on_client e) eqn:Hc; [by destruct e|]. rewrite live_other by done.
  pose proof (lawful_block (Lawful := sim_lawful) X e (net v) I He) as Hb. cbn in Hb. by rewrite Hb.
Qed.

#[export] Instance live_lawful : Lawful NetP live_env :=
  Build_Lawful sysE process world NetP live_env net coherent live_answer live_block.

(** What is proved of a program against [NetP] holds of its execution with the
    objects. *)
Lemma live_sound {A} (m : M sysE A) v Q :
  coherent v -> wp NetP m (net v) Q ->
  exists fuel o v', Prog.run live_env fuel m v = (Some o, v') /\ Q o (net v') /\ coherent v'.
Proof. intros Hv Hm. exact (wp_sound (Lawful0 := live_lawful) NetP live_env m v Q Hv Hm). Qed.

End environment.

(** A process that will run a worker with these clients. *)
Definition with_clients (l : list client_script) (w : world) : world :=
  World (live w) (arrivals w) (errno w) (send_faults w) (sockets w) (reaps w) (randoms w)
        (launch_faults w) l [] (trace w).
Definition new_process (w : world) (ps : list plan) : process :=
  Process (with_clients ((fun p => good_client (pl_args p) (line_of p)) <$> ps) w) [].

Lemma new_process_coherent w ps : Forall ends_well ps -> coherent ps (new_process w ps).
Proof.
  intros Hps. split; cbn; [|done|done].
  induction Hps as [|p ps Hp _ IH]; [constructor|]. cbn. constructor; [|exact IH].
  exists (line_of p). split; [by apply ends_well_prints|done].
Qed.

(** The objects of a process whose clients were all joined. *)
Definition finished_with (o : client_object) (line : string) : Prop :=
  exists s, o = Finished s /\ thread s = Ended /\ get_stats (self s) = Some line.

Lemma joined_objects v ps :
  coherent ps v -> Forall ends_well ps -> objects (net v) = replicate (List.length ps) Joined ->
  Forall2 finished_with (objs v) (line_of <$> ps).
Proof.
  intros [_ Hp Ho] Hps Hj. rewrite Hp in Hj.
  assert (List.length (objs v) = List.length ps) as Hlen
    by (by rewrite <- (length_replicate (List.length ps) Joined), <- Hj, List.length_map).
  apply Forall2_same_length_lookup_2; [by rewrite length_fmap|].
  intros i o line Hob Hl. apply list_lookup_fmap_Some in Hl as (p & -> & Hpl).
  destruct (Ho i o Hob) as (p' & Hpl' & Hof). rewrite Hpl in Hpl'. injection Hpl' as <-.
  pose proof (proj1 (Forall_lookup _ _) Hps i p Hpl) as Hw.
  destruct (ends_well_prints p Hw) as (s & Hs & He & Hline).
  assert (phase_of o = Joined) as Hph.
  { pose proof (f_equal (lookup i) Hj) as Hi. rewrite list_lookup_fmap, Hob in Hi.
    symmetry in Hi. apply lookup_replicate in Hi as [Hi _]. done. }
  destruct o as [| |s']; try done. unfold object_of in Hof. rewrite Hs in Hof. injection Hof as <-.
  by exists s.
Qed.

(** ** Sessions *)

(** The client of the plan has a server that echoes every message of the
    configuration. *)
Definition echoed (c : config) (p : plan) : Prop :=
  exists first now rounds last, pl_schedule p = whole_session first now rounds last /\
    ca_messages (pl_args p) = messages c /\ Z.of_nat (List.length rounds) = messages c /\
    Forall (fun it : input * Z => forall hdl, i_endpoint (fst it) hdl = 0) rounds.

Context `{!CountLaws}.

(** It ends with a line that the controller counts as succeeded. *)
Lemma echoed_line `{!Arith D} c p : echoed c p -> in_int (messages c) ->
  ends_well p /\ succeeded c (parse_result (D := D) (line_of p)) = true /\
  line_count (parse_result (D := D) (line_of p)) = messages c.
Proof.
  intros (first & now & rounds & last & Hp & Ha & Hl & Hr) Hin.
  destruct (completed_session (D := D) c (messages c) (started p) rounds first now last)
    as (s & stats & Hs & He & Hst & Hsu & Hc); try done.
  { rewrite <- Ha. apply (base_client_fresh (ca_id (pl_args p)) _ (ca_random (pl_args p))
      (ca_interval (pl_args p)) (ca_length (pl_args p))). }
  rewrite <- Hp in Hs. split; [by exists s|].
  unfold line_of. rewrite Hs. cbn [mbind option_bind]. by rewrite Hst.
Qed.

Lemma echoed_ends_well c p : echoed c p -> in_int (messages c) -> ends_well p.
Proof. intros He Hin. by destruct (echoed_line (D := double) c p He Hin). Qed.

End live.

(** The lists of samples of [Sim] count them. *)
#[export] Instance sample_count : CountLaws.
Proof. split; [done|]. intros a x. cbn. rewrite length_app. cbn. lia. Qed.
