(* ===== verification/ControllerTheorems.v ===== *)
(** * The controller: theorems

    Its complete run, its synchronisation and collection loops, the counters
    it keeps and the statistics it reports. *)

From S2P Require Import Prelude CInt Prog Text Double Sys Zmq ZHelpers Config Controller Sync.
From S2P Require Import Collect ControllerRun Stats Sim.
From Stdlib Require Import QArith Qcanon Floats.SpecFloat.
Local Open Scope Z_scope.

(** ** Concrete inputs *)

(** A process that just started, with what its sockets will deliver. *)
Definition booted (a : list (Z * list arrival)) : world :=
  World ∅ (list_to_map a) 0 [] 0 [] [] [] [] [] [].

(** The same with [n] open sockets. *)
Definition connected (n : Z) (a : list (Z * list arrival)) : world :=
  World ∅ (list_to_map a) 0 [] n [] [] [] [] [] [].

(** The exact counterpart of [sample_list]. *)
#[local] Instance sample_list_Qc : Accumulators Qc := {
  acc := list Qc;
  acc_empty := [];
  acc_push a x := a ++ [x];
  acc_count a := Z.of_nat (length a);
  acc_min a := hd 0%Qc a;
  acc_max a := hd 0%Qc a;
  acc_mean := Qc_mean;
  acc_variance := population_variance;
}.

Definition small_config : config := set_machines 2 (Config 1 2 1 1 12 10 0 true true).

Definition demo_messages : list message :=
  [Result "success 12 1.5 9 4.25 2.5 20.5"; Finished "a" "0"; Result "fail 3 1 2 1.5 0.25 30";
   Finished "b" "0"; Finished "c" "256"].

(** The double [m * 2^e], and what [demo_messages] come to. *)
Definition num (m : positive) (e : Z) : double := S754_finite false m e.
Definition demo_tally : tally double :=
  Tally 2 1 2 1 1 (num 7810930603720704 (-47)) (num 7881299347898368 (-48)) 15 2
    [num 5770237022568448 (-48); num 8444249301319680 (-48)].

(** ** The run of the controller *)

(** C1: the whole of [main].  With 17 listeners and 1700 workers that ask for
    synchronisation, each after any number of receive timeouts, and a sink that
    delivers any sequence of results and 1700 "Finished" messages, the last one
    being one, the controller returns 0 without leaking a message, and what it
    sends, receives and prints is the stated trace, with the tally of the
    messages as its report. *)
Theorem controller_main `{!Accumulators double} l1 l2 ms m t variance rest1 rest2 rest w :
  initial w ->
  length l1 = 17%nat -> length l2 = 1700%nat ->
  finished_in (ms ++ [m]) = 1700 -> is_finished m = true ->
  tally_messages conf16 127500 (ms ++ [m]) tally0 = Some t -> overallVariance t = Some variance ->
  arrivals w !! 2 = Some (handshakes l1 ++ rest1) ->
  arrivals w !! 3 = Some (handshakes l2 ++ rest2) ->
  arrivals w !! 4 = Some (frames (ms ++ [m]) ++ rest) ->
  wp NetP main w (fun o w' =>
    o = Returns 0 /\ live w' = live w /\
    trace w' = trace w ++ main_actions l1 l2 (ms ++ [m]) t variance).
Proof. apply wp_main. Qed.

Definition run_peers (n : nat) : list (nat * string) := replicate n (1%nat, "").
Definition run_messages : list message :=
  Result "success 12 1.5 9 4.25 2.5 20.5" :: replicate 1699 (Finished "" "0").
Definition run_world : world :=
  booted [(2, handshakes (run_peers 17) ++ []); (3, handshakes (run_peers 1700) ++ []);
          (4, frames (run_messages ++ [Finished "" "0"]) ++ [])].

Definition run_tally : tally double :=
  Tally 1700 0 1 0 1 (num 7177611906121728 (-47)) (num 7740561859543040 (-48)) 12 1
    [num 5770237022568448 (-48)].

Lemma controller_main_witness :
  exists t variance, wp NetP main run_world (fun o w' =>
    o = Returns 0 /\ live w' = live run_world /\
    trace w' = trace run_world ++
      main_actions (run_peers 17) (run_peers 1700) (run_messages ++ [Finished "" "0"]) t variance).
Proof.
  exists run_tally, (num 5629499534213120 (-51)).
  apply (controller_main (run_peers 17) (run_peers 1700) run_messages (Finished "" "0") _ _ [] [] []);
    try by_compute. split; reflexivity.
Defined.

(** C2: collecting is a fold.  However the parts of the messages are read, the
    loop returns the fold of the specification over whole messages, exactly
    when all processes of all machines are reported, and leaves at most the
    empty last part of the last message unread. *)
Theorem collect_refines `{!Arith D} `{!Accumulators D} receiver c n total ms m t rest w :
  clients_expected c = Some n -> results_expected c = Some total ->
  finished_in (ms ++ [m]) = n -> is_finished m = true ->
  open_socket receiver w -> arrivals w !! sptr receiver = Some (frames (ms ++ [m]) ++ rest) ->
  tally_messages c total (ms ++ [m]) tally0 = Some t ->
  runs NetP (collect receiver c) w (Returns t)
    (after (sptr receiver) (Frame "" :: rest) (errno w) (collect_actions receiver (ms ++ [m])) w).
Proof.
  intros Hn Htot Hf Hm Hs Ha Ht. eapply runs_bind; [by apply runs_defined|].
  assert (Frame "" :: rest = (Frame <$> leftover m) ++ rest) as -> by by destruct m.
  eapply (collect_from c total receiver n); try done.
Qed.

Lemma collect_refines_witness :
  exists t : tally double, connectionsSucceeded t = 1 /\
  runs NetP (collect (Socket 1 None) (set_machines 3 (Config 1 1 1 1 12 10 0 true true)))
    (connected 1 [(1, frames demo_messages)]) (Returns t)
    (after 1 [Frame ""] 0 (collect_actions (Socket 1 None) demo_messages)
       (connected 1 [(1, frames demo_messages)])).
Proof.
  exists demo_tally.
  split; [by_compute|].
  apply (collect_refines (Socket 1 None) _ 3 3 (take 4 demo_messages) (Finished "c" "256") _ []);
    try by_compute. done.
Defined.

(** C3: collecting waits.  As long as one process has not been reported, the
    loop goes on receiving and never returns: an iteration whose processes do
    not all end blocks the controller. *)
Theorem collect_blocks `{!Arith D} `{!Accumulators D} receiver c n total ms t w :
  clients_expected c = Some n -> results_expected c = Some total ->
  finished_in ms < n ->
  open_socket receiver w -> arrivals w !! sptr receiver = Some (frames ms) ->
  tally_messages c total ms tally0 = Some t ->
  exists w', runs NetP (collect receiver c) w Waits w'.
Proof.
  intros Hn Htot Hf Hs Ha Ht.
  edestruct (collect_waits c total receiver n Hn ms tally0) as [w' Hw]; try done.
  exists w'. eapply runs_bind; [by apply runs_defined|exact Hw].
Qed.

Lemma collect_blocks_witness :
  exists w', runs NetP (collect (D := double) (Socket 1 None) small_config)
    (connected 1 [(1, frames demo_messages)]) Waits w'.
Proof.
  apply (collect_blocks (Socket 1 None) small_config 4 4 demo_messages demo_tally); try by_compute; done.
Defined.

(** ** Synchronisation *)

(** C4: synchronising the listeners.  Whatever number of timeouts precedes
    each request, the loop answers exactly one request per machine, invites
    once per timeout, keeps the request-reply order, and reads nothing more. *)
Theorem sync_listeners_serves publisher syncservice c l rest w :
  in_int (machines c) -> machines c = Z.of_nat (length l) ->
  ready publisher syncservice w ->
  arrivals w !! sptr syncservice = Some (handshakes l ++ rest) ->
  runs NetP (sync_listeners publisher syncservice c) w (Returns (machines c))
    (after (sptr syncservice) rest (errno_after l (errno w))
       (sync_listeners_actions publisher syncservice l) w).
Proof. apply sync_listeners_returns. Qed.

Lemma sync_listeners_serves_witness :
  runs NetP (sync_listeners (Socket 1 None) (Socket 2 None) small_config)
    (connected 2 [(2, handshakes [(2%nat, "x"); (0%nat, "y")] ++ [TimedOut])]) (Returns 2)
    (after 2 [TimedOut] EAGAIN
       (sync_listeners_actions (Socket 1 None) (Socket 2 None) [(2%nat, "x"); (0%nat, "y")])
       (connected 2 [(2, handshakes [(2%nat, "x"); (0%nat, "y")] ++ [TimedOut])])).
Proof.
  apply (sync_listeners_serves (Socket 1 None) (Socket 2 None) small_config
           [(2%nat, "x"); (0%nat, "y")] [TimedOut]);
    try by_compute; done.
Defined.

(** Synchronising the workers, likewise: one answered request per process
    of each machine. *)
Lemma sync_processes_serves publisher service c n l rest w :
  clients_expected c = Some n -> n = Z.of_nat (length l) ->
  ready publisher service w ->
  arrivals w !! sptr service = Some (handshakes l ++ rest) ->
  runs NetP (sync_processes publisher service c) w (Returns n)
    (after (sptr service) rest (errno_after l (errno w))
       (sync_processes_actions publisher service l) w).
Proof. apply sync_processes_returns. Qed.

Lemma sync_processes_serves_witness :
  runs NetP (sync_processes (Socket 1 None) (Socket 2 None) small_config)
    (connected 2 [(2, handshakes (run_peers 4) ++ [])]) (Returns 4)
    (after 2 [] EAGAIN (sync_processes_actions (Socket 1 None) (Socket 2 None) (run_peers 4))
       (connected 2 [(2, handshakes (run_peers 4) ++ [])])).
Proof.
  apply (sync_processes_serves (Socket 1 None) (Socket 2 None) small_config 4 (run_peers 4) []);
    try by_compute; done.
Defined.

(** C6: a missing listener blocks the controller: it goes on inviting, once
    per timeout, and does not leave the loop. *)
Theorem sync_listeners_blocks publisher syncservice c l k w :
  in_int (machines c) -> Z.of_nat (length l) < machines c ->
  ready publisher syncservice w ->
  arrivals w !! sptr syncservice = Some (handshakes l ++ replicate k TimedOut) ->
  exists w', runs NetP (sync_listeners publisher syncservice c) w Waits w' /\
    trace w' = trace w ++ sync_listeners_actions publisher syncservice l ++
      invitations publisher "HELLO_LISTENER" sync_say (Z.of_nat (length l)) k ++
      sync_say (Z.of_nat (length l)).
Proof.
  intros Hi Hlt Hr Ha. unfold sync_listeners.
  apply (poll_waits publisher syncservice "HELLO_LISTENER" (machines c) sync_say); try done.
  intros i w0 o w' Hlim. by apply (sync_listeners_round publisher c).
Qed.

Lemma sync_listeners_blocks_witness :
  exists w', runs NetP (sync_listeners (Socket 1 None) (Socket 2 None) small_config)
    (connected 2 [(2, handshakes [(0%nat, "x")] ++ replicate 3 TimedOut)]) Waits w' /\
    trace w' = [] ++ sync_listeners_actions (Socket 1 None) (Socket 2 None) [(0%nat, "x")] ++
      invitations (Socket 1 None) "HELLO_LISTENER" sync_say 1 3 ++ sync_say 1.
Proof.
  apply (sync_listeners_blocks (Socket 1 None) (Socket 2 None) small_config [(0%nat, "x")] 3);
    try by_compute; done.
Defined.

(** ** The counters and the statistics *)

(** C7: the counters.  If every result line assigns the variables the code
    reads, and the messages and samples are no more than an int can count, then
    no counter overflows, the processes are counted by their exit status, every
    result is received and either succeeded or died, it succeeded exactly if it
    is of type "success" with the configured number of messages, and the
    samples are summed over the results that have any. *)
Theorem tally_counts `{!Arith D} `{!Accumulators D} c total ms :
  in_int total ->
  Z.of_nat (length ms) <= INT_MAX ->
  Stats.total (fun r => Z.max 0 (line_count r)) (lines ms) <= INT_MAX ->
  Forall (fun r => complete r = true) (lines (D := D) ms) ->
  exists t : tally D, tally_messages c total ms tally0 = Some t /\
    clientsFinished t = ended_with (fun s => bool_decide (s = "0")) ms /\
    clientsDied t = ended_with (fun s => negb (bool_decide (s = "0"))) ms /\
    resultsReceived t = Z.of_nat (length (lines (D := D) ms)) /\
    connectionsSucceeded t = Stats.total (fun r => Z.b2z (succeeded c r)) (lines (D := D) ms) /\
    connectionsSucceeded t + connectionsDied t = resultsReceived t /\
    totalcount t = Stats.total (fun r => Z.max 0 (line_count r)) (lines (D := D) ms) /\
    samples t = Stats.total (fun r => Z.b2z (has_samples r)) (lines (D := D) ms).
Proof.
  intros Hi Hl Hk Hc. pose proof (samples_nonneg (lines (D := D) ms)).
  destruct (tally_messages_defined c total ms tally0) as (t & Ht & Ha & Hf & Hd); try done.
  { unfold fits, room. cbn. lia. }
  exists t. split; [done|]. destruct Ha as [Hr Hs Hx Hn Ht' _ _]. rewrite Hf, Hd, Hr, Hs, Hx, Hn, Ht'.
  split_and!; try done. cbn. clear.
  induction (lines ms) as [|r rs IH]; [done|]. rewrite !total_cons. cbn [length].
  destruct (succeeded c r); cbn [negb Z.b2z]; lia.
Qed.

Lemma tally_counts_witness :
  exists t : tally double, tally_messages small_config 4 demo_messages tally0 = Some t /\
    clientsFinished t = 2 /\ clientsDied t = 1 /\ resultsReceived t = 2 /\
    connectionsSucceeded t = 1 /\ connectionsSucceeded t + connectionsDied t = resultsReceived t /\
    totalcount t = 15 /\ samples t = 2.
Proof.
  destruct (tally_counts (D := double) small_config 4 demo_messages)
    as (t & Ht & Hf & Hd & Hr & Hs & Hsd & Hn & Hk).
  - done.
  - done.
  - vm_compute. discriminate.
  - apply forallb_Forall. by_compute.
  - exists t. rewrite Hf, Hd, Hsd, Hr, Hs, Hn, Hk. split_and!; [exact Ht|by_compute..].
Defined.

(** C8: the mean.  Over exact numbers, when each line reports the number of
    samples of a connection, their mean and some variance, the mean message
    latency the controller prints is the mean of the samples of all
    connections together, those without samples included. *)
Theorem overall_mean_exact `{!Accumulators Qc} var c total ms xss :
  Forall2 (describes var) (lines ms) xss -> in_int total ->
  Z.of_nat (length ms + length (concat xss)) <= INT_MAX ->
  exists t, tally_messages c total ms tally0 = Some t /\ overallMean t = Qc_mean (concat xss).
Proof.
  intros Hd Hi Hb. destruct (pooled_sums var c total ms xss Hd Hi Hb) as (t & Ht & Hn & _ & Hm & _).
  exists t. split; [done|]. unfold overallMean. rewrite Hn, Hm. done.
Qed.

Definition exact_messages : list message :=
  [Result "success 2 1 3 2 2 10"; Finished "" "0"; Result "fail 0 0 0 0 0 4"; Result "success 2 5 9 7 8 9"].
Definition exact_samples : list (list Qc) := List.map (List.map Qc_of_Z) [[1; 3]; []; [5; 9]].

(** A closed equation of optional exact numbers. *)
Ltac Qc_compute := apply (f_equal Some), Qc_is_canon; vm_compute; reflexivity.

(** The lines of [exact_messages] report these samples and their variance. *)
Lemma exact_described : Forall2 (describes sample_variance) (lines exact_messages) exact_samples.
Proof.
  unfold exact_samples. cbn [List.map lines omap list_omap exact_messages].
  repeat (constructor; [split; [by eexists|split; [by_compute|]]|]).
  4: constructor.
  all: intros Hne; first [by destruct Hne|split; Qc_compute].
Qed.

Lemma overall_mean_exact_witness :
  exists t, tally_messages small_config 4 exact_messages tally0 = Some t /\
    overallMean t = Qc_mean (List.map Qc_of_Z [1; 3; 5; 9]).
Proof.
  apply (overall_mean_exact sample_variance small_config 4 exact_messages exact_samples);
    [exact exact_described|done|done].
Defined.

(** C9: the variance.  If the clients reported the unbiased variance of their
    samples, the variance the controller prints would be the pooled variance
    of the connections: the sum of the squared deviations from each
    connection's mean, over the number of samples less that of connections. *)
Theorem overall_variance_pooled `{!Accumulators Qc} c total ms xss :
  Forall2 (describes sample_variance) (lines ms) xss -> in_int total ->
  Z.of_nat (length ms + length (concat xss)) <= INT_MAX ->
  exists t, tally_messages c total ms tally0 = Some t /\
    overallVariance t =
      Some (Qc_sum (Qc_ss <$> xss) / Qc_of_Z (Z.of_nat (length (concat xss)) - sampled xss))%Qc.
Proof.
  intros Hd Hi Hb.
  destruct (pooled_sums sample_variance c total ms xss Hd Hi Hb) as (t & Ht & Hn & Hs & _ & Hv).
  exists t. split; [done|]. unfold overallVariance. rewrite Hn, Hs, Hv, sample_terms.
  pose proof (sampled_le xss). unfold sub_int. rewrite int_result_Some; [done|]. unfold sampled in *. int_lia.
Qed.

Lemma overall_variance_pooled_witness :
  exists t, tally_messages small_config 4 exact_messages tally0 = Some t /\
    overallVariance t = Some (Qc_sum (Qc_ss <$> exact_samples) / Qc_of_Z (4 - 2))%Qc.
Proof.
  apply (overall_variance_pooled small_config 4 exact_messages exact_samples);
    [exact exact_described|done|done].
Defined.

(** C10: what is printed.  Boost's variance is that of the population: if all
    connections have [n] samples, the variance the controller prints is the
    pooled one times (n - 1)/n. *)
Theorem overall_variance_shrunk `{!Accumulators Qc} c total ms xss n :
  Forall2 (describes population_variance) (lines ms) xss -> in_int total ->
  Z.of_nat (length ms + length (concat xss)) <= INT_MAX ->
  n <> 0%nat -> Forall (fun xs => length xs = n) xss ->
  exists t v, tally_messages c total ms tally0 = Some t /\ overallVariance t = Some v /\
    (v * Qc_of_Z (Z.of_nat n) = Qc_of_Z (Z.of_nat n - 1) *
      (Qc_sum (Qc_ss <$> xss) / Qc_of_Z (Z.of_nat (length (concat xss)) - sampled xss)))%Qc.
Proof.
  intros Hd Hi Hb Hn Hall.
  destruct (pooled_sums population_variance c total ms xss Hd Hi Hb) as (t & Ht & Hc & Hs & _ & Hv).
  exists t. eexists. split; [done|]. unfold overallVariance. rewrite Hc, Hs.
  pose proof (sampled_le xss). unfold sub_int.
  rewrite int_result_Some by (unfold sampled in *; int_lia). split; [reflexivity|].
  rewrite Hv. pose proof (population_terms n xss Hn Hall) as Hp.
  change (ddiv ?a ?b) with (a * / b)%Qc. change (d_of_int ?z) with (Qc_of_Z z). unfold Qcdiv.
  rewrite <- Qcmult_assoc, (Qcmult_comm (/ _)), Qcmult_assoc, Hp. apply eq_sym, Qcmult_assoc.
Qed.

Definition biased_messages : list message :=
  [Result "success 2 1 3 2 1 10"; Finished "" "0"; Result "success 2 5 9 7 4 9"].
Definition biased_samples : list (list Qc) := List.map (List.map Qc_of_Z) [[1; 3]; [5; 9]].

Lemma biased_described : Forall2 (describes population_variance) (lines biased_messages) biased_samples.
Proof.
  unfold biased_samples. cbn [List.map lines omap list_omap biased_messages].
  repeat (constructor; [split; [by eexists|split; [by_compute|]]|]).
  3: constructor.
  all: intros Hne; split; Qc_compute.
Qed.

Lemma overall_variance_shrunk_witness :
  exists t v, tally_messages small_config 4 biased_messages tally0 = Some t /\
    overallVariance t = Some v /\
    (v * Qc_of_Z 2 = Qc_of_Z 1 * (Qc_sum (Qc_ss <$> biased_samples) / Qc_of_Z (4 - 2)))%Qc.
Proof.
  apply (overall_variance_shrunk small_config 4 biased_messages biased_samples 2);
    [exact biased_described|done|done|done|repeat constructor].
Defined.

(** C11: the order of the messages.  Over exact numbers, the messages of the
    processes may reach the sink in any order: the counters, the mean and the
    variance the controller reports are the same. *)
Theorem tally_order_irrelevant `{!Accumulators Qc} c total ms ms' :
  Permutation ms ms' -> in_int total -> Z.of_nat (length ms) <= INT_MAX ->
  Stats.total (fun r => Z.max 0 (line_count r)) (lines (D := Qc) ms) <= INT_MAX ->
  Forall (fun r => complete r = true) (lines (D := Qc) ms) ->
  exists t t' : tally Qc, tally_messages c total ms tally0 = Some t /\
    tally_messages c total ms' tally0 = Some t' /\ same_totals t t' /\
    overallMean t = overallMean t' /\ overallVariance t = overallVariance t'.
Proof.
  intros Hp Hi Hl Hk Hc. pose proof (samples_nonneg (lines (D := Qc) ms)).
  destruct (tally_messages_defined c total ms tally0) as (t & Ht & Ha & Hf & Hd); try done.
  { unfold fits, room. cbn. lia. }
  destruct (tally_messages_defined c total ms' tally0) as (t' & Ht' & Ha' & Hf' & Hd'); try done.
  { rewrite <- Hp. unfold fits, room. cbn. lia. }
  { by rewrite <- Hp. }
  assert (same_totals t t') as Hs.
  { apply (advanced_Permutation c (lines ms) (lines ms') tally0); [by rewrite Hp|done|done| |];
      rewrite ?Hf, ?Hf', ?Hd, ?Hd'; by rewrite Hp. }
  exists t, t'. do 3 (split; [done|]). by rewrite Hs.
Qed.

Lemma tally_order_irrelevant_witness :
  exists t t' : tally Qc, tally_messages small_config 4 exact_messages tally0 = Some t /\
    tally_messages small_config 4 (rev exact_messages) tally0 = Some t' /\ same_totals t t' /\
    overallMean t = overallMean t' /\ overallVariance t = overallVariance t'.
Proof.
  apply (tally_order_irrelevant small_config 4 exact_messages (rev exact_messages)); [|done|done| |].
  - apply Permutation_rev.
  - vm_compute. discriminate.
  - apply forallb_Forall. by_compute.
Defined.
