(* ===== verification/ProcessTheorems.v ===== *)
(** * Listeners and workers: theorems

    The complete runs of both kinds of process, what they report to the
    controller, and how their errors end. *)

From S2P Require Import Prelude CInt Prog Text Double Sys Zmq ZHelpers Config Controller Collect.
From S2P Require Import ControllerRun Sync Listener Worker ListenerFacts WorkerFacts Stats Sim.
From ITree Require Import ITree.
From Stdlib Require Import Floats.SpecFloat.
Local Open Scope Z_scope.

(** Create, connect or configure the next socket, and carry on. *)
Ltac next_call :=
  eapply wp_seq;
  [first [apply socket_new_runs; [done|cbn; lia]
         |apply connect_runs; unfold open_socket; cbn; lia
         |apply setsockopt_runs; unfold open_socket; cbn; lia
         |apply cout_runs]|];
  cbn [sockets new_socket emit emits Z.add Pos.add sptr].

(** ** The listener *)

Section listener_main.
Context (name address : string).

Definition subscriber_addr : string := "tcp://" +:+ address +:+ ":5561".

Definition listener_prologue (argv : list string) : list action :=
  [ACout ("Listener version 5" +:+ endl); AContext 1] ++
  match argv !! 1%nat with
  | Some _ => []
  | None => [ACout ("WARNING: need to specify coordinator address" +:+ endl)]
  end ++
  [ASocket 1 ZMQ_SUB; AConnect 1 subscriber_addr;
   AOption 1 ZMQ_SUBSCRIBE (inr "StartProcesses"); AOption 1 ZMQ_SUBSCRIBE (inr "END");
   AOption 1 ZMQ_SUBSCRIBE (inr "HELLO_LISTENER");
   ASocket 2 ZMQ_REQ; AConnect 2 ("tcp://" +:+ address +:+ ":5562");
   ASocket 3 ZMQ_PUSH; AConnect 3 ("tcp://" +:+ address +:+ ":5564")].

Definition process_epilogue : list action := [AClose 3; AClose 2; AClose 1; ACtxClose].

(** The frames a listener is sent: noise, the invitation, commands, "END". *)
Definition listener_frames (noise : list string) (cmds : list command) (fr : list arrival) :=
  (Frame <$> noise) ++ Frame "HELLO_LISTENER" :: concat (command_frames <$> cmds) ++ Frame "END" :: fr.

Definition listener_session (noise : list string) (reply : string) (cmds : list command) : list action :=
  (ARecv 1 <$> noise) ++
  [ARecv 1 "HELLO_LISTENER"; ACout (name +:+ " Sending synchronization request" +:+ endl);
   ASend 2 false ""; ARecv 2 reply] ++
  concat (command_actions name address (Socket 1 None) (Socket 3 None) <$> cmds) ++
  read_actions name (Socket 1 None) "END" ++ [ACout ("Finishing" +:+ endl)].

End listener_main.

(** C12: the whole of the listener.  Whatever it is sent before the invitation
    is ignored; it answers the invitation once, obeys every "StartProcesses" up
    to "END" (launching the processes and reporting the end of each) and
    returns 0 with its sockets and context closed. *)
Theorem listener_main argv r randoms' name noise reply l cmds fr rs' w :
  sockets w = 0 -> send_faults w = [] -> launch_faults w = [] ->
  randoms w = r :: randoms' -> listener_name r = Some name ->
  Forall (fun f => f <> "HELLO_LISTENER") noise -> Forall command_ok cmds ->
  arrivals w !! 1 = Some (listener_frames noise cmds fr) ->
  arrivals w !! 2 = Some (Frame reply :: l) ->
  reaps w = concat (command_reaps <$> cmds) ++ rs' ->
  wp NetP (Listener.main argv) w (fun o w' =>
    o = Returns 0 /\
    let address := default "localhost" (argv !! 1%nat) in
    trace w' = trace w ++ listener_prologue address argv ++
               listener_session name address noise reply cmds ++ process_epilogue).
Proof.
  intros Hs Hf Hl Hr Hname Hnoise Hcmds A1 A2 R.
  destruct w as [lv ar en sf so re ra la cl cr tr].
  cbn in Hs, Hf, Hl, Hr, A1, A2, R. subst so sf la ra re.
  unfold Listener.main. next_call. apply wp_bind, wp_context_new. intros ctx Hc. cbn beta iota.
  apply wp_bind, wp_call; [done|]. intros [] w1 ->. cbn beta iota.
  apply wp_bind, wp_call; [done|]. intros r' w2 [-> ->]. cbn beta iota.
  eapply wp_seq; [by apply runs_defined|].
  set (address := default "localhost" (argv !! 1%nat)).
  set (warning := match argv !! 1%nat with Some _ => [] | None =>
    [ACout ("WARNING: need to specify coordinator address" +:+ endl)] end).
  match goal with |- wp _ _ ?wi _ =>
    assert (runs NetP (coordinator_address argv) wi (Returns address) (emits warning wi)) as Haddr end.
  { unfold coordinator_address, address, warning. destruct (argv !! 1%nat).
    - rewrite emits_nil. apply runs_ret.
    - eapply runs_bind; [apply cout_runs|apply runs_ret]. }
  eapply wp_seq; [exact Haddr|]. cbn [sockets new_socket emit emits set_randoms].
  do 9 next_call.
  match goal with |- wp _ _ ?wi _ =>
  edestruct (listen_returns name address (Socket 1 (Some ctx)) (Socket 2 (Some ctx)) (Socket 3 (Some ctx))
    noise reply l cmds fr rs' wi) as (w' & Hrun & Htr & Hw'); [done|done|done|exact A2| |] end.
  { unfold listening, open_socket. cbn. split_and!; done || lia. }
  eapply wp_seq; [exact Hrun|]. destruct Hw' as (O1 & O2 & O3 & _).
  do 3 (eapply wp_seq; [apply socket_dtor_runs; done|]).
  eapply wp_seq; [by apply context_dtor_runs|]. apply wp_ret.
  split; [done|]. cbn [trace emit emits sptr]. rewrite Htr. cbn [trace emit emits new_socket set_randoms sptr].
  unfold listener_prologue, listener_session, process_epilogue.
  change (command_actions name address (Socket 1 (Some ctx)) (Socket 3 (Some ctx)))
    with (command_actions name address (Socket 1 None) (Socket 3 None)).
  rewrite <- !app_assoc. reflexivity.
Qed.

Definition fresh_process (a : list (Z * list arrival)) (rs : list (Z * option Z)) (rnd : list Z)
    (cs : list client_script) : world :=
  World ∅ (list_to_map a) 0 [] 0 rs rnd [] cs [] [].

Definition demo_commands : list command :=
  [Other "x"; Start 2 "" [(0, None); (101, Some 0); (0, None); (102, Some 256)]].
Definition listener_world : world :=
  fresh_process [(1, listener_frames ["noise"] demo_commands []); (2, [Frame ""])]
    (concat (command_reaps <$> demo_commands)) [10041] [].

Lemma listener_main_witness :
  wp NetP (Listener.main ["listener"; "10.0.0.1"]) listener_world (fun o w' =>
    o = Returns 0 /\
    trace w' = listener_prologue "10.0.0.1" ["listener"; "10.0.0.1"] ++
               listener_session "Client42" "10.0.0.1" ["noise"] "" demo_commands ++ process_epilogue).
Proof.
  apply (listener_main ["listener"; "10.0.0.1"] 10041 [] "Client42" ["noise"] "" [] demo_commands [] []
           listener_world); try reflexivity.
  - repeat constructor. done.
  - repeat constructor; done || (cbn; lia) || (cbn; eauto).
Defined.

(** ** What reaches the sink *)

Definition is_send (s : Z) (a : action) : bool := match a with ASend s' _ _ => s' =? s | _ => false end.
(** The parts sent to the socket [s], in order. *)
Definition sends (s : Z) (l : list action) : list action := List.filter (is_send s) l.

(** Whole messages, sent to [s]. *)
Definition posted (s : Z) (ms : list message) : list action :=
  concat ((fun m => multipart s (message_frames m)) <$> ms).

Lemma sends_app s l1 l2 : sends s (l1 ++ l2) = sends s l1 ++ sends s l2.
Proof. apply List.filter_app. Qed.

Lemma sends_message s m : sends s (multipart s (message_frames m)) = multipart s (message_frames m).
Proof. unfold sends. destruct m; cbn; by rewrite !Z.eqb_refl. Qed.

(** The messages of a listener for the waitpid results [rs]. *)
Definition listener_messages (rs : list (Z * option Z)) : list message :=
  (fun r => Finished "" (to_string (default 0 (snd r)))) <$> List.filter is_exit rs.

Lemma sends_wait name sink rs :
  sends (sptr sink) (wait_actions name sink rs) = posted (sptr sink) (listener_messages rs).
Proof.
  unfold wait_actions, listener_messages, posted. induction rs as [|r rs IH]; [done|].
  cbn [fmap list_fmap concat List.filter]. rewrite sends_app, IH. unfold reap_actions, is_exit.
  destruct (fst r =? 0); cbn [negb]; [done|]. cbn [fmap list_fmap concat]. f_equal.
  change (sends (sptr sink) (AReap ?a ?b :: ACout ?c :: ?l)) with (sends (sptr sink) l).
  apply sends_message.
Qed.

Lemma length_listener_messages rs :
  finished_in (listener_messages rs) = Z.of_nat (count_if is_exit rs).
Proof.
  unfold finished_in, listener_messages. induction rs as [|r rs IH]; [done|].
  cbn [List.filter count_if]. destruct (is_exit r); cbn; lia.
Qed.

(** C13: a listener reports each of its processes once.  Whatever waitpid
    answers in between (no child yet, any status), waiting for [n] processes
    sends the sink exactly one whole "Finished" message per process that ended,
    in the order they ended and with their status. *)
Theorem children_reported_once name subscriber syncclient sink n rs rs' w fr :
  reap_script n rs -> in_int n -> 0 <= n ->
  listening subscriber syncclient sink w fr (rs ++ rs') ->
  exists w' acts, runs NetP (wait_children name sink n) w (Returns tt) w' /\
    trace w' = trace w ++ acts /\
    sends (sptr sink) acts = posted (sptr sink) (listener_messages rs) /\
    finished_in (listener_messages rs) = n.
Proof.
  intros Hrs Hn Hpos Hl.
  destruct (wait_children_returns name subscriber syncclient sink n rs rs' w fr Hrs Hn Hl) as (w' & Hr & Ht & _).
  exists w', (wait_actions name sink rs). split_and!; [done|done|apply sends_wait|].
  rewrite length_listener_messages. destruct Hrs as (_ & Hc & _). lia.
Qed.

Lemma children_reported_once_witness :
  exists w' acts,
    runs NetP (wait_children "L" (Socket 3 None) 2)
      (World ∅ {[1 := []]} 0 [] 3 [(0, None); (7, Some 0); (8, Some 9)] [] [] [] [] []) (Returns tt) w' /\
    trace w' = [] ++ acts /\
    sends 3 acts = posted 3 [Finished "" "0"; Finished "" "9"] /\
    finished_in [Finished "" "0"; Finished "" "9"] = 2.
Proof.
  apply (children_reported_once "L" (Socket 1 None) (Socket 2 None) (Socket 3 None) 2
           [(0, None); (7, Some 0); (8, Some 9)] []
           (World ∅ {[1 := []]} 0 [] 3 [(0, None); (7, Some 0); (8, Some 9)] [] [] [] [] []) []).
  - repeat constructor; done || (cbn; lia) || (cbn; eauto).
  - done.
  - done.
  - unfold listening, open_socket. cbn. split_and!; done || lia.
Defined.

(** C14: an error of waitpid.  When waitpid fails it stores no status, and the
    listener reads the status variable all the same: undefined behaviour. *)
Theorem waitpid_error_undefined name sink n rs w :
  0 < n -> in_int n -> reaps w = (-1, None) :: rs ->
  runs NetP (wait_children name sink n) w (Stops Undefined)
    (set_reaps rs (emit (AReap (-1) None) w)).
Proof.
  intros Hn Hi R. apply wp_loop. rewrite (proj2 (Z.ltb_lt _ _)) by done.
  eapply wp_seq; [by apply waitpid_runs|]. cbn match. cbn [fst snd].
  change (-1 =? 0) with false. change (-1 =? -1) with true. cbn match.
  eapply wp_seq; [apply runs_defined; unfold sub_int; apply int_result_Some; int_lia|].
  apply wp_bind. by apply wp_halt.
Qed.

Lemma waitpid_error_undefined_witness :
  runs NetP (wait_children "L" (Socket 3 None) 1)
    (World ∅ ∅ 0 [] 3 [(-1, None)] [] [] [] [] []) (Stops Undefined)
    (World ∅ ∅ 0 [] 3 [] [] [] [] [] [AReap (-1) None]).
Proof.
  apply (waitpid_error_undefined "L" (Socket 3 None) 1 []
           (World ∅ ∅ 0 [] 3 [(-1, None)] [] [] [] [] [])); done.
Defined.








(** The waitpid results of the processes whose status satisfies [p]. *)
Definition exits_with (p : Z -> bool) (rs : list (Z * option Z)) : Z :=
  Z.of_nat (count_if (fun r => is_exit r && p (default 0 (snd r))) rs).

Lemma to_string_zero z : to_string z = "0" -> in_int z -> z = 0.
Proof.
  intros H Hz. pose proof (extract_printed z Hz) as He. rewrite H in He.
  pose proof (extract_printed 0 ltac:(done)) as H0. change (to_string 0) with "0" in H0. congruence.
Qed.

Lemma listener_messages_length rs : length (listener_messages rs) = count_if is_exit rs.
Proof.
  unfold listener_messages. rewrite length_fmap. induction rs as [|r rs IH]; [done|].
  cbn [List.filter count_if]. destruct (is_exit r); cbn; lia.
Qed.

Lemma ended_with_exits rs (f : bool -> bool) :
  Forall (fun r => in_int (default 0 (snd r))) rs ->
  ended_with (fun s => f (bool_decide (s = "0"))) (listener_messages rs) =
  exits_with (fun status => f (status =? 0)) rs.
Proof.
  unfold ended_with, exits_with, listener_messages. intros Hrs. f_equal.
  induction Hrs as [|r rs Hr _ IH]; [done|]. cbn [List.filter count_if].
  destruct (is_exit r); cbn [andb]; [|exact IH].
  cbn [fmap list_fmap count_if]. rewrite IH. do 2 f_equal.
  destruct (Z.eqb_spec (default 0 (snd r)) 0) as [->|Hne]; [done|].
  rewrite bool_decide_eq_false_2; [done|]. intros H. by apply Hne, to_string_zero.
Qed.

Lemma listener_messages_lines `{!Double.Arith D} rs : lines (D := D) (listener_messages rs) = [].
Proof. unfold listener_messages, lines. by induction (List.filter is_exit rs). Qed.

(** C33: exit statuses from listener to controller.  What a listener sends for
    the processes it waited for, the controller counts as finished for those
    that ended with status 0, and as died for all others; its counters cannot
    overflow on it. *)
Theorem exit_statuses_counted `{!Double.Arith D} `{!Accumulators D} c total name subscriber syncclient
    sink n rs rs' w fr :
  reap_script n rs -> in_int n -> 0 <= n -> in_int total ->
  Forall (fun r => in_int (default 0 (snd r))) rs ->
  listening subscriber syncclient sink w fr (rs ++ rs') ->
  exists w' acts ms t, runs NetP (wait_children name sink n) w (Returns tt) w' /\
    trace w' = trace w ++ acts /\ sends (sptr sink) acts = posted (sptr sink) ms /\
    tally_messages (D := D) c total ms tally0 = Some t /\
    clientsFinished t = exits_with (fun status => status =? 0) rs /\
    clientsDied t = exits_with (fun status => negb (status =? 0)) rs.
Proof.
  intros Hrs Hn Hpos Ht Hst Hl.
  destruct (wait_children_returns name subscriber syncclient sink n rs rs' w fr Hrs Hn Hl) as (w' & Hr & Htr & _).
  destruct (tally_messages_defined (D := D) c total (listener_messages rs) tally0) as (t & Htl & _ & Hf & Hd).
  - done.
  - destruct Hrs as (_ & Hc & _). rewrite listener_messages_length, listener_messages_lines.
    unfold fits, room. cbn. int_lia.
  - rewrite listener_messages_lines. constructor.
  - exists w', (wait_actions name sink rs), (listener_messages rs), t.
    rewrite Hf, Hd. split_and!; [done|done|apply sends_wait|done| |]; cbn [clientsFinished clientsDied tally0];
      rewrite Z.add_0_l.
    + exact (ended_with_exits rs (fun b => b) Hst).
    + exact (ended_with_exits rs negb Hst).
Qed.

Lemma exit_statuses_counted_witness :
  exists w' acts ms (t : tally Double.double), runs NetP (wait_children "L" (Socket 3 None) 2)
      (World ∅ {[1 := []]} 0 [] 3 [(0, None); (7, Some 0); (8, Some 256)] [] [] [] [] []) (Returns tt) w' /\
    trace w' = [] ++ acts /\ sends 3 acts = posted 3 ms /\
    tally_messages default_config 7500 ms tally0 = Some t /\ clientsFinished t = 1 /\ clientsDied t = 1.
Proof.
  apply (exit_statuses_counted (D := Double.double) default_config 7500 "L" (Socket 1 None) (Socket 2 None)
           (Socket 3 None) 2 [(0, None); (7, Some 0); (8, Some 256)] []
           (World ∅ {[1 := []]} 0 [] 3 [(0, None); (7, Some 0); (8, Some 256)] [] [] [] [] []) []).
  - repeat constructor; done || (cbn; lia) || (cbn; eauto).
  - done.
  - done.
  - done.
  - repeat constructor; done.
  - unfold listening, open_socket. cbn. split_and!; done || lia.
Defined.

Definition is_launch (a : action) : bool := match a with ALaunch _ _ => true | _ => false end.

Lemma filter_const {A} (p : A -> bool) f l :
  (forall a, a ∈ l -> p a = f) -> List.filter p l = if f then l else [].
Proof.
  induction l as [|a l IH]; intros H; [by destruct f|]. cbn. rewrite (H a) by left.
  rewrite IH by (intros; apply H; by right). by destruct f.
Qed.

(** C34: the request to start processes.  From the frames the controller
    publishes for a configuration, the listener reads the number of processes
    of the configuration: it launches exactly that many, numbered from 0, and
    reports the end of each. *)
Theorem processes_started name address subscriber syncclient sink c rs rs' w fr :
  in_int (processes c) -> reap_script (processes c) rs ->
  listening subscriber syncclient sink w ((Frame <$> drop 1 (start_processes_frames c)) ++ fr) (rs ++ rs') ->
  exists w' acts, runs NetP (handle_start_processes name address subscriber sink) w (Returns tt) w' /\
    trace w' = trace w ++ acts /\
    List.filter is_launch acts = launch_actions name address (processes c) /\
    sends (sptr sink) acts = posted (sptr sink) (listener_messages rs) /\
    listening subscriber syncclient sink w' fr rs'.
Proof.
  intros Hn Hrs Hl.
  destruct (handle_start_processes_runs name address subscriber syncclient sink (processes c) "" rs fr rs' w
    Hn Hrs Hl) as (w' & Hr & Ht & Hl').
  exists w', (start_actions name address subscriber sink (processes c) "" rs).
  split_and!; [done|done| | |done]; unfold start_actions.
  - rewrite !List.filter_app, (filter_const _ true (launch_actions _ _ _)),
      (filter_const _ false (wait_actions _ _ _)).
    + cbn. by rewrite app_nil_r.
    + intros a. unfold wait_actions, reap_actions, finished_actions.
      rewrite list_elem_of_In, in_concat. intros (l & Hl1 & Hl2).
      apply in_map_iff in Hl1 as (r & <- & _). destruct (fst r =? 0); cbn in Hl2; naive_solver.
    + unfold launch_actions. intros a (k & -> & _)%list_elem_of_fmap. done.
  - rewrite !sends_app, sends_wait.
    assert (sends (sptr sink) (launch_actions name address (processes c)) = []) as ->; [|done].
    apply (filter_const _ false).
    unfold launch_actions. intros a (k & -> & _)%list_elem_of_fmap. done.
Qed.

Lemma processes_started_witness :
  let c := Config 1 2 75 60 12 240 0 true true in
  let w := World ∅ {[1 := (Frame <$> drop 1 (start_processes_frames c)) ++ [Frame "END"]]} 0 [] 3
    [(7, Some 0); (0, None); (8, Some 256)] [] [] [] [] [] in
  exists w' acts, runs NetP (handle_start_processes "L" "h" (Socket 1 None) (Socket 3 None)) w (Returns tt) w' /\
    trace w' = [] ++ acts /\
    List.filter is_launch acts =
      [ALaunch "./listener-websocket" ["listener-websocket"; "L-0"; "h"];
       ALaunch "./listener-websocket" ["listener-websocket"; "L-1"; "h"]] /\
    sends 3 acts = posted 3 [Finished "" "0"; Finished "" "256"] /\
    listening (Socket 1 None) (Socket 2 None) (Socket 3 None) w' [Frame "END"] [].
Proof.
  apply (processes_started "L" "h" (Socket 1 None) (Socket 2 None) (Socket 3 None)
           (Config 1 2 75 60 12 240 0 true true) [(7, Some 0); (0, None); (8, Some 256)] []
           (World ∅ {[1 := (Frame <$> drop 1 (start_processes_frames (Config 1 2 75 60 12 240 0 true true)))
              ++ [Frame "END"]]} 0 [] 3 [(7, Some 0); (0, None); (8, Some 256)] [] [] [] [] []) [Frame "END"]).
  - done.
  - repeat constructor; done || (cbn; lia) || (cbn; eauto).
  - unfold listening, open_socket. cbn. split_and!; done || lia.
Defined.

(** ** The worker *)

(** C16: the request round trip.  The frames the controller publishes for a
    configuration, read part by part as the worker reads them, assign every
    variable of the request the value the controller has for it. *)
Theorem request_roundtrip subscriber c rest w :
  int_config c -> open_socket subscriber w ->
  arrivals w !! sptr subscriber =
    Some ((Frame <$> drop 1 (start_websockets_frames c)) ++ rest) ->
  runs NetP (receive_params subscriber 0 param_count empty_request) w (Returns (request_of c))
    (after (sptr subscriber) (Frame "" :: rest) (errno w)
       (receive_actions subscriber (parameter_frames c)) w).
Proof.
  intros Hc Hs Ha. rewrite <- (decode_parameters c Hc).
  apply (receive_params_runs subscriber (parameter_frames c) 0 empty_request (Frame "" :: rest) w Hs Ha).
Qed.

Lemma request_roundtrip_witness :
  runs NetP (receive_params (Socket 1 None) 0 param_count empty_request)
    (World ∅ {[1 := (Frame <$> drop 1 (start_websockets_frames default_config)) ++ []]} 0 [] 1 [] [] [] [] [] [])
    (Returns (Request target_uri (Some 75) (Some true) (Some true) (Some 60) (Some 12) (Some 240)))
    (after 1 [Frame ""] 0 (receive_actions (Socket 1 None) (parameter_frames default_config))
      (World ∅ {[1 := (Frame <$> drop 1 (start_websockets_frames default_config)) ++ []]} 0 [] 1 [] [] [] [] [] [])).
Proof.
  apply (request_roundtrip (Socket 1 None) default_config []
    (World ∅ {[1 := (Frame <$> drop 1 (start_websockets_frames default_config)) ++ []]} 0 [] 1 [] [] [] [] [] []));
    [unfold int_config; cbn; int_lia|done|done].
Defined.

Section worker_main.
Context (name address : string).

Definition worker_prologue : list action :=
  [AContext 1; ACout ("Starting client " +:+ name +:+ endl);
   ASocket 1 ZMQ_SUB; AConnect 1 ("tcp://" +:+ address +:+ ":5561");
   AOption 1 ZMQ_SUBSCRIBE (inr "StartWebsockets"); AOption 1 ZMQ_SUBSCRIBE (inr "HELLO_SOCKET");
   ASocket 2 ZMQ_REQ; AConnect 2 ("tcp://" +:+ address +:+ ":5563");
   ASocket 3 ZMQ_PUSH; AConnect 3 ("tcp://" +:+ address +:+ ":5564")].

(** The frames a worker is sent: noise, the invitation, other requests, the
    published request. *)
Definition worker_frames (noise fs : list string) (c : config) (fr : list arrival) : list arrival :=
  (Frame <$> noise) ++ Frame "HELLO_SOCKET" ::
  (Frame <$> fs) ++ (Frame <$> start_websockets_frames c) ++ fr.

Definition worker_session (noise : list string) (reply : string) (fs : list string) (c : config)
    (stats : list string) : list action :=
  receive_actions (Socket 1 None) (noise ++ ["HELLO_SOCKET"]) ++
  [ACout (name +:+ " Sending synchronization request" +:+ endl); ASend 2 false name; ARecv 2 reply] ++
  receive_actions (Socket 1 None) (fs ++ ["StartWebsockets"]) ++
  request_actions name (Socket 1 None) (Socket 3 None) c stats ++ [ACout (name +:+ "DONE" +:+ endl)].

End worker_main.

(** The run of a worker, with the phases of its clients. *)
Lemma worker_main_ends argv noise reply l fs c stats fr w :
  sockets w = 0 -> send_faults w = [] -> objects w = [] ->
  clients w = good_client (client_arguments (default "" (argv !! 1%nat)) c) <$> stats ->
  Forall (fun f => f <> "HELLO_SOCKET") noise -> ignored fs ->
  int_config c -> instances c = Z.of_nat (List.length stats) ->
  arrivals w !! 1 = Some (worker_frames noise fs c fr) ->
  arrivals w !! 2 = Some (Frame reply :: l) ->
  wp NetP (Worker.main argv) w (fun o w' =>
    o = Returns 0 /\ live w' = live w /\ objects w' = replicate (List.length stats) Joined /\
    let name := default "" (argv !! 1%nat) in
    let address := default "localhost" (argv !! 2%nat) in
    trace w' = trace w ++ worker_prologue name address ++
               worker_session name noise reply fs c stats ++ process_epilogue).
Proof.
  intros Hs Hf Hk Hcl Hnoise Hfs Hc Hn A1 A2.
  destruct w as [lv ar en sf so re ra la cl cr tr].
  cbn in Hs, Hf, Hk, Hcl, A1, A2. subst so sf cr cl.
  unfold Worker.main. apply wp_bind, wp_context_new. intros ctx Hctx. cbn beta iota.
  set (name := default "" (argv !! 1%nat)). set (address := default "localhost" (argv !! 2%nat)).
  do 9 next_call.
  match goal with |- wp _ _ ?wi _ =>
  edestruct (work_runs name (Socket 1 (Some ctx)) (Socket 2 (Some ctx)) (Socket 3 (Some ctx))
    noise reply l fs c stats fr wi) as (w' & Hrun & Htr & Hlive & Hso & Hob);
    [done|done|done|done|done|exact A2| |] end.
  { unfold working, open_socket. cbn. split_and!; done || lia. }
  eapply wp_seq; [exact Hrun|].
  assert (forall k, 1 <= k <= 3 -> open_socket (Socket k (Some ctx)) w') as Hopen.
  { intros k Hk. unfold open_socket. rewrite Hso. cbn. lia. }
  do 3 (eapply wp_seq; [apply socket_dtor_runs, Hopen; lia|]).
  eapply wp_seq; [by apply context_dtor_runs|]. apply wp_ret.
  split; [done|]. split; [exact Hlive|]. split; [exact Hob|].
  cbn [trace emit emits sptr]. rewrite Htr. cbn [trace emit emits new_socket sptr].
  unfold worker_prologue, worker_session, process_epilogue. fold name address.
  change (request_actions name (Socket 1 (Some ctx)) (Socket 3 (Some ctx)))
    with (request_actions name (Socket 1 None) (Socket 3 None)).
  change (receive_actions (Socket 1 (Some ctx))) with (receive_actions (Socket 1 None)).
  rewrite <- !app_assoc. reflexivity.
Qed.

(** C17: the whole of the worker.  It ignores what comes before the
    invitation, answers once with its name, ignores other requests, decodes the
    controller's request, makes, runs and awaits as many clients as it asks
    for, reports each one's statistics, and returns 0 with its sockets and
    context closed and no message leaked. *)
Theorem worker_main argv noise reply l fs c stats fr w :
  sockets w = 0 -> send_faults w = [] -> objects w = [] ->
  clients w = good_client (client_arguments (default "" (argv !! 1%nat)) c) <$> stats ->
  Forall (fun f => f <> "HELLO_SOCKET") noise -> ignored fs ->
  int_config c -> instances c = Z.of_nat (List.length stats) ->
  arrivals w !! 1 = Some (worker_frames noise fs c fr) ->
  arrivals w !! 2 = Some (Frame reply :: l) ->
  wp NetP (Worker.main argv) w (fun o w' =>
    o = Returns 0 /\ live w' = live w /\
    let name := default "" (argv !! 1%nat) in
    let address := default "localhost" (argv !! 2%nat) in
    trace w' = trace w ++ worker_prologue name address ++
               worker_session name noise reply fs c stats ++ process_epilogue).
Proof.
  intros. eapply wp_mono; [by apply (worker_main_ends argv noise reply l fs c stats fr w)|].
  intros o w' (Ho & Hl & _ & Ht). by split_and!.
Qed.

Definition two_clients : config := Config 1 1 2 60 12 240 0 true true.
Definition two_stats : list string := ["success 12 1 2 1.5 0.25 30"; "fail 3 1 9 4 2 31"].

Lemma worker_main_witness :
  wp NetP (Worker.main ["listener-websocket"; "Client42-0"; "10.0.0.1"])
    (fresh_process [(1, worker_frames ["x"] ["y"] two_clients []); (2, [Frame ""])] [] []
       (good_client (client_arguments "Client42-0" two_clients) <$> two_stats))
    (fun o w' => o = Returns 0 /\ live w' = ∅ /\
      trace w' = worker_prologue "Client42-0" "10.0.0.1" ++
        worker_session "Client42-0" ["x"] "" ["y"] two_clients two_stats ++ process_epilogue).
Proof.
  apply (worker_main ["listener-websocket"; "Client42-0"; "10.0.0.1"] ["x"] "" [] ["y"] two_clients
           two_stats []); try reflexivity.
  - repeat constructor. done.
  - repeat constructor. done.
  - unfold int_config. cbn. int_lia.
Defined.

Lemma sends_none s l : Forall (fun a => is_send s a = false) l -> sends s l = [].
Proof. unfold sends. induction 1 as [|a l Ha _ IH]; [done|]. cbn. by rewrite Ha. Qed.

Lemma sends_concat_none s (l : list (list action)) : Forall (fun l => sends s l = []) l -> sends s (concat l) = [].
Proof. induction 1 as [|a l Ha _ IH]; [done|]. cbn [concat]. by rewrite sends_app, Ha. Qed.

Lemma Forall_imap {A B} (P : B -> Prop) (f : nat -> A -> B) l : (forall i x, P (f i x)) -> Forall P (imap f l).
Proof.
  intros Hf. revert f Hf. induction l as [|x l IH]; intros f Hf; cbn; constructor; [auto|].
  apply IH. intros i y. apply Hf.
Qed.

Lemma imap_const {A B} (f : A -> B) l : imap (fun _ => f) l = f <$> l.
Proof. induction l as [|x l IH]; [done|]. cbn. by f_equal. Qed.

Lemma lookup_seq (l : list string) : (fun k => default "" (l !! k)) <$> seq 0 (List.length l) = l.
Proof.
  apply list_eq. intros k. rewrite list_lookup_fmap. destruct (l !! k) as [x|] eqn:Hk.
  - rewrite lookup_seq_lt by by eapply lookup_lt_Some. cbn. by rewrite Hk.
  - rewrite lookup_seq_ge; [done|]. by apply lookup_ge_None.
Qed.

Lemma sends_results sink stats ks :
  sends (sptr sink) (concat (result_actions sink stats 0 <$> (Z.of_nat <$> ks))) =
  posted (sptr sink) (Result <$> ((fun k => default "" (stats !! k)) <$> ks)).
Proof.
  unfold posted. induction ks as [|k ks IH]; [done|]. cbn [fmap list_fmap concat].
  rewrite sends_app. f_equal; [|exact IH]. unfold result_actions. rewrite Nat2Z.id.
  change (sends ?s (AClientStats ?c :: ?l)) with (sends s l). apply sends_message.
Qed.

(** The results a worker posts, read off its actions. *)
Lemma sends_work name sink uri messages randomized interval length stats :
  sends (sptr sink) (work_actions name sink uri messages randomized interval length stats) =
  posted (sptr sink) (Result <$> stats).
Proof.
  unfold work_actions. change (sends ?s (ACout ?x :: ?l)) with (sends s l). rewrite !sends_app.
  rewrite (sends_none _ (_ <$> seq 0 _)); [|by apply Forall_fmap, Forall_true].
  do 2 (rewrite sends_concat_none; [|apply Forall_imap; intros; reflexivity]). cbn [app].
  change (imap _ (handles stats)) with (imap (fun _ => result_actions sink stats 0) (handles stats)).
  rewrite imap_const. unfold handles. rewrite sends_results. by rewrite lookup_seq.
Qed.

(** A worker reports each of its clients once.  It sends the sink exactly
    one whole "Result" message per client, in the order of the clients, with
    the client's statistics. *)
Lemma results_reported_once name sink uri send_messages messages randomized interval length stats
    subscriber syncclient fr w :
  working subscriber syncclient sink w fr
    (good_client (arguments name uri messages randomized interval length) <$> stats) ->
  exists w' acts,
    runs NetP (doTheWork name uri (Z.of_nat (List.length stats)) send_messages randomized
                 interval messages length sink) w (Returns tt) w' /\
    trace w' = trace w ++ acts /\ sends (sptr sink) acts = posted (sptr sink) (Result <$> stats).
Proof.
  intros Hw. eexists _, _. split; [by eapply doTheWork_runs|]. split; [reflexivity|]. apply sends_work.
Qed.

Definition work_world : world :=
  World ∅ {[1 := []]} 0 [] 3 [] [] [] (good_client (client_arguments "Client42-0" two_clients) <$> two_stats) [] [].

Lemma results_reported_once_witness :
  exists w' acts,
    runs NetP (doTheWork "Client42-0" target_uri 2 true true 60 12 240 (Socket 3 None)) work_world
      (Returns tt) w' /\
    trace w' = [] ++ acts /\ sends 3 acts = posted 3 (Result <$> two_stats).
Proof.
  apply (results_reported_once "Client42-0" (Socket 3 None) target_uri true 12 true 60 240 two_stats
           (Socket 1 None) (Socket 2 None) [] work_world).
  unfold working, open_socket. cbn. split_and!; done || lia.
Defined.

(** ** Clients that fail *)

Section survive.
Context (sink : socket_t) (w0 : world).









Context (a : client_args) (n : nat).
Hypothesis enough_clients : (n <= List.length (clients w0))%nat.
Hypothesis same_arguments : Forall (fun cs => cs_args cs = a) (clients w0).









End survive.



