(* ===== verification/ClientTheorems.v ===== *)
(** * The clients: theorems

    The telemetry loop under every interleaving with the handlers, the result
    line it leads to, and the second connection of the mobile client. *)

From S2P Require Import Prelude CInt Text Double ZHelpers Config Controller Stats Report Client.
From S2P Require Import Telemetry TelemetryFacts Clients SessionFacts Sim Live.
From Stdlib Require Import Floats.SpecFloat Ascii.
From Stdlib.Relations Require Import Relation_Operators.
Local Open Scope Z_scope.

(** ** Concrete objects *)

#[local] Instance numbered : Messages := fun ec => "error " +:+ to_string ec.

Definition started (total : Z) : client :=
  fst (run "wss://54.84.134.93:9002" (inr 7) 3 0 (fst (base_client "Client42-0" total true 60 10))).

Definition working_endpoint : endpoint := fun _ => 0.
Definition inputs : input := Input working_endpoint 1000000 1 (fun _ => 65).
Definition choose (n : nat) : list (input + endpoint * Telemetry.event (X := client)) := repeat (inl inputs) n.

(** The connection opens, and one message is sent but not yet echoed. *)
Definition one_sent : list (input + endpoint * Telemetry.event (X := client)) :=
  inr (working_endpoint, plain.Opened 2500000) :: choose 7.

(** ** The loop *)

(** C20: the loop is safe.  In every state the three threads reach together,
    the number of messages counted is between 0 and the configured total (0 if
    that is negative), and every section of the loop is defined: the counter
    does not overflow. *)
Theorem loop_safe `{!Accumulators double} `{!Messages} `{!Virtual X} `{!VirtualLaws X} `{!CountLaws}
    total x s i :
  fresh total (base x) -> in_int total -> reachable x s ->
  0 <= m_count (self s) <= Z.max 0 total /\
  (thread s <> Ended -> exists s', run_section i s = Some s').
Proof.
  intros Hf Ht Hs. pose proof (invariant_reachable total x s Hf Hs) as Hi.
  split; [apply Hi|]. intros He. by eapply section_defined.
Qed.

Lemma loop_safe_witness :
  exists s : state (X := client), run_schedule (X := client) one_sent (State Entry (started 2) []) = Some s /\
    0 <= m_count (self s) <= 2 /\ (thread s <> Ended -> exists s', run_section inputs s = Some s').
Proof.
  destruct (assigned_Some (run_schedule (X := client) one_sent (State Entry (started 2) [])))
    as [s Hs]; [by_compute|].
  exists s. split; [done|].
  apply (loop_safe 2 (started 2) s inputs); [done|done|by eapply run_schedule_steps].
Defined.

(** C21: one message at a time.  In every reachable state the messages handed
    to the endpoint exceed the echoes received by at most one and are no more
    than those counted; and whenever the loop is about to send, the connection
    is open and no echo is awaited. *)
Theorem one_outstanding `{!Accumulators double} `{!Messages} `{!Virtual X} `{!VirtualLaws X} `{!CountLaws}
    total x s :
  fresh total (base x) -> reachable x s ->
  delivered (effects s) <= acc_count (m_stats (self s)) + 1 /\
  delivered (effects s) <= m_count (self s) /\
  (about_to_send (thread s) = true -> m_open (self s) = true /\ m_message_pending (self s) = false).
Proof.
  intros Hf Hs. destruct (invariant_reachable total x s Hf Hs) as [_ _ _ _ Hr _ Ho _ Hd].
  split_and!; [destruct (m_message_pending _); lia|destruct (thread s); lia|done].
Qed.

Lemma one_outstanding_witness :
  exists s : state (X := client), run_schedule (X := client) one_sent (State Entry (started 2) []) = Some s /\
    delivered (effects s) <= acc_count (m_stats (self s)) + 1 /\
    delivered (effects s) <= m_count (self s) /\
    (about_to_send (thread s) = true -> m_open (self s) = true /\ m_message_pending (self s) = false).
Proof.
  destruct (assigned_Some (run_schedule (X := client) one_sent (State Entry (started 2) [])))
    as [s Hs]; [by_compute|].
  exists s. split; [done|].
  apply (one_outstanding 2 (started 2) s); [done|by eapply run_schedule_steps].
Defined.





Definition two_rounds : list (input * Z) := [(inputs, 3000000); (inputs, 9000000)].


(** ** Results *)




(** C25: a connection without samples.  The mean of no samples is not a number;
    for the line of such a client, whatever its type, the controller's handling
    of the result has no defined outcome. *)
Theorem no_samples_undefined `{!Accumulators double} `{!Arith D} `{!Accumulators D} c setup cfg total
    (t : tally D) :
  m_setupTime c = Some setup -> in_int (acc_count (m_stats c)) ->
  numeric (acc_min (m_stats c)) = true -> numeric (acc_max (m_stats c)) = true ->
  acc_mean (m_stats c) = S754_nan ->
  exists stats, get_stats c = Some stats /\ tally_result (D := D) cfg total stats t = None.
Proof.
  intros Hs Hc H1 H2 Hnan. destruct (stats_type_word c) as [Hw Hne].
  eexists. split; [by apply get_stats_line|]. apply tally_result_incomplete.
  unfold stats_numbers. rewrite Hnan.
  pose proof (parse_line_nan (D := D) (stats_type c) (acc_count (m_stats c)) (acc_min (m_stats c))
    (acc_max (m_stats c)) (" " +:+ g6 (acc_variance (m_stats c)) +:+ " " +:+ g6 setup) Hw Hne Hc H1 H2) as Hp.
  assert (print_line (stats_type c) (acc_count (m_stats c)) [acc_min (m_stats c); acc_max (m_stats c); S754_nan]
    +:+ (" " +:+ g6 (acc_variance (m_stats c)) +:+ " " +:+ g6 setup) =
    print_line (stats_type c) (acc_count (m_stats c))
      [acc_min (m_stats c); acc_max (m_stats c); S754_nan; acc_variance (m_stats c); setup]) as Heq.
  { unfold print_line. cbn [tail_of foldr]. rewrite ?string_app_assoc, ?string_app_nil, ?string_app_nil_r. done. }
  rewrite Heq in Hp. destruct (complete _) eqn:Hcmp; [|done].
  apply complete_values in Hcmp as (su & n & Hsu & _). pose proof (eq_trans (eq_sym Hsu) Hp). done.
Qed.

Lemma no_samples_undefined_witness :
  exists stats, get_stats (fst (on_fail (fst (on_open 2500000 (started 2))))) = Some stats /\
    tally_result (D := double) default_config 75 stats tally0 = None.
Proof.
  apply (no_samples_undefined (fst (on_fail (fst (on_open 2500000 (started 2))))) (milliseconds 2500));
    try done; by_compute.
Defined.

(** C26: a connection that never opened.  In every run in which the open
    handler was not called, failed connections included, [get_stats] reads the
    setup time that nothing assigned: undefined behaviour. *)
Theorem unopened_stats_undefined `{!Accumulators double} `{!Messages} id total random interval length
    uri hdl delay now l (s : state (X := client)) :
  Forall (fun a => is_opened a = false) l ->
  run_schedule l (State Entry (fst (run uri (inr hdl) delay now
    (fst (base_client id total random interval length)))) []) = Some s ->
  get_stats (self s) = None.
Proof. intros Hl Hs. unfold get_stats. by rewrite (schedule_setup l _ s Hl Hs). Qed.

Definition refused : list (input + endpoint * Telemetry.event (X := client)) :=
  choose 3 ++ [inr (working_endpoint, plain.ConnectionFailed)] ++ choose 2.

Lemma unopened_stats_undefined_witness :
  exists s : state (X := client),
    run_schedule (X := client) refused (State Entry (started 2) []) = Some s /\
    m_failed (self s) = true /\ get_stats (self s) = None.
Proof.
  destruct (assigned_Some (run_schedule (X := client) refused (State Entry (started 2) [])))
    as [s Hs]; [by_compute|].
  exists s. split; [done|].
  split; [apply (run_schedule_observe (fun s => m_failed (self s)) _ _ _ _ Hs); by_compute|].
  apply (unopened_stats_undefined "Client42-0" 2 true 60 10 "wss://54.84.134.93:9002" 7 3 0 refused);
    [by repeat constructor|exact Hs].
Defined.

(** From a session to the report.  A connection whose server echoes every
    message leads to a result line which the controller, if the line's numbers
    are readable, counts as one more succeeded connection with the configured
    number of samples, and no died one. *)
Lemma completed_session_succeeds `{!Accumulators double} `{!Messages} `{!CountLaws} `{!Arith D}
    `{!Accumulators D} cfg expected total x rounds first now last :
  fresh total x -> m_done x = false -> m_failed x = false -> in_int total ->
  Z.of_nat (length rounds) = total ->
  Forall (fun it : input * Z => forall hdl, i_endpoint (fst it) hdl = 0) rounds ->
  messages cfg = total -> in_int expected ->
  exists (s : state (X := client)) stats,
    run_schedule (whole_session first now rounds last) (State Entry x []) = Some s /\
    thread s = Ended /\ get_stats (self s) = Some stats /\
    (complete (parse_result (D := D) stats) = true -> forall t : tally D,
     room 1 t -> 0 <= totalcount t <= INT_MAX - total -> 0 <= resultsReceived t < INT_MAX ->
     exists t', tally_result cfg expected stats t = Some t' /\
       resultsReceived t' = resultsReceived t + 1 /\
       connectionsSucceeded t' = connectionsSucceeded t + 1 /\
       connectionsDied t' = connectionsDied t /\ totalcount t' = totalcount t + total).
Proof.
  intros Hf Hd Hnf Hin Hlen Hall Hcfg He.
  destruct (completed_session (D := D) cfg total x rounds first now last) as (s & stats & Hs & Hend & Hline & Hsu & Hlc);
    try done.
  exists s, stats. split; [exact Hs|]. split; [done|]. split; [exact Hline|]. intros Hc t Hr Ht Hrr.
  destruct (tally_result_spec cfg expected stats t) as (setup' & Hres);
    [exact Hc|done|rewrite Hlc; int_lia|done|rewrite Hlc; lia|done|].
  exists (after_line cfg (parse_result stats) setup' t). split; [exact Hres|].
  unfold after_line. cbn [resultsReceived connectionsSucceeded connectionsDied totalcount].
  rewrite Hsu, Hlc. cbn [negb Z.b2z]. split_and!; lia.
Qed.

Lemma completed_session_succeeds_witness :
  let c := Config 1 1 1 1 2 10 0 true true in
  exists (s : state (X := client)) stats,
    run_schedule (whole_session inputs 2500000 two_rounds inputs) (State Entry (started 2) []) = Some s /\
    get_stats (self s) = Some stats /\
    exists t' : tally double, tally_result c 1 stats tally0 = Some t' /\
      connectionsSucceeded t' = 1 /\ connectionsDied t' = 0 /\ totalcount t' = 2.
Proof.
  destruct (completed_session_succeeds (D := double) (Config 1 1 1 1 2 10 0 true true) 1 2 (started 2)
              two_rounds inputs 2500000 inputs)
    as (s & stats & Hs & _ & Hst & Ht);
    [repeat split|reflexivity|reflexivity|done|reflexivity|by repeat constructor|reflexivity|done|].
  exists s, stats. split; [exact Hs|]. split; [exact Hst|].
  assert (complete (parse_result (D := double) stats) = true) as Hc.
  { pose proof (run_schedule_observe
      (fun s => complete (parse_result (D := double) (default "" (get_stats (self s))))) _ _ _ true Hs) as Hc.
    cbn beta in Hc. rewrite Hst in Hc. apply Hc. by_compute. }
  assert (room 1 (tally0 (D := double))) as Hroom by (unfold room; cbn; int_lia).
  destruct (Ht Hc tally0 Hroom) as (t' & Hr & _ & H1 & H2 & H3); [cbn; int_lia..|].
  exists t'. split; [exact Hr|]. split; [exact H1|]. split; [exact H2|exact H3].
Defined.

(** ** The mobile client *)

(** C27: sending on two connections.  A message is handed over exactly once if
    the primary or else the signaling connection accepts it, and not at all
    otherwise; the result is success in the first case; and the signaling
    connection is tried only after the primary refused. *)
Theorem mobile_send_fallback `{!Accumulators double} `{!Messages} ep msg x ec l :
  mobile.send_message ep msg x = (ec, l) ->
  (ec = 0 <-> ep (mobile.m_hdl_primary x) = 0 \/ ep (mobile.m_hdl_signaling x) = 0) /\
  delivered l = (if ec =? 0 then 1 else 0) /\
  (ep (mobile.m_hdl_primary x) = 0 -> forall hdl m e, Sent hdl m e ∈ l -> hdl = mobile.m_hdl_primary x).
Proof.
  intros Hs. split_and!; [|by apply (send_delivers (VirtualLaws := mobile.virtual_laws id (fun _ => "")) ep msg x)|];
    unfold mobile.send_message in Hs; destruct (Z.eqb_spec (ep (mobile.m_hdl_primary x)) 0) as [He|He];
    injection Hs as <- <-.
  - naive_solver.
  - naive_solver.
  - intros _ hdl m e Hin. cbn in Hin. repeat (apply elem_of_cons in Hin as [Hin|Hin]); try congruence.
    by apply elem_of_nil in Hin.
  - done.
Qed.

Definition mobile_two : mobile.mobile_client := mobile.Mobile (started 2) (Some 1) (Some 2) "id" (Some mobile.bind_on_message).
Definition signaling_only : endpoint := fun hdl => if decide (hdl = Some 2) then 0 else 5.

Lemma mobile_send_fallback_witness :
  (0 = 0 <-> signaling_only (Some 1) = 0 \/ signaling_only (Some 2) = 0) /\
  delivered (snd (mobile.send_message signaling_only "m" mobile_two)) = 1 /\
  (signaling_only (Some 1) = 0 -> forall hdl m e,
     Sent hdl m e ∈ snd (mobile.send_message signaling_only "m" mobile_two) -> hdl = Some 1).
Proof. apply (mobile_send_fallback signaling_only "m" mobile_two 0). reflexivity. Defined.

Definition offers_id (p : string * list (string * string)) : option string :=
  if bool_decide (fst p = "mobile-signaling") then mobile.find_attribute "connection_id" (snd p) else None.

(** The connection id of a response.  It is that of the last
    "mobile-signaling" extension that has one, and empty if none has. *)
Lemma response_connection_id_last extensions :
  mobile.get_response_connection_id extensions = default "" (last (omap offers_id extensions)).
Proof.
  unfold mobile.get_response_connection_id. generalize "" as cid.
  induction extensions as [|[name a] l IH]; intros cid; [done|].
  cbn [mobile.response_connection_id omap list_omap]. rewrite IH. unfold offers_id at 2. cbn [fst snd].
  case_bool_decide; [|done]. destruct (mobile.find_attribute "connection_id" a); [|done].
  cbn [default from_option id]. rewrite last_cons. by destruct (last _).
Qed.

(** The client id of the mobile client.  The shift by [4*j] overlaps the bytes, so that only
    the low 36 bits of each random word reach the id: words that agree on them
    give the same id. *)
Theorem client_id_low_bits base64_encode val0 val1 :
  mobile.generate_client_id base64_encode val0 val1 =
  mobile.generate_client_id base64_encode (val0 mod 2 ^ 36) (val1 mod 2 ^ 36).
Proof.
  assert (forall v, mobile.id_bytes v = mobile.id_bytes (v mod 2 ^ 36)) as Hv.
  { intros v. unfold mobile.id_bytes. apply list_fmap_ext. intros k j Hj. f_equal.
    apply lookup_seq in Hj as [-> Hk]. unfold mobile.longsize in Hk.
    apply Z.bits_inj'. intros n Hn. rewrite !Z.land_spec.
    destruct (Z.testbit 255 n) eqn:Hb; [|by rewrite !andb_false_r]. rewrite !andb_true_r.
    rewrite !Z.shiftr_spec by done. assert (n < 8).
    { destruct (Z.lt_ge_cases n 8); [done|]. rewrite (Z.bits_above_log2 255) in Hb; [done|done|].
      change (Z.log2 255) with 7. lia. }
    symmetry. apply Z.mod_pow2_bits_low. lia. }
  unfold mobile.generate_client_id. by rewrite (Hv val0), (Hv val1).
Qed.

(** C30: the setup time of the mobile client.  Its [run] does not record the
    start of the connection, so that in every reachable state the open handler
    reports the whole time since the clock's epoch as the setup time. *)
Theorem mobile_setup_since_epoch `{!Accumulators double} `{!Messages} uri_str pointer_string
    id total random interval length uri con s ep hdl now extensions con' :
  let _ := mobile.virtual uri_str pointer_string in
  reachable (fst (mobile.run uri_str uri con (fst (mobile.new id total random interval length)))) s ->
  exists s', run_handler ep (mobile.OpenedPrimary hdl now extensions con') s = Some s' /\
    m_setupTime (self s') = Some (milliseconds (Z.quot now 1000)).
Proof.
  intros V Hs.
  assert (m_con_start (self s) = 0) as H0.
  { unfold reachable in Hs.
    set (x := fst (mobile.run _ _ _ _)) in Hs.
    assert (m_con_start (self (State Entry x [])) = 0) as Hx by by destruct con.
    clearbody x. remember (State Entry x []) as s0 eqn:E. clear E.
    induction Hs as [s0|s0 s1 s Hstep _ IH]; [done|]. apply IH. clear IH.
    destruct Hstep as [i t t' Ht|ep' e t t' Ht].
    - apply bind_Some in Ht as ([[p' x'] l'] & Ht & [= <-]). destruct t as [p y l].
      unfold self in *. cbn [thread object] in *.
      destruct p; cbn [telemetry] in Ht; try (repeat case_match; simplify_eq; done).
      apply bind_Some in Ht as (n & _ & [= <- <- <-]). done.
    - apply bind_Some in Ht as ([x' l'] & [Hb _]%handle_base & [= <-]). unfold self in *. cbn [object] in *.
      destruct Hb; done. }
  destruct s as [p y l]. unfold self in *. cbn [object] in *.
  change (m_con_start (mobile.m_base y) = 0) in H0.
  destruct con' as [ec|hdl']; eexists; (split; [reflexivity|]); cbn;
    unfold elapsed; by rewrite H0, Z.sub_0_r.
Qed.

Definition mobile_run : mobile.mobile_client :=
  fst (mobile.run id "u" (inr 1) (fst (mobile.new "" 5 true 1 256))).

Lemma mobile_setup_since_epoch_witness :
  let _ := mobile.virtual id (fun _ => "0x1") in
  exists s', run_handler (X := mobile.mobile_client) working_endpoint
      (mobile.OpenedPrimary 1 1400000000000000000 [] (inr 2)) (State Entry mobile_run []) = Some s' /\
    m_setupTime (self s') = Some (milliseconds (Z.quot 1400000000000000000 1000)).
Proof.
  intros V.
  apply (mobile_setup_since_epoch id (fun _ => "0x1") "" 5 true 1 256 "u" (inr 1) (State Entry mobile_run [])).
  apply rt1n_refl.
Defined.

(** ** A lost echo *)

(** The events of a mobile client that are no message and no reported failure
    of the primary connection; both connections may be closed. *)
Definition mobile_silent (e : mobile.event) : Prop :=
  match e with
  | mobile.MessagePrimary _ | mobile.MessageSignaling _ => False
  | mobile.ConnectionFailed (inr mobile.connecting) | mobile.ConnectionFailed (inr mobile.open) => True
  | mobile.ConnectionFailed _ => False
  | _ => True
  end.

Lemma mobile_keeps_waiting `{!Accumulators double} `{!Messages} uri_str pointer_string :
  let _ := mobile.virtual uri_str pointer_string in keeps_waiting mobile_silent.
Proof.
  intros V ep e x He Hp Hd.
  destruct e as [hdl now extensions [ec|q]|now| | |[ec|[]]|now|now]; try done;
    (eexists _, _; split; [reflexivity|]); cbn; done.
Qed.

(** C18: an echo that is lost.  While a mobile client with more to send awaits
    the echo of a message, the end of its connections does not end its loop:
    under every schedule in which no message arrives and no failure of a closed
    connection is reported, whatever closes, each section of the loop is
    followed by another, nothing more is sent, and the thread that [wait] joins
    does not end. *)
Theorem lost_echo_waits `{!Accumulators double} `{!Messages} `{!CountLaws} uri_str pointer_string l s :
  let _ := mobile.virtual uri_str pointer_string in
  only_events mobile_silent l -> waiting s ->
  exists s', run_schedule l s = Some s' /\ thread s' <> Ended /\
    (forall i, is_Some (run_section i s')) /\ delivered (effects s') = delivered (effects s).
Proof.
  intros V Hl Hw. pose proof (mobile.virtual_laws uri_str pointer_string) as L.
  destruct (schedule_waiting _ l s (mobile_keeps_waiting uri_str pointer_string) Hl Hw) as (s' & Hs & Hw' & Hd).
  exists s'. split; [done|]. split; [|split; [|done]].
  - intros He. apply waiting_thread in Hw'. by rewrite He in Hw'.
  - intros i. destruct (section_waiting i s' Hw') as (s2 & Hs2 & _). by exists s2.
Qed.

(** The telemetry client in the same situation ends when its connection does. *)
Lemma lost_echo_closed `{!Accumulators double} `{!Messages} ep inputs (s : state (X := client)) :
  waiting s -> length inputs = sections_left (thread s) ->
  exists s', run_schedule (inr (ep, plain.ConnectionClosed) :: (inl <$> inputs)) s = Some s' /\ thread s' = Ended.
Proof.
  intros Hw. by apply (close_ends (Virtual0 := plain.virtual) ep plain.ConnectionClosed s
                         (fst (on_close (object s))) (snd (on_close (object s)))).
Qed.

#[local] Instance mobile_class : Virtual mobile.mobile_client := mobile.virtual id (fun _ => "0x1").
Definition mobile_events (es : list mobile.event) :
    list (input + endpoint * Telemetry.event (X := mobile.mobile_client)) :=
  (fun e => inr (working_endpoint, e)) <$> es.
Definition mobile_sections (n : nat) :
    list (input + endpoint * Telemetry.event (X := mobile.mobile_client)) := repeat (inl inputs) n.

(** Both connections open and the first message is sent. *)
Definition mobile_one_sent : list (input + endpoint * Telemetry.event (X := mobile.mobile_client)) :=
  mobile_events [mobile.OpenedPrimary 1 2500000 [] (inr 2); mobile.OpenedSignaling 4000000] ++ mobile_sections 7.

(** Then both are closed before its echo arrives. *)
Definition mobile_closed : list (input + endpoint * Telemetry.event (X := mobile.mobile_client)) :=
  mobile_events [mobile.ClosedPrimary; mobile.ClosedSignaling] ++ mobile_sections 20.

Lemma lost_echo_waits_witness :
  exists s : state (X := mobile.mobile_client),
    run_schedule mobile_one_sent (State Entry mobile_run []) = Some s /\ delivered (effects s) = 1 /\
    exists s', run_schedule mobile_closed s = Some s' /\ thread s' <> Ended /\
      (forall i, is_Some (run_section i s')) /\ delivered (effects s') = delivered (effects s).
Proof.
  destruct (assigned_Some (run_schedule mobile_one_sent (State Entry mobile_run []))) as [s Hs]; [by_compute|].
  exists s. split; [done|].
  split; [apply (run_schedule_observe (fun s => delivered (effects s)) _ _ _ _ Hs); by_compute|].
  apply (lost_echo_waits id (fun _ => "0x1") mobile_closed s).
  - by repeat constructor.
  - split.
    + apply (run_schedule_observe (fun s => waits_at (thread s)) _ _ _ _ Hs). by_compute.
    + apply (run_schedule_observe (fun s => m_message_pending (self s)) _ _ _ _ Hs). by_compute.
    + apply (run_schedule_observe (fun s => m_done (self s)) _ _ _ _ Hs). by_compute.
    + apply Z.ltb_lt.
      apply (run_schedule_observe (fun s => m_count (self s) <? m_total_messages (self s)) _ _ _ _ Hs). by_compute.
Defined.
