(* ===== verification/HelperTheorems.v ===== *)
(** * Helpers and utilities: theorems

    The frame helpers and utilities of zhelpers.hpp, the socket monitor of
    zmq.hpp, and the echo server of utils/. *)

From S2P Require Import Asio SslMain Prelude CInt Prog Text Double Sys Zmq ZHelpers Rounding Monitor Ownership SslEcho.
From Stdlib Require Import Floats.SpecFloat Ascii.
From Stdlib.Relations Require Import Relation_Operators.
Local Open Scope Z_scope.

(** ** Frames *)

(** C31: receiving a string.  [s_recv] returns the frame; after a timeout it
    returns the empty string, as for an empty frame; any other failure is
    thrown with its number.  In every case the message object is closed. *)
Theorem s_recv_outcomes s w a l :
  open_socket s w -> arrivals w !! sptr s = Some (a :: l) ->
  runs NetP (s_recv s) w
    (match a with
     | Frame b => Returns b
     | TimedOut => Returns ""
     | Failed e => if e =? EAGAIN then Returns "" else Stops (Thrown (error_t e))
     end)
    (match a with
     | Frame b => received (sptr s) b l w
     | TimedOut => recv_failed (sptr s) EAGAIN l w
     | Failed e => recv_failed (sptr s) e l w
     end).
Proof.
  intros Hs Ha. destruct a as [b| |e].
  - by apply s_recv_runs.
  - eapply s_recv_again; [done|by left|done].
  - destruct (Z.eqb_spec e EAGAIN) as [->|He]; [|by apply s_recv_throws].
    eapply s_recv_again; [done|by right|done].
Qed.

Definition one_socket (a : list arrival) (faults : list (option Z)) : world :=
  World ∅ {[1 := a]} 0 faults 1 [] [] [] [] [] [].

Lemma s_recv_outcomes_witness :
  runs NetP (s_recv (Socket 1 None)) (one_socket [Failed 4; Frame "x"] [])
    (Stops (Thrown (error_t 4))) (recv_failed 1 4 [Frame "x"] (one_socket [Failed 4; Frame "x"] [])).
Proof. apply (s_recv_outcomes (Socket 1 None) (one_socket [Failed 4; Frame "x"] []) (Failed 4)); done. Defined.

(** C32: sending a string.  [s_send] and [s_sendmore] send one part with the
    bytes of the string and the flag asked for; a send that would block returns
    false, and any other failure is thrown.  The message object is closed. *)
Theorem s_send_outcomes s w str flags :
  open_socket s w ->
  runs NetP (s_send_flags s str flags) w
    (match head_fault (send_faults w) with
     | None => Returns true
     | Some e => if e =? EAGAIN then Returns false else Stops (Thrown (error_t e))
     end)
    (match head_fault (send_faults w) with
     | None => sent (sptr s) (bool_decide (flags = ZMQ_SNDMORE)) str w
     | Some e => send_failed (sptr s) e w
     end).
Proof.
  intros Hs. apply wp_s_send_flags; [done|]. destruct (head_fault (send_faults w)); [|done].
  by case_match.
Qed.

Lemma s_send_outcomes_witness :
  runs NetP (s_send_flags (Socket 1 None) "hello" ZMQ_SNDMORE) (one_socket [] [Some EAGAIN])
    (Returns false) (send_failed 1 EAGAIN (one_socket [] [Some EAGAIN])).
Proof. apply (s_send_outcomes (Socket 1 None) (one_socket [] [Some EAGAIN])). done. Defined.

(** ** Small helpers *)

(** [s_sleep] splits milliseconds into seconds and nanoseconds without
    overflow: the parts are in range and add up. *)
Lemma s_sleep_splits msecs :
  0 <= msecs <= INT_MAX ->
  exists sec nsec, s_sleep msecs = Some (sec, nsec) /\
    0 <= sec /\ 0 <= nsec < 1000000000 /\ sec * 1000000000 + nsec = msecs * 1000000.
Proof.
  intros Hm. unfold s_sleep, div_int, rem_int. rewrite !decide_False by done.
  rewrite Z.quot_div_nonneg, Z.rem_mod_nonneg by lia.
  pose proof (Z.div_mod msecs 1000 ltac:(lia)). pose proof (Z.mod_pos_bound msecs 1000 ltac:(lia)).
  assert (0 <= msecs / 1000 <= INT_MAX) as Hq.
  { split; [apply Z.div_pos; lia|]. transitivity msecs; [apply Z.div_le_upper_bound; lia|lia]. }
  rewrite int_result_Some by int_lia. cbn [mbind option_bind].
  rewrite decide_True by int_lia. cbn [mbind option_bind]. unfold mul_int.
  rewrite int_result_Some by int_lia. cbn [mbind option_bind].
  eexists _, _. split; [reflexivity|]. lia.
Qed.

(** ** Ownership *)

(** C40: ownership of sockets.  However a program constructs, moves, assigns,
    closes and destroys [socket_t] objects, within the scoping rules, no
    operation is undefined, and every socket it opened is held by exactly one
    object or has been closed exactly once; when all objects are gone, every
    socket has been closed once. *)
Theorem sockets_owned_once context ops X w :
  context <> NULL -> sockets w = 0 -> (forall h, closes h (trace w) = 0%nat) ->
  scope_all ops ∅ = Some X ->
  exists st w', runs NetP (exec_all context ops ∅) w (Returns st) w' /\ dom st = X /\
    (forall h, 1 <= h <= sockets w' -> (owners h st + closes h (trace w') = 1)%nat) /\
    (X = ∅ -> forall h, 1 <= h <= sockets w' -> closes h (trace w') = 1%nat).
Proof.
  intros Hc Hs Ht Hsc.
  destruct (exec_all_keeps context ops ∅ w X Hc (owned_once_initial w Hs Ht)) as (st & w' & Hr & [_ Ho] & Hd);
    [by rewrite dom_empty_L|].
  assert (forall h, 1 <= h <= sockets w' -> (owners h st + closes h (trace w') = 1)%nat) as Hall.
  { intros h Hh. rewrite Ho by (unfold NULL; lia). unfold opened.
    by rewrite (proj2 (Z.leb_le _ _)), (proj2 (Z.leb_le _ _)) by lia. }
  exists st, w'. split_and!; [done|done|done|].
  intros -> h Hh. specialize (Hall h Hh). apply dom_empty_inv_L in Hd as ->. exact Hall.
Qed.

Definition moving : list op :=
  [Construct 0 ZMQ_PUB; Construct 1 ZMQ_REP; MoveConstruct 2 0; MoveAssign 1 2; Ownership.Close 2; Destroy 0;
   Destroy 1; Destroy 2].

Lemma sockets_owned_once_witness :
  exists st w', runs NetP (exec_all 7 moving ∅) (World ∅ ∅ 0 [] 0 [] [] [] [] [] []) (Returns st) w' /\
    dom st = (∅ : gset nat) /\
    (forall h, 1 <= h <= sockets w' -> (owners h st + closes h (trace w') = 1)%nat) /\
    ((∅ : gset nat) = ∅ -> forall h, 1 <= h <= sockets w' -> closes h (trace w') = 1%nat).
Proof. by apply sockets_owned_once. Defined.

(** ** The socket monitor *)




(** C36: the identity.  [within(num)] is documented to be less than [num]; for
    every result of random(), [within(65536)] is between 0 and 65536 and at most
    one more than the exact quotient, but since the product is rounded to a
    float, it is 65536 for the 64 largest numbers; exactly then a half of the
    identity has five digits instead of four. *)
Theorem within_reaches_bound r1 r2 :
  0 <= r1 <= 2147483647 -> 0 <= r2 <= 2147483647 ->
  0 <= within 65536 r1 <= 65536 /\
  (within 65536 r1 = 65536 <-> 2147483584 <= r1) /\
  r1 / 32768 <= within 65536 r1 <= r1 / 32768 + 1 /\
  String.length (identity_string r1 r2) =
    ((if (2147483584 <=? r1)%Z then 5 else 4) + 1 + (if (2147483584 <=? r2)%Z then 5 else 4))%nat.
Proof.
  intros H1 H2. destruct (within_range r1) as (Hr & Hl & Hq); [lia|].
  split; [done|]. split; [exact Hl|]. split; [exact Hq|].
  unfold identity_string. rewrite !string_length_app, !length_half by lia.
  change (2 ^ 31 - 64) with 2147483584. cbn [String.length]. lia.
Qed.

Lemma within_reaches_bound_witness :
  0 <= within 65536 2147483600 <= 65536 /\
  (within 65536 2147483600 = 65536 <-> 2147483584 <= 2147483600) /\
  2147483600 / 32768 <= within 65536 2147483600 <= 2147483600 / 32768 + 1 /\
  String.length (identity_string 2147483600 3) = 10%nat.
Proof. apply (within_reaches_bound 2147483600 3); lia. Defined.

(** Dumping binary parts.  A byte from 128 on is sign-extended, so that
    it prints as eight digits instead of two; and a binary part leaves the
    stream in hexadecimal, in which the sizes of later parts then print. *)
Lemma s_dump_binary c st data size :
  128 <= uchar c -> is_text data = false ->
  (exists d1 d2, dump_bytes false st [c] = ("ffffff" +:+ String d1 (String d2 ""), Fmt true)) /\
  snd (dump_part st data) = Fmt true /\
  put_number (snd (dump_part st data)) size = hex_string false size.
Proof.
  intros Hc Hd. split.
  - revert Hc. destruct c as [[] [] [] [] [] [] [] []]; intros Hc;
      first [by (exfalso; vm_compute in Hc; apply Hc) | (eexists _, _; vm_compute; reflexivity)].
  - assert (snd (dump_part st data) = Fmt true) as Hs.
    { unfold dump_part. rewrite Hd. unfold is_text in Hd.
      destruct (String.list_ascii_of_string data) as [|b l] eqn:E; [done|]. clear.
      assert (forall k, snd (dump_bytes false (Fmt true) k) = Fmt true) as Hk.
      { induction k as [|x k IH]; [done|]. cbn [dump_bytes].
        destruct (dump_bytes false (Fmt true) k). exact IH. }
      cbn [dump_bytes]. specialize (Hk l). destruct (dump_bytes false (Fmt true) l). exact Hk. }
    rewrite Hs. done.
Qed.

(** ** The echo server *)


(** C38: the server is memory safe.  In every state it reaches, whichever
    operation completes next and however, its handler runs on a session that
    has not been deleted, and exactly one accept operation is in progress. *)
Theorem server_safe v :
  server.reachable v -> ~ server.stuck v /\ server.accepting v = 1%nat.
Proof.
  intros Hv%server.reachable_invariant. split; [|apply Hv].
  intros (l1 & o & l2 & error & bytes & Hp & Hb & Hs).
  destruct (server.complete_invariant l1 o l2 error bytes v Hv Hp Hb) as (v' & Hc & _). congruence.
Qed.

Lemma server_safe_witness : ~ server.stuck server.initial /\ server.accepting server.initial = 1%nat.
Proof. apply server_safe. apply rtn1_refl. Defined.

(** C39: the server echoes.  What a session has written is always what it has
    read, in order, except for the last piece read while its write is in
    progress, and then the buffer still holds that piece. *)
Theorem server_echoes v s x :
  server.reachable v -> server.heap v !! s = Some x ->
  server.reads x = server.writes x \/
  exists n, server.Write s n ∈ server.pending v /\
    server.reads x = server.writes x ++ [take n (server.data_ x)].
Proof.
  intros [[_ Hl Ht _] _]%server.reachable_invariant Hx.
  assert (s ∈ server.owner <$> server.pending v) as Hin by (apply Hl; by eexists).
  apply list_elem_of_fmap in Hin as (o & -> & Ho). specialize (Ht o x Ho Hx).
  destruct o as [s|s|s|s n]; cbn in *; [left; destruct Ht; congruence..|by left|].
  right. exists n. split; [done|]. apply Ht.
Qed.

(** A session that was accepted, shook hands and read three bytes. *)
Definition reading : server.server :=
  server.Server {[0%nat := server.Session [7; 8; 9] [[7; 8; 9]] []; 1%nat := server.Session [] [] []]}
    [server.Accept 1; server.Write 0 3] 2.

Lemma server_echoes_witness :
  server.reads (server.Session [7; 8; 9] [[7; 8; 9]] []) = [] \/
  exists n, server.Write 0 n ∈ server.pending reading /\
    [[7; 8; 9]] = [] ++ [take n [7; 8; 9]].
Proof.
  apply (server_echoes reading 0 (server.Session [7; 8; 9] [[7; 8; 9]] [])); [|done].
  eapply rtn1_trans with (y := server.Server
    {[0%nat := server.Session [] [] []; 1%nat := server.Session [] [] []]} [server.Accept 1; server.Read 0] 2).
  - by apply (server.step_complete _ _ [server.Accept 1] (server.Read 0) [] 0 [7; 8; 9]); [|cbn; unfold server.max_length; lia|].
  - eapply rtn1_trans with (y := server.Server
      {[0%nat := server.Session [] [] []; 1%nat := server.Session [] [] []]} [server.Handshake 0; server.Accept 1] 2).
    + by apply (server.step_complete _ _ [] (server.Handshake 0) [server.Accept 1] 0 []); [|cbn; lia|].
    + eapply rtn1_trans with (y := server.initial); [|apply rtn1_refl].
      by apply (server.step_complete _ _ [] (server.Accept 0) [] 0 []); [|cbn; lia|].
Defined.
