(* ===== verification/SystemTheorems.v ===== *)
(** * The processes together: theorems

    A worker with the client objects of base-client.hpp inside, the controller
    that collects what all workers and listeners of a test send, and what
    becomes of results that come late. *)

From S2P Require Import Prelude CInt Prog Text Double Sys Zmq ZHelpers Config Controller Collect.
From S2P Require Import ControllerRun Listener ListenerFacts Worker WorkerFacts Stats Client Telemetry.
From S2P Require Import TelemetryFacts Clients SessionFacts Sim Live ProcessTheorems.
From Stdlib Require Import Floats.SpecFloat.
Local Open Scope Z_scope.

(** ** A worker with its clients *)

Lemma sends_received s socket fs : sends s (receive_actions socket fs) = [].
Proof. apply sends_none. unfold receive_actions. by apply Forall_fmap, Forall_true. Qed.

(** What a worker sends to its sink in a session. *)
Lemma sends_session name address noise reply fs c stats :
  sends 3 (worker_prologue name address ++ worker_session name noise reply fs c stats ++ process_epilogue) =
  posted 3 (Result <$> stats).
Proof.
  unfold worker_session, request_actions. rewrite !sends_app, !sends_received.
  rewrite (sends_work name (Socket 3 None)). cbn. by rewrite !app_nil_r.
Qed.

(** C5: a worker with its clients.  Take any schedules of the three threads of
    each client object, in which the telemetry thread ends and the object has a
    result line.  Then the worker's program, run with the objects themselves
    instead of scripts of their outcomes, returns 0; it has constructed, run
    and joined each object, and what it has sent to the sink is one whole
    "Result" message per object, with the line that the object prints. *)
Theorem worker_with_objects `{!Accumulators double} `{!Messages} argv noise reply l fs c ps fr w :
  sockets w = 0 -> send_faults w = [] ->
  Forall (fun f => f <> "HELLO_SOCKET") noise -> ignored fs ->
  int_config c -> instances c = Z.of_nat (List.length ps) ->
  arrivals w !! 1 = Some (worker_frames noise fs c fr) ->
  arrivals w !! 2 = Some (Frame reply :: l) ->
  Forall (fun p => pl_args p = client_arguments (default "" (argv !! 1%nat)) c) ps ->
  Forall ends_well ps ->
  exists fuel v', Prog.run (live_env ps) fuel (Worker.main argv) (new_process w ps) = (Some (Returns 0), v') /\
    sends 3 (trace (net v')) = sends 3 (trace w) ++ posted 3 (Result <$> (line_of <$> ps)) /\
    Forall2 finished_with (objs v') (line_of <$> ps).
Proof.
  intros Hs Hf Hnoise Hfs Hc Hn A1 A2 Hargs Hps.
  set (name := default "" (argv !! 1%nat)) in *. set (address := default "localhost" (argv !! 2%nat)).
  assert (clients (net (new_process w ps)) = good_client (client_arguments name c) <$> (line_of <$> ps)) as Hcl.
  { cbn. rewrite <- list_fmap_compose. apply list_fmap_ext. intros i p Hp. cbn.
    by rewrite (proj1 (Forall_lookup _ _) Hargs i p Hp). }
  destruct (live_sound ps (Worker.main argv) (new_process w ps) _
    (new_process_coherent w ps Hps)
    (worker_main_ends argv noise reply l fs c (line_of <$> ps) fr (net (new_process w ps))
       Hs Hf eq_refl Hcl Hnoise Hfs Hc ltac:(by rewrite length_fmap) A1 A2))
    as (fuel & o & v' & Hrun & (-> & _ & Hj & Ht) & Hok).
  exists fuel, v'. split; [exact Hrun|]. fold name address in Ht.
  rewrite length_fmap in Hj. change (trace (net (new_process w ps))) with (trace w) in Ht. split.
  - by rewrite Ht, sends_app, sends_session.
  - by apply joined_objects.
Qed.

(** Two clients of a worker, whose server echoes both messages. *)
#[local] Instance numbered : Messages := fun ec => "error " +:+ to_string ec.

Definition echo_config : config := Config 1 1 2 60 2 10 0 true true.
Definition echo_input : input := Input (fun _ => 0) 1000000 1 (fun _ => 65).
Definition echo_plan (now : Z) : plan :=
  Plan (client_arguments "Client42-0" echo_config) 7 3 0
    (whole_session echo_input now [(echo_input, 3000000); (echo_input, 9000000)] echo_input).
Definition echo_plans : list plan := [echo_plan 2500000; echo_plan 4000000].
Definition echo_world : world :=
  fresh_process [(1, worker_frames ["x"] ["y"] echo_config []); (2, [Frame ""])] [] [] [].

Lemma echo_plan_echoed now : echoed echo_config (echo_plan now).
Proof. eexists _, _, _, _. split; [reflexivity|]. split; [reflexivity|]. split; [done|]. by repeat constructor. Qed.

Lemma worker_with_objects_witness :
  exists fuel v',
    Prog.run (live_env echo_plans) fuel (Worker.main ["listener-websocket"; "Client42-0"; "10.0.0.1"])
      (new_process echo_world echo_plans) = (Some (Returns 0), v') /\
    sends 3 (trace (net v')) = [] ++ posted 3 (Result <$> (line_of <$> echo_plans)) /\
    Forall2 finished_with (objs v') (line_of <$> echo_plans).
Proof.
  apply (worker_with_objects ["listener-websocket"; "Client42-0"; "10.0.0.1"] ["x"] "" [] ["y"] echo_config
           echo_plans []); try reflexivity.
  - repeat constructor. done.
  - repeat constructor. done.
  - unfold int_config. cbn. int_lia.
  - repeat constructor.
  - do 2 (constructor; [by apply (echoed_ends_well echo_config); [apply echo_plan_echoed|]|]). constructor.
Defined.

(** ** A whole test *)











(** ** Results that come late *)






